(* ===== verification/_CoqProject ===== *)
-Q . S2P
Prelude.v
RustInt.v
RustStr.v
RustNet.v
Effects.v
Sim.v
Packets.v
Cli.v
AgentCli.v
Exec.v
Config.v
Peer.v
Tally.v
Sockets.v
SimNet.v
Traffic.v
TrafficSpec.v
Db.v
Sql.v
Target.v
Provision.v
Catalog.v
Monitor.v
Verify.v
Campaign.v
Env.v
EnvLife.v
AgentNet.v
Agent.v
Rpc.v
Report.v
Main.v
Options.v
Typing.v
