(* ===== verification/Prelude.v ===== *)
(** * fw-verify: a verification development

    fw-verify drives an idps-fw firewall on the device under test (the TARGET)
    against a second endpoint (the PEER, a network namespace on the same host):
    it provisions firewall rules, has the two sides exchange traffic, reads the
    events the firewall recorded and reports a verdict per test case. The
    program is one Rust binary, [src/fw-verify/src]; its worker steps are
    re-executions of the same binary as [fw-verify agent <sub>], whose single
    line of JSON the orchestrator parses back.

    What makes it correct: a verdict is PASS exactly on the evidence it claims
    to be based on, no case is lost whatever fails, every wait ends, the two
    halves of the program (orchestrator and worker) agree on the command line
    and on the JSON between them, the packets on the wire are the ones meant,
    and the operator's own configuration survives the tests.

    ** The files

    Shared ground, which models no file of the program:
    - [Prelude]: automation and list lemmas; [RustInt], [RustStr], [RustNet]:
      what the source uses of the standard library's integers, strings and
      addresses, after its definitions.
    - [Effects]: results, the interfaces [Anyhow], [SerdeJson] and [World] (the
      operating system), the monad [io] with its weakest precondition [wp], the
      polling loop every wait of the program is an instance of, and [steady]
      computations: those that return and never set the clock back.
    - [Sockets]: the interface [Net] (socket2, std::net, libc) and the threads
      of [std::thread::scope] as programs interleaved call by call.
    - [Sim], [SimNet]: a concrete device, on which the witnesses evaluate.

    The worker ([agent/]):
    - [Packets]: the packet builders and checksums of [agent/traffic.rs] and
      [agent/arp.rs].
    - [Tally]: outcomes, counters and the verdict of [agent/traffic.rs].
    - [Traffic]: its probes, its port list, its parallel and sequential loops
      and the line it prints; [drop_to_uid] of [agent/mod.rs].
    - [TrafficSpec]: what a run of that worker amounts to, without its counters:
      an abstract specification, which [Traffic.run] refines.
    - [AgentNet]: [agent/arp.rs], [agent/connflood.rs], [agent/listen.rs].
    - [Db]: the database queries of [agent/events.rs]; [Sql]: what the text of
      those queries means, by the documentation of SQLite.
    - [Agent]: the dispatch of [agent/mod.rs].

    The orchestrator:
    - [Cli], [AgentCli]: the argument types of [cli.rs] and [agent/cli.rs], and
      the parsers of the worker's subcommands.
    - [Exec]: [exec.rs], running commands on a side and parsing their output.
    - [Config]: [config.rs], resolving the configuration.
    - [Peer]: [peer.rs], the worker's command line and its outcome.
    - [Target]: [target.rs] and [vsoc.rs], what is observed of the TARGET.
    - [Provision]: [provision.rs] and [agent/provision.rs], delivering rules and
      waiting until idps-fw confirms them.
    - [Catalog]: [catalog.rs], the cases and the rule text of their bundles.
    - [Monitor]: [monitor.rs], the side-channel cases.
    - [Verify]: [verify.rs], running and judging a case, and the runners.
    - [Campaign]: [run_filtered] of [verify.rs] as a run of a step machine that
      keeps account of the rules that are loaded.
    - [Env]: [env.rs], staging and cleaning the test environment; [EnvLife]: any
      sequence of such runs, as steps on the files they share.
    - [Report]: [report.rs]; [Main]: [main.rs], the config file, the preflight,
      the subcommands and the exit code; [Options]: what the options of [cli.rs]
      promise, by their names.

    Both together:
    - [Rpc]: a worker started by the orchestrator is a run of [Agent.dispatch];
      what the orchestrator then reads is what that run printed.
    - [Typing]: the ranges of the options, the configuration, the commands and
      the worker's arguments.

    A function of the source is a definition of the same name in the file of
    its module; where two modules use one name, or the name is taken, a prefix
    tells them apart ([provision_run], [arp_run], [case_result]). A loop body or
    a closure of some size has a definition of its own ([Verify.judge] and
    [Verify.detect] are the end of [run_case], [Traffic.attempt] the body of the
    sequential loop). A [struct] is a [Record] with its fields, with a prefix
    where field names collide; an [enum] an [Inductive].

    ** State, failure and time

    A computation is [io W A], from a world to an answer and the next world, or
    to [None] where the code would panic or a loop is out of fuel. [W] is any
    type with the interfaces the code uses: commands, files, clocks, sockets, the
    database and the depot answer whatever the instance says, and each call may
    change the whole world, so a theorem covers every behaviour of the outside
    that respects the laws it names. Errors are values of [result]. A statement
    [wp m Q w] is total: [m] returns from [w], and [Q] holds of what it returns.
    Times are in nanoseconds. Integers are [Z] in the range of their type, and
    arithmetic that could overflow is checked, wraps or saturates as in the code.

    The interfaces ([Class]es) and their laws ([...Laws], [WorldClock],
    [WorldFs], [NetTrace]) are the only hypotheses on the outside. The laws are
    documented behaviour (a JSON value prints to one line and parses back, no
    call sets the monotonic clock back); each class has an instance here. That of
    the database, [Sql.SqliteLaws], knows none of the program's queries: [Sql]
    parses the text of a statement and gives it the meaning SQLite documents
    (three-valued conditions, order by storage class), and the law is that a
    statement is answered as its text means.
    Three are specific to one group of theorems: [Rpc.Stdout] (only [println!]
    prints) and [Rpc.Reexec] (a child started as [fw-verify agent ..] is a run of
    the worker on those arguments, in a world of its own, and the first part of
    what it prints, or all of it, reaches the parent); and [EnvLife.FilesKept]
    (no command the program starts writes the three files it owns).

    ** The theorems

    - Verdicts: [Verify.run_case_verdict], [Verify.event_matches_iff],
      [Verify.traffic_case_verdict], [Monitor.run_monitor_verdict],
      [Tally.tally_verdict], [Main.preflight_verdict]. Two say where a check is weaker than it looks:
      [Verify.negative_check_vacuous] and [Verify.rule_id_not_gated]; and
      [Verify.failed_read_no_events]: a failed read of the events is one that
      found none.
    - Nothing lost, everything ends: [Verify.runners_complete],
      [Main.exit_code_truth], [Report.report_faithful], [Provision.waits_confirm],
      [TrafficSpec.run_reports], [Agent.worker_returns], [AgentNet.listen_serves].
    - The two processes together: [Rpc.case_observed], an outcome the orchestrator
      judges is that of probes the case's own worker made.
    - Refinement: [TrafficSpec.run_refines], [Campaign.campaign_own_rules].
    - Options: [Options.options_by_name]; [Typing.well_typed] (ranges).
    - Rules: [Campaign.campaign_own_rules] (a case is judged under its own
      rules), [Provision.provision_firewall_confirmed],
      [Provision.provision_rule_saved], [Catalog.catalog_consistent],
      [Catalog.rule_ids_are_line_numbers], [Target.dump_events_scoped].
    - Orchestrator and worker agree: [Peer.worker_reads_argv],
      [Verify.catalog_commands], [Exec.parse_json_worker_output],
      [Rpc.workers_read_argv], [Traffic.traffic_ports_join], [Catalog.group_parse_iff].
    - Packets and sockets: [Packets.icmp_checksum_rfc1071],
      [Packets.icmp_requests_verify], [Packets.build_fin_verifies],
      [Packets.build_arp_reply_frame], [Packets.is_matching_echo_reply_iff],
      [Traffic.fin_sports_distinct], [AgentNet.arp_spoof],
      [AgentNet.connflood_holds].
    - The environment and its files: [EnvLife.env_lifecycle] (with
      [Env.config_restored], its core), [Env.network_block],
      [Main.conf_reloads], [Main.config_precedence], [Config.resolve_spec],
      [Exec.parse_inet_iff]. The configuration can be lost in one way only, a
      backup copy that fails half-way ([EnvLife.torn], which
      [EnvLife.partial_backup_lost] shows to happen); [EnvLife.no_config_left]
      shows what becomes of a device that had no configuration.

    ** Fuel and bounds

    - [poll_for] runs [timeout / period + 2] rounds: every round but the last
      sleeps for a period, so the deadline has passed by then ([poll_until_wp]).
    - The carry loop of the checksums has fuel 2: the accumulator is below
      [2^32], and the second fold leaves no carry.
    - A burst thread makes at most six calls, the bound of [run_scope];
      [run_threads_wp] shows that every schedule ends within it.
    - The listener's loops take fuel as an argument, as does [dispatch]: one
      unit per nanosecond of the listening time is enough, because accepting or
      receiving takes some time ([NetTrace]; [accept_loop_wp], [echo_loop_wp]).
    - Every other loop is over a list.

    ** Not modelled

    - Messages on standard error, and the clock reads that only feed them.
    - What [clap] generates, beyond the attributes transcribed in [Cli],
      [AgentCli] and [Main]: splitting an argument list is an interface ([Clap]),
      and the result of parsing the orchestrator's own command line an answer of
      [OsEnv].
    - The internals of idps-core and idps-server (depot, keystore), SQLite,
      serde_json, socket2 and libc: interfaces.
    - Overflow of [Instant] and [Duration] arithmetic; the panic of a debug build
      where the difference of two traffic counters overflows (it wraps around
      here, as in a release build); non-ASCII white space and letter case; output
      that is not UTF-8.
    - The contents of a rule file given to [provision] are text. *)

From Stdlib Require Export ZArith Lia Ascii.
From Stdlib Require String.
From stdpp Require Export base tactics list strings option.

#[global] Open Scope Z_scope.

(** Automation shared by the whole library: [rs] holds resolution lemmas on
    results and bounds, [rsimp] the rewriting equations of the model of the
    standard library. *)
Create HintDb rs discriminated.
#[export] Hint Constants Opaque : rs.
Create Rewrite HintDb rsimp.

(** Booleans of the code, as propositions. *)
Ltac bool_prop :=
  repeat match goal with
  | H : _ && _ = true |- _ => apply andb_true_iff in H as [??]
  | H : _ || _ = false |- _ => apply orb_false_iff in H as [??]
  | H : negb _ = true |- _ => apply negb_true_iff in H
  | H : negb _ = false |- _ => apply negb_false_iff in H
  | H : (_ <? _) = true |- _ => apply Z.ltb_lt in H
  | H : (_ <? _) = false |- _ => apply Z.ltb_ge in H
  | H : (_ <=? _) = true |- _ => apply Z.leb_le in H
  | H : (_ <=? _) = false |- _ => apply Z.leb_gt in H
  | H : (_ =? _) = true |- _ => apply Z.eqb_eq in H
  | H : (_ =? _) = false |- _ => apply Z.eqb_neq in H
  | H : (_ <=? _)%N = true |- _ => apply N.leb_le in H
  | H : (_ <=? _)%N = false |- _ => apply N.leb_gt in H
  | H : (_ =? _)%N = true |- _ => apply N.eqb_eq in H
  | H : (_ =? _)%N = false |- _ => apply N.eqb_neq in H
  end.

(** Rewrites the goal with the known truth values of its boolean tests. *)
Ltac use_bools :=
  repeat match goal with
  | H : ?b = true |- context [?b] => rewrite H
  | H : ?b = false |- context [?b] => rewrite H
  end.

(** Lists. *)
Lemma filter_all {A} (P : A → Prop) `{!∀ x, Decision (P x)} l : Forall P l → filter P l = l.
Proof. induction 1; [done|]. rewrite filter_cons_True by done. by f_equal. Qed.

Lemma omap_map {A B C} (f : B → option C) (g : A → option C) (h : A → B) l :
  Forall (λ x, f (h x) = g x) l → omap f (map h l) = omap g l.
Proof.
  induction 1 as [|x l Hx _ IH]; [done|]. simpl. rewrite Hx.
  destruct (g x); [f_equal|]; exact IH.
Qed.
