(* ===== verification/RustInt.v ===== *)
(** * Machine integers and byte arrays

    The unsigned integers of the source are [Z] with their bounds written out;
    an arithmetic operation that the compiler checks in a debug build (an
    overflow panics there) returns [None] where it would overflow, so a proof
    that it returns [Some] covers the debug and the release build alike. The
    one exception is [wrapping_sub_i64], a difference shown in a message. *)

From S2P Require Import Prelude.

Definition u16_max : Z := 65535.
Definition u32_max : Z := 4294967295.

(** The range of an unsigned type. *)
Definition is_u (max n : Z) : Prop := 0 <= n <= max.
Abbreviation is_u8 := (is_u 255).
Abbreviation is_u16 := (is_u 65535).
Abbreviation is_u32 := (is_u 4294967295).

(** [a + b] at a checked width. *)
Definition add_checked (max a b : Z) : option Z :=
  if a + b <=? max then Some (a + b) else None.

Definition u32_add : Z → Z → option Z := add_checked u32_max.

(** [u16::wrapping_add], [as u16]. *)
Definition as_u16 (n : Z) : Z := n mod 65536.
Definition as_u32 (n : Z) : Z := n mod 4294967296.
Definition wrapping_add_u16 (a b : Z) : Z := as_u16 (a + b).

(** [i64] subtraction in a release build, which wraps around (a debug build
    panics instead). *)
Definition wrapping_sub_i64 (a b : Z) : Z := (a - b + 2 ^ 63) mod 2 ^ 64 - 2 ^ 63.

(** [u16::to_be_bytes], [u16::from_be_bytes], [u32::to_be_bytes]. *)
Definition to_be_bytes_u16 (n : Z) : list Z := [n / 256; n mod 256].
Definition from_be_bytes_u16 (hi lo : Z) : Z := hi * 256 + lo.
Definition to_be_bytes_u32 (n : Z) : list Z :=
  to_be_bytes_u16 (n / 65536) ++ to_be_bytes_u16 (n mod 65536).

(** [buf[lo..hi].copy_from_slice(src)]: panics when the range is not inside
    the array or when the lengths differ. *)
Definition copy_from_slice (buf : list Z) (lo hi : nat) (src : list Z)
    : option (list Z) :=
  if bool_decide (lo ≤ hi ∧ hi ≤ length buf ∧ hi - lo = length src)%nat
  then Some (take lo buf ++ src ++ drop hi buf)
  else None.

(** [buf[i] = x]: panics out of range. *)
Definition set_index (buf : list Z) (i : nat) (x : Z) : option (list Z) :=
  if bool_decide (i < length buf)%nat then Some (<[i := x]> buf) else None.

Definition zeroes (n : nat) : list Z := replicate n 0.

(** ** Lemmas *)

Lemma u16_bytes_range n : is_u16 n → Forall is_u8 (to_be_bytes_u16 n).
Proof.
  unfold is_u, to_be_bytes_u16. intros Hn. repeat constructor; try lia.
  all: Z.to_euclidean_division_equations; lia.
Qed.

Lemma u16_bytes_roundtrip n :
  is_u16 n → from_be_bytes_u16 (n / 256) (n mod 256) = n.
Proof. unfold is_u, from_be_bytes_u16. Z.to_euclidean_division_equations; lia. Qed.

Lemma from_be_range a b : is_u8 a → is_u8 b → is_u16 (from_be_bytes_u16 a b).
Proof. unfold is_u, from_be_bytes_u16. lia. Qed.

Lemma add_checked_some max a b : a + b <= max → add_checked max a b = Some (a + b).
Proof. intros H. unfold add_checked. by rewrite (proj2 (Z.leb_le _ _) H). Qed.

Lemma u32_add_u32 a b c : 0 <= a → 0 <= b → u32_add a b = Some c → is_u32 c.
Proof.
  unfold u32_add, add_checked, is_u. intros Ha Hb.
  destruct (Z.leb_spec (a + b) u32_max); [|done]. intros Hc.
  apply (inj Some) in Hc. unfold u32_max in *. lia.
Qed.
Lemma as_u32_nonneg n : 0 <= as_u32 n.
Proof. unfold as_u32. pose proof (Z.mod_pos_bound n 4294967296). lia. Qed.

Lemma copy_from_slice_length buf lo hi src buf' :
  copy_from_slice buf lo hi src = Some buf' → length buf' = length buf.
Proof.
  unfold copy_from_slice. case_bool_decide; intros [= <-].
  rewrite !length_app, length_take, length_drop. lia.
Qed.

Lemma copy_from_slice_ok buf lo hi src :
  (lo + length src = hi)%nat → (hi <= length buf)%nat →
  copy_from_slice buf lo hi src = Some (take lo buf ++ src ++ drop hi buf).
Proof. intros. unfold copy_from_slice. rewrite bool_decide_true; [done|lia]. Qed.

Lemma set_index_ok buf i x :
  (i < length buf)%nat → set_index buf i x = Some (<[i := x]> buf).
Proof. intros. unfold set_index. by rewrite bool_decide_true. Qed.

#[export] Hint Resolve u16_bytes_range from_be_range : rs.
