(* ===== verification/RustStr.v ===== *)
(** * Strings of the Rust standard library

    A [&str]/[String] is a byte string. The functions below are the ones the
    source calls; white space and letter case are those of ASCII, so text with
    non-ASCII white space is outside the model. *)

From Stdlib Require Import DecimalString DecimalFacts DecimalPos DecimalN DecimalZ.
From S2P Require Import Prelude.

Definition char_nl : ascii := "010".
Definition char_cr : ascii := "013".
(** The double quote. *)
Definition char_dq : ascii := "034".
Definition nl : string := String char_nl "".
Definition dq : string := String char_dq "".

(** ** Decimal numbers *)

(** [ToString] of the unsigned and signed integer types. *)
Definition uint_to_string (n : Z) : string :=
  NilZero.string_of_uint (N.to_uint (Z.to_N n)).
Definition int_to_string (n : Z) : string :=
  if n <? 0 then "-" +:+ uint_to_string (- n) else uint_to_string n.

(** [str::parse] for an unsigned type with maximum [max]: an optional plus
    sign, at least one digit, no overflow. *)
Definition parse_digits (max : Z) (s : string) : option Z :=
  match NilZero.uint_of_string s with
  | Some d =>
      let n := Z.of_N (N.of_uint d) in if n <=? max then Some n else None
  | None => None
  end.
Definition parse_uint (max : Z) (s : string) : option Z :=
  match s with
  | String "+" s' => parse_digits max s'
  | _ => parse_digits max s
  end.

(** [ParseIntError]'s text, for a string that does not parse. *)
Fixpoint int_error_from (max acc : Z) (s : string) : string :=
  match s with
  | "" => "number too large to fit in target type"
  | String c s =>
      let d := Z.of_N (N_of_ascii c) - 48 in
      if (0 <=? d) && (d <=? 9) then
        if max <? 10 * acc + d then "number too large to fit in target type"
        else int_error_from max (10 * acc + d) s
      else "invalid digit found in string"
  end.
Definition parse_int_error (max : Z) (s : string) : string :=
  match s with
  | "" => "cannot parse integer from empty string"
  | "+" => "invalid digit found in string"
  | String "+" s => int_error_from max 0 s
  | _ => int_error_from max 0 s
  end.

(** [format!("{:x}", n)] on at most four hexadecimal digits. *)
Definition hex_digit (n : Z) : string :=
  match String.get (Z.to_nat n) "0123456789abcdef" with
  | Some c => String c ""
  | None => ""
  end.
Definition hex_u16 (n : Z) : string :=
  (if n <? 4096 then "" else hex_digit (n / 4096)) +:+
  (if n <? 256 then "" else hex_digit (n / 256 mod 16)) +:+
  (if n <? 16 then "" else hex_digit (n / 16 mod 16)) +:+
  hex_digit (n mod 16).

(** ** Searching and splitting *)

(** [char::is_ascii_whitespace] plus vertical tab: the ASCII part of
    [char::is_whitespace]. *)
Definition is_ws (c : ascii) : bool :=
  let n := N_of_ascii c in ((9 <=? n) && (n <=? 13) || (n =? 32))%N.

Fixpoint trim_start_by (p : ascii → bool) (s : string) : string :=
  match s with
  | String c r => if p c then trim_start_by p r else s
  | "" => ""
  end.
Fixpoint trim_end_by (p : ascii → bool) (s : string) : string :=
  match s with
  | String c r =>
      match trim_end_by p r with
      | "" => if p c then "" else String c ""
      | r' => String c r'
      end
  | "" => ""
  end.

(** [str::trim], [trim_matches(c)], [trim_end_matches(c)]. *)
Definition trim (s : string) : string := trim_end_by is_ws (trim_start_by is_ws s).
Definition trim_matches (c : ascii) (s : string) : string :=
  trim_end_by (Ascii.eqb c) (trim_start_by (Ascii.eqb c) s).
Definition trim_end_matches (c : ascii) (s : string) : string :=
  trim_end_by (Ascii.eqb c) s.

(** [str::split(c)]: never empty. *)
Fixpoint split_char (sep : ascii) (s : string) : list string :=
  match s with
  | "" => [""]
  | String c r =>
      if Ascii.eqb sep c then "" :: split_char sep r
      else match split_char sep r with
           | h :: t => String c h :: t
           | [] => [String c ""]
           end
  end.

(** [str::split_once(c)]. *)
Fixpoint split_once (sep : ascii) (s : string) : option (string * string) :=
  match s with
  | "" => None
  | String c r =>
      if Ascii.eqb sep c then Some ("", r)
      else prod_map (String c) id <$> split_once sep r
  end.

(** [str::lines]: the pieces ended by a line feed, each without its
    terminator and without a carriage return before it, and the unterminated
    rest when it is not empty. *)
Fixpoint strip_cr (s : string) : string :=
  match s with
  | "" => ""
  | String c "" => if Ascii.eqb c char_cr then "" else s
  | String c r => String c (strip_cr r)
  end.
Fixpoint finish_lines (pieces : list string) : list string :=
  match pieces with
  | [] => []
  | [last] => if String.eqb last "" then [] else [last]
  | p :: rest => strip_cr p :: finish_lines rest
  end.
Definition lines (s : string) : list string := finish_lines (split_char char_nl s).

(** [str::split_whitespace]. *)
Fixpoint words_from (cur : string) (s : string) : list string :=
  match s with
  | "" => if String.eqb cur "" then [] else [cur]
  | String c r =>
      if is_ws c
      then (if String.eqb cur "" then [] else [cur]) ++ words_from "" r
      else words_from (cur +:+ String c "") r
  end.
Definition split_whitespace : string → list string := words_from "".

(** [str::starts_with], [str::strip_prefix] for string patterns. *)
Definition strip_prefix (pre s : string) : option string :=
  if String.prefix pre s
  then Some (String.substring (String.length pre)
                              (String.length s - String.length pre) s)
  else None.
Definition starts_with (pre s : string) : bool := String.prefix pre s.

(** [str::contains]. *)
Fixpoint contains (needle s : string) : bool :=
  String.prefix needle s ||
  match s with "" => false | String _ r => contains needle r end.

(** [str::to_ascii_lowercase]. *)
Definition lower_char (c : ascii) : ascii :=
  let n := N_of_ascii c in
  if ((65 <=? n) && (n <=? 90))%N then ascii_of_N (n + 32) else c.
Fixpoint to_ascii_lowercase (s : string) : string :=
  match s with
  | "" => ""
  | String c r => String (lower_char c) (to_ascii_lowercase r)
  end.

(** [[String]::join(sep)]. *)
Definition join (sep : string) (l : list string) : string := String.concat sep l.

(** [format!("{:<w$}", s)] on ASCII text. *)
Definition pad_right (w : nat) (s : string) : string :=
  s +:+ String.string_of_list_ascii (replicate (w - String.length s) " "%char).

(** [str::repeat]. *)
Definition repeat_str (s : string) (n : nat) : string :=
  String.concat "" (replicate n s).

(** The characters of a string all satisfy [p]. *)
Fixpoint str_forall (p : ascii → bool) (s : string) : bool :=
  match s with "" => true | String c r => p c && str_forall p r end.
Definition is_digit (c : ascii) : bool :=
  let n := N_of_ascii c in ((48 <=? n) && (n <=? 57))%N.

(** ** Lemmas *)

Lemma sapp_nil_r s : s +:+ "" = s.
Proof. induction s as [|c s IH]; [done|]. change (String c (s +:+ "") = String c s). by rewrite IH. Qed.

Lemma sapp_assoc s t u : (s +:+ t) +:+ u = s +:+ (t +:+ u).
Proof.
  induction s as [|c s IH]; [done|].
  change (String c ((s +:+ t) +:+ u) = String c (s +:+ (t +:+ u))). by rewrite IH.
Qed.

Lemma sapp_cons c s t : String c s +:+ t = String c (s +:+ t).
Proof. done. Qed.

Lemma sapp_nil_l s : "" +:+ s = s.
Proof. done. Qed.

#[export] Hint Rewrite sapp_nil_r sapp_assoc sapp_cons sapp_nil_l : rsimp.

Lemma prefix_nil s : String.prefix "" s = true.
Proof. by destruct s. Qed.

Lemma str_forall_app p s t :
  str_forall p (s +:+ t) = str_forall p s && str_forall p t.
Proof.
  induction s as [|c s IH]; [done|]. rewrite sapp_cons. simpl.
  rewrite IH. by rewrite andb_assoc.
Qed.

Lemma str_forall_impl (p q : ascii → bool) s :
  (∀ c, p c = true → q c = true) → str_forall p s = true → str_forall q s = true.
Proof.
  intros Hpq. induction s as [|c s IH]; simpl; [done|].
  intros H. bool_prop. rewrite Hpq, IH; done.
Qed.

(** Numbers. *)

Lemma string_of_uint_digits d : str_forall is_digit (NilEmpty.string_of_uint d) = true.
Proof. induction d; simpl; done. Qed.

Lemma to_uint_nonnil n : N.to_uint n ≠ Decimal.Nil.
Proof. destruct n; [done|]. simpl. apply DecimalPos.Unsigned.to_uint_nonnil. Qed.

Lemma uint_to_string_digits n : str_forall is_digit (uint_to_string n) = true.
Proof.
  unfold uint_to_string, NilZero.string_of_uint. case_match eqn:E; [done|..].
  all: apply string_of_uint_digits.
Qed.

Lemma uint_to_string_nonempty n : uint_to_string n ≠ "".
Proof.
  unfold uint_to_string, NilZero.string_of_uint. case_match; done.
Qed.

Lemma parse_digits_to_string max n :
  0 <= n <= max → parse_digits max (uint_to_string n) = Some n.
Proof.
  intros Hn. unfold parse_digits, uint_to_string.
  rewrite NilZero.usu by apply to_uint_nonnil.
  rewrite DecimalN.Unsigned.of_to, Z2N.id by lia.
  by rewrite (proj2 (Z.leb_le _ _)) by lia.
Qed.

Lemma parse_uint_to_string max n :
  0 <= n <= max → parse_uint max (uint_to_string n) = Some n.
Proof.
  intros Hn. pose proof (uint_to_string_digits n) as Hd.
  unfold parse_uint. rewrite <- (parse_digits_to_string max n) by done.
  destruct (uint_to_string n) as [|[[] [] [] [] [] [] [] []] s]; done.
Qed.


Lemma uint_to_string_inj m n :
  0 <= m → 0 <= n → uint_to_string m = uint_to_string n → m = n.
Proof.
  intros Hm Hn He. apply (f_equal (parse_digits (m `max` n))) in He.
  rewrite !parse_digits_to_string in He by lia. by simplify_eq.
Qed.

Lemma parse_digits_range max s n : parse_digits max s = Some n → 0 <= n <= max.
Proof.
  unfold parse_digits. destruct (NilZero.uint_of_string s) as [d|]; [|done].
  destruct (Z.leb_spec (Z.of_N (N.of_uint d)) max); [|done]. intros [= <-]. lia.
Qed.
Lemma parse_uint_range max s n : parse_uint max s = Some n → 0 <= n <= max.
Proof.
  unfold parse_uint. destruct s as [|[[] [] [] [] [] [] [] []] s]; apply parse_digits_range.
Qed.

(** Trimming. *)

Lemma trim_end_by_app_all p s t :
  str_forall p t = true → trim_end_by p (s +:+ t) = trim_end_by p s.
Proof.
  intros Ht. induction s as [|c s IH].
  - rewrite sapp_nil_l. induction t as [|c t IHt]; [done|].
    simpl in *. bool_prop. rewrite IHt by done.
    by use_bools.
  - rewrite sapp_cons. cbn [trim_end_by]. by rewrite IH.
Qed.

Lemma trim_end_by_last p s c :
  p c = false → trim_end_by p (s +:+ String c "") = s +:+ String c "".
Proof.
  intros Hc. induction s as [|c' s IH].
  - autorewrite with rsimp. cbn [trim_end_by]. by rewrite Hc.
  - rewrite sapp_cons. cbn [trim_end_by]. rewrite IH.
    destruct (s +:+ String c "") eqn:E; [by destruct s|done].
Qed.

Lemma trim_end_by_none p s :
  str_forall (λ c, negb (p c)) s = true → trim_end_by p s = s.
Proof.
  induction s as [|c s IH]; simpl; [done|]. intros H. bool_prop.
  rewrite IH by done. destruct s; [|done].
  by use_bools.
Qed.

Lemma trim_start_by_none p s :
  str_forall (λ c, negb (p c)) s = true → trim_start_by p s = s.
Proof.
  destruct s as [|c s]; simpl; [done|]. intros H. bool_prop.
  by use_bools.
Qed.

(** Text between two visible characters survives [trim]. *)
Lemma trim_framed a s b t :
  is_ws a = false → is_ws b = false → str_forall is_ws t = true →
  trim (String a (s +:+ String b "") +:+ t) = String a (s +:+ String b "").
Proof.
  intros Ha Hb Ht. unfold trim. rewrite sapp_cons. cbn [trim_start_by]. rewrite Ha.
  rewrite <- sapp_cons, trim_end_by_app_all by done.
  rewrite <- sapp_cons. by apply trim_end_by_last.
Qed.

(** Lines. *)

Definition no_nl (s : string) : bool := str_forall (λ c, negb (Ascii.eqb c char_nl)) s.
Definition no_char (sep : ascii) (s : string) : bool :=
  str_forall (λ c, negb (Ascii.eqb sep c)) s.

(** Lines written one by one with [println!]. *)
Fixpoint unlines (ls : list string) : string :=
  match ls with [] => "" | l :: ls => l +:+ nl +:+ unlines ls end.

Lemma split_char_nonempty sep s : split_char sep s ≠ [].
Proof. destruct s; simpl; [done|]. by destruct (Ascii.eqb _ _), (split_char sep s). Qed.

Lemma split_char_app sep s r :
  no_char sep s = true → split_char sep (s +:+ String sep r) = s :: split_char sep r.
Proof.
  unfold no_char. induction s as [|c s IH]; intros H.
  - rewrite sapp_nil_l. cbn [split_char]. by rewrite Ascii.eqb_refl.
  - rewrite sapp_cons. cbn [split_char str_forall] in *. bool_prop.
    rewrite IH by done. by use_bools.
Qed.

Lemma split_char_none sep s : no_char sep s = true → split_char sep s = [s].
Proof.
  unfold no_char. induction s as [|c s IH]; [done|]. cbn [split_char str_forall].
  intros H. bool_prop. rewrite IH by done. by use_bools.
Qed.

Lemma no_nl_no_char s : no_nl s = no_char char_nl s.
Proof.
  unfold no_nl, no_char. induction s as [|c s IH]; [done|]. cbn [str_forall].
  by rewrite IH, Ascii.eqb_sym.
Qed.

Lemma lines_unlines ls :
  Forall (λ l, no_nl l = true) ls → lines (unlines ls) = map strip_cr ls.
Proof.
  unfold lines. induction 1 as [|l ls Hl Hls IH]; [done|].
  cbn [unlines map]. unfold nl at 1. autorewrite with rsimp.
  rewrite split_char_app by (by rewrite <- no_nl_no_char).
  rewrite <- IH. destruct (split_char char_nl (unlines ls)) eqn:E; [|done].
  by destruct (split_char_nonempty _ _ E).
Qed.

Lemma strip_cr_last s c :
  Ascii.eqb c char_cr = false → strip_cr (s +:+ String c "") = s +:+ String c "".
Proof.
  intros Hc. induction s as [|c' s IH].
  - rewrite sapp_nil_l. cbn [strip_cr]. by rewrite Hc.
  - rewrite sapp_cons. cbn [strip_cr]. rewrite IH.
    destruct (s +:+ String c "") eqn:E; [by destruct s|done].
Qed.

Lemma unlines_app ls ks : unlines (ls ++ ks) = unlines ls +:+ unlines ks.
Proof.
  induction ls as [|l ls IH]; [done|]. cbn [unlines app]. rewrite IH. by autorewrite with rsimp.
Qed.

(** Text without white space, and the numbers of a separated list. *)
Definition no_ws (s : string) : bool := str_forall (λ c, negb (is_ws c)) s.

Lemma trim_no_ws s : no_ws s = true → trim s = s.
Proof.
  intros Hs. unfold trim. rewrite trim_start_by_none by done. by apply trim_end_by_none.
Qed.

Lemma digits_no_ws s : str_forall is_digit s = true → no_ws s = true.
Proof.
  apply str_forall_impl. intros c. by destruct c as [[] [] [] [] [] [] [] []].
Qed.

Lemma digits_no_char sep s :
  is_digit sep = false → str_forall is_digit s = true → no_char sep s = true.
Proof.
  intros Hsep. apply str_forall_impl. intros c Hc.
  destruct (Ascii.eqb_spec sep c) as [->|]; [congruence|done].
Qed.

Lemma split_char_join sep (l : list string) :
  l ≠ [] → Forall (λ s, no_char sep s = true) l →
  split_char sep (join (String sep "") l) = l.
Proof.
  intros Hne Hl. induction Hl as [|s l Hs Hl IH]; [done|].
  unfold join in *. destruct l as [|t l].
  - cbn [String.concat]. by apply split_char_none.
  - change (String.concat (String sep "") (s :: t :: l))
      with (s +:+ String sep (String.concat (String sep "") (t :: l))).
    rewrite split_char_app by done. by rewrite IH.
Qed.
