(* ===== verification/RustNet.v ===== *)
(** * Network addresses of the Rust standard library

    [std::net::Ipv4Addr], [Ipv6Addr] and [IpAddr]: conversion to integers,
    [Display] and [FromStr], after the definitions of [core::net]. *)

From S2P Require Import Prelude RustInt RustStr.

(** An IPv4 address as its four octets, an IPv6 address as its eight
    segments. *)
Record Ipv4Addr := ipv4 { oct_a : Z; oct_b : Z; oct_c : Z; oct_d : Z }.
Record Ipv6Addr := ipv6 { segments : list Z }.
Inductive IpAddr := V4 (v4 : Ipv4Addr) | V6 (v6 : Ipv6Addr).

Definition octets (ip : Ipv4Addr) : list Z :=
  [oct_a ip; oct_b ip; oct_c ip; oct_d ip].

Definition valid_ipv4 (ip : Ipv4Addr) : Prop := Forall is_u8 (octets ip).
Definition valid_ip (ip : IpAddr) : Prop :=
  match ip with
  | V4 v4 => valid_ipv4 v4
  | V6 v6 => length (segments v6) = 8%nat ∧ Forall is_u16 (segments v6)
  end.

#[export] Instance ipv4_eq_dec : EqDecision Ipv4Addr.
Proof. solve_decision. Defined.
#[export] Instance ipv6_eq_dec : EqDecision Ipv6Addr.
Proof. solve_decision. Defined.
#[export] Instance ip_eq_dec : EqDecision IpAddr.
Proof. solve_decision. Defined.

(** ** Integers *)

Definition u32_of_ipv4 (ip : Ipv4Addr) : Z :=
  ((oct_a ip * 256 + oct_b ip) * 256 + oct_c ip) * 256 + oct_d ip.
Definition ipv4_of_u32 (n : Z) : Ipv4Addr :=
  ipv4 (n / 16777216) (n / 65536 mod 256) (n / 256 mod 256) (n mod 256).

Definition u128_of_ipv6 (ip : Ipv6Addr) : Z :=
  foldl (λ acc s, acc * 65536 + s) 0 (segments ip).
Definition ipv6_of_u128 (n : Z) : Ipv6Addr :=
  ipv6 (map (λ i, n / 2 ^ (16 * (7 - i)) mod 65536) [0; 1; 2; 3; 4; 5; 6; 7]).

(** ** [Display] *)

Definition ipv4_to_string (ip : Ipv4Addr) : string :=
  uint_to_string (oct_a ip) +:+ "." +:+ uint_to_string (oct_b ip) +:+ "." +:+
  uint_to_string (oct_c ip) +:+ "." +:+ uint_to_string (oct_d ip).

(** The longest run of zero segments, the first of equals: (start, len). *)
Fixpoint longest_zeroes (i : nat) (current longest : nat * nat) (segs : list Z)
    : nat * nat :=
  match segs with
  | [] => longest
  | s :: segs =>
      let current := if s =? 0
        then ((if bool_decide (current.2 = 0%nat) then i else current.1), S current.2)
        else (0%nat, 0%nat) in
      let longest := if bool_decide (longest.2 < current.2)%nat then current else longest in
      longest_zeroes (S i) current longest segs
  end.

Definition fmt_subslice (segs : list Z) : string := join ":" (map hex_u16 segs).

Definition ipv6_to_string (ip : Ipv6Addr) : string :=
  match segments ip with
  | [0; 0; 0; 0; 0; 65535; hi; lo] =>
      "::ffff:" +:+ ipv4_to_string (ipv4 (hi / 256) (hi mod 256) (lo / 256) (lo mod 256))
  | segs =>
      let '(start, len) := longest_zeroes 0 (0%nat, 0%nat) (0%nat, 0%nat) segs in
      if bool_decide (1 < len)%nat
      then fmt_subslice (take start segs) +:+ "::" +:+ fmt_subslice (drop (start + len) segs)
      else fmt_subslice segs
  end.

Definition ip_to_string (ip : IpAddr) : string :=
  match ip with V4 v4 => ipv4_to_string v4 | V6 v6 => ipv6_to_string v6 end.

(** ** [FromStr] *)

(** [char::to_digit(radix)]. *)
Definition to_digit (radix : Z) (c : ascii) : option Z :=
  let n := Z.of_N (N_of_ascii c) in
  let d := if (48 <=? n) && (n <=? 57) then n - 48
           else if (97 <=? n) && (n <=? 122) then n - 87
           else if (65 <=? n) && (n <=? 90) then n - 55 else 99 in
  if d <? radix then Some d else None.

(** The digits at the head of the input, and the rest. *)
Fixpoint read_digits (radix : Z) (s : string) : list Z * string :=
  match s with
  | "" => ([], "")
  | String c r =>
      match to_digit radix c with
      | Some d => let '(ds, r) := read_digits radix r in (d :: ds, r)
      | None => ([], s)
      end
  end.

(** [read_number(radix, Some(max_digits), allow_zero_prefix)] at a type with
    maximum [max]. *)
Definition read_number (radix max : Z) (max_digits : nat) (allow_zero_prefix : bool)
    (s : string) : option (Z * string) :=
  let '(ds, rest) := read_digits radix s in
  let n := foldl (λ acc d, acc * radix + d) 0 ds in
  if bool_decide (max_digits < length ds)%nat then None
  else if bool_decide (length ds = 0%nat) then None
  else if negb allow_zero_prefix && String.prefix "0" s
          && bool_decide (1 < length ds)%nat then None
  else if n <=? max then Some (n, rest) else None.

Definition read_given_char (c : ascii) (s : string) : option string :=
  match s with
  | String c' r => if Ascii.eqb c c' then Some r else None
  | "" => None
  end.

(** [read_separator(sep, index, inner)]. *)
Definition read_separator {A} (sep : ascii) (index : nat)
    (inner : string → option (A * string)) (s : string) : option (A * string) :=
  match index with
  | O => inner s
  | S _ => r ← read_given_char sep s; inner r
  end.

Definition read_octet : string → option (Z * string) := read_number 10 255 3 false.

Definition read_ipv4_addr (s : string) : option (Ipv4Addr * string) :=
  '(a, s) ← read_separator "." 0 read_octet s;
  '(b, s) ← read_separator "." 1 read_octet s;
  '(c, s) ← read_separator "." 2 read_octet s;
  '(d, s) ← read_separator "." 3 read_octet s;
  Some (ipv4 a b c d, s).

(** [read_groups]: reads up to [limit - i] groups from index [i]; the groups
    read and whether they end with an embedded IPv4 address. *)
Fixpoint read_groups (fuel limit i : nat) (s : string) : list Z * bool * string :=
  match fuel with
  | O => ([], false, s)
  | S fuel =>
      let embedded := if bool_decide (i + 1 < limit)%nat
        then read_separator ":" i read_ipv4_addr s else None in
      match embedded with
      | Some (ip, r) =>
          ([from_be_bytes_u16 (oct_a ip) (oct_b ip);
            from_be_bytes_u16 (oct_c ip) (oct_d ip)], true, r)
      | None =>
          match read_separator ":" i (read_number 16 65535 4 true) s with
          | Some (g, r) =>
              let '(gs, v4, r) := read_groups fuel limit (S i) r in (g :: gs, v4, r)
          | None => ([], false, s)
          end
      end
  end.

Definition read_ipv6_addr (s : string) : option (Ipv6Addr * string) :=
  let '(head, head_ipv4, s) := read_groups 8 8 0 s in
  if bool_decide (length head = 8%nat) then Some (ipv6 head, s)
  else if (head_ipv4 : bool) then None
  else
    s ← read_given_char ":" s;
    s ← read_given_char ":" s;
    let limit := (8 - (length head + 1))%nat in
    let '(tail, _, s) := read_groups limit limit 0 s in
    Some (ipv6 (head ++ replicate (8 - length head - length tail) 0 ++ tail), s).

Definition parse_all {A} (r : option (A * string)) : option A :=
  match r with Some (a, "") => Some a | _ => None end.

(** [s.parse::<Ipv4Addr>()], [s.parse::<IpAddr>()]. *)
Definition parse_ipv4 (s : string) : option Ipv4Addr :=
  if bool_decide (15 < String.length s)%nat then None else parse_all (read_ipv4_addr s).
Definition parse_ip (s : string) : option IpAddr :=
  parse_all match read_ipv4_addr s with
            | Some (v4, r) => Some (V4 v4, r)
            | None => prod_map V6 id <$> read_ipv6_addr s
            end.

(** ** Lemmas *)

Example ipv6_display :
  map ipv6_to_string
    [ipv6 [0; 0; 0; 0; 0; 0; 0; 1]; ipv6 [8193; 3512; 0; 0; 1; 0; 0; 1];
     ipv6 [0; 0; 0; 0; 0; 65535; 2683; 2]; ipv6 [65152; 0; 1; 2; 3; 4; 5; 6]]
  = ["::1"; "2001:db8::1:0:0:1"; "::ffff:10.123.0.2"; "fe80:0:1:2:3:4:5:6"].
Proof. vm_compute. reflexivity. Qed.

Example ip_parse :
  map parse_ip ["10.123.0.1"; "::1"; "2001:db8::1:0:0:1"; "::ffff:10.123.0.2";
                "1.2.3"; "01.2.3.4"; "256.1.1.1"; "1.2.3.4 "; "1:2:3:4:5:6:7:8:9"]
  = [Some (V4 (ipv4 10 123 0 1)); Some (V6 (ipv6 [0; 0; 0; 0; 0; 0; 0; 1]));
     Some (V6 (ipv6 [8193; 3512; 0; 0; 1; 0; 0; 1]));
     Some (V6 (ipv6 [0; 0; 0; 0; 0; 65535; 2683; 2])); None; None; None; None; None].
Proof. vm_compute. reflexivity. Qed.

Lemma u32_of_ipv4_of_u32 n : is_u32 n → u32_of_ipv4 (ipv4_of_u32 n) = n.
Proof.
  unfold is_u, u32_of_ipv4, ipv4_of_u32; simpl. intros.
  Z.to_euclidean_division_equations; lia.
Qed.

Lemma ipv4_of_u32_of_ipv4 ip : valid_ipv4 ip → ipv4_of_u32 (u32_of_ipv4 ip) = ip.
Proof.
  destruct ip as [a b c d]. unfold valid_ipv4, octets, ipv4_of_u32, u32_of_ipv4.
  simpl. intros H. decompose_Forall_hyps. unfold is_u in *. f_equal; Z.to_euclidean_division_equations; lia.
Qed.

Lemma valid_ipv4_of_u32 n : is_u32 n → valid_ipv4 (ipv4_of_u32 n).
Proof.
  unfold is_u, valid_ipv4, octets, ipv4_of_u32; simpl. intros.
  repeat constructor; unfold is_u; Z.to_euclidean_division_equations; lia.
Qed.

(** What follows a number in an address: nothing, or a non-digit. *)
Definition ends_number (rest : string) : Prop :=
  match rest with "" => True | String c _ => to_digit 10 c = None end.

Lemma to_digit_digit c : is_digit c = true → is_Some (to_digit 10 c).
Proof.
  intros H. unfold is_digit in H. unfold to_digit. cbv zeta in *.
  assert (48 <= Z.of_N (N_of_ascii c) <= 57) by (bool_prop; lia). clear H.
  rewrite (proj2 (Z.leb_le 48 _)), (proj2 (Z.leb_le _ 57)) by lia. cbn [andb].
  rewrite (proj2 (Z.ltb_lt _ _)) by lia. eauto.
Qed.

Lemma read_digits_app s rest :
  str_forall is_digit s = true → ends_number rest →
  read_digits 10 (s +:+ rest) = ((read_digits 10 s).1, rest).
Proof.
  intros Hs Hr. induction s as [|c s IH].
  - rewrite sapp_nil_l. destruct rest as [|c r]; [done|]. simpl in *. by rewrite Hr.
  - rewrite sapp_cons. cbn [read_digits str_forall] in *.
    apply andb_true_iff in Hs as [Hc Hs]. apply to_digit_digit in Hc as [d ->].
    rewrite IH by done. by destruct (read_digits 10 s).
Qed.

(** Every octet, printed, is read back (checked on all 256). *)
Definition octet_ok (n : Z) : bool :=
  let s := uint_to_string n in let ds := (read_digits 10 s).1 in
  bool_decide (length ds <= 3)%nat && bool_decide (length ds ≠ 0%nat) &&
  negb (String.prefix "0" s && bool_decide (1 < length ds)%nat) &&
  (foldl (λ acc d, acc * 10 + d) 0 ds =? n).

Lemma octet_ok_all n : is_u8 n → octet_ok n = true.
Proof.
  intros Hn.
  assert (forallb (λ k, octet_ok (Z.of_nat k)) (seq 0 256) = true) as H
    by (vm_compute; reflexivity).
  unfold is_u in Hn. rewrite List.forallb_forall in H.
  specialize (H (Z.to_nat n)). rewrite Z2Nat.id in H by lia.
  apply H, List.in_seq. lia.
Qed.

Lemma prefix0_app s rest :
  s ≠ "" → String.prefix "0" (s +:+ rest) = String.prefix "0" s.
Proof. destruct s; [done|]. intros _. rewrite sapp_cons. cbn [String.prefix]. by rewrite !prefix_nil. Qed.

Lemma read_octet_print n rest :
  is_u8 n → ends_number rest → read_octet (uint_to_string n +:+ rest) = Some (n, rest).
Proof.
  intros Hn Hr. pose proof (octet_ok_all n Hn) as Hok.
  unfold octet_ok in Hok. unfold read_octet, read_number.
  rewrite read_digits_app by (done || apply uint_to_string_digits).
  rewrite prefix0_app by apply uint_to_string_nonempty.
  destruct (read_digits 10 (uint_to_string n)) as [ds r]. simpl in *.
  bool_prop. repeat match goal with
  | H : bool_decide _ = true |- _ => apply bool_decide_eq_true in H
  | H : _ = n |- _ => rewrite H
  | H : _ && _ = false |- _ => rewrite H
  end.
  rewrite bool_decide_false by lia. rewrite (bool_decide_false (length ds = 0%nat)) by done.
  by rewrite (proj2 (Z.leb_le _ _)) by (unfold is_u in Hn; lia).
Qed.

Lemma ends_dot rest : ends_number ("." +:+ rest).
Proof. done. Qed.

Lemma read_dot s : read_given_char "." ("." +:+ s) = Some s.
Proof. done. Qed.

Lemma read_ipv4_print ip rest :
  valid_ipv4 ip → ends_number rest →
  read_ipv4_addr (ipv4_to_string ip +:+ rest) = Some (ip, rest).
Proof.
  destruct ip as [a b c d]. intros Hv Hr. unfold valid_ipv4, octets in Hv; simpl in Hv.
  decompose_Forall_hyps.
  unfold read_ipv4_addr, ipv4_to_string, read_separator.
  cbn [oct_a oct_b oct_c oct_d]. rewrite !sapp_assoc.
  do 3 (rewrite read_octet_print by (done || apply ends_dot); cbn [mbind option_bind];
        rewrite read_dot; cbn [mbind option_bind]).
  by rewrite read_octet_print.
Qed.

Lemma parse_ip_v4_print ip :
  valid_ipv4 ip → parse_ip (ip_to_string (V4 ip)) = Some (V4 ip).
Proof.
  intros Hv. unfold parse_ip. cbn [ip_to_string].
  rewrite <- (sapp_nil_r (ipv4_to_string ip)).
  by rewrite read_ipv4_print.
Qed.

(** ** Parsed addresses are well formed *)

Lemma to_digit_nonneg radix c d : to_digit radix c = Some d → 0 <= d.
Proof.
  unfold to_digit. cbv zeta. set (n := Z.of_N (N_of_ascii c)). clearbody n.
  repeat case_match; intros; simplify_eq; bool_prop; lia.
Qed.

Lemma read_digits_nonneg radix s : Forall (λ d, 0 <= d) (read_digits radix s).1.
Proof.
  induction s as [|c s IH]; simpl; [constructor|].
  destruct (to_digit radix c) as [d|] eqn:E; [|constructor].
  destruct (read_digits radix s) as [ds r]. constructor; [|exact IH]. by eapply to_digit_nonneg.
Qed.

Lemma foldl_digits_nonneg radix ds acc :
  0 <= radix → 0 <= acc → Forall (λ d, 0 <= d) ds →
  0 <= foldl (λ acc d, acc * radix + d) acc ds.
Proof.
  intros Hr Ha Hds. revert acc Ha. induction Hds as [|d ds Hd _ IH]; intros acc Ha; [done|].
  simpl. apply IH. nia.
Qed.

Lemma read_number_range radix max k z s n rest :
  0 <= radix → read_number radix max k z s = Some (n, rest) → 0 <= n <= max.
Proof.
  intros Hr. unfold read_number. pose proof (read_digits_nonneg radix s) as Hd.
  destruct (read_digits radix s) as [ds r]. cbv zeta.
  repeat case_match; intros; simplify_eq; bool_prop. split; [|done].
  by apply foldl_digits_nonneg.
Qed.

Lemma read_separator_inner {A} sep i (inner : string → option (A * string)) s r :
  read_separator sep i inner s = Some r → ∃ s', inner s' = Some r.
Proof.
  destruct i; simpl; [eauto|]. destruct (read_given_char sep s) as [s'|]; simpl; [eauto|done].
Qed.

Lemma read_ipv4_valid s ip rest : read_ipv4_addr s = Some (ip, rest) → valid_ipv4 ip.
Proof.
  assert (∀ i s n r, read_separator "." i read_octet s = Some (n, r) → is_u8 n) as Ho.
  { intros i s0 n r Hs. apply read_separator_inner in Hs as [s' Hs].
    by apply read_number_range in Hs. }
  unfold read_ipv4_addr.
  destruct (read_separator "." 0 _ s) as [[a s1]|] eqn:Ea; cbn [mbind option_bind]; [|done].
  destruct (read_separator "." 1 _ s1) as [[b s2]|] eqn:Eb; cbn [mbind option_bind]; [|done].
  destruct (read_separator "." 2 _ s2) as [[c s3]|] eqn:Ec; cbn [mbind option_bind]; [|done].
  destruct (read_separator "." 3 _ s3) as [[d s4]|] eqn:Ed; cbn [mbind option_bind]; [|done].
  intros [= <- <-]. repeat constructor; simpl; try (by eapply Ho).
Qed.

Lemma read_groups_valid fuel limit i s gs v4 rest :
  (fuel + i = limit)%nat → read_groups fuel limit i s = (gs, v4, rest) →
  (length gs <= fuel)%nat ∧ Forall is_u16 gs.
Proof.
  revert i s gs v4 rest. induction fuel as [|fuel IH]; intros i s gs v4 rest Hi; cbn [read_groups].
  { intros [= <- <- <-]. by split. }
  destruct (if bool_decide (i + 1 < limit)%nat then _ else _) as [[ip r]|] eqn:E.
  - intros [= <- <- <-]. case_bool_decide; [|done].
    apply read_separator_inner in E as [s' E]. apply read_ipv4_valid in E.
    unfold valid_ipv4, octets in E. decompose_Forall_hyps.
    split; [simpl; lia|]. repeat constructor; apply from_be_range; done.
  - destruct (read_separator ":" i (read_number 16 65535 4 true) s) as [[g r]|] eqn:Eg.
    2: { intros [= <- <- <-]. split; [simpl; lia|done]. }
    destruct (read_groups fuel limit (S i) r) as [[gs' v4'] r'] eqn:Er.
    intros [= <- <- <-]. apply IH in Er as [Hl Hf]; [|lia]. split; [simpl; lia|].
    constructor; [|done]. apply read_separator_inner in Eg as [s' Eg].
    by apply read_number_range in Eg.
Qed.

Lemma parse_ipv4_valid s ip : parse_ipv4 s = Some ip → valid_ipv4 ip.
Proof.
  unfold parse_ipv4. case_bool_decide; [done|].
  destruct (read_ipv4_addr s) as [[v4 [|]]|] eqn:E; simpl; intros; simplify_eq.
  by apply read_ipv4_valid in E.
Qed.

Lemma read_ipv6_valid s ip rest : read_ipv6_addr s = Some (ip, rest) → valid_ip (V6 ip).
Proof.
  unfold read_ipv6_addr. destruct (read_groups 8 8 0 s) as [[hd v4] s1] eqn:Eh.
  apply read_groups_valid in Eh as [Hl Hf]; [|done].
  case_bool_decide; [intros [= <- <-]; by split|]. destruct v4; [done|].
  destruct (read_given_char ":" s1) as [s2|]; cbn [mbind option_bind]; [|done].
  destruct (read_given_char ":" s2) as [s3|]; cbn [mbind option_bind]; [|done].
  destruct (read_groups _ _ 0 s3) as [[tl v4] s4] eqn:Et.
  apply read_groups_valid in Et as [Hl' Hf']; [|lia]. intros [= <- <-]. split; simpl.
  - rewrite !length_app, length_replicate. lia.
  - apply Forall_app. split; [done|]. apply Forall_app. split; [|done].
    apply Forall_replicate. unfold is_u. lia.
Qed.

Lemma parse_ip_valid s ip : parse_ip s = Some ip → valid_ip ip.
Proof.
  unfold parse_ip. destruct (read_ipv4_addr s) as [[v4 r]|] eqn:E.
  - destruct r; simpl; intros; simplify_eq. by apply read_ipv4_valid in E.
  - destruct (read_ipv6_addr s) as [[v6 r]|] eqn:E6; [|done].
    destruct r; simpl; intros; simplify_eq. by apply read_ipv6_valid in E6.
Qed.
