(* ===== verification/Effects.v ===== *)
(** * Effects

    Fallible values ([anyhow::Result], [std::io::Result]), the third-party
    interfaces the program is written against ([anyhow], [serde_json]), the
    operating system it drives ([World]) and the small state monad in which
    the stateful code is written, with its weakest-precondition calculus. *)

From S2P Require Import Prelude RustStr.

(** ** Results *)

Inductive result (E A : Type) : Type :=
  | Ok (a : A)
  | Err (e : E).
Arguments Ok {E A} a.
Arguments Err {E A} e.

Definition is_ok {E A} (r : result E A) : bool :=
  match r with Ok _ => true | Err _ => false end.
Definition result_ok {E A} (r : result E A) : option A :=
  match r with Ok a => Some a | Err _ => None end.
Definition unwrap_or {E A} (d : A) (r : result E A) : A :=
  match r with Ok a => a | Err _ => d end.
Definition result_map {E A B} (f : A → B) (r : result E A) : result E B :=
  match r with Ok a => Ok (f a) | Err e => Err e end.
Definition result_bind {E A B} (r : result E A) (f : A → result E B) : result E B :=
  match r with Ok a => f a | Err e => Err e end.

Notation "'let?' x := m 'in' k" := (result_bind m (λ x, k))
  (at level 10, x name, m at level 100, k at level 200).

(** [collect::<Result<Vec<_>, _>>()]: the first error wins. *)
Fixpoint collect {E A} (l : list (result E A)) : result E (list A) :=
  match l with
  | [] => Ok []
  | r :: l => result_bind r (λ a, result_map (cons a) (collect l))
  end.

Lemma collect_ok {E A B} (f : A → result E B) (l : list A) (l' : list B) :
  collect (map f l) = Ok l' ↔ Forall2 (λ a b, f a = Ok b) l l'.
Proof.
  revert l'. induction l as [|a l IH]; intros l'; simpl.
  - split; [by intros [= <-]|intros H; by inversion H].
  - destruct (f a) as [b|e] eqn:Hf; simpl.
    + destruct (collect (map f l)) as [bs|e] eqn:Hc; simpl.
      * split; [intros [= <-]; constructor; [done|by apply IH]|].
        intros H. inversion H as [|? b' ? bs' Hb Hbs]; subst.
        apply IH in Hbs. congruence.
      * split; [done|]. intros H. inversion H as [|? b' ? bs' Hb Hbs]; subst.
        apply IH in Hbs. done.
    + split; [done|]. intros H. inversion H; subst. congruence.
Qed.

(** [std::io::ErrorKind], with the kinds the source tells apart. *)
Inductive ErrorKind :=
  NotFound | PermissionDenied | ConnectionRefused | WouldBlock | TimedOut | OtherKind.

#[export] Instance ErrorKind_eq_dec : EqDecision ErrorKind.
Proof. solve_decision. Defined.

Record io_error := mk_io_error { kind : ErrorKind; io_text : string }.
Abbreviation io_result A := (result io_error A).

(** ** Third-party interfaces *)

(** [anyhow]: an error is made from a message or from another error, takes
    context, and is shown with its causes ([{:#}]). *)
Class Anyhow := {
  error : Type;
  anyhow : string → error;
  from_io : io_error → error;
  add_context : string → error → error;
  show_alt : error → string;
}.
Abbreviation res A := (result error A).

(** The values that [json!] writes down. *)
#[warnings="-register-all"]
Inductive jtree :=
  | TNull
  | TBool (b : bool)
  | TInt (n : Z)
  | TStr (s : string)
  | TArr (l : list jtree)
  | TObj (fields : list (string * jtree)).

(** Field lookup in a literal object. *)
Fixpoint assoc {A} (k : string) (l : list (string * A)) : option A :=
  match l with
  | [] => None
  | (k', a) :: l => if String.eqb k k' then Some a else assoc k l
  end.

(** [serde_json]: the [json!] macro ([obj] and [arr] where it embeds values),
    [Value]'s accessors, the parser and the printers. *)
Class SerdeJson `{!Anyhow} := {
  value : Type;
  json : jtree → value;
  obj : list (string * value) → value;
  arr : list value → value;
  get : value → string → option value;
  as_i64 : value → option Z;
  as_u64 : value → option Z;
  as_bool : value → option bool;
  as_str : value → option string;
  as_array : value → option (list value);
  from_str : string → res value;
  string_from_str : string → res string;
  to_string : value → string;
  to_string_pretty : value → string;
}.

(** A character a JSON string carries as it is. *)
Definition plain_char (c : ascii) : bool :=
  negb (Ascii.eqb c char_dq) && negb (Ascii.eqb c "\"%char)
  && (31 <? Z.of_N (N_of_ascii c)).

(** The documented behaviour of [serde_json] the program relies on: a literal
    object is read back field by field, the compact printer writes an object
    on one line between braces, and parsing what it wrote gives the value. *)
Class SerdeJsonLaws `{SerdeJson} : Prop := {
  json_obj fields :
    json (TObj fields) = obj (map (λ kt, (kt.1, json kt.2)) fields);
  get_obj k fields : NoDup (fields.*1) → get (obj fields) k = assoc k fields;
  as_array_arr l : as_array (arr l) = Some l;
  as_str_str s : as_str (json (TStr s)) = Some s;
  as_i64_int n : - 2 ^ 63 <= n < 2 ^ 63 → as_i64 (json (TInt n)) = Some n;
  as_u64_int n : 0 <= n < 2 ^ 64 → as_u64 (json (TInt n)) = Some n;
  as_bool_bool b : as_bool (json (TBool b)) = Some b;
  print_obj fields :
    ∃ s, to_string (json (TObj fields)) = "{" +:+ s +:+ "}"
         ∧ str_forall (λ c, negb (Ascii.eqb c char_nl)) s = true;
  parse_print fields :
    from_str (to_string (json (TObj fields))) = Ok (json (TObj fields));
  from_str_empty : is_ok (from_str "") = false;
  string_quoted s :
    str_forall plain_char s = true →
    string_from_str (dq +:+ s +:+ dq) = Ok s;
  string_unquoted s :
    starts_with dq (trim s) = false → is_ok (string_from_str s) = false;
}.

Lemma get_json_obj `{SerdeJsonLaws} k fields :
  NoDup (fields.*1) → get (json (TObj fields)) k = json <$> assoc k fields.
Proof.
  intros Hnd. rewrite json_obj, get_obj.
  - clear Hnd. induction fields as [|[k' t] fields IH]; simpl; [done|].
    by destruct (String.eqb k k').
  - replace (map _ fields).*1 with (fields.*1); [done|]. clear Hnd.
    induction fields as [|[k' t] fields IH]; [done|]. simpl. by f_equal.
Qed.

(** ** The operating system *)

(** [std::process::Output], its streams decoded with [from_utf8_lossy]. *)
Record Output := mk_output {
  code : option Z;
  stdout : string;
  stderr : string;
}.
(** [ExitStatus::success]. *)
Definition success (o : Output) : bool :=
  match code o with Some 0 => true | _ => false end.

(** The services of the operating system the program calls. Every call may
    change the whole world; time is in nanoseconds. *)
Class World (W : Type) := {
  Child : Type;
  w_instant_now : W → Z * W;
  w_epoch_ms : W → option Z * W;
  w_sleep : Z → W → W;
  w_output : list string → W → io_result Output * W;
  w_spawn : bool → list string → W → io_result Child * W;
  w_wait_with_output : Child → W → io_result Output * W;
  w_kill : Child → W → io_result unit * W;
  w_exists : string → W → bool * W;
  w_read_to_string : string → W → io_result string * W;
  w_write : string → string → W → io_result unit * W;
  w_copy : string → string → W → io_result unit * W;
  w_remove_file : string → W → io_result unit * W;
  w_create_dir_all : string → W → io_result unit * W;
  w_current_exe : W → io_result string * W;
  w_println : string → W → W;
  w_process_id : W → Z * W;
}.

(** ** The monad *)

(** A computation on the world; [None] is a computation that does not return:
    a loop that ran out of fuel, or a panic. *)
Definition io (W A : Type) : Type := W → option (A * W).

Definition io_ret {W A} (a : A) : io W A := λ w, Some (a, w).
Definition io_bind {W A B} (m : io W A) (k : A → io W B) : io W B := λ w,
  match m w with Some (a, w') => k a w' | None => None end.
(** The [?] operator. *)
Definition io_try {W E A B} (m : io W (result E A)) (k : A → io W (result E B))
    : io W (result E B) :=
  io_bind m (λ r, match r with Ok a => k a | Err e => io_ret (Err e) end).
Definition io_panic {W A} : io W A := λ _, None.
(** A pure step that panics on [None]. *)
Definition unwrap {W A} (o : option A) : io W A := λ w,
  match o with Some a => Some (a, w) | None => None end.
Definition lift {W A} (f : W → A * W) : io W A := λ w, Some (f w).
Definition lift_ {W} (f : W → W) : io W unit := λ w, Some (tt, f w).

Declare Scope io_scope.
Delimit Scope io_scope with io.
Bind Scope io_scope with io.
Notation "x <- m ;; k" := (io_bind m (λ x, k))
  (at level 100, m at next level, right associativity) : io_scope.
Notation "x <-? m ;; k" := (io_try m (λ x, k))
  (at level 100, m at next level, right associativity) : io_scope.
Notation "m ;;; k" := (io_bind m (λ _, k))
  (at level 100, right associativity) : io_scope.
#[global] Open Scope io_scope.

Section combinators.
  Context {W : Type}.

(** [for a in l { m a }]. *)
Fixpoint io_for {A} (l : list A) (f : A → io W unit) : io W unit :=
  match l with
  | [] => io_ret tt
  | a :: l => f a ;;; io_for l f
  end.

(** [l.iter().map(f).collect()]. *)
Fixpoint io_map {A B} (l : list A) (f : A → io W B) : io W (list B) :=
  match l with
  | [] => io_ret []
  | a :: l => b <- f a ;; bs <- io_map l f ;; io_ret (b :: bs)
  end.

(** [for a in l { s = f(s, a)?; }]: a loop over [l] that updates the local
    state [s] and may return early. *)
Fixpoint io_fold {E A S} (l : list A) (f : S → A → io W (result E S)) (s : S)
    : io W (result E S) :=
  match l with
  | [] => io_ret (Ok s)
  | a :: l => s <-? f s a ;; io_fold l f s
  end.

(** [.context(s)] on a fallible computation. *)
Definition io_context `{!Anyhow} {A} (s : string) (m : io W (res A)) : io W (res A) :=
  r <- m ;;
  io_ret match r with Ok a => Ok a | Err e => Err (add_context s e) end.

End combinators.

Section instructions.
  Context {W : Type} `{!World W}.

Definition instant_now : io W Z := lift w_instant_now.
Definition epoch_ms : io W (option Z) := lift w_epoch_ms.
Definition sleep (d : Z) : io W unit := lift_ (w_sleep d).
Definition cmd_output (argv : list string) : io W (io_result Output) := lift (w_output argv).
Definition cmd_spawn (background : bool) (argv : list string)
  : io W (io_result Child) := lift (w_spawn background argv).
Definition wait_with_output (c : Child) : io W (io_result Output) :=
  lift (w_wait_with_output c).
Definition kill (c : Child) : io W (io_result unit) := lift (w_kill c).
Definition exists_path (p : string) : io W bool := lift (w_exists p).
Definition read_to_string (p : string) : io W (io_result string) :=
  lift (w_read_to_string p).
Definition fs_write (p body : string) : io W (io_result unit) := lift (w_write p body).
Definition fs_copy (src dst : string) : io W (io_result unit) := lift (w_copy src dst).
Definition remove_file (p : string) : io W (io_result unit) := lift (w_remove_file p).
Definition create_dir_all (p : string) : io W (io_result unit) := lift (w_create_dir_all p).
Definition current_exe : io W (io_result string) := lift w_current_exe.
Definition process_id : io W Z := lift w_process_id.
Definition println (s : string) : io W unit := lift_ (w_println s).

(** [Duration::from_millis], [Duration::from_secs]. *)
Definition millis (n : Z) : Z := n * 1000000.
Definition secs (n : Z) : Z := n * 1000000000.

(** A [std::io] error given context, as in [.with_context(..)?]. *)
Definition io_ctx `{!Anyhow} {A} (s : string) (r : io_result A) : res A :=
  match r with Ok a => Ok a | Err e => Err (add_context s (from_io e)) end.
(** [.context(s)] on an option and on a result. *)
Definition opt_context `{!Anyhow} {A} (s : string) (o : option A) : res A :=
  match o with Some a => Ok a | None => Err (anyhow s) end.
Definition res_context `{!Anyhow} {A} (s : string) (r : res A) : res A :=
  match r with Ok a => Ok a | Err e => Err (add_context s e) end.

(** The polling loop shared by every wait of the program:
    [loop { if check() { return true } if Instant::now() >= deadline { return
    false } sleep(period) }]. *)
Fixpoint poll_until (fuel : nat) (period deadline : Z) (check : io W bool)
    : io W bool :=
  match fuel with
  | O => λ _, None
  | S fuel =>
      ok <- check ;;
      if (ok : bool) then io_ret true else
      now <- instant_now ;;
      if deadline <=? now then io_ret false else
      sleep period ;;; poll_until fuel period deadline check
  end.

(** Enough iterations for a wait of [timeout] polled every [period]
    (lemma [poll_until_wp]). *)
Definition poll_fuel (timeout period : Z) : nat := S (S (Z.to_nat (timeout / period))).

(** [let deadline = Instant::now() + timeout; loop { .. }]. *)
Definition poll_for (timeout period : Z) (check : io W bool) : io W bool :=
  start <- instant_now ;;
  poll_until (poll_fuel timeout period) period (start + timeout) check.

End instructions.

(** ** The clock *)

(** What the program relies on about time: no call sets the monotonic clock
    back, [Instant::now] reads it, and a sleep lasts at least as long as
    asked. *)
Class WorldClock (W : Type) `{!World W} := {
  clock : W → Z;
  clock_now w : clock w <= (w_instant_now w).1 <= clock (w_instant_now w).2;
  clock_sleep d w : 0 <= d → clock w + d <= clock (w_sleep d w);
  clock_epoch w : clock w <= clock (w_epoch_ms w).2;
  clock_output a w : clock w <= clock (w_output a w).2;
  clock_spawn b a w : clock w <= clock (w_spawn b a w).2;
  clock_wait c w : clock w <= clock (w_wait_with_output c w).2;
  clock_kill c w : clock w <= clock (w_kill c w).2;
  clock_exists p w : clock w <= clock (w_exists p w).2;
  clock_read p w : clock w <= clock (w_read_to_string p w).2;
  clock_write p b w : clock w <= clock (w_write p b w).2;
  clock_copy p q w : clock w <= clock (w_copy p q w).2;
  clock_remove p w : clock w <= clock (w_remove_file p w).2;
  clock_mkdir p w : clock w <= clock (w_create_dir_all p w).2;
  clock_exe w : clock w <= clock (w_current_exe w).2;
  clock_println s w : clock w <= clock (w_println s w);
  clock_pid w : clock w <= clock (w_process_id w).2;
}.

(** ** The file system *)

(** What the program relies on of the files: a call changes the file it names,
    and only when it says so. *)
Class WorldFs (W : Type) `{!World W} := {
  file : W → string → option string;
  file_exists p w : (w_exists p w).1 = bool_decide (is_Some (file w p));
  file_exists_same p q w : file (w_exists p w).2 q = file w q;
  file_read p w r w' : w_read_to_string p w = (r, w') →
    (∀ s, r = Ok s → file w p = Some s) ∧ ∀ x, file w' x = file w x;
  file_copy p q w r w' : w_copy p q w = (r, w') →
    match r with
    | Ok _ => is_Some (file w p) ∧ file w' q = file w p
    | Err _ => True
    end ∧ ∀ x, x ≠ q → file w' x = file w x;
  file_write p b w r w' : w_write p b w = (r, w') →
    (is_ok r = true → file w' p = Some b) ∧ ∀ x, x ≠ p → file w' x = file w x;
  file_remove p w r w' : w_remove_file p w = (r, w') →
    (is_ok r = true → file w' p = None) ∧ (∀ s, file w' p = Some s → file w p = Some s) ∧
    ∀ x, x ≠ p → file w' x = file w x;
  file_println s w q : file (w_println s w) q = file w q;
}.

(** ** Weakest preconditions (total correctness) *)

Definition wp {W A} (m : io W A) (Q : A → W → Prop) (w : W) : Prop :=
  match m w with Some (a, w') => Q a w' | None => False end.

Section wp.
  Context {W : Type}.

Lemma wp_ret {A} (a : A) (Q : A → W → Prop) w : Q a w → wp (io_ret a) Q w.
Proof. done. Qed.

Lemma wp_bind {A B} (m : io W A) (k : A → io W B) Q w :
  wp m (λ a, wp (k a) Q) w → wp (io_bind m k) Q w.
Proof. unfold wp, io_bind. by destruct (m w) as [[]|]. Qed.

Lemma wp_mono {A} (m : io W A) (P Q : A → W → Prop) w :
  (∀ a w', P a w' → Q a w') → wp m P w → wp m Q w.
Proof. unfold wp. destruct (m w) as [[]|]; auto. Qed.

Lemma wp_try {E A B} (m : io W (result E A)) (k : A → io W (result E B)) Q w :
  wp m (λ r w', match r with Ok a => wp (k a) Q w' | Err e => Q (Err e) w' end) w →
  wp (io_try m k) Q w.
Proof.
  intros H. apply wp_bind. eapply wp_mono; [|exact H]. by intros [] w' ?.
Qed.

Lemma wp_lift {A} (f : W → A * W) (Q : A → W → Prop) w :
  Q (f w).1 (f w).2 → wp (lift f) Q w.
Proof. unfold wp, lift. by destruct (f w). Qed.

(** The rule of the loop: an invariant indexed by the iterations done. *)
Lemma wp_fold {E A T} (I : nat → T → W → Prop) (Q : E → W → Prop) (l : list A)
    (f : T → A → io W (result E T)) s w :
  (∀ i a s w, l !! i = Some a → I i s w →
     wp (f s a) (λ r w', match r with Ok s' => I (i + 1)%nat s' w' | Err e => Q e w' end) w) →
  I 0%nat s w →
  wp (io_fold l f s)
     (λ r w', match r with Ok s' => I (length l) s' w' | Err e => Q e w' end) w.
Proof.
  revert I s w. induction l as [|a l IH]; intros I s w Hf HI; simpl; [by apply wp_ret|].
  apply wp_try. eapply wp_mono; [|by apply (Hf 0%nat a s w)].
  intros [s'|e] w' H'; [|done].
  eapply (IH (λ i, I (S i))); [|done]. intros i b s'' w'' Hi. by apply (Hf (S i)).
Qed.

(** A computation that returns has a result. *)
Lemma wp_elim {A} (m : io W A) Q w :
  wp m Q w → ∃ a w', m w = Some (a, w') ∧ Q a w'.
Proof. unfold wp. destruct (m w) as [[a w']|]; [eauto|done]. Qed.

Lemma wp_and {A} (m : io W A) (P Q : A → W → Prop) w :
  wp m P w → wp m Q w → wp m (λ a w', P a w' ∧ Q a w') w.
Proof. unfold wp. by destruct (m w) as [[a w']|]. Qed.

Lemma wp_intro {A} (m : io W A) (Q : A → W → Prop) w a w' :
  m w = Some (a, w') → Q a w' → wp m Q w.
Proof. unfold wp. by intros ->. Qed.

End wp.

(** [io_bind] associates and has units up to pointwise equality: rewriting
    under the setoid of computations. *)
Definition io_eq {W A} (m n : io W A) : Prop := ∀ w, m w = n w.

#[export] Instance io_eq_equiv W A : Equivalence (@io_eq W A).
Proof.
  split; [by intros m w|by intros m n H w|].
  intros m n p H1 H2 w. by rewrite (H1 w).
Qed.

#[export] Instance io_bind_proper W A B :
  Proper (io_eq ==> pointwise_relation _ io_eq ==> io_eq) (@io_bind W A B).
Proof.
  intros m m' Hm k k' Hk w. unfold io_bind. rewrite Hm.
  destruct (m' w) as [[a w']|]; [apply Hk|done].
Qed.

Lemma io_bind_assoc {W A B C} (m : io W A) (k : A → io W B) (h : B → io W C) :
  io_eq (io_bind (io_bind m k) h) (io_bind m (λ a, io_bind (k a) h)).
Proof. intros w. unfold io_bind. by destruct (m w) as [[]|]. Qed.

Lemma io_bind_ret_l {W A B} (a : A) (k : A → io W B) :
  io_eq (io_bind (io_ret a) k) (k a).
Proof. done. Qed.

(** What a computation that ended did first. *)
Lemma io_bind_inv {W A B} (m : io W A) (k : A → io W B) w b w' :
  io_bind m k w = Some (b, w') → ∃ a w1, m w = Some (a, w1) ∧ k a w1 = Some (b, w').
Proof. unfold io_bind. destruct (m w) as [[a w1]|]; naive_solver. Qed.

Lemma io_try_ok_inv {W E A B} (m : io W (result E A)) (k : A → io W (result E B)) w b w' :
  io_try m k w = Some (Ok b, w') → ∃ a w1, m w = Some (Ok a, w1) ∧ k a w1 = Some (Ok b, w').
Proof. unfold io_try, io_bind. destruct (m w) as [[[a|e] w1]|]; naive_solver. Qed.

Lemma res_context_ok `{!Anyhow} {A} s (r : res A) a : res_context s r = Ok a → r = Ok a.
Proof. by destruct r. Qed.

(** ** Steady computations: they return, and never set the clock back *)

Create HintDb steady discriminated.

Section steady.
  Context {W : Type} `{!World W, !WorldClock W}.

Definition steady {A} (m : io W A) : Prop :=
  ∀ w, wp m (λ _ w', clock w <= clock w') w.

Lemma steady_run {A} (m : io W A) w a w' :
  steady m → m w = Some (a, w') → clock w <= clock w'.
Proof. intros Hm He. specialize (Hm w). unfold wp in Hm. by rewrite He in Hm. Qed.

Lemma steady_ret {A} (a : A) : steady (io_ret a).
Proof. intros w. apply wp_ret, Z.le_refl. Qed.

Lemma steady_bind {A B} (m : io W A) (k : A → io W B) :
  steady m → (∀ a, steady (k a)) → steady (io_bind m k).
Proof.
  intros Hm Hk w. apply wp_bind. eapply wp_mono; [|apply Hm]. intros a w' Hw.
  eapply wp_mono; [|apply Hk]. intros b w'' Hw'. simpl in *. lia.
Qed.

Lemma steady_try {E A B} (m : io W (result E A)) (k : A → io W (result E B)) :
  steady m → (∀ a, steady (k a)) → steady (io_try m k).
Proof. intros Hm Hk. apply steady_bind; [done|]. intros []; auto using steady_ret. Qed.

Lemma steady_lift {A} (f : W → A * W) :
  (∀ w, clock w <= clock (f w).2) → steady (lift f).
Proof. intros Hf w. by apply wp_lift. Qed.

Lemma steady_for {A} (l : list A) (f : A → io W unit) :
  (∀ a, steady (f a)) → steady (io_for l f).
Proof. intros Hf. induction l; simpl; auto using steady_ret, steady_bind. Qed.

Lemma steady_map {A B} (l : list A) (f : A → io W B) :
  (∀ a, steady (f a)) → steady (io_map l f).
Proof.
  intros Hf. induction l; simpl; [apply steady_ret|].
  apply steady_bind; [done|]. intros b. apply steady_bind; [done|].
  intros bs. apply steady_ret.
Qed.

(** A steady step, remembered with its answer. *)
Lemma wp_step {A B} (m : io W A) (k : A → io W B) Q w :
  steady m →
  (∀ a w1, m w = Some (a, w1) → clock w <= clock w1 → wp (k a) Q w1) →
  wp (io_bind m k) Q w.
Proof.
  intros Hm Hk. apply wp_bind. destruct (wp_elim _ _ _ (Hm w)) as (a & w1 & He & Hc).
  eapply wp_intro; [exact He|]. by apply Hk.
Qed.

(** The rule of [io_map]: element by element. *)
Lemma wp_map {A B} (R : A → B → Prop) (l : list A) (f : A → io W B) w :
  (∀ a w, a ∈ l → wp (f a) (λ b w', R a b ∧ clock w <= clock w') w) →
  wp (io_map l f) (λ bs w', Forall2 R l bs ∧ clock w <= clock w') w.
Proof.
  revert w. induction l as [|a l IH]; intros w Hf; simpl.
  - apply wp_ret. split; [constructor|lia].
  - apply wp_bind. eapply wp_mono; [|apply Hf; left]. intros b w1 [Hb Hc1].
    apply wp_bind. eapply wp_mono; [|apply IH; intros; apply Hf; by right].
    intros bs w2 [Hbs Hc2]. apply wp_ret. split; [by constructor|lia].
Qed.

Lemma steady_fold {E A S} (l : list A) (f : S → A → io W (result E S)) s :
  (∀ s a, steady (f s a)) → steady (io_fold l f s).
Proof.
  intros Hf. revert s. induction l; intros s; simpl; [apply steady_ret|].
  by apply steady_try.
Qed.

Lemma steady_instant_now : steady instant_now.
Proof. apply steady_lift. intros w. pose proof (clock_now w). lia. Qed.
Lemma steady_epoch_ms : steady epoch_ms.
Proof. apply steady_lift, clock_epoch. Qed.
Lemma steady_sleep d : 0 <= d → steady (sleep d).
Proof. intros Hd w. unfold wp, sleep, lift_. pose proof (clock_sleep d w Hd). lia. Qed.
Lemma steady_cmd_output a : steady (cmd_output a).
Proof. apply steady_lift, clock_output. Qed.
Lemma steady_cmd_spawn b a : steady (cmd_spawn b a).
Proof. apply steady_lift, clock_spawn. Qed.
Lemma steady_wait_with_output c : steady (wait_with_output c).
Proof. apply steady_lift, clock_wait. Qed.
Lemma steady_kill c : steady (kill c).
Proof. apply steady_lift, clock_kill. Qed.
Lemma steady_exists_path p : steady (exists_path p).
Proof. apply steady_lift, clock_exists. Qed.
Lemma steady_read_to_string p : steady (read_to_string p).
Proof. apply steady_lift, clock_read. Qed.
Lemma steady_fs_write p b : steady (fs_write p b).
Proof. apply steady_lift, clock_write. Qed.
Lemma steady_fs_copy p q : steady (fs_copy p q).
Proof. apply steady_lift, clock_copy. Qed.
Lemma steady_remove_file p : steady (remove_file p).
Proof. apply steady_lift, clock_remove. Qed.
Lemma steady_create_dir_all p : steady (create_dir_all p).
Proof. apply steady_lift, clock_mkdir. Qed.
Lemma steady_current_exe : steady current_exe.
Proof. apply steady_lift, clock_exe. Qed.
Lemma steady_process_id : steady process_id.
Proof. apply steady_lift, clock_pid. Qed.
Lemma steady_println s : steady (println s).
Proof. intros w. apply (clock_println s w). Qed.

(** The polling loop: it returns within its fuel; when it answers [true] the
    last check succeeded, when it answers [false] the deadline has passed. *)
Lemma poll_until_wp (I Q : W → Prop) fuel period deadline check w :
  0 < period →
  (∀ w, I w →
     wp check (λ ok w', clock w <= clock w' ∧ if ok : bool then Q w' else I w') w) →
  (∀ w, I w → I (w_instant_now w).2) →
  (∀ w, I w → I (w_sleep period w)) →
  (0 < fuel)%nat → deadline - clock w < (Z.of_nat fuel - 1) * period →
  I w →
  wp (poll_until fuel period deadline check)
     (λ ok w', clock w <= clock w' ∧
        if ok : bool then Q w' else I w' ∧ deadline <= clock w') w.
Proof.
  intros Hp Hcheck Hnow Hsleep.
  revert w. induction fuel as [|fuel IH]; intros w Hf Hb HI; [lia|].
  simpl. apply wp_bind. eapply wp_mono; [|by apply Hcheck].
  intros [] w1 [Hc1 H1]; [by apply wp_ret|].
  apply wp_bind, wp_lift. pose proof (clock_now w1) as Hc2.
  destruct (Z.leb_spec deadline (w_instant_now w1).1) as [Hd|Hd].
  { apply wp_ret. split; [lia|]. split; [auto|lia]. }
  apply wp_bind. unfold wp at 1, sleep, lift_.
  set (w2 := (w_instant_now w1).2) in *.
  pose proof (clock_sleep period w2 ltac:(lia)) as Hc3.
  destruct fuel as [|fuel]; [lia|].
  eapply wp_mono; [|apply IH; [lia|lia|by apply Hsleep, Hnow]].
  intros ok w' [? Hok]. split; [lia|done].
Qed.

Lemma poll_for_wp (I Q : W → Prop) timeout period check w :
  0 < period → 0 <= timeout →
  (∀ w, I w →
     wp check (λ ok w', clock w <= clock w' ∧ if ok : bool then Q w' else I w') w) →
  (∀ w, I w → I (w_instant_now w).2) →
  (∀ w, I w → I (w_sleep period w)) →
  I w →
  wp (poll_for timeout period check)
     (λ ok w', clock w <= clock w' ∧
        if ok : bool then Q w' else I w' ∧ clock w + timeout <= clock w') w.
Proof.
  intros Hp Ht Hcheck Hnow Hsleep HI.
  unfold poll_for. apply wp_bind, wp_lift. pose proof (clock_now w) as Hc.
  eapply wp_mono; [|apply (poll_until_wp I Q); auto].
  - intros [] w' [??]; simpl in *; (split; [lia|]); [done|]. destruct_and!. split; [done|lia].
  - unfold poll_fuel. lia.
  - unfold poll_fuel. pose proof (Z.div_mod timeout period ltac:(lia)).
    pose proof (Z.mod_pos_bound timeout period ltac:(lia)).
    pose proof (Z.div_pos timeout period Ht Hp).
    rewrite !Nat2Z.inj_succ, Z2Nat.id by done. nia.
Qed.

Lemma steady_poll_for timeout period check :
  0 < period → 0 <= timeout → steady check → steady (poll_for timeout period check).
Proof.
  intros Hp Ht Hc w.
  eapply wp_mono; [|apply (poll_for_wp (λ _, True) (λ _, True)); auto].
  - by intros ok w' [??].
  - intros w0 _. eapply wp_mono; [|apply Hc]. intros [] ? ?; auto.
Qed.

End steady.

#[export] Hint Resolve steady_ret steady_instant_now steady_epoch_ms
  steady_cmd_output steady_cmd_spawn steady_wait_with_output steady_kill
  steady_exists_path steady_read_to_string steady_fs_write steady_fs_copy
  steady_remove_file steady_create_dir_all steady_current_exe steady_println
  steady_process_id   : steady.
#[export] Hint Extern 1 (steady (sleep _)) =>
  apply steady_sleep; unfold millis, secs; lia : steady.

(** Proves [steady] goals by following the structure of the code. *)
Ltac steady :=
  repeat match goal with
  | |- ∀ _, _ => intros
  | |- steady (io_bind _ _) => apply steady_bind
  | |- steady (io_try _ _) => apply steady_try
  | |- steady (io_for _ _) => apply steady_for
  | |- steady (io_map _ _) => apply steady_map
  | |- steady (io_fold _ _ _) => apply steady_fold
  | |- steady (match ?x with _ => _ end) => destruct x
  | |- steady (let _ := _ in _) => cbv zeta
  | |- steady _ => solve [eauto with steady]
  end.

(** ** Loops, related to one another *)

Section folds.
  Context {W E : Type}.

Lemma io_try_ext {A B} (m : io W (result E A)) (k h : A → io W (result E B)) :
  (∀ a, io_eq (k a) (h a)) → io_eq (io_try m k) (io_try m h).
Proof. intros Hkh. apply io_bind_proper; [done|]. by intros []. Qed.

Lemma io_try_assoc {A B C} (m : io W (result E A)) (k : A → io W (result E B))
    (h : B → io W (result E C)) :
  io_eq (io_try (io_try m k) h) (io_try m (λ a, io_try (k a) h)).
Proof. intros w. unfold io_try, io_bind. by destruct (m w) as [[[]]|]. Qed.

Lemma io_try_bind {A B C} (m : io W A) (k : A → io W (result E B)) (h : B → io W (result E C)) :
  io_eq (io_try (io_bind m k) h) (io_bind m (λ a, io_try (k a) h)).
Proof. apply io_bind_assoc. Qed.

Lemma io_fold_ext {A S} (f g : S → A → io W (result E S)) l s :
  (∀ s a, io_eq (f s a) (g s a)) → io_eq (io_fold l f s) (io_fold l g s).
Proof.
  intros Hfg. revert s. induction l as [|a l IH]; intros s; [done|]. simpl.
  apply io_bind_proper; [apply Hfg|]. intros []; [apply IH|done].
Qed.

Lemma io_fold_map {A B S} (h : A → B) (f : S → B → io W (result E S)) l s :
  io_eq (io_fold (map h l) f s) (io_fold l (λ s a, f s (h a)) s).
Proof. revert s. induction l as [|a l IH]; intros s; [done|]. simpl. by apply io_try_ext. Qed.

Lemma io_fold_app {A S} (f : S → A → io W (result E S)) l1 l2 s :
  io_eq (io_fold (l1 ++ l2) f s) (io_try (io_fold l1 f s) (io_fold l2 f)).
Proof.
  revert s. induction l1 as [|a l1 IH]; intros s; [done|]. simpl.
  intros w. rewrite (io_try_assoc _ _ _ w). by apply io_try_ext.
Qed.

(** A loop in a loop is one loop. *)
Lemma io_fold_concat {A S} (f : S → A → io W (result E S)) ls s :
  io_eq (io_fold (concat ls) f s) (io_fold ls (λ s l, io_fold l f s) s).
Proof.
  revert s. induction ls as [|l ls IH]; intros s; [done|]. simpl.
  intros w. rewrite (io_fold_app _ _ _ _ w). by apply io_try_ext.
Qed.

(** Two steps that fail alike, with the same effect, or end in related states. *)
Definition sim_step {S T} (R : S → T → Prop) (x : option (result E S * W))
    (y : option (result E T * W)) : Prop :=
  match x, y with
  | Some (Ok s, w1), Some (Ok t, w2) => w1 = w2 ∧ R s t
  | Some (Err e, w1), Some (Err e', w2) => w1 = w2 ∧ e = e'
  | None, None => True
  | _, _ => False
  end.

(** The same step first. *)
Lemma sim_step_bind {A S T} (R : S → T → Prop) (m : io W A) k h w :
  (∀ a w', sim_step R (k a w') (h a w')) → sim_step R (io_bind m k w) (io_bind m h w).
Proof. intros Hkh. unfold io_bind. destruct (m w) as [[a w']|]; [apply Hkh|done]. Qed.

(** Simulation of loops, [R i] relating the states before step [i]. *)
Lemma io_fold_sim {A B S T} (R : nat → S → T → Prop) (l : list A) (l' : list B)
    (f : S → A → io W (result E S)) (g : T → B → io W (result E T)) s t w :
  length l = length l' →
  (∀ i a b s t w, l !! i = Some a → l' !! i = Some b → R i s t →
     sim_step (R (Datatypes.S i)) (f s a w) (g t b w)) →
  R 0%nat s t → sim_step (R (length l)) (io_fold l f s w) (io_fold l' g t w).
Proof.
  revert R l' s t w. induction l as [|a l IH]; intros R [|b l'] s t w Hl Hstep HR; try done.
  simpl. unfold io_try, io_bind. specialize (Hstep 0%nat a b s t w eq_refl eq_refl HR) as H0.
  unfold sim_step in H0.
  destruct (f s a w) as [[[s1|e1] w1]|], (g t b w) as [[[t1|e2] w2]|]; try done.
  destruct H0 as [<- H0]. apply (IH (λ i, R (Datatypes.S i))); [by injection Hl| |done].
  intros i a' b' s' t' w' Ha Hb. by apply (Hstep (Datatypes.S i)).
Qed.

End folds.

(** ** Computations along a relation *)

(** Whenever [m] returns, the world it started from and the one it returned
    from are related: a frame, when [R] says what stays the same. Nothing is
    said of a computation that does not return. *)
Definition moves {W A} (R : W → W → Prop) (m : io W A) : Prop :=
  ∀ w a w', m w = Some (a, w') → R w w'.

Create HintDb moves discriminated.

Section moves.
  Context {W : Type} (R : W → W → Prop) `{!PreOrder R}.

Lemma moves_ret {A} (a : A) : moves R (io_ret a).
Proof. intros w b w' [= <- <-]. reflexivity. Qed.

Lemma moves_bind {A B} (m : io W A) (k : A → io W B) :
  moves R m → (∀ a, moves R (k a)) → moves R (io_bind m k).
Proof.
  intros Hm Hk w b w'. unfold io_bind. destruct (m w) as [[a w1]|] eqn:E; [|done].
  intros Hb. transitivity w1; [by eapply Hm|by eapply Hk].
Qed.

Lemma moves_try {E A B} (m : io W (result E A)) (k : A → io W (result E B)) :
  moves R m → (∀ a, moves R (k a)) → moves R (io_try m k).
Proof. intros Hm Hk. apply moves_bind; [done|]. intros []; auto using moves_ret. Qed.

Lemma moves_lift {A} (f : W → A * W) : (∀ w, R w (f w).2) → moves R (lift f).
Proof. intros Hf w a w' [= He]. specialize (Hf w). by rewrite He in Hf. Qed.

Lemma moves_lift_ (f : W → W) : (∀ w, R w (f w)) → moves R (lift_ f).
Proof. intros Hf w a w' [= <- <-]. apply Hf. Qed.

Lemma moves_unwrap {A} (o : option A) : moves R (unwrap o).
Proof. intros w a w'. unfold unwrap. destruct o; [|done]. intros [= <- <-]. reflexivity. Qed.

Lemma moves_for {A} (l : list A) (f : A → io W unit) :
  (∀ a, moves R (f a)) → moves R (io_for l f).
Proof. intros Hf. induction l; simpl; auto using moves_ret, moves_bind. Qed.

Lemma moves_fold {E A S} (l : list A) (f : S → A → io W (result E S)) s :
  (∀ s a, moves R (f s a)) → moves R (io_fold l f s).
Proof.
  intros Hf. revert s. induction l; intros s; simpl; [apply moves_ret|]. by apply moves_try.
Qed.

Lemma moves_poll_for `{!World W} timeout period check :
  (∀ w, R w (w_instant_now w).2) → (∀ w, R w (w_sleep period w)) → moves R check →
  moves R (poll_for timeout period check).
Proof.
  intros Hn Hs Hc. apply moves_bind; [by apply moves_lift|]. intros start.
  generalize (poll_fuel timeout period). intros fuel. induction fuel as [|fuel IH]; [done|].
  simpl. apply moves_bind; [done|]. intros []; [apply moves_ret|].
  apply moves_bind; [by apply moves_lift|]. intros now. case_match; [apply moves_ret|].
  apply moves_bind; [by apply moves_lift_|done].
Qed.

End moves.

(** Equality of what an observer sees is such a relation. *)
Definition same {W A} (obs : W → A) (w w' : W) : Prop := obs w' = obs w.
#[export] Instance same_preorder {W A} (obs : W → A) : PreOrder (same obs).
Proof. split; [done|]. intros w1 w2 w3 H1 H2. unfold same in *. by rewrite H2. Qed.

#[export] Hint Extern 1 (moves _ (io_ret _)) => apply moves_ret; typeclasses eauto : moves.
#[export] Hint Extern 1 (moves _ (unwrap _)) => apply moves_unwrap; typeclasses eauto : moves.

(** Proves [moves] goals by following the structure of the code. *)
Ltac moves :=
  repeat match goal with
  | |- ∀ _, _ => intros
  | |- moves _ (io_bind _ _) => apply moves_bind; [typeclasses eauto|..]
  | |- moves _ (io_try _ _) => apply moves_try; [typeclasses eauto|..]
  | |- moves _ (io_context _ _) => unfold io_context
  | |- moves _ (io_for _ _) => apply moves_for; [typeclasses eauto|..]
  | |- moves _ (io_fold _ _ _) => apply moves_fold; [typeclasses eauto|..]
  | |- moves _ (match ?x with _ => _ end) => destruct x
  | |- moves _ (let _ := _ in _) => cbv zeta
  | |- moves _ _ => solve [eauto with moves]
  end.
