(* ===== verification/Sim.v ===== *)
(** * Concrete instances of the interfaces

    A simulated device and simple implementations of the third-party
    interfaces, on which the executable examples run. The theorems of the
    library hold for every instance; these show that the laws can be met. *)

From stdpp Require Import gmap countable.
From S2P Require Import Prelude RustStr Effects.

(** ** Errors: the message with its causes *)

#[export] Instance sim_anyhow : Anyhow := {|
  error := string;
  anyhow m := m;
  from_io e := io_text e;
  add_context c e := c +:+ ": " +:+ e;
  show_alt e := e;
|}.

(** ** JSON: literal trees, printed through a binary code *)

Definition jleaf : Type := (bool + Z) + string.

Fixpoint to_gtree (t : jtree) : gen_tree jleaf :=
  match t with
  | TNull => GenNode 0 []
  | TBool b => GenLeaf (inl (inl b))
  | TInt n => GenLeaf (inl (inr n))
  | TStr s => GenLeaf (inr s)
  | TArr l => GenNode 1 (map to_gtree l)
  | TObj fs => GenNode 2 (map (λ kv, GenNode 3 [GenLeaf (inr kv.1); to_gtree kv.2]) fs)
  end.

Fixpoint of_gtree (t : gen_tree jleaf) : jtree :=
  match t with
  | GenLeaf (inl (inl b)) => TBool b
  | GenLeaf (inl (inr n)) => TInt n
  | GenLeaf (inr s) => TStr s
  | GenNode 1 l => TArr (map of_gtree l)
  | GenNode 2 l =>
      TObj (map (λ t, match t with
                      | GenNode _ [GenLeaf (inr k); v] => (k, of_gtree v)
                      | _ => ("", TNull)
                      end) l)
  | _ => TNull
  end.

Lemma of_to_gtree t : of_gtree (to_gtree t) = t.
Proof.
  revert t. fix IH 1. intros [|b|n|s|l|fs]; simpl; try done.
  - f_equal. induction l as [|t l IHl]; simpl; [done|]. by rewrite IH, IHl.
  - f_equal. induction fs as [|[k t] fs IHl]; simpl; [done|]. by rewrite IH, IHl.
Qed.

Fixpoint pos_to_bits (p : positive) : string :=
  match p with
  | xH => ""
  | xO p => String "0" (pos_to_bits p)
  | xI p => String "1" (pos_to_bits p)
  end.
Fixpoint bits_to_pos (s : string) : positive :=
  match s with
  | "" => xH
  | String "0" s => xO (bits_to_pos s)
  | String "}" _ => xH
  | String _ s => xI (bits_to_pos s)
  end.

Lemma bits_to_pos_to_bits p tl : bits_to_pos (pos_to_bits p +:+ String "}" tl) = p.
Proof.
  induction p as [p IH|p IH|]; [..|done]; simpl pos_to_bits;
    rewrite sapp_cons; simpl; by rewrite IH.
Qed.

Definition sim_print (t : jtree) : string :=
  "{" +:+ pos_to_bits (encode (to_gtree t)) +:+ "}".
Definition sim_parse (s : string) : result string jtree :=
  match s with
  | String "{" r =>
      match decode (bits_to_pos r) with
      | Some t => Ok (of_gtree t)
      | None => Err "invalid JSON"
      end
  | _ => Err "invalid JSON"
  end.

(** A string literal without escapes, in any white space. *)
Definition sim_parse_string (s : string) : result string string :=
  match trim s with
  | String c r =>
      if Ascii.eqb c char_dq then
        match split_once char_dq r with
        | Some (body, "") =>
            if str_forall plain_char body then Ok body else Err "invalid string"
        | _ => Err "invalid string"
        end
      else Err "invalid type"
  | "" => Err "EOF while parsing a value"
  end.

#[export] Instance sim_json : SerdeJson := {|
  value := jtree;
  json t := t;
  obj := TObj;
  arr := TArr;
  get v k := match v with TObj fs => assoc k fs | _ => None end;
  as_i64 v := match v with
    | TInt n => if (- 2 ^ 63 <=? n) && (n <? 2 ^ 63) then Some n else None
    | _ => None end;
  as_u64 v := match v with
    | TInt n => if (0 <=? n) && (n <? 2 ^ 64) then Some n else None
    | _ => None end;
  as_bool v := match v with TBool b => Some b | _ => None end;
  as_str v := match v with TStr s => Some s | _ => None end;
  as_array v := match v with TArr l => Some l | _ => None end;
  from_str := sim_parse;
  string_from_str := sim_parse_string;
  to_string := sim_print;
  to_string_pretty := sim_print;
|}.

Lemma trim_quoted s : trim (dq +:+ s +:+ dq) = dq +:+ s +:+ dq.
Proof.
  rewrite <- (sapp_nil_r (dq +:+ s +:+ dq)) at 1.
  exact (trim_framed char_dq s char_dq "" eq_refl eq_refl eq_refl).
Qed.

Lemma split_once_plain s :
  str_forall plain_char s = true →
  split_once char_dq (s +:+ String char_dq "") = Some (s, "").
Proof.
  induction s as [|c s IH]; intros Hs.
  - by rewrite sapp_nil_l.
  - rewrite sapp_cons. cbn [split_once str_forall] in *. bool_prop.
    unfold plain_char in *. bool_prop. rewrite Ascii.eqb_sym.
    match goal with H : Ascii.eqb c char_dq = false |- _ => rewrite H end.
    rewrite IH by done. done.
Qed.

Lemma pos_to_bits_no_nl p :
  str_forall (λ c, negb (Ascii.eqb c char_nl)) (pos_to_bits p) = true.
Proof. induction p; simpl; done. Qed.

#[export] Instance sim_json_laws : SerdeJsonLaws.
Proof.
  split.
  - intros fields. cbn. f_equal. induction fields as [|[k t] fields IH]; [done|].
    simpl. by f_equal.
  - done.
  - done.
  - done.
  - intros n Hn. cbn -[Z.pow].
    rewrite (proj2 (Z.leb_le _ _)), (proj2 (Z.ltb_lt _ _)) by lia. done.
  - intros n Hn. cbn -[Z.pow].
    rewrite (proj2 (Z.leb_le _ _)), (proj2 (Z.ltb_lt _ _)) by lia. done.
  - done.
  - intros fields. eexists. split; [reflexivity|]. apply pos_to_bits_no_nl.
  - intros fields. change (sim_parse (sim_print (TObj fields)) = Ok (TObj fields)).
    unfold sim_print. rewrite sapp_cons, sapp_nil_l. unfold sim_parse.
    rewrite bits_to_pos_to_bits, decode_encode. by rewrite of_to_gtree.
  - done.
  - intros s Hs. cbn [string_from_str sim_json]. unfold sim_parse_string.
    rewrite trim_quoted. unfold dq at 1. rewrite sapp_cons, sapp_nil_l.
    rewrite Ascii.eqb_refl. unfold dq. rewrite split_once_plain, Hs by done. done.
  - intros s Hs. cbn [string_from_str sim_json]. unfold sim_parse_string.
    destruct (trim s) as [|c r]; [done|]. destruct (Ascii.eqb_spec c char_dq) as [->|]; [|done].
    unfold starts_with, dq in Hs. cbn in Hs. by rewrite prefix_nil in Hs.
Qed.

(** ** The simulated device *)

(** The clock, the files, the commands run so far (latest first), the lines
    printed, and the device's answer to the [n]-th command. *)
Record device := mk_device {
  d_clock : Z;
  d_files : gmap string string;
  d_log : list (list string);
  d_out : list string;
  d_answer : nat → list string → io_result Output;
}.

Definition tick (d : Z) (w : device) : device :=
  mk_device (d_clock w + Z.max 0 d) (d_files w) (d_log w) (d_out w) (d_answer w).
Definition run_command (argv : list string) (w : device) : device :=
  mk_device (d_clock w) (d_files w) (argv :: d_log w) (d_out w) (d_answer w).
Definition set_files (fs : gmap string string) (w : device) : device :=
  mk_device (d_clock w) fs (d_log w) (d_out w) (d_answer w).
Definition no_such_file : io_error := mk_io_error NotFound "No such file or directory".

#[export] Instance sim_world : World device := {|
  Child := list string;
  w_instant_now w := (d_clock w, w);
  w_epoch_ms w := (Some (d_clock w / 1000000), w);
  w_sleep := tick;
  w_output a w := (d_answer w (length (d_log w)) a, run_command a w);
  w_spawn b a w := (Ok a, run_command a w);
  w_wait_with_output c w := (d_answer w (length (d_log w)) c, w);
  w_kill c w := (Ok tt, run_command ("kill" :: c) w);
  w_exists p w := (bool_decide (is_Some (d_files w !! p)), w);
  w_read_to_string p w :=
    (match d_files w !! p with Some s => Ok s | None => Err no_such_file end, w);
  w_write p b w := (Ok tt, set_files (<[p := b]> (d_files w)) w);
  w_copy p q w :=
    match d_files w !! p with
    | Some s => (Ok tt, set_files (<[q := s]> (d_files w)) w)
    | None => (Err no_such_file, w)
    end;
  w_remove_file p w :=
    match d_files w !! p with
    | Some _ => (Ok tt, set_files (delete p (d_files w)) w)
    | None => (Err no_such_file, w)
    end;
  w_create_dir_all p w := (Ok tt, w);
  w_current_exe w := (Ok "/usr/local/bin/fw-verify", w);
  w_println s w := mk_device (d_clock w) (d_files w) (d_log w) (s :: d_out w) (d_answer w);
  w_process_id w := (4242, w);
|}.

#[export] Instance sim_clock : WorldClock device.
Proof.
  refine {| clock := d_clock |}; intros; simpl; repeat case_match; simpl; lia.
Defined.

#[export] Instance sim_fs : WorldFs device.
Proof.
  refine {| file w p := d_files w !! p |}; simpl.
  - done.
  - done.
  - intros p w r w' [= <- <-]. split; [|done]. destruct (d_files w !! p); by intros ? [= ->].
  - intros p q w r w'. destruct (d_files w !! p) as [s|] eqn:E; intros [= <- <-].
    + split; [split; [eauto|simpl; by rewrite fin_maps.lookup_insert_eq]|].
      intros x Hx. simpl. by rewrite fin_maps.lookup_insert_ne.
    + done.
  - intros p b w r w' [= <- <-]. split; [intros _; simpl; by rewrite fin_maps.lookup_insert_eq|].
    intros x Hx. simpl. by rewrite fin_maps.lookup_insert_ne.
  - intros p w r w'. destruct (d_files w !! p) as [s|] eqn:E; intros [= <- <-].
    + split; [intros _; simpl; by rewrite fin_maps.lookup_delete_eq|split].
      * intros s'. simpl. by rewrite fin_maps.lookup_delete_eq.
      * intros x Hx. simpl. by rewrite fin_maps.lookup_delete_ne.
    + by split; [|split; [intros s Hs; simpl in Hs; by rewrite E in Hs|]].
  - done.
Defined.

(** A device in the default topology: it reports its addresses, idps-fw has
    loaded rule version 7 with a 5 s cycle, VSOC accepts rules as version 7,
    traffic is blocked, and every other command succeeds without output. *)
Definition demo_answer (n : nat) (argv : list string) : io_result Output :=
  let cmd := List.last argv "" in
  Ok (mk_output (Some 0)
        (if contains "addr show dev fwt0" cmd
         then "5: fwt0: <UP> mtu 1500" +:+ nl +:+ "    inet 10.123.0.1/24 scope global fwt0" +:+ nl
         else if contains "addr show dev fwp0" cmd
         then "6: fwp0: <UP> mtu 1500" +:+ nl +:+ "    inet 10.123.0.2/24 scope global fwp0" +:+ nl
         else if contains "/api/rules/" cmd
         then sim_print (TObj [("ver", TInt 7)])
         else if contains "health" cmd
         then sim_print (TObj [("firewall_rule_ver", TInt 7); ("traffic_cycle_secs", TInt 5);
                               ("running", TBool true)])
         else if existsb (String.eqb "traffic") argv
         then sim_print (TObj [("verdict", TStr "blocked"); ("timeout", TInt 1)])
         else "") "").
Definition demo_device : device := mk_device 0 ∅ [] [] demo_answer.
