(* ===== verification/Packets.v ===== *)
(** * Raw packets: ICMP, TCP and ARP

    [agent/traffic.rs] (checksums, ICMP echo and timestamp requests, the
    bare-FIN segment, the echo-reply matcher) and [agent/arp.rs] (the
    gratuitous ARP reply). Arrays are lists of bytes; every write is checked
    and the builders return [None] where the code would panic. *)

From S2P Require Import Prelude RustInt RustNet.

(** ** Checksums *)

(** The [chunks_exact(2)] loop with the [remainder()] step after it. *)
Fixpoint sum_chunks (sum : Z) (data : list Z) : option Z :=
  match data with
  | a :: b :: rest => s ← u32_add sum (from_be_bytes_u16 a b); sum_chunks s rest
  | [last] => u32_add sum (from_be_bytes_u16 last 0)
  | [] => Some sum
  end.

(** [while (sum >> 16) != 0 { sum = (sum & 0xffff) + (sum >> 16); }] *)
Fixpoint fold_carries (fuel : nat) (sum : Z) : option Z :=
  if Z.shiftr sum 16 =? 0 then Some sum else
  match fuel with
  | O => None
  | S fuel =>
      s ← u32_add (Z.land sum 65535) (Z.shiftr sum 16); fold_carries fuel s
  end.

(** Two rounds are enough for every [u32] (lemma [fold_carries_spec]). *)
Definition fold_fuel : nat := 2.

(** [!(sum as u16)] *)
Definition not_u16 (sum : Z) : Z := u16_max - as_u16 sum.

Definition icmp_checksum (data : list Z) : option Z :=
  sum ← sum_chunks 0 data; sum ← fold_carries fold_fuel sum; Some (not_u16 sum).

Definition tcp_checksum (src dst : Ipv4Addr) (tcp : list Z) : option Z :=
  sum ← u32_add 0 (from_be_bytes_u16 (oct_a src) (oct_b src));
  sum ← u32_add sum (from_be_bytes_u16 (oct_c src) (oct_d src));
  sum ← u32_add sum (from_be_bytes_u16 (oct_a dst) (oct_b dst));
  sum ← u32_add sum (from_be_bytes_u16 (oct_c dst) (oct_d dst));
  sum ← u32_add sum 6;
  sum ← u32_add sum (as_u16 (Z.of_nat (length tcp)));
  sum ← sum_chunks sum tcp;
  sum ← fold_carries fold_fuel sum;
  Some (not_u16 sum).

(** ** Packet builders *)

(** [b"fwagentp"] *)
Definition echo_payload : list Z := [102; 119; 97; 103; 101; 110; 116; 112].

Definition build_icmp_echo (ident seq : Z) : option (list Z) :=
  let packet := zeroes 16 in
  packet ← set_index packet 0 8;
  packet ← copy_from_slice packet 4 6 (to_be_bytes_u16 ident);
  packet ← copy_from_slice packet 6 8 (to_be_bytes_u16 seq);
  packet ← copy_from_slice packet 8 16 echo_payload;
  checksum ← icmp_checksum packet;
  copy_from_slice packet 2 4 (to_be_bytes_u16 checksum).

Definition build_icmp_timestamp (ident seq : Z) : option (list Z) :=
  let packet := zeroes 20 in
  packet ← set_index packet 0 13;
  packet ← copy_from_slice packet 4 6 (to_be_bytes_u16 ident);
  packet ← copy_from_slice packet 6 8 (to_be_bytes_u16 seq);
  checksum ← icmp_checksum packet;
  copy_from_slice packet 2 4 (to_be_bytes_u16 checksum).

Definition build_fin (src dst : Ipv4Addr) (sport dport seq : Z) : option (list Z) :=
  let tcp := zeroes 20 in
  tcp ← copy_from_slice tcp 0 2 (to_be_bytes_u16 sport);
  tcp ← copy_from_slice tcp 2 4 (to_be_bytes_u16 dport);
  tcp ← copy_from_slice tcp 4 8 (to_be_bytes_u32 seq);
  let off_flags := Z.lor (Z.shiftl 5 12) 1 in
  tcp ← copy_from_slice tcp 12 14 (to_be_bytes_u16 off_flags);
  tcp ← copy_from_slice tcp 14 16 (to_be_bytes_u16 1024);
  checksum ← tcp_checksum src dst tcp;
  copy_from_slice tcp 16 18 (to_be_bytes_u16 checksum).

(** [frame[ihl.min(frame.len())..]] starts inside the frame, so the slice does
    not panic; the three indexings are guarded by the length test. *)
Definition is_matching_echo_reply (frame : list Z) (ident : Z) : bool :=
  match frame with
  | [] => false
  | first :: _ =>
      let ihl := (Z.to_nat (Z.land first 15) * 4)%nat in
      let icmp := drop (ihl `min` length frame)%nat frame in
      bool_decide (6 ≤ length icmp)%nat
      && (nth 0 icmp 0 =? 0)
      && (from_be_bytes_u16 (nth 4 icmp 0) (nth 5 icmp 0) =? ident)
  end.

(** ** ARP *)

Definition ETH_P_ARP : Z := 2054.
Definition ARPHRD_ETHER : Z := 1.
Definition ARPOP_REPLY : Z := 2.

Definition broadcast_mac : list Z := replicate 6 255.

Definition build_arp_reply (src_mac : list Z) (claim_ip : Ipv4Addr)
    : option (list Z) :=
  let frame := zeroes 42 in
  frame ← copy_from_slice frame 0 6 broadcast_mac;
  frame ← copy_from_slice frame 6 12 src_mac;
  frame ← copy_from_slice frame 12 14 (to_be_bytes_u16 ETH_P_ARP);
  frame ← copy_from_slice frame 14 16 (to_be_bytes_u16 ARPHRD_ETHER);
  frame ← copy_from_slice frame 16 18 (to_be_bytes_u16 2048);
  frame ← set_index frame 18 6;
  frame ← set_index frame 19 4;
  frame ← copy_from_slice frame 20 22 (to_be_bytes_u16 ARPOP_REPLY);
  frame ← copy_from_slice frame 22 28 src_mac;
  frame ← copy_from_slice frame 28 32 (octets claim_ip);
  frame ← copy_from_slice frame 32 38 broadcast_mac;
  copy_from_slice frame 38 42 (octets claim_ip).

(** ** Specification: the ones' complement sum of RFC 1071 *)

(** The 16-bit words of a byte string, the odd byte padded with zero. *)
Fixpoint be_words (data : list Z) : list Z :=
  match data with
  | a :: b :: rest => from_be_bytes_u16 a b :: be_words rest
  | [last] => [from_be_bytes_u16 last 0]
  | [] => []
  end.

(** Ones' complement addition: end-around carry at every step. *)
Definition oc_add (a b : Z) : Z :=
  if a + b <=? 65535 then a + b else a + b - 65535.

Definition oc_sum (ws : list Z) : Z := foldl oc_add 0 ws.

(** The checksum field of RFC 1071. *)
Definition rfc1071 (ws : list Z) : Z := 65535 - oc_sum ws.

(** The pseudo-header of RFC 793 (section 3.1) that the checksum of a TCP
    segment of [len] bytes covers: the addresses, a zero byte, the protocol
    number of TCP and the length in two bytes. *)
Definition tcp_pseudo_header (src dst : Ipv4Addr) (len : Z) : list Z :=
  [oct_a src; oct_b src; oct_c src; oct_d src; oct_a dst; oct_b dst; oct_c dst; oct_d dst;
   0; 6; len / 256; len mod 256].

(** What the receiver of a segment checks: pseudo-header and segment, checksum
    field included, sum to all ones. *)
Definition tcp_accepts (src dst : Ipv4Addr) (segment : list Z) : Prop :=
  oc_sum (be_words (tcp_pseudo_header src dst (Z.of_nat (length segment)) ++ segment)) = 65535.

(** Evaluates the next checked array write of a builder. *)
Ltac packet_step :=
  cbn [mbind option_bind];
  first [ rewrite copy_from_slice_ok by (cbn; lia)
        | rewrite set_index_ok by (cbn; lia) ];
  cbn [mbind option_bind take drop app zeroes replicate insert list_insert
       to_be_bytes_u16 to_be_bytes_u32 octets].

(** ** Lemmas on the sums *)

Definition zsum (ws : list Z) : Z := foldr Z.add 0 ws.

(** The end-around-carry normal form of a natural sum. *)
Definition oc_norm (s : Z) : Z := if s =? 0 then 0 else (s - 1) mod 65535 + 1.

Lemma pair_ind (P : list Z → Prop) :
  P [] → (∀ a, P [a]) → (∀ a b l, P l → P (a :: b :: l)) → ∀ l, P l.
Proof.
  intros H0 H1 H2. fix IH 1. intros [|a [|b l]]; [exact H0|apply H1|].
  apply H2, IH.
Qed.

Lemma be_words_u16 data : Forall is_u8 data → Forall is_u16 (be_words data).
Proof.
  induction data as [|a|a b l IH] using pair_ind; intros Hd; simpl.
  - constructor.
  - decompose_Forall_hyps. repeat constructor; unfold is_u, from_be_bytes_u16 in *; lia.
  - decompose_Forall_hyps. constructor; auto with rs.
Qed.

Lemma be_words_app l k :
  Nat.Even (length l) → be_words (l ++ k) = be_words l ++ be_words k.
Proof.
  induction l as [|a|a b l IH] using pair_ind; simpl; intros He; [done| |].
  - destruct He as [n ?]; lia.
  - rewrite IH; [done|]. destruct He as [n ?]. exists (n - 1)%nat. lia.
Qed.

Lemma zsum_cons w ws : zsum (w :: ws) = w + zsum ws.
Proof. done. Qed.

Lemma zsum_app l k : zsum (l ++ k) = zsum l + zsum k.
Proof. unfold zsum. induction l; simpl; lia. Qed.

Lemma zsum_bound ws :
  Forall is_u16 ws → 0 <= zsum ws <= 65535 * Z.of_nat (length ws).
Proof. unfold zsum, is_u. induction 1; simpl length; simpl foldr; lia. Qed.

Lemma length_be_words data : (length (be_words data) * 2 <= length data + 1)%nat.
Proof. induction data using pair_ind; simpl; lia. Qed.

Lemma sum_chunks_spec data s :
  Forall is_u8 data → s + zsum (be_words data) <= u32_max →
  sum_chunks s data = Some (s + zsum (be_words data)).
Proof.
  revert s. induction data as [|a|a b l IH] using pair_ind; intros s Hd Hs.
  - simpl. f_equal. unfold zsum; simpl. lia.
  - unfold sum_chunks, u32_add. unfold zsum in *; simpl in *.
    rewrite add_checked_some; [f_equal|]; lia.
  - decompose_Forall_hyps. match goal with H : Forall _ l |- _ => rename H into Hl end.
    pose proof (zsum_bound _ (be_words_u16 _ Hl)).
    simpl be_words in *. unfold zsum in *. simpl in *.
    unfold u32_add. rewrite add_checked_some by lia. simpl.
    unfold zsum in IH. rewrite IH; [f_equal|..]; auto; lia.
Qed.

Lemma oc_norm_range s : 0 <= s → 0 <= oc_norm s <= 65535.
Proof. unfold oc_norm. intros. destruct (Z.eqb_spec s 0); [lia|]. pose proof (Z.mod_pos_bound (s - 1) 65535). lia. Qed.

Lemma oc_norm_small s : 0 <= s <= 65535 → oc_norm s = s.
Proof. unfold oc_norm. intros. destruct (Z.eqb_spec s 0); [lia|]. rewrite Z.mod_small; lia. Qed.

Lemma oc_norm_fold s :
  65536 <= s → oc_norm (s mod 65536 + s / 65536) = oc_norm s.
Proof.
  intros Hs. unfold oc_norm.
  pose proof (Z.div_mod s 65536 ltac:(lia)) as Hdm.
  pose proof (Z.mod_pos_bound s 65536 ltac:(lia)).
  pose proof (Z.div_le_lower_bound s 65536 1 ltac:(lia) ltac:(lia)).
  destruct (Z.eqb_spec s 0), (Z.eqb_spec (s mod 65536 + s / 65536) 0); try lia.
  f_equal.
  replace (s - 1) with (s mod 65536 + s / 65536 - 1 + s / 65536 * 65535) by lia.
  by rewrite Z.mod_add by lia.
Qed.

Lemma oc_norm_add s w :
  0 <= s → 0 <= w <= 65535 → oc_add (oc_norm s) w = oc_norm (s + w).
Proof.
  intros Hs Hw. unfold oc_add, oc_norm.
  destruct (Z.eqb_spec s 0) as [->|].
  - destruct (Z.eqb_spec (0 + w) 0), (Z.leb_spec (0 + w) 65535); try lia.
    rewrite Z.mod_small; lia.
  - destruct (Z.eqb_spec (s + w) 0); [lia|].
    pose proof (Z.mod_pos_bound (s - 1) 65535 ltac:(lia)).
    pose proof (Z.div_mod (s - 1) 65535 ltac:(lia)) as Hdm.
    set (q := (s - 1) / 65535) in *. set (r := (s - 1) mod 65535) in *.
    case_match; bool_prop.
    + rewrite <- (Z.mod_unique_pos (s + w - 1) 65535 q (r + w)); lia.
    + rewrite <- (Z.mod_unique_pos (s + w - 1) 65535 (q + 1) (r + w - 65535)); lia.
Qed.

Lemma oc_sum_norm ws : Forall is_u16 ws → oc_sum ws = oc_norm (zsum ws).
Proof.
  unfold oc_sum. intros Hws.
  assert (∀ s, 0 <= s → foldl oc_add (oc_norm s) ws = oc_norm (s + zsum ws)) as Hg.
  { induction Hws as [|w ws Hw Hws IH]; intros s Hs; simpl.
    - f_equal. unfold zsum; simpl. lia.
    - rewrite oc_norm_add by (unfold is_u in Hw; lia).
      rewrite IH by (unfold is_u in Hw; lia). f_equal. unfold zsum; simpl. lia. }
  apply (Hg 0). lia.
Qed.

Lemma fold_carries_small fuel s : 0 <= s <= 65535 → fold_carries fuel s = Some s.
Proof.
  intros Hs. destruct fuel; cbn [fold_carries].
  all: rewrite Z.shiftr_div_pow2, Z.div_small by lia; done.
Qed.

Lemma fold_carries_step fuel s :
  65536 <= s <= u32_max →
  fold_carries (S fuel) s = fold_carries fuel (s mod 65536 + s / 65536).
Proof.
  unfold u32_max. intros Hs. cbn [fold_carries].
  change 65535 with (Z.ones 16). rewrite Z.shiftr_div_pow2, Z.land_ones by lia.
  change (2 ^ 16) with 65536. unfold u32_add, u32_max.
  rewrite add_checked_some by (Z.to_euclidean_division_equations; lia).
  cbn [mbind option_bind].
  case_match; [|done]. bool_prop. Z.to_euclidean_division_equations; lia.
Qed.

(** The carry loop ends within two rounds on every [u32] and computes the
    normal form. *)
Lemma fold_carries_spec fuel s :
  (2 <= fuel)%nat → 0 <= s <= u32_max → fold_carries fuel s = Some (oc_norm s).
Proof.
  intros Hf Hs. destruct fuel as [|[|fuel]]; [lia..|]. unfold u32_max in Hs.
  destruct (Z_le_gt_dec s 65535) as [|Hbig].
  { rewrite fold_carries_small, oc_norm_small by lia. done. }
  rewrite fold_carries_step, <- (oc_norm_fold s) by (unfold u32_max; lia).
  set (s1 := s mod 65536 + s / 65536).
  assert (0 <= s1 <= 131070)
    by (unfold s1; Z.to_euclidean_division_equations; lia).
  destruct (Z_le_gt_dec s1 65535).
  { rewrite fold_carries_small, oc_norm_small by lia. done. }
  rewrite fold_carries_step, <- (oc_norm_fold s1) by (unfold u32_max; lia).
  set (s2 := s1 mod 65536 + s1 / 65536).
  assert (0 <= s2 <= 65535)
    by (unfold s2; Z.to_euclidean_division_equations; lia).
  rewrite fold_carries_small, oc_norm_small by lia. done.
Qed.

Lemma not_u16_norm s : 0 <= s → not_u16 (oc_norm s) = 65535 - oc_norm s.
Proof.
  intros Hs. pose proof (oc_norm_range s Hs).
  unfold not_u16, u16_max, as_u16. rewrite Z.mod_small; lia.
Qed.

Lemma oc_norm_complement s :
  0 <= s → oc_norm (s + (65535 - oc_norm s)) = 65535.
Proof.
  intros Hs. pose proof (oc_norm_range s Hs). unfold oc_norm in *.
  destruct (Z.eqb_spec s 0) as [->|]; [reflexivity|].
  pose proof (Z.div_mod (s - 1) 65535 ltac:(lia)) as Hdm.
  set (q := (s - 1) / 65535) in *. set (r := (s - 1) mod 65535) in *.
  destruct (Z.eqb_spec (s + (65535 - (r + 1))) 0); [lia|].
  rewrite <- (Z.mod_unique_pos _ 65535 q 65534); lia.
Qed.

(** The whole checksum, over an accumulated sum [s] and the remaining data. *)
Lemma checksum_tail s data :
  0 <= s → Forall is_u8 data → s + zsum (be_words data) <= u32_max →
  (sum ← sum_chunks s data; sum ← fold_carries fold_fuel sum; Some (not_u16 sum))
  = Some (65535 - oc_norm (s + zsum (be_words data))).
Proof.
  intros Hs Hd Hb. pose proof (zsum_bound _ (be_words_u16 _ Hd)).
  rewrite sum_chunks_spec by done. cbn [mbind option_bind].
  rewrite fold_carries_spec by (unfold fold_fuel; lia). cbn [mbind option_bind].
  rewrite not_u16_norm; [done|lia].
Qed.

Lemma zsum_be_words_bound data :
  Forall is_u8 data →
  0 <= zsum (be_words data) /\
  zsum (be_words data) * 2 <= 65535 * (Z.of_nat (length data) + 1).
Proof.
  intros Hd. pose proof (zsum_bound _ (be_words_u16 _ Hd)).
  pose proof (length_be_words data). lia.
Qed.

Lemma icmp_checksum_value data :
  Forall is_u8 data → Z.of_nat (length data) <= 131072 →
  icmp_checksum data = Some (65535 - oc_norm (zsum (be_words data))).
Proof.
  intros Hd Hl. pose proof (zsum_be_words_bound _ Hd).
  unfold icmp_checksum. rewrite checksum_tail by (done || unfold u32_max; lia). done.
Qed.

(** The words of the TCP pseudo-header. *)
Definition pseudo_words (src dst : Ipv4Addr) (len : Z) : list Z :=
  be_words (tcp_pseudo_header src dst len).

Lemma pseudo_header_u8 src dst len :
  valid_ipv4 src → valid_ipv4 dst → is_u16 len → Forall is_u8 (tcp_pseudo_header src dst len).
Proof.
  intros Hs Hd Hl. unfold valid_ipv4, octets in *. decompose_Forall_hyps. unfold is_u in *.
  repeat constructor; Z.to_euclidean_division_equations; lia.
Qed.

Lemma tcp_words src dst len tcp :
  be_words (tcp_pseudo_header src dst len ++ tcp) = pseudo_words src dst len ++ be_words tcp.
Proof. apply be_words_app. by exists 6%nat. Qed.

Lemma tcp_checksum_value src dst tcp :
  valid_ipv4 src → valid_ipv4 dst → Forall is_u8 tcp →
  Z.of_nat (length tcp) <= 65535 →
  tcp_checksum src dst tcp =
  Some (65535 - oc_norm (zsum (pseudo_words src dst (Z.of_nat (length tcp)))
                         + zsum (be_words tcp))).
Proof.
  intros Hs Hd Ht Hl. destruct (zsum_be_words_bound _ Ht).
  unfold valid_ipv4, octets in *. decompose_Forall_hyps.
  unfold pseudo_words, zsum, from_be_bytes_u16; cbn. unfold zsum in *.
  pose proof (Z.div_mod (Z.of_nat (length tcp)) 256 ltac:(lia)) as Hlen.
  unfold tcp_checksum, u32_add, as_u16, from_be_bytes_u16.
  rewrite (Z.mod_small (Z.of_nat (length tcp))) by lia. unfold is_u, u32_max in *.
  do 6 (rewrite add_checked_some by lia; cbn [mbind option_bind]).
  rewrite checksum_tail; unfold zsum, u32_max; try (done || lia).
  do 3 f_equal. lia.
Qed.

(** Writing the checksum into the zeroed field makes the sum verify. *)
Lemma zsum_patched pre suf ck :
  is_u16 ck → Nat.Even (length pre) →
  zsum (be_words (pre ++ to_be_bytes_u16 ck ++ suf))
  = zsum (be_words (pre ++ 0 :: 0 :: suf)) + ck.
Proof.
  intros Hck He. rewrite !(be_words_app pre) by done.
  pose proof (u16_bytes_roundtrip ck Hck) as Hr.
  unfold to_be_bytes_u16. cbn [app be_words].
  rewrite !zsum_app, !zsum_cons, Hr. unfold from_be_bytes_u16. lia.
Qed.

Lemma patched_bytes pre suf ck :
  is_u16 ck → Forall is_u8 (pre ++ 0 :: 0 :: suf) →
  Forall is_u8 (pre ++ to_be_bytes_u16 ck ++ suf).
Proof.
  intros Hck. rewrite !Forall_app. intros (?&Hs). decompose_Forall_hyps. split_and!; auto with rs.
Qed.

Lemma complement_u16 s : 0 <= s → is_u16 (65535 - oc_norm s).
Proof. intros Hs. pose proof (oc_norm_range s Hs). unfold is_u. lia. Qed.

Lemma icmp_checksum_patched pre suf ck :
  Nat.Even (length pre) → Forall is_u8 (pre ++ 0 :: 0 :: suf) →
  Z.of_nat (length (pre ++ 0 :: 0 :: suf)) <= 131072 →
  icmp_checksum (pre ++ 0 :: 0 :: suf) = Some ck →
  is_u16 ck ∧ icmp_checksum (pre ++ to_be_bytes_u16 ck ++ suf) = Some 0.
Proof.
  intros He Hd Hl Hck. pose proof (zsum_be_words_bound _ Hd).
  rewrite icmp_checksum_value in Hck by done. apply (inj Some) in Hck as <-.
  assert (is_u16 (65535 - oc_norm (zsum (be_words (pre ++ 0 :: 0 :: suf))))) as Hu
    by (apply complement_u16; lia).
  split; [done|].
  rewrite icmp_checksum_value;
    [| by apply patched_bytes
     | revert Hl; rewrite !length_app; unfold to_be_bytes_u16; simpl; lia ].
  rewrite zsum_patched by done. rewrite oc_norm_complement by lia. done.
Qed.

Lemma pseudo_words_nonneg src dst len :
  valid_ipv4 src → valid_ipv4 dst → 0 <= len → 0 <= zsum (pseudo_words src dst len).
Proof.
  intros Hs Hd Hl. unfold valid_ipv4, octets in *. decompose_Forall_hyps.
  unfold pseudo_words, zsum, from_be_bytes_u16, is_u in *; cbn.
  Z.to_euclidean_division_equations; lia.
Qed.

(** [tcp_checksum] is the RFC 1071 checksum of pseudo-header and segment. *)
Lemma tcp_checksum_rfc1071 src dst tcp :
  valid_ipv4 src → valid_ipv4 dst → Forall is_u8 tcp → Z.of_nat (length tcp) <= 65535 →
  tcp_checksum src dst tcp
  = Some (rfc1071 (be_words (tcp_pseudo_header src dst (Z.of_nat (length tcp)) ++ tcp))).
Proof.
  intros Hs Hd Ht Hl. rewrite tcp_checksum_value by done. unfold rfc1071.
  rewrite oc_sum_norm, tcp_words, zsum_app; [done|].
  apply be_words_u16, Forall_app. split; [apply pseudo_header_u8; unfold is_u; (done || lia)|done].
Qed.

(** A segment whose checksum comes out as zero is one its receiver accepts. *)
Lemma tcp_checksum_accepts src dst tcp :
  valid_ipv4 src → valid_ipv4 dst → Forall is_u8 tcp → Z.of_nat (length tcp) <= 65535 →
  tcp_checksum src dst tcp = Some 0 → tcp_accepts src dst tcp.
Proof.
  intros Hs Hd Ht Hl. rewrite tcp_checksum_rfc1071 by done. unfold rfc1071, tcp_accepts.
  intros Hz%(inj Some). lia.
Qed.

Lemma tcp_checksum_patched src dst pre suf ck :
  valid_ipv4 src → valid_ipv4 dst →
  Nat.Even (length pre) → Forall is_u8 (pre ++ 0 :: 0 :: suf) →
  Z.of_nat (length (pre ++ 0 :: 0 :: suf)) <= 65535 →
  tcp_checksum src dst (pre ++ 0 :: 0 :: suf) = Some ck →
  is_u16 ck ∧ tcp_checksum src dst (pre ++ to_be_bytes_u16 ck ++ suf) = Some 0.
Proof.
  intros Hs Hdst He Hd Hl Hck. destruct (zsum_be_words_bound _ Hd).
  rewrite tcp_checksum_value in Hck by done. apply (inj Some) in Hck.
  pose proof (pseudo_words_nonneg src dst
    (Z.of_nat (length (pre ++ 0 :: 0 :: suf))) Hs Hdst ltac:(lia)).
  assert (length (pre ++ 0 :: 0 :: suf) = length (pre ++ to_be_bytes_u16 ck ++ suf))
    as Hlen by (unfold to_be_bytes_u16; rewrite !length_app; done).
  assert (is_u16 ck) as Hu by (rewrite <- Hck; apply complement_u16; lia).
  split; [done|].
  rewrite tcp_checksum_value; try done;
    [| by apply patched_bytes | by rewrite <- Hlen ].
  rewrite zsum_patched, <- Hlen, Z.add_assoc by done.
  rewrite <- Hck at 1. rewrite oc_norm_complement by lia. done.
Qed.

(** ** Theorems *)

(** C19. [icmp_checksum] is the RFC 1071 Internet checksum: on every byte
    string up to 131072 bytes neither the [u32] accumulator overflows nor the
    carry loop runs on, and the result is the ones' complement of the ones'
    complement (end-around-carry) sum of the big-endian words. *)
Theorem icmp_checksum_rfc1071 data :
  Forall is_u8 data → Z.of_nat (length data) <= 131072 →
  icmp_checksum data = Some (rfc1071 (be_words data)).
Proof.
  intros Hd Hl. rewrite icmp_checksum_value by done.
  unfold rfc1071. by rewrite oc_sum_norm by auto using be_words_u16.
Qed.

Lemma icmp_checksum_rfc1071_witness :
  icmp_checksum [8; 0; 255; 255; 255; 1; 7]
  = Some (rfc1071 (be_words [8; 0; 255; 255; 255; 1; 7])).
Proof.
  apply (icmp_checksum_rfc1071 [8; 0; 255; 255; 255; 1; 7]).
  - repeat constructor; discriminate.
  - vm_compute. discriminate.
Defined.

(** What a receiver checks of an ICMP request. *)
Definition icmp_request_ok (ty ident seq : Z) (body : list Z) (p : list Z) : Prop :=
  length p = (8 + length body)%nat ∧ nth 0 p 0 = ty ∧ nth 1 p 0 = 0 ∧
  from_be_bytes_u16 (nth 4 p 0) (nth 5 p 0) = ident ∧
  from_be_bytes_u16 (nth 6 p 0) (nth 7 p 0) = seq ∧
  drop 8 p = body ∧ icmp_checksum p = Some 0.

Lemma icmp_request_patched ty ident seq body :
  is_u8 ty → is_u16 ident → is_u16 seq → Forall is_u8 body →
  Z.of_nat (length body) <= 65535 →
  let p0 := [ty; 0; 0; 0] ++ to_be_bytes_u16 ident ++ to_be_bytes_u16 seq ++ body in
  ∃ ck, icmp_checksum p0 = Some ck ∧
    icmp_request_ok ty ident seq body (take 2 p0 ++ to_be_bytes_u16 ck ++ drop 4 p0).
Proof.
  intros Ht Hi Hs Hb Hl p0.
  assert (Forall is_u8 p0) as Hp.
  { unfold p0. rewrite !Forall_app. split_and!; auto with rs.
    repeat constructor; unfold is_u in *; lia. }
  assert (Z.of_nat (length p0) <= 131072)
    by (unfold p0, to_be_bytes_u16; rewrite !length_app; simpl; lia).
  pose proof (icmp_checksum_value p0 Hp ltac:(done)) as Hck.
  eexists. split; [exact Hck|].
  destruct (icmp_checksum_patched [ty; 0] (drop 4 p0) _
    ltac:(by exists 1%nat) Hp ltac:(done) Hck) as [_ Hz].
  pose proof (u16_bytes_roundtrip _ Hi). pose proof (u16_bytes_roundtrip _ Hs).
  split_and!; try done.
Qed.

Lemma icmp_echo_built ident seq :
  is_u16 ident → is_u16 seq →
  ∃ p, build_icmp_echo ident seq = Some p ∧ icmp_request_ok 8 ident seq echo_payload p.
Proof.
  intros Hi Hs.
  destruct (icmp_request_patched 8 ident seq echo_payload) as (ck & Hck & Hok);
    [unfold is_u; lia|done|done|repeat constructor; unfold is_u; lia|done|].
  unfold build_icmp_echo, echo_payload. cbn [zeroes replicate app to_be_bytes_u16] in Hck.
  eexists. split; [repeat packet_step; unfold echo_payload in Hck; rewrite Hck|exact Hok].
  by packet_step.
Qed.

Lemma icmp_timestamp_built ident seq :
  is_u16 ident → is_u16 seq →
  ∃ p, build_icmp_timestamp ident seq = Some p ∧ icmp_request_ok 13 ident seq (zeroes 12) p.
Proof.
  intros Hi Hs.
  destruct (icmp_request_patched 13 ident seq (zeroes 12)) as (ck & Hck & Hok);
    [unfold is_u; lia|done|done|repeat constructor; unfold is_u; lia|done|].
  unfold build_icmp_timestamp. cbn [zeroes replicate app to_be_bytes_u16] in Hck.
  eexists. split; [repeat packet_step; rewrite Hck|exact Hok]. by packet_step.
Qed.

(** C20. For every identifier and sequence number both ICMP builders succeed
    (no array write panics, no sum overflows), produce packets of the declared
    length and type that carry the two fields and the payload, and the packet
    with its checksum in place sums to zero. *)
Theorem icmp_requests_verify ident seq :
  is_u16 ident → is_u16 seq →
  (∃ p, build_icmp_echo ident seq = Some p
        ∧ icmp_request_ok 8 ident seq echo_payload p) ∧
  (∃ p, build_icmp_timestamp ident seq = Some p
        ∧ icmp_request_ok 13 ident seq (zeroes 12) p).
Proof. auto using icmp_echo_built, icmp_timestamp_built. Qed.

Lemma icmp_requests_verify_witness :
  (∃ p, build_icmp_echo 4660 1 = Some p ∧ icmp_request_ok 8 4660 1 echo_payload p) ∧
  (∃ p, build_icmp_timestamp 4660 1 = Some p
        ∧ icmp_request_ok 13 4660 1 (zeroes 12) p).
Proof. apply (icmp_requests_verify 4660 1); split; discriminate. Defined.

(** What the receiver of the bare-FIN segment checks. *)
Definition fin_segment_ok (src dst : Ipv4Addr) (sport dport seq : Z) (p : list Z)
    : Prop :=
  length p = 20%nat ∧
  from_be_bytes_u16 (nth 0 p 0) (nth 1 p 0) = sport ∧
  from_be_bytes_u16 (nth 2 p 0) (nth 3 p 0) = dport ∧
  from_be_bytes_u16 (nth 4 p 0) (nth 5 p 0) * 65536
    + from_be_bytes_u16 (nth 6 p 0) (nth 7 p 0) = seq ∧
  Z.shiftr (from_be_bytes_u16 (nth 12 p 0) (nth 13 p 0)) 12 = 5 ∧
  Z.land (from_be_bytes_u16 (nth 12 p 0) (nth 13 p 0)) 511 = 1 ∧
  Forall is_u8 p ∧ tcp_accepts src dst p.

Lemma fin_built src dst sport dport seq :
  valid_ipv4 src → valid_ipv4 dst → is_u16 sport → is_u16 dport → is_u32 seq →
  ∃ p, build_fin src dst sport dport seq = Some p
       ∧ fin_segment_ok src dst sport dport seq p.
Proof.
  intros Hsrc Hdst Hs Hd Hq.
  pose (hi := seq / 65536). pose (lo := seq mod 65536).
  assert (is_u16 hi ∧ is_u16 lo ∧ hi * 65536 + lo = seq) as (Hhi & Hlo & Hsq)
    by (unfold is_u, hi, lo in *; Z.to_euclidean_division_equations; lia).
  pose (pre := to_be_bytes_u16 sport ++ to_be_bytes_u16 dport
        ++ to_be_bytes_u16 hi ++ to_be_bytes_u16 lo
        ++ [0; 0; 0; 0; 80; 1; 4; 0]).
  assert (Forall is_u8 (pre ++ [0; 0; 0; 0])) as Hp.
  { unfold pre. rewrite !Forall_app. split_and!; auto with rs.
    all: repeat constructor; unfold is_u; lia. }
  pose proof (tcp_checksum_value src dst _ Hsrc Hdst Hp ltac:(done)) as Hck.
  destruct (tcp_checksum_patched src dst pre [0; 0] _ Hsrc Hdst
    ltac:(by exists 8%nat) Hp ltac:(done) Hck) as [Hu Hz].
  eexists. split.
  - unfold build_fin. repeat packet_step. cbn [Z.shiftl Z.lor Z.div Z.modulo].
    unfold pre, to_be_bytes_u16 in Hck. cbn [app] in Hck.
    change (Z.lor (Z.shiftl 5 12) 1) with 20481.
    change (20481 / 256) with 80. change (20481 mod 256) with 1.
    change (1024 / 256) with 4. change (1024 mod 256) with 0.
    fold hi lo. rewrite Hck. packet_step. reflexivity.
  - pose proof (u16_bytes_roundtrip _ Hs). pose proof (u16_bytes_roundtrip _ Hd).
    pose proof (u16_bytes_roundtrip _ Hhi). pose proof (u16_bytes_roundtrip _ Hlo).
    pose proof (patched_bytes pre [0; 0] _ Hu Hp) as Hb.
    split_and!; try done; [simpl nth; congruence|]. by apply tcp_checksum_accepts.
Qed.

(** C18. [build_fin] succeeds for all ports, sequence numbers and addresses: a
    20-byte segment carrying the three numbers, data offset five words, FIN
    the only flag, and a checksum that the receiver accepts: with it the ones'
    complement sum (RFC 1071) of the pseudo-header RFC 793 prescribes and the
    segment is all ones. *)
Theorem build_fin_verifies src dst sport dport seq :
  valid_ipv4 src → valid_ipv4 dst → is_u16 sport → is_u16 dport → is_u32 seq →
  ∃ p, build_fin src dst sport dport seq = Some p
       ∧ fin_segment_ok src dst sport dport seq p.
Proof. exact (fin_built src dst sport dport seq). Qed.

Lemma build_fin_verifies_witness :
  ∃ p, build_fin (ipv4 10 0 0 1) (ipv4 10 0 0 2) 40000 9011 1 = Some p
       ∧ fin_segment_ok (ipv4 10 0 0 1) (ipv4 10 0 0 2) 40000 9011 1 p.
Proof.
  apply build_fin_verifies; try (split; discriminate);
    repeat constructor; discriminate.
Defined.


(** The echo-reply matcher accepts exactly the frames made of an IPv4
    header of the length its IHL nibble declares, followed by an ICMP message
    of at least six bytes whose type is 0 and whose identifier is ours; it
    answers on every captured frame, short and malformed ones included. *)
Theorem is_matching_echo_reply_iff frame ident :
  is_matching_echo_reply frame ident = true ↔
  ∃ hdr code c1 c2 hi lo rest,
    frame = hdr ++ [0; code; c1; c2; hi; lo] ++ rest ∧
    (∃ first, head frame = Some first ∧
       length hdr = (Z.to_nat (Z.land first 15) * 4)%nat) ∧
    from_be_bytes_u16 hi lo = ident.
Proof.
  unfold is_matching_echo_reply. destruct frame as [|first rest].
  { split; [done|]. by intros (?&?&?&?&?&?&?&?&(?&?&?)&?). }
  set (ihl := (Z.to_nat (Z.land first 15) * 4)%nat). split.
  - intros H. bool_prop. apply bool_decide_eq_true in H.
    set (frame := first :: rest) in *.
    assert (ihl `min` length frame = ihl)%nat as Hmin
      by (rewrite length_drop in H; lia).
    rewrite Hmin in *. pose proof (take_drop ihl frame) as Htd.
    destruct (drop ihl frame) as [|b0 [|b1 [|b2 [|b3 [|b4 [|b5 tl]]]]]] eqn:Hd;
      simpl length in H; try lia. cbn [nth] in *. subst b0.
    exists (take ihl frame), b1, b2, b3, b4, b5, tl. split_and!; [done| |done].
    exists first. split; [done|]. rewrite length_take. lia.
  - intros (hdr&code&c1&c2&hi&lo&tl&Hf&(f&[= <-]&Hl)&Hid).
    fold ihl in Hl. rewrite Hf, length_app, Nat.min_l by (simpl; lia).
    rewrite <- Hl, drop_app_length.
    rewrite bool_decide_true by (simpl; lia). simpl. by apply Z.eqb_eq.
Qed.

(** C38. [build_arp_reply] never panics and lays out the 42-byte gratuitous ARP
    reply: broadcast destination, our hardware address as Ethernet source and
    ARP sender, EtherType 0x0806, hardware type 1, protocol 0x0800, sizes 6 and
    4, opcode 2, and the claimed address as both sender and target protocol
    address. *)
Theorem build_arp_reply_frame m0 m1 m2 m3 m4 m5 ip :
  build_arp_reply [m0; m1; m2; m3; m4; m5] ip =
  Some ([255; 255; 255; 255; 255; 255] ++ [m0; m1; m2; m3; m4; m5] ++ [8; 6]
        ++ [0; 1] ++ [8; 0] ++ [6; 4] ++ [0; 2]
        ++ [m0; m1; m2; m3; m4; m5] ++ octets ip
        ++ [255; 255; 255; 255; 255; 255] ++ octets ip).
Proof. destruct ip. reflexivity. Qed.
