(* ===== verification/Cli.v ===== *)
(** * Command line surface

    The argument types of [cli.rs] and [agent/cli.rs]. The parser itself is
    generated by [clap]; it is an interface ([Clap]) with the one law the
    orchestrator relies on when it builds a worker's command line, and
    [traffic_spec]/[traffic_args_of] transcribe the attributes of
    [TrafficArgs]. *)

From S2P Require Import Prelude RustInt RustStr RustNet.

(** ** [cli.rs] *)

Inductive ReportConfirm := Local | Server | Vsoc.
Inductive Mode := Android | Host.

#[export] Instance ReportConfirm_eq_dec : EqDecision ReportConfirm.
Proof. solve_decision. Defined.
#[export] Instance Mode_eq_dec : EqDecision Mode.
Proof. solve_decision. Defined.

(** [format!("{:?}", mode).to_lowercase()] *)
Definition mode_debug (m : Mode) : string :=
  match m with Android => "Android" | Host => "Host" end.

Record GlobalArgs := {
  config : option string;
  mode : Mode;
  peer_netns : string;
  vsoc_cert : option string;
  vsoc_key : option string;
  vsoc_cacert : option string;
  target_iface : string;
  peer_iface : string;
  target_ip : option IpAddr;
  peer_ip : option IpAddr;
  veth_prefix : Z;
  acd : Z;
  fun_fw : Z;
  fun_traffic : Z;
  reload_timeout_secs : Z;
  event_settle_ms : Z;
  report_confirm : ReportConfirm;
  vsoc_url : option string;
  idps_fw : string;
  state_db : string;
  app_uid : Z;
  app_identity_key : string;
  app_pkg : string;
  app_name : string;
  report : option string;
  json_flag : bool;
}.

(** The [default_value] attributes. *)
Definition default_args : GlobalArgs := {|
  config := None;
  mode := Host;
  peer_netns := "fwpeer";
  vsoc_cert := None;
  vsoc_key := None;
  vsoc_cacert := None;
  target_iface := "fwt0";
  peer_iface := "fwp0";
  target_ip := None;
  peer_ip := None;
  veth_prefix := 24;
  acd := 1;
  fun_fw := 1;
  fun_traffic := 4;
  reload_timeout_secs := 30;
  event_settle_ms := 1500;
  report_confirm := Local;
  vsoc_url := None;
  idps_fw := "idps-fw";
  state_db := "/data/idd/idps-fw/state.sqlite3";
  app_uid := 2000;
  app_identity_key := "com.demo.browser";
  app_pkg := "com.demo.browser";
  app_name := "Browser";
  report := None;
  json_flag := false;
|}.

(** ** [agent/cli.rs] *)

Record ProvisionArgs := {
  pa_acd : Z;
  pa_fun : Z;
  pa_prot_ver : Z;
  pa_ver : option Z;
  pa_input : string;
  pa_config : string;
  pa_keystore : string;
}.

Record EventQueryArgs := { eq_db : string; eq_since : Z }.

Inductive Proto := Tcp | Udp | Icmp.
Inductive IcmpKind := Echo | Timestamp.

#[export] Instance Proto_eq_dec : EqDecision Proto.
Proof. solve_decision. Defined.
#[export] Instance IcmpKind_eq_dec : EqDecision IcmpKind.
Proof. solve_decision. Defined.

Record TrafficArgs := {
  ta_proto : Proto;
  ta_to : IpAddr;
  ta_dport : option Z;
  ta_dports : option string;
  ta_sport : option Z;
  ta_count : Z;
  ta_interval_ms : Z;
  ta_timeout_ms : Z;
  ta_await_reply : bool;
  ta_fin_only : bool;
  ta_icmp_type : IcmpKind;
  ta_uid : option Z;
}.

Record ConnFloodArgs := {
  cf_to : IpAddr;
  cf_dport : Z;
  cf_count : Z;
  cf_hold_secs : Z;
  cf_timeout_ms : Z;
}.

Record ArpSpoofArgs := {
  as_iface : string;
  as_claim_ip : Ipv4Addr;
  as_count : Z;
}.

Record ReportQueryArgs := {
  rq_db : string;
  rq_since : Z;
  rq_report_type : option string;
}.

Inductive ListenProto := ListenTcp | ListenUdp.

Record ListenArgs := {
  la_proto : ListenProto;
  la_port : Z;
  la_duration_secs : Z;
  la_hold : bool;
}.

Inductive AgentCommand :=
  | ProvisionRule (args : ProvisionArgs)
  | DumpEvents (args : EventQueryArgs)
  | ReportStatus (args : EventQueryArgs)
  | Traffic (args : TrafficArgs)
  | Listen (args : ListenArgs)
  | ConnFlood (args : ConnFloodArgs)
  | ArpSpoof (args : ArpSpoofArgs)
  | DumpReports (args : ReportQueryArgs)
  | Now.

Inductive Command :=
  | SetupEnv
  | CleanEnv
  | Preflight
  | List
  | Run (id : string)
  | RunGroup (group : string)
  | RunAll
  | Provision (rules_file : string) (traffic_cycle : option Z)
  | ResetRules
  | Health
  | Stats
  | Agent (command : AgentCommand).

Record Cli := { global : GlobalArgs; command : Command }.

(** ** The generated parser of [agent traffic] *)

(** The long options of a subcommand and whether they take a value. *)
Definition OptSpec : Type := list (string * bool).

(** What the parser hands over: positionals, and the options in order. *)
Definition Matches : Type := list string * list (string * option string).

(** An option as written on a command line. *)
Definition render_opt (o : string * option string) : list string :=
  ("--" +:+ o.1) :: match o.2 with Some v => [v] | None => [] end.

Definition opt_allowed (spec : OptSpec) (o : string * option string) : Prop :=
  (o.1, bool_decide (is_Some o.2)) ∈ spec ∧
  match o.2 with Some v => String.prefix "-" v = false | None => True end.

Class Clap := { clap_parse : OptSpec → list string → option Matches }.

(** [--name value] and [--flag] groups after the positionals are read in
    order, when each option is declared, given once and its value does not
    look like an option. *)
Class ClapLaws `{!Clap} : Prop := clap_parse_canonical spec pos opts :
  NoDup (spec.*1) → Forall (λ p, String.prefix "-" p = false) pos →
  Forall (opt_allowed spec) opts → NoDup (opts.*1) →
  clap_parse spec (pos ++ concat (map render_opt opts)) = Some (pos, opts).

(** The [#[arg(long)]] fields of [TrafficArgs]; a [bool] field is a flag. *)
Definition traffic_spec : OptSpec :=
  [("to", true); ("dport", true); ("dports", true); ("sport", true);
   ("count", true); ("interval-ms", true); ("timeout-ms", true);
   ("await-reply", false); ("fin-only", false); ("icmp-type", true);
   ("uid", true)].

(** The [ValueEnum] names. *)
Definition parse_proto (s : string) : option Proto :=
  if decide (s = "tcp") then Some Tcp
  else if decide (s = "udp") then Some Udp
  else if decide (s = "icmp") then Some Icmp else None.
Definition parse_icmp_kind (s : string) : option IcmpKind :=
  if decide (s = "echo") then Some Echo
  else if decide (s = "timestamp") then Some Timestamp else None.

Definition u64_max : Z := 2 ^ 64 - 1.

(** [i32::from_str]. *)
Definition parse_i32 (s : string) : option Z :=
  match s with
  | String "-" s => n ← parse_digits 2147483648 s; Some (- n)
  | _ => parse_uint 2147483647 s
  end.

Fixpoint lookup_opt (k : string) (l : list (string * option string))
    : option (option string) :=
  match l with
  | [] => None
  | (k', v) :: l => if decide (k = k') then Some v else lookup_opt k l
  end.

(** An optional, a defaulted and a flag argument. *)
Definition opt_arg {A} (parse : string → option A) (k : string) (m : Matches)
    : option (option A) :=
  match lookup_opt k m.2 with
  | Some (Some s) => Some <$> parse s
  | Some None => None
  | None => Some None
  end.
Definition default_arg {A} (parse : string → option A) (k : string) (d : A)
    (m : Matches) : option A := default d <$> opt_arg parse k m.
Definition flag_arg (k : string) (m : Matches) : bool :=
  bool_decide (is_Some (lookup_opt k m.2)).

(** [TrafficArgs] from its matches, field by field. *)
Definition traffic_args_of (m : Matches) : option TrafficArgs :=
  proto ← (match m.1 with [p] => parse_proto p | _ => None end);
  to ← (opt_arg parse_ip "to" m ≫= id);
  dport ← opt_arg (parse_uint 65535) "dport" m;
  dports ← opt_arg Some "dports" m;
  sport ← opt_arg (parse_uint 65535) "sport" m;
  count ← default_arg (parse_uint u32_max) "count" 1 m;
  interval_ms ← default_arg (parse_uint u64_max) "interval-ms" 0 m;
  timeout_ms ← default_arg (parse_uint u64_max) "timeout-ms" 1000 m;
  icmp_type ← default_arg parse_icmp_kind "icmp-type" Echo m;
  uid ← opt_arg (parse_uint u32_max) "uid" m;
  Some {| ta_proto := proto; ta_to := to; ta_dport := dport; ta_dports := dports;
          ta_sport := sport; ta_count := count; ta_interval_ms := interval_ms;
          ta_timeout_ms := timeout_ms; ta_await_reply := flag_arg "await-reply" m;
          ta_fin_only := flag_arg "fin-only" m; ta_icmp_type := icmp_type;
          ta_uid := uid |}.

Definition parse_traffic `{!Clap} (argv : list string) : option TrafficArgs :=
  clap_parse traffic_spec argv ≫= traffic_args_of.

(** ** A simple parser, which satisfies the law *)

Fixpoint lookup_spec (k : string) (spec : OptSpec) : option bool :=
  match spec with
  | [] => None
  | (k', b) :: spec => if decide (k = k') then Some b else lookup_spec k spec
  end.

Fixpoint simple_parse (spec : OptSpec) (argv : list string) : option Matches :=
  match argv with
  | [] => Some ([], [])
  | String "-" (String "-" name) :: rest =>
      takes ← lookup_spec name spec;
      if (takes : bool) then
        match rest with
        | v :: rest =>
            m ← simple_parse spec rest; Some (m.1, (name, Some v) :: m.2)
        | [] => None
        end
      else m ← simple_parse spec rest; Some (m.1, (name, None) :: m.2)
  | p :: rest => m ← simple_parse spec rest; Some (p :: m.1, m.2)
  end.

Definition simple_clap : Clap := {| clap_parse := simple_parse |}.

Lemma lookup_spec_elem spec k b :
  NoDup (spec.*1) → (k, b) ∈ spec → lookup_spec k spec = Some b.
Proof.
  induction spec as [|[k' b'] spec IH]; simpl; intros Hnd Hin; [by inversion Hin|].
  apply list.NoDup_cons in Hnd as [Hk Hnd].
  apply elem_of_cons in Hin as [[= <- <-]|Hin]; [by rewrite decide_True|].
  destruct (decide (k = k')) as [->|]; [|by apply IH].
  exfalso. apply Hk. by apply (list_elem_of_fmap_2 fst) in Hin.
Qed.

Lemma simple_parse_pos spec p rest :
  String.prefix "-" p = false →
  simple_parse spec (p :: rest) = m ← simple_parse spec rest; Some (p :: m.1, m.2).
Proof.
  intros Hp. cbn [simple_parse]. destruct p as [|c [|c' p]]; [done|..].
  - by destruct c as [[] [] [] [] [] [] [] []].
  - destruct (decide (c = "-"%char)) as [->|Hc].
    + done.
    + by destruct c as [[] [] [] [] [] [] [] []].
Qed.

#[export] Instance simple_clap_laws : @ClapLaws simple_clap.
Proof.
  intros spec pos opts Hspec Hpos Hopts _. cbn [clap_parse simple_clap].
  assert (simple_parse spec (concat (map render_opt opts)) = Some ([], opts)) as Ho.
  { induction Hopts as [|[k v] opts [Hk Hv] Hopts IH]; [done|]. simpl in Hk.
    cbn [map concat render_opt fst snd app].
    change ("--" +:+ k) with (String "-" (String "-" k)). cbn [simple_parse].
    rewrite (lookup_spec_elem _ _ _ Hspec Hk). cbn [mbind option_bind].
    destruct v as [v|].
    - rewrite bool_decide_true by eauto. cbn [app]. rewrite IH. done.
    - rewrite bool_decide_false by (by intros [? ?]). cbn [app]. rewrite IH. done. }
  induction Hpos as [|p pos Hp Hpos IH]; [done|].
  rewrite <- app_comm_cons, simple_parse_pos by done. by rewrite IH.
Qed.
