(* ===== verification/AgentCli.v ===== *)
(** * The worker's command line ([agent/cli.rs])

    What [clap] makes of [fw-verify agent <sub> ..]: the attributes of every
    subcommand but [traffic] (which is in [Cli]), transcribed, and the choice
    of the subcommand by its name. An option that is given twice, or one of
    the global options after the subcommand, is outside the transcription. *)

From S2P Require Import Prelude RustInt RustStr RustNet Cli.

(** ** Arguments *)

(** A required option. *)
Definition req_arg {A} (parse : string → option A) (k : string) (m : Matches) : option A :=
  opt_arg parse k m ≫= id.

(** The single positional argument, and no positional argument. *)
Definition one_pos {A} (parse : string → option A) (m : Matches) : option A :=
  match m.1 with [s] => parse s | _ => None end.
Definition no_pos (m : Matches) : option unit :=
  match m.1 with [] => Some tt | _ => None end.

(** [i64::from_str]. *)
Definition parse_i64 (s : string) : option Z :=
  match s with
  | String "-" s => n ← parse_digits (2 ^ 63) s; Some (- n)
  | _ => parse_uint (2 ^ 63 - 1) s
  end.

Definition provision_spec : OptSpec :=
  [("acd", true); ("fun", true); ("prot-ver", true); ("ver", true); ("input", true);
   ("config", true); ("keystore", true)].
Definition provision_args_of (m : Matches) : option ProvisionArgs :=
  _ ← no_pos m;
  acd ← default_arg parse_i32 "acd" 1 m;
  fun' ← default_arg parse_i32 "fun" 1 m;
  prot_ver ← default_arg parse_i32 "prot-ver" 1 m;
  ver ← opt_arg parse_i32 "ver" m;
  input ← req_arg Some "input" m;
  config ← default_arg Some "config" "/etc/idd/idps.yaml" m;
  keystore ← default_arg Some "keystore" "/data/idd/keys" m;
  Some {| pa_acd := acd; pa_fun := fun'; pa_prot_ver := prot_ver; pa_ver := ver;
          pa_input := input; pa_config := config; pa_keystore := keystore |}.

Definition default_db : string := "/data/idd/idps-fw/state.sqlite3".
Definition query_spec : OptSpec := [("db", true); ("since", true)].
Definition query_args_of (m : Matches) : option EventQueryArgs :=
  _ ← no_pos m;
  db ← default_arg Some "db" default_db m;
  since ← default_arg parse_i64 "since" 0 m;
  Some {| eq_db := db; eq_since := since |}.

Definition report_spec : OptSpec := [("db", true); ("since", true); ("report-type", true)].
Definition report_args_of (m : Matches) : option ReportQueryArgs :=
  _ ← no_pos m;
  db ← default_arg Some "db" default_db m;
  since ← default_arg parse_i64 "since" 0 m;
  report_type ← opt_arg Some "report-type" m;
  Some {| rq_db := db; rq_since := since; rq_report_type := report_type |}.

Definition parse_listen_proto (s : string) : option ListenProto :=
  if decide (s = "tcp") then Some ListenTcp
  else if decide (s = "udp") then Some ListenUdp else None.
Definition listen_spec : OptSpec := [("port", true); ("duration-secs", true); ("hold", false)].
Definition listen_args_of (m : Matches) : option ListenArgs :=
  proto ← one_pos parse_listen_proto m;
  port ← req_arg (parse_uint u16_max) "port" m;
  duration ← default_arg (parse_uint u64_max) "duration-secs" 60 m;
  Some {| la_proto := proto; la_port := port; la_duration_secs := duration;
          la_hold := flag_arg "hold" m |}.

Definition flood_spec : OptSpec :=
  [("to", true); ("dport", true); ("count", true); ("hold-secs", true); ("timeout-ms", true)].
Definition flood_args_of (m : Matches) : option ConnFloodArgs :=
  _ ← no_pos m;
  to ← req_arg parse_ip "to" m;
  dport ← req_arg (parse_uint u16_max) "dport" m;
  count ← default_arg (parse_uint u32_max) "count" 60 m;
  hold ← default_arg (parse_uint u64_max) "hold-secs" 15 m;
  timeout ← default_arg (parse_uint u64_max) "timeout-ms" 2000 m;
  Some {| cf_to := to; cf_dport := dport; cf_count := count; cf_hold_secs := hold;
          cf_timeout_ms := timeout |}.

Definition arp_spec : OptSpec := [("iface", true); ("claim-ip", true); ("count", true)].
Definition arp_args_of (m : Matches) : option ArpSpoofArgs :=
  _ ← no_pos m;
  iface ← req_arg Some "iface" m;
  claim ← req_arg parse_ipv4 "claim-ip" m;
  count ← default_arg (parse_uint u32_max) "count" 5 m;
  Some {| as_iface := iface; as_claim_ip := claim; as_count := count |}.

(** ** Subcommands *)

Section parse.
  Context `{!Clap}.

Definition sub_args {A} (spec : OptSpec) (build : Matches → option A) (rest : list string)
    : option A := clap_parse spec rest ≫= build.

Definition parse_agent (argv : list string) : option AgentCommand :=
  match argv with
  | [] => None
  | name :: rest =>
      if String.eqb name "provision-rule" then
        ProvisionRule <$> sub_args provision_spec provision_args_of rest
      else if String.eqb name "dump-events" then
        DumpEvents <$> sub_args query_spec query_args_of rest
      else if String.eqb name "report-status" then
        ReportStatus <$> sub_args query_spec query_args_of rest
      else if String.eqb name "traffic" then Traffic <$> parse_traffic rest
      else if String.eqb name "listen" then Listen <$> sub_args listen_spec listen_args_of rest
      else if String.eqb name "conn-flood" then
        ConnFlood <$> sub_args flood_spec flood_args_of rest
      else if String.eqb name "arp-spoof" then
        Cli.ArpSpoof <$> sub_args arp_spec arp_args_of rest
      else if String.eqb name "dump-reports" then
        DumpReports <$> sub_args report_spec report_args_of rest
      else if String.eqb name "now" then
        (λ _, Now) <$> sub_args [] no_pos rest
      else None
  end.

End parse.
