(* ===== verification/Exec.v ===== *)
(** * Endpoints: running commands on either side ([exec.rs])

    The TARGET is the local namespace, the PEER is reached by entering a
    network namespace. Worker steps re-execute the same binary and their JSON
    output is parsed back. *)

From S2P Require Import Prelude RustInt RustStr RustNet Effects Sim.

Inductive Endpoint :=
  | EpLocal
  | EpNetns (name : string).

(** [Endpoint::label]. *)
Definition label (self : Endpoint) : string :=
  match self with
  | EpLocal => "target"
  | EpNetns name => "peer:" +:+ name
  end.

(** ** Parsing command output *)

(** [Iterator::skip_while]. *)
Fixpoint skip_while {A} (p : A → bool) (l : list A) : list A :=
  match l with
  | [] => []
  | a :: l' => if p a then skip_while p l' else l
  end.

Section parsing.
  Context `{!Anyhow}.

(** [inet 10.0.0.1/24 ...] to the bare address. *)
Definition parse_inet (out : string) : res string :=
  opt_context "no inet address found"
    (cidr ← skip_while (λ token, negb (String.eqb token "inet")) (split_whitespace out) !! 1%nat;
     addr ← head (split_char "/" cidr);
     if bool_decide (is_Some (parse_ipv4 addr)) then Some addr else None).

(** [line.starts_with('{') || line.starts_with('[')] *)
Definition looks_like_json (line : string) : bool :=
  starts_with "{" line || starts_with "[" line.

Definition parse_json `{!SerdeJson} (stdout : string) : res value :=
  match from_str (trim stdout) with
  | Ok value => Ok value
  | Err _ =>
      result_bind
        (opt_context "no JSON object found in output"
           (snd <$> list_find (λ line, looks_like_json line = true)
                      (map trim (reverse (lines stdout)))))
        (λ last, res_context "failed to parse JSON output" (from_str last))
  end.

End parsing.

(** ** Running programs *)

Section exec.
  Context {W : Type} `{!World W, !Anyhow}.

Definition spawn_program (self : Endpoint) (program : list string) (background : bool)
    : io W (res Child) :=
  let make := cmd_spawn background in
  match self with
  | EpLocal =>
      r <- make program ;;
      io_ret (io_ctx ("failed to spawn `" +:+ join " " program +:+ "`") r)
  | EpNetns name =>
      let ns_path := "/run/netns/" +:+ name in
      let via_ip := ["ip"; "netns"; "exec"; name] ++ program in
      let by_ip :=
        r <- make via_ip ;;
        io_ret (io_ctx ("failed to spawn `" +:+ join " " program +:+
                        "` via ip netns exec") r) in
      mounted <- exists_path ns_path ;;
      if (mounted : bool) then
        let via_nsenter := ["nsenter"; "--net=" +:+ ns_path; "--"] ++ program in
        r <- make via_nsenter ;;
        match r with
        | Ok child => io_ret (Ok child)
        | Err error =>
            if decide (kind error = NotFound) then by_ip
            else io_ret (io_ctx ("failed to spawn `" +:+ join " " program +:+
                                 "` via nsenter") (Err error))
        end
      else by_ip
  end.

(** Run to completion: (exit code, stdout, stderr). *)
Definition run_program (self : Endpoint) (program : list string)
    : io W (res (Z * string * string)) :=
  child <-? spawn_program self program false ;;
  r <- wait_with_output child ;;
  io_ret (result_map (λ o, (default (-1) (code o), stdout o, stderr o))
            (io_ctx ("failed to wait for `" +:+ join " " program +:+ "`") r)).

Definition agent_exe : io W (res string) :=
  r <- current_exe ;;
  io_ret (io_ctx "failed to resolve current executable for agent re-exec" r).

Definition agent_argv (args : list string) : io W (res (list string)) :=
  exe <-? agent_exe ;; io_ret (Ok ([exe; "agent"] ++ args)).

Definition shell_full (self : Endpoint) (cmd : string)
    : io W (res (Z * string * string)) :=
  run_program self ["sh"; "-c"; cmd].

Definition shell (self : Endpoint) (cmd : string) : io W (res string) :=
  out <-? shell_full self cmd ;; io_ret (Ok (trim out.1.2)).

Definition shell_json `{!SerdeJson} (self : Endpoint) (cmd : string) : io W (res value) :=
  out <-? shell_full self cmd ;;
  io_ret (res_context ("`" +:+ cmd +:+ "` did not return JSON (stdout: " +:+
                       trim out.1.2 +:+ ", stderr: " +:+ trim out.2 +:+ ")")
            (parse_json out.1.2)).

Definition agent_json `{!SerdeJson} (self : Endpoint) (args : list string)
    : io W (res value) :=
  argv <-? agent_argv args ;;
  out <-? run_program self argv ;;
  io_ret (res_context ("`agent " +:+ join " " args +:+ "` did not return JSON (stdout: " +:+
                       trim out.1.2 +:+ ", stderr: " +:+ trim out.2 +:+ ")")
            (parse_json out.1.2)).

Definition agent_spawn (self : Endpoint) (args : list string) : io W (res Child) :=
  argv <-? agent_argv args ;; spawn_program self argv true.

Definition detect_ipv4 (self : Endpoint) (iface : string) : io W (res string) :=
  out <-? shell self ("ip -4 addr show dev " +:+ iface) ;;
  io_ret (res_context ("could not parse IPv4 for " +:+ iface +:+ " (" +:+ label self +:+ ")")
            (parse_inet out)).

End exec.

(** ** Lemmas *)

Section exec_steady.
  Context {W : Type} `{!World W, !WorldClock W, !Anyhow}.

Lemma steady_spawn_program self program background :
  steady (spawn_program self program background).
Proof. unfold spawn_program. steady. Qed.
#[local] Hint Resolve steady_spawn_program : steady.
Lemma steady_run_program self program : steady (run_program self program).
Proof. unfold run_program. steady. Qed.
#[local] Hint Resolve steady_run_program : steady.
Lemma steady_agent_argv args : steady (agent_argv args).
Proof. unfold agent_argv, agent_exe. steady. Qed.
#[local] Hint Resolve steady_agent_argv : steady.
Lemma steady_shell self cmd : steady (shell self cmd).
Proof. unfold shell, shell_full. steady. Qed.
Lemma steady_shell_json `{!SerdeJson} self cmd : steady (shell_json self cmd).
Proof. unfold shell_json, shell_full. steady. Qed.
Lemma steady_agent_json `{!SerdeJson} self args : steady (agent_json self args).
Proof. unfold agent_json. steady. Qed.
Lemma steady_agent_spawn self args : steady (agent_spawn self args).
Proof. unfold agent_spawn. steady. Qed.
#[local] Hint Resolve steady_shell : steady.
Lemma steady_detect_ipv4 self iface : steady (detect_ipv4 self iface).
Proof. unfold detect_ipv4. steady. Qed.

End exec_steady.

#[export] Hint Resolve steady_spawn_program steady_run_program steady_agent_argv
  steady_shell steady_shell_json steady_agent_json steady_agent_spawn
  steady_detect_ipv4 : steady.

Lemma skip_while_spec pre t rest :
  Forall (λ s, s ≠ t) pre →
  skip_while (λ token, negb (String.eqb token t)) (pre ++ t :: rest) = t :: rest.
Proof.
  induction 1 as [|s pre Hs Hpre IH]; simpl; [by rewrite String.eqb_refl|].
  apply String.eqb_neq in Hs as ->. exact IH.
Qed.

Lemma skip_while_inv l t x :
  skip_while (λ token, negb (String.eqb token t)) l !! 1%nat = Some x →
  ∃ pre rest, l = pre ++ t :: x :: rest ∧ Forall (λ s, s ≠ t) pre.
Proof.
  induction l as [|s l IH]; simpl; [done|].
  destruct (String.eqb_spec s t) as [->|Hne]; simpl.
  - destruct l as [|y l]; simpl; [done|]. intros [= ->]. by exists [], l.
  - intros (pre & rest & -> & Hpre)%IH. exists (s :: pre), rest. by split; [|constructor].
Qed.

Lemma parse_ipv4_parse_ip s v4 : parse_ipv4 s = Some v4 → parse_ip s = Some (V4 v4).
Proof.
  unfold parse_ipv4, parse_ip. case_bool_decide; [done|].
  destruct (read_ipv4_addr s) as [[v [|]]|]; simpl; by intros [= ->].
Qed.

Lemma parse_inet_sound `{!Anyhow} out addr :
  parse_inet out = Ok addr → is_Some (parse_ipv4 addr).
Proof.
  unfold parse_inet. destruct (skip_while _ _ !! 1%nat) as [cidr|]; simpl; [|done].
  destruct (head _) as [a|]; simpl; [|done].
  case_bool_decide; [|done]. by intros [= <-].
Qed.

(** A worker's whole output line is recovered by [trim]. *)
Lemma trim_print `{!Anyhow, !SerdeJson, !SerdeJsonLaws} fields ws :
  str_forall is_ws ws = true →
  trim (to_string (json (TObj fields)) +:+ ws) = to_string (json (TObj fields)).
Proof.
  intros Hws. destruct (print_obj fields) as (s & -> & _).
  exact (trim_framed "{" s "}" ws eq_refl eq_refl Hws).
Qed.

Lemma list_find_head {A} (P : A → Prop) `{!∀ x, Decision (P x)} x l :
  P x → list_find P (x :: l) = Some (0%nat, x).
Proof. intros HP. simpl. by rewrite decide_True. Qed.

(** The object on the last line, after any noise. *)
Lemma parse_json_last_line `{!Anyhow, !SerdeJson, !SerdeJsonLaws} noise fields :
  Forall (λ l, no_nl l = true) noise →
  let out := unlines (noise ++ [to_string (json (TObj fields))]) in
  noise = [] ∨ is_ok (from_str (trim out)) = false →
  parse_json out = Ok (json (TObj fields)).
Proof.
  intros Hn out Hout. unfold parse_json.
  destruct (from_str (trim out)) as [v|e] eqn:E.
  { destruct Hout as [->|[=]]. revert E. unfold out. cbn [app unlines].
    rewrite trim_print, parse_print by done. by intros [= ->]. }
  destruct (print_obj fields) as (s & Hs & Hnl).
  unfold out. rewrite lines_unlines, map_app, reverse_app; last first.
  { rewrite Forall_app. split; [done|]. constructor; [|done].
    rewrite Hs. unfold no_nl. rewrite !str_forall_app. by rewrite Hnl. }
  cbn [map]. rewrite reverse_singleton. cbn [app map].
  assert (trim (strip_cr (to_string (json (TObj fields)))) = to_string (json (TObj fields)))
    as Ht.
  { rewrite <- (sapp_nil_r (to_string _)) at 1. rewrite Hs at 1.
    rewrite sapp_nil_r, <- sapp_assoc, strip_cr_last by done. rewrite sapp_assoc, <- Hs.
    rewrite <- (sapp_nil_r (to_string _)) at 1. by apply trim_print. }
  rewrite Ht, list_find_head. 
  - cbn. by rewrite parse_print.
  - rewrite Hs. unfold looks_like_json, starts_with. rewrite sapp_cons.
    cbn [String.prefix]. by rewrite prefix_nil.
Qed.

(** ** Theorems *)

(** C17. The worker protocol: whatever lines a worker printed before its single
    JSON object, [parse_json] returns exactly that object, provided the output
    as a whole is not itself JSON (or nothing precedes the object). *)
Theorem parse_json_worker_output `{!Anyhow, !SerdeJson, !SerdeJsonLaws} noise fields :
  Forall (λ l, no_nl l = true) noise →
  let out := unlines (noise ++ [to_string (json (TObj fields))]) in
  noise = [] ∨ is_ok (from_str (trim out)) = false →
  parse_json out = Ok (json (TObj fields)).
Proof. exact (parse_json_last_line noise fields). Qed.

Lemma parse_json_worker_output_witness :
  parse_json (unlines ["warning: slow netns"; "{not json";
                       to_string (json (TObj [("now_ms", TInt 7)]))])
  = Ok (json (TObj [("now_ms", TInt 7)])).
Proof.
  apply (parse_json_worker_output ["warning: slow netns"; "{not json"] [("now_ms", TInt 7)]).
  - repeat constructor.
  - right. vm_compute. reflexivity.
Defined.

(** [parse_inet] succeeds exactly when a token [inet] is followed by a
    token whose part before the slash is an IPv4 address, takes the first such
    [inet], and returns that part. *)
Theorem parse_inet_iff `{!Anyhow} out addr :
  parse_inet out = Ok addr ↔
  ∃ pre cidr rest, split_whitespace out = pre ++ "inet" :: cidr :: rest ∧
    Forall (λ s, s ≠ "inet") pre ∧ head (split_char "/" cidr) = Some addr ∧
    is_Some (parse_ipv4 addr).
Proof.
  unfold parse_inet. split.
  - destruct (skip_while _ _ !! 1%nat) as [cidr|] eqn:E; simpl; [|done].
    destruct (head _) as [a|] eqn:Ha; simpl; [|done].
    case_bool_decide as Hp; [|done]. intros [= <-].
    apply skip_while_inv in E as (pre & rest & -> & Hpre). eauto 10.
  - intros (pre & cidr & rest & -> & Hpre & Ha & Hp).
    rewrite skip_while_spec by done. simpl. rewrite Ha. simpl.
    by rewrite bool_decide_true.
Qed.
