(* ===== verification/Config.v ===== *)
(** * Runtime configuration ([config.rs])

    [RunConfig::resolve] and the CIDR text of the PEER network. Durations are
    in nanoseconds. *)

From S2P Require Import Prelude RustInt RustStr RustNet Effects Sim Cli Exec.

Record VsocApi := {
  base_url : string;
  cert : option string;
  key : option string;
  cacert : option string;
}.

Record RunConfig := {
  rc_mode : Mode;
  rc_target : Endpoint;
  rc_peer : Endpoint;
  rc_peer_iface : string;
  rc_target_ip : IpAddr;
  rc_peer_ip : IpAddr;
  rc_acd : Z;
  rc_fun_fw : Z;
  rc_fun_traffic : Z;
  rc_reload_timeout : Z;
  rc_event_settle : Z;
  rc_report_confirm : ReportConfirm;
  rc_vsoc : option VsocApi;
  rc_idps_fw : string;
  rc_state_db : string;
  rc_app_uid : Z;
  rc_app_identity_key : string;
}.

(** [RunConfig::peer_slash24]. *)
Definition peer_slash24 (cfg : RunConfig) : string :=
  match rc_peer_ip cfg with
  | V4 v4 => uint_to_string (oct_a v4) +:+ "." +:+ uint_to_string (oct_b v4) +:+ "." +:+
             uint_to_string (oct_c v4) +:+ ".0/24"
  | V6 v6 => ip_to_string (V6 v6) +:+ "/128"
  end.

Section config.
  Context {W : Type} `{!World W, !Anyhow}.

(** [parse_err] is the error of [AddrParseError] given the context. *)
Definition resolve_ip (explicit : option IpAddr) (endpoint : Endpoint)
    (iface role : string) : io W (res IpAddr) :=
  match explicit with
  | Some ip => io_ret (Ok ip)
  | None =>
      s <-? detect_ipv4 endpoint iface ;;
      io_ret match parse_ip s with
             | Some ip => Ok ip
             | None => Err (add_context ("failed to parse detected " +:+ role +:+ " IP")
                              (anyhow "invalid IP address syntax"))
             end
  end.

Definition default_vsoc_url : string := "https://127.0.0.1:8443".

Definition resolve (global : GlobalArgs) : io W (res RunConfig) :=
  let target := EpLocal in
  let peer := EpNetns (peer_netns global) in
  target_ip' <-? resolve_ip (target_ip global) target (target_iface global) "TARGET" ;;
  peer_ip' <-? resolve_ip (peer_ip global) peer (peer_iface global) "PEER" ;;
  let vsoc := match mode global with
    | Host => Some {| base_url := default default_vsoc_url (vsoc_url global);
                      cert := vsoc_cert global; key := vsoc_key global;
                      cacert := vsoc_cacert global |}
    | Android => None
    end in
  io_ret (Ok {|
    rc_mode := mode global;
    rc_target := target;
    rc_peer := peer;
    rc_peer_iface := peer_iface global;
    rc_target_ip := target_ip';
    rc_peer_ip := peer_ip';
    rc_acd := acd global;
    rc_fun_fw := fun_fw global;
    rc_fun_traffic := fun_traffic global;
    rc_reload_timeout := secs (reload_timeout_secs global);
    rc_event_settle := millis (event_settle_ms global);
    rc_report_confirm := report_confirm global;
    rc_vsoc := vsoc;
    rc_idps_fw := idps_fw global;
    rc_state_db := state_db global;
    rc_app_uid := app_uid global;
    rc_app_identity_key := app_identity_key global;
  |}).

Lemma steady_resolve_ip `{!WorldClock W} e ep iface role :
  steady (resolve_ip e ep iface role).
Proof. unfold resolve_ip. steady. Qed.
#[local] Hint Resolve steady_resolve_ip : steady.
Lemma steady_resolve `{!WorldClock W} global : steady (resolve global).
Proof. unfold resolve. steady. Qed.

(** What every resolved configuration satisfies: the shape the orchestrator
    assumes of its endpoints, VSOC access exactly in host mode, and durations
    that are not negative. *)
Definition config_wf (cfg : RunConfig) : Prop :=
  rc_target cfg = EpLocal ∧ (∃ ns, rc_peer cfg = EpNetns ns) ∧
  (is_Some (rc_vsoc cfg) ↔ rc_mode cfg = Host) ∧
  0 <= rc_reload_timeout cfg ∧ 0 <= rc_event_settle cfg.

(** The address [detect_ipv4] returns is one [parse_ip] accepts. *)
Lemma detect_ipv4_parses ep iface w s w' :
  detect_ipv4 ep iface w = Some (Ok s, w') → ∃ v4, parse_ip s = Some (V4 v4).
Proof.
  intros Hd. unfold detect_ipv4 in Hd. apply io_try_ok_inv in Hd as (out & w1 & _ & Hd).
  unfold io_ret, res_context in Hd. destruct (parse_inet out) eqn:E; simplify_eq.
  apply parse_inet_sound in E as [v4 Hv4]. exists v4. by apply parse_ipv4_parse_ip.
Qed.

Lemma resolve_ip_err explicit ep iface role w e w' :
  resolve_ip explicit ep iface role w = Some (Err e, w') →
  explicit = None ∧ ∃ e w1, detect_ipv4 ep iface w = Some (Err e, w1).
Proof.
  unfold resolve_ip. destruct explicit; [done|].
  unfold io_try, io_bind. destruct (detect_ipv4 ep iface w) as [[[s|e'] w1]|] eqn:E; [| |done].
  - apply detect_ipv4_parses in E as [v4 ->]. done.
  - eauto.
Qed.

Lemma resolve_ip_ok explicit ep iface role w ip w' :
  resolve_ip explicit ep iface role w = Some (Ok ip, w') →
  match explicit with
  | Some given => ip = given
  | None => ∃ s w1, detect_ipv4 ep iface w = Some (Ok s, w1) ∧ parse_ip s = Some ip
  end.
Proof.
  unfold resolve_ip. destruct explicit; [by intros [= <- <-]|].
  intros (s & w1 & Hd & Hr)%io_try_ok_inv. exists s, w1. split; [done|].
  injection Hr as Hr _. by destruct (parse_ip s); simplify_eq.
Qed.

(** Every setting of a resolved configuration that is taken from the
    arguments, with the one it is taken from. *)
Definition settings_of (global : GlobalArgs) (cfg : RunConfig) : Prop :=
  rc_mode cfg = mode global ∧ rc_target cfg = EpLocal ∧
  rc_peer cfg = EpNetns (peer_netns global) ∧ rc_peer_iface cfg = peer_iface global ∧
  rc_acd cfg = acd global ∧ rc_fun_fw cfg = fun_fw global ∧
  rc_fun_traffic cfg = fun_traffic global ∧
  rc_reload_timeout cfg = reload_timeout_secs global * 10 ^ 9 ∧
  rc_event_settle cfg = event_settle_ms global * 10 ^ 6 ∧
  rc_report_confirm cfg = report_confirm global ∧
  rc_idps_fw cfg = idps_fw global ∧ rc_state_db cfg = state_db global ∧
  rc_app_uid cfg = app_uid global ∧ rc_app_identity_key cfg = app_identity_key global ∧
  match mode global, rc_vsoc cfg with
  | Android, vsoc => vsoc = None
  | Host, None => False
  | Host, Some vsoc =>
      base_url vsoc = match vsoc_url global with
                      | Some url => url
                      | None => "https://127.0.0.1:8443"
                      end ∧
      cert vsoc = vsoc_cert global ∧ key vsoc = vsoc_key global ∧
      cacert vsoc = vsoc_cacert global
  end.

Lemma resolve_cases global w r w' :
  resolve global w = Some (r, w') →
  match r with
  | Ok cfg =>
      settings_of global cfg ∧
      match target_ip global with
      | Some ip => rc_target_ip cfg = ip
      | None => ∃ s w1, detect_ipv4 EpLocal (target_iface global) w = Some (Ok s, w1) ∧
                parse_ip s = Some (rc_target_ip cfg)
      end ∧
      match peer_ip global with
      | Some ip => rc_peer_ip cfg = ip
      | None => ∃ s w0 w1, detect_ipv4 (EpNetns (peer_netns global)) (peer_iface global) w0
                           = Some (Ok s, w1) ∧ parse_ip s = Some (rc_peer_ip cfg)
      end
  | Err _ =>
      (target_ip global = None ∧
       ∃ e w1, detect_ipv4 EpLocal (target_iface global) w = Some (Err e, w1)) ∨
      (peer_ip global = None ∧
       ∃ e w0 w1, detect_ipv4 (EpNetns (peer_netns global)) (peer_iface global) w0
                  = Some (Err e, w1))
  end.
Proof.
  unfold resolve. unfold io_try at 1, io_bind at 1.
  destruct (resolve_ip (target_ip global) _ _ _ w) as [[[tip|e] w1]|] eqn:Ht; [| |done].
  - unfold io_try, io_bind.
    destruct (resolve_ip (peer_ip global) _ _ _ w1) as [[[pip|e] w2]|] eqn:Hp; [| |done].
    + intros [= <- <-]. split; [|split].
      * unfold settings_of; simpl. unfold secs, millis.
        split_and!; try done. by destruct (mode global).
      * by apply resolve_ip_ok in Ht.
      * apply resolve_ip_ok in Hp. simpl. destruct (peer_ip global); naive_solver.
    + intros [= <- <-]. right. apply resolve_ip_err in Hp as [? (?&?)]. eauto 10.
  - intros [= <- <-]. left. apply resolve_ip_err in Ht. done.
Qed.

Lemma settings_wf global cfg :
  0 <= reload_timeout_secs global → 0 <= event_settle_ms global →
  settings_of global cfg → config_wf cfg.
Proof.
  intros Hr Hs (Hm & Ht & Hp & _ & _ & _ & _ & Er & Es & _ & _ & _ & _ & _ & Hv).
  unfold config_wf. rewrite Hm, Er, Es. split_and!; [done|by eexists| |lia..].
  destruct (mode global), (rc_vsoc cfg); split; done || eauto || by intros [].
Qed.

Lemma resolve_wf global w cfg w' :
  0 <= reload_timeout_secs global → 0 <= event_settle_ms global →
  resolve global w = Some (Ok cfg, w') → config_wf cfg.
Proof. intros ? ? [Hs _]%resolve_cases. by eapply settings_wf. Qed.

(** C33. [resolve] always returns. When it succeeds, the TARGET is the local
    side and the PEER the named network namespace, every setting is the one the
    arguments gave (the timeouts in their unit), the VSOC access is configured
    exactly in host mode, with the default URL where none was given, and each
    address is the explicit one or else the one detected on its interface. It
    fails only when an address that was not given cannot be detected, never on
    the text of a detected one. *)
Theorem resolve_spec `{!WorldClock W} global w :
  0 <= reload_timeout_secs global → 0 <= event_settle_ms global →
  wp (resolve global) (λ r _,
    match r with
    | Ok cfg =>
        config_wf cfg ∧ settings_of global cfg ∧
        match target_ip global with
        | Some ip => rc_target_ip cfg = ip
        | None => ∃ s w1, detect_ipv4 EpLocal (target_iface global) w = Some (Ok s, w1) ∧
                  parse_ip s = Some (rc_target_ip cfg)
        end ∧
        match peer_ip global with
        | Some ip => rc_peer_ip cfg = ip
        | None => ∃ s w0 w1, detect_ipv4 (EpNetns (peer_netns global)) (peer_iface global) w0
                             = Some (Ok s, w1) ∧ parse_ip s = Some (rc_peer_ip cfg)
        end
    | Err _ =>
        (target_ip global = None ∧
         ∃ e w1, detect_ipv4 EpLocal (target_iface global) w = Some (Err e, w1)) ∨
        (peer_ip global = None ∧
         ∃ e w0 w1, detect_ipv4 (EpNetns (peer_netns global)) (peer_iface global) w0
                    = Some (Err e, w1))
    end) w.
Proof.
  intros Hr Hs. destruct (wp_elim _ _ _ (steady_resolve global w)) as (r & w' & He & _).
  eapply wp_intro; [exact He|]. apply resolve_cases in He. destruct r as [cfg|e]; [|done].
  split; [by eapply settings_wf, He|done].
Qed.

End config.

(** The configuration the demo device resolves from the default arguments. *)
Definition demo_config : RunConfig := {|
  rc_mode := Host; rc_target := EpLocal; rc_peer := EpNetns "fwpeer";
  rc_peer_iface := "fwp0";
  rc_target_ip := V4 (ipv4 10 123 0 1); rc_peer_ip := V4 (ipv4 10 123 0 2);
  rc_acd := 1; rc_fun_fw := 1; rc_fun_traffic := 4;
  rc_reload_timeout := secs 30; rc_event_settle := millis 1500;
  rc_report_confirm := Local;
  rc_vsoc := Some {| base_url := default_vsoc_url; cert := None; key := None;
                     cacert := None |};
  rc_idps_fw := "idps-fw"; rc_state_db := "/data/idd/idps-fw/state.sqlite3";
  rc_app_uid := 2000; rc_app_identity_key := "com.demo.browser";
|}.

Example demo_resolve : fst <$> resolve default_args demo_device = Some (Ok demo_config).
Proof. vm_compute. reflexivity. Qed.

Lemma resolve_spec_witness :
  0 <= reload_timeout_secs default_args ∧ 0 <= event_settle_ms default_args ∧
  wp (resolve default_args) (λ r _,
    match r with Ok cfg => settings_of default_args cfg | Err _ => True end) demo_device.
Proof.
  assert (0 <= reload_timeout_secs default_args) as Hr by discriminate.
  assert (0 <= event_settle_ms default_args) as Hs by discriminate.
  split; [exact Hr|]. split; [exact Hs|].
  eapply wp_mono; [|exact (resolve_spec default_args demo_device Hr Hs)].
  intros [cfg|e] w'; [intros (_ & Hc & _); exact Hc|done].
Defined.

#[export] Hint Resolve steady_resolve : steady.
