(* ===== verification/Peer.v ===== *)
(** * Driving the worker ([peer.rs])

    The command line of [agent traffic], the outcome parsed from its JSON, and
    the listeners. *)

From S2P Require Import Prelude RustInt RustStr RustNet Effects Sim Cli Exec Config.

(** ** The traffic command *)

Record TrafficCmd := {
  proto : string;
  to : IpAddr;
  dport : option Z;
  dports : option (list Z);
  sport : option Z;
  count : Z;
  timeout_ms : Z;
  interval_ms : Z;
  await_reply : bool;
  fin_only : bool;
  icmp_timestamp : bool;
}.

(** [ports.iter().map(u16::to_string).collect::<Vec<_>>().join(",")] *)
Definition join_ports (ports : list Z) : string := join "," (map uint_to_string ports).

Definition argv (cmd : TrafficCmd) (uid : option Z) : list string :=
  ["traffic"; proto cmd; "--to"; ip_to_string (to cmd)] ++
  match dports cmd, dport cmd with
  | Some ports, _ => ["--dports"; join_ports ports]
  | None, Some port => ["--dport"; uint_to_string port]
  | None, None => []
  end ++
  match sport cmd with
  | Some sport => ["--sport"; uint_to_string sport]
  | None => []
  end ++
  (if 1 <? count cmd then ["--count"; uint_to_string (count cmd)] else []) ++
  (if 0 <? interval_ms cmd then ["--interval-ms"; uint_to_string (interval_ms cmd)] else []) ++
  ["--timeout-ms"; uint_to_string (timeout_ms cmd)] ++
  (if await_reply cmd then ["--await-reply"] else []) ++
  (if fin_only cmd then ["--fin-only"] else []) ++
  (if icmp_timestamp cmd then ["--icmp-type"; "timestamp"] else []) ++
  match uid with
  | Some uid => ["--uid"; uint_to_string uid]
  | None => []
  end.

Definition listen_argv (proto : string) (port duration_secs : Z) : list string :=
  ["listen"; proto; "--port"; uint_to_string port; "--duration-secs";
   uint_to_string duration_secs].

(** ** Outcomes *)

Record TrafficOutcome := {
  verdict : string;
  o_success : Z;
  o_timeout : Z;
  o_refused : Z;
  o_denied : Z;
  o_sent : Z;
  o_other : Z;
}.

(** A [#[serde(default)]] [u32] field of a literal object. *)
Definition u32_field (fields : list (string * jtree)) (k : string) : option Z :=
  match assoc k fields with
  | None => Some 0
  | Some (TInt n) => if (0 <=? n) && (n <=? u32_max) then Some n else None
  | Some _ => None
  end.

(** The [Deserialize] instance derived for [TrafficOutcome]: unknown fields are
    ignored, the verdict is required, the counters default to zero. *)
Class DeOutcome `{SerdeJson} := { outcome_of_value : value → res TrafficOutcome }.
Class DeOutcomeLaws `{DeOutcome} : Prop := outcome_of_obj fields v s t r d n o :
  NoDup (fields.*1) → assoc "verdict" fields = Some (TStr v) →
  u32_field fields "success" = Some s → u32_field fields "timeout" = Some t →
  u32_field fields "refused" = Some r → u32_field fields "denied" = Some d →
  u32_field fields "sent" = Some n → u32_field fields "other" = Some o →
  outcome_of_value (json (TObj fields)) =
  Ok {| verdict := v; o_success := s; o_timeout := t; o_refused := r;
        o_denied := d; o_sent := n; o_other := o |}.

(** ** Running *)

Section peer.
  Context {W : Type} `{!World W, !Anyhow, !SerdeJson, !DeOutcome}.

Definition traffic (endpoint : Endpoint) (_cfg : RunConfig) (cmd : TrafficCmd)
    (uid : option Z) : io W (res TrafficOutcome) :=
  value <-? agent_json endpoint (argv cmd uid) ;;
  io_ret (res_context "failed to parse traffic outcome" (outcome_of_value value)).

Definition start_listener (endpoint : Endpoint) (_cfg : RunConfig) (proto : string)
    (port duration_secs : Z) : io W (res Child) :=
  agent_spawn endpoint (listen_argv proto port duration_secs).

Definition stop_listeners (endpoint : Endpoint) (_cfg : RunConfig) : io W unit :=
  _ <- shell endpoint "pkill -f 'agent listen'" ;; io_ret tt.

Lemma steady_traffic `{!WorldClock W} ep cfg cmd uid : steady (traffic ep cfg cmd uid).
Proof. unfold traffic. steady. Qed.
Lemma steady_start_listener `{!WorldClock W} ep cfg p port d :
  steady (start_listener ep cfg p port d).
Proof. unfold start_listener. steady. Qed.
Lemma steady_stop_listeners `{!WorldClock W} ep cfg : steady (stop_listeners ep cfg).
Proof. unfold stop_listeners. steady. Qed.

End peer.

#[export] Hint Resolve steady_traffic steady_start_listener steady_stop_listeners : steady.

(** ** A concrete deserializer *)

Definition sim_outcome (v : jtree) : result string TrafficOutcome :=
  match v with
  | TObj f =>
      match assoc "verdict" f, u32_field f "success", u32_field f "timeout",
            u32_field f "refused", u32_field f "denied", u32_field f "sent",
            u32_field f "other" with
      | Some (TStr v), Some s, Some t, Some r, Some d, Some n, Some o =>
          Ok {| verdict := v; o_success := s; o_timeout := t; o_refused := r;
                o_denied := d; o_sent := n; o_other := o |}
      | _, _, _, _, _, _, _ => Err "missing field"
      end
  | _ => Err "invalid type"
  end.
#[export] Instance sim_de_outcome : DeOutcome := {| outcome_of_value := sim_outcome |}.
#[export] Instance sim_de_outcome_laws : DeOutcomeLaws.
Proof.
  intros f v s t r d n o _ Hv Hs Ht Hr Hd Hn Ho.
  cbn [outcome_of_value sim_de_outcome json sim_json]. unfold sim_outcome.
  by rewrite Hv, Hs, Ht, Hr, Hd, Hn, Ho.
Qed.

(** ** The command line is read back *)

(** Every option with what [argv] writes for it: nothing, a flag, a value. *)
Definition cmd_table (cmd : TrafficCmd) (uid : option Z)
    : list (string * option (option string)) :=
  [("to", Some (Some (ip_to_string (to cmd))));
   ("dports", (λ ps, Some (join_ports ps)) <$> dports cmd);
   ("dport", match dports cmd with
             | Some _ => None
             | None => (λ p, Some (uint_to_string p)) <$> dport cmd
             end);
   ("sport", (λ p, Some (uint_to_string p)) <$> sport cmd);
   ("count", if 1 <? count cmd then Some (Some (uint_to_string (count cmd))) else None);
   ("interval-ms", if 0 <? interval_ms cmd
                   then Some (Some (uint_to_string (interval_ms cmd))) else None);
   ("timeout-ms", Some (Some (uint_to_string (timeout_ms cmd))));
   ("await-reply", if await_reply cmd then Some None else None);
   ("fin-only", if fin_only cmd then Some None else None);
   ("icmp-type", if icmp_timestamp cmd then Some (Some "timestamp") else None);
   ("uid", (λ u, Some (uint_to_string u)) <$> uid)].

Fixpoint written {A} (t : list (string * option A)) : list (string * A) :=
  match t with
  | [] => []
  | (k, Some v) :: t => (k, v) :: written t
  | (_, None) :: t => written t
  end.

Definition cmd_opts (cmd : TrafficCmd) (uid : option Z) : list (string * option string) :=
  written (cmd_table cmd uid).

Lemma render_written k o t :
  concat (map render_opt (written ((k, o) :: t)))
  = match o with Some v => render_opt (k, v) | None => [] end
    ++ concat (map render_opt (written t)).
Proof. by destruct o. Qed.

Lemma argv_render cmd uid :
  argv cmd uid = "traffic" :: [proto cmd] ++ concat (map render_opt (cmd_opts cmd uid)).
Proof.
  unfold argv, cmd_opts, cmd_table. rewrite !render_written.
  cbn [written concat map app render_opt fst snd]. do 4 f_equal.
  destruct (dports cmd), (dport cmd), (sport cmd), (1 <? count cmd),
    (0 <? interval_ms cmd), (await_reply cmd), (fin_only cmd), (icmp_timestamp cmd), uid;
    reflexivity.
Qed.

Lemma lookup_written k (t : list (string * option (option string))) :
  NoDup (t.*1) →
  lookup_opt k (written t) = match assoc k t with Some o => o | None => None end.
Proof.
  induction t as [|[k' o] t IH]; [done|].
  rewrite fmap_cons, list.NoDup_cons. intros [Hk Hnd]. cbn [assoc written].
  destruct (String.eqb_spec k k') as [->|Hne].
  - destruct o as [v|]; cbn [lookup_opt]; [by rewrite decide_True|].
    rewrite IH by done. destruct (assoc k' t) eqn:E; [|done].
    exfalso. apply Hk. clear -E. induction t as [|[k x] t IH]; [done|].
    cbn [assoc] in E. rewrite fmap_cons. destruct (String.eqb_spec k' k) as [->|].
    + left.
    + right. auto.
  - destruct o; cbn [lookup_opt]; [rewrite decide_False by done|]; auto.
Qed.

Lemma written_keys {A} k (t : list (string * option A)) : k ∈ (written t).*1 → k ∈ t.*1.
Proof.
  induction t as [|[k' [v|]] t IH]; [done|..]; cbn [written]; rewrite ?fmap_cons.
  - intros [->|?]%elem_of_cons; apply elem_of_cons; auto.
  - intros ?. apply elem_of_cons; auto.
Qed.

Lemma written_nodup {A} (t : list (string * option A)) :
  NoDup (t.*1) → NoDup ((written t).*1).
Proof.
  induction t as [|[k' [v|]] t IH]; [done|..]; cbn [written]; rewrite ?fmap_cons;
    rewrite list.NoDup_cons; intros [Hk Hnd]; [|auto].
  apply list.NoDup_cons. split; [|auto]. intros Hin. by apply Hk, written_keys.
Qed.

(** A command whose fields are in range and whose destination is IPv4. *)
Definition cmd_valid (cmd : TrafficCmd) (uid : option Z) : Prop :=
  is_Some (parse_proto (proto cmd)) ∧ (∃ v4, to cmd = V4 v4 ∧ valid_ipv4 v4) ∧
  (∀ p, dport cmd = Some p → is_u16 p) ∧ (∀ p, sport cmd = Some p → is_u16 p) ∧
  is_u32 (count cmd) ∧ 0 <= interval_ms cmd < 2 ^ 64 ∧
  0 <= timeout_ms cmd < 2 ^ 64 ∧ (∀ u, uid = Some u → is_u32 u).

(** What the worker must make of the command. *)
Definition worker_args (cmd : TrafficCmd) (uid : option Z) (p : Proto) : TrafficArgs := {|
  ta_proto := p;
  ta_to := to cmd;
  ta_dport := match dports cmd with Some _ => None | None => dport cmd end;
  ta_dports := join_ports <$> dports cmd;
  ta_sport := sport cmd;
  ta_count := Z.max 1 (count cmd);
  ta_interval_ms := interval_ms cmd;
  ta_timeout_ms := timeout_ms cmd;
  ta_await_reply := await_reply cmd;
  ta_fin_only := fin_only cmd;
  ta_icmp_type := if icmp_timestamp cmd then Timestamp else Echo;
  ta_uid := uid;
|}.

Lemma digits_no_dash s : str_forall is_digit s = true → String.prefix "-" s = false.
Proof.
  destruct s as [|c s]; [done|]. cbn [str_forall String.prefix]. intros H. bool_prop.
  destruct (ascii_dec "-" c) as [<-|]; [done|done].
Qed.

Lemma uint_no_dash n : String.prefix "-" (uint_to_string n) = false.
Proof. apply digits_no_dash, uint_to_string_digits. Qed.

Lemma dash_app s t : s ≠ "" → String.prefix "-" (s +:+ t) = String.prefix "-" s.
Proof. destruct s; [done|]. intros _. rewrite sapp_cons. cbn [String.prefix]. by rewrite !prefix_nil. Qed.

Lemma ip_no_dash v4 : String.prefix "-" (ip_to_string (V4 v4)) = false.
Proof.
  cbn [ip_to_string]. unfold ipv4_to_string.
  by rewrite dash_app, uint_no_dash by apply uint_to_string_nonempty.
Qed.

Lemma join_ports_no_dash ports : String.prefix "-" (join_ports ports) = false.
Proof.
  unfold join_ports, join. destruct ports as [|p [|q ports]]; [done|..]; simpl map.
  - apply uint_no_dash.
  - cbn [String.concat]. change (String.append) with (String.append).
    rewrite (dash_app (uint_to_string p)) by apply uint_to_string_nonempty.
    apply uint_no_dash.
Qed.

Lemma table_nodup cmd uid : NoDup ((cmd_table cmd uid).*1).
Proof. apply (bool_decide_unpack _). vm_compute. done. Qed.

Lemma spec_nodup : NoDup (traffic_spec.*1).
Proof. apply (bool_decide_unpack _). vm_compute. done. Qed.

Lemma written_forall {A} (P : string * A → Prop) (t : list (string * option A)) :
  Forall (λ e, match e.2 with Some v => P (e.1, v) | None => True end) t →
  Forall P (written t).
Proof. induction 1 as [|[k [v|]] t]; cbn [written]; auto. Qed.

(** Membership in the closed option table, and the two halves of
    [opt_allowed]. *)
Ltac in_spec := apply (bool_decide_unpack _); vm_compute; exact I.
Ltac allow := unfold opt_allowed; cbn [fmap option_fmap option_map fst snd]; split.

Lemma cmd_opts_allowed cmd uid :
  (∃ v4, to cmd = V4 v4) → Forall (opt_allowed traffic_spec) (cmd_opts cmd uid).
Proof.
  intros [v4 Hto]. unfold cmd_opts. apply written_forall. unfold cmd_table.
  assert (∀ k, (k, true) ∈ traffic_spec → ∀ n, opt_allowed traffic_spec
            (k, Some (uint_to_string n))) as Hn.
  { intros k Hk n. unfold opt_allowed. cbn [fst snd]. split; [|apply uint_no_dash].
    by rewrite bool_decide_true by eauto. }
  repeat apply List.Forall_cons; try apply List.Forall_nil; cbn [fst snd].
  - allow; [in_spec|]. rewrite Hto. apply ip_no_dash.
  - destruct (dports cmd); [|done]. allow; [in_spec|]. apply join_ports_no_dash.
  - destruct (dports cmd), (dport cmd); try done. apply Hn; in_spec.
  - destruct (sport cmd); [|done]. apply Hn; in_spec.
  - destruct (1 <? count cmd); [|done]. apply Hn; in_spec.
  - destruct (0 <? interval_ms cmd); [|done]. apply Hn; in_spec.
  - apply Hn; in_spec.
  - destruct (await_reply cmd); [|done]. allow; [in_spec|done].
  - destruct (fin_only cmd); [|done]. allow; [in_spec|done].
  - destruct (icmp_timestamp cmd); [|done]. allow; [in_spec|done].
  - destruct uid; [|done]. apply Hn; in_spec.
Qed.

Lemma lookup_cmd cmd uid k :
  lookup_opt k (cmd_opts cmd uid) =
  match assoc k (cmd_table cmd uid) with Some o => o | None => None end.
Proof. apply lookup_written, table_nodup. Qed.

Lemma parse_proto_no_dash s p : parse_proto s = Some p → String.prefix "-" s = false.
Proof. unfold parse_proto. intros. repeat case_decide; by subst. Qed.

Lemma cmd_parsed `{!Clap, !ClapLaws} cmd uid :
  cmd_valid cmd uid →
  parse_traffic (drop 1 (argv cmd uid)) = traffic_args_of ([proto cmd], cmd_opts cmd uid).
Proof.
  intros ([p Hp] & [v4 [Hto Hv4]] & _). rewrite argv_render. unfold parse_traffic.
  assert (clap_parse traffic_spec
            ([proto cmd] ++ concat (map render_opt (cmd_opts cmd uid)))
          = Some ([proto cmd], cmd_opts cmd uid)) as Hc.
  { apply clap_parse_canonical.
    - apply spec_nodup.
    - constructor; [by eapply parse_proto_no_dash|done].
    - apply cmd_opts_allowed; eauto.
    - apply written_nodup, table_nodup. }
  cbn [drop app] in *. by rewrite Hc.
Qed.

(** How each kind of argument is read back. *)
Definition read_arg {A} (parse : string → option A) (o : option (option string))
    : option (option A) :=
  match o with
  | Some (Some s) => Some <$> parse s
  | Some None => None
  | None => Some None
  end.

Lemma read_num max (o : option Z) :
  (∀ n, o = Some n → is_u max n) →
  read_arg (parse_uint max) ((λ n, Some (uint_to_string n)) <$> o) = Some o.
Proof.
  intros Hn. destruct o as [n|]; [|done]. cbn.
  by rewrite parse_uint_to_string by (by apply Hn).
Qed.

Lemma read_cond_num max (b : bool) n :
  is_u max n →
  read_arg (parse_uint max) (if b then Some (Some (uint_to_string n)) else None)
  = Some (if b then Some n else None).
Proof. intros Hn. destruct b; [|done]. cbn. by rewrite parse_uint_to_string. Qed.

Lemma flag_written (b : bool) :
  bool_decide (is_Some (if b then Some (None : option string) else None)) = b.
Proof. by destruct b. Qed.

(** The argv, read back field by field. *)
Lemma argv_read_back `{!Clap, !ClapLaws} cmd uid p :
  cmd_valid cmd uid → parse_proto (proto cmd) = Some p →
  parse_traffic (drop 1 (argv cmd uid)) = Some (worker_args cmd uid p).
Proof.
  intros Hv Hp. rewrite cmd_parsed by done.
  destruct Hv as (_ & [v4 [Hto Hv4]] & Hdp & Hsp & Hc & Hi & Ht & Hu).
  unfold traffic_args_of, default_arg, opt_arg, flag_arg.
  cbn [fst snd]. rewrite !lookup_cmd, Hp.
  unfold cmd_table. cbn [assoc String.eqb Ascii.eqb Bool.eqb].
  fold (@read_arg IpAddr) (@read_arg Z) (@read_arg string) (@read_arg IcmpKind).
  rewrite Hto, parse_ip_v4_print by done.
  change (match ?o with Some (Some s) => Some <$> parse_uint ?m s
          | Some None => None | None => Some None end) with (read_arg (parse_uint m) o).
  unfold worker_args. rewrite !flag_written, Hto.
  rewrite (read_num 65535 (sport cmd)), (read_num u32_max uid) by done.
  rewrite (read_cond_num u32_max), (read_cond_num u64_max)
    by (done || unfold is_u, u64_max; lia).
  cbn. rewrite parse_uint_to_string by (unfold u64_max; lia).
  assert (default 1 (if 1 <? count cmd then Some (count cmd) else None)
          = Z.max 1 (count cmd)) as -> by (unfold is_u in Hc; case_match; bool_prop; simpl; lia).
  assert (default 0 (if 0 <? interval_ms cmd then Some (interval_ms cmd) else None)
          = interval_ms cmd) as -> by (case_match; bool_prop; simpl; lia).
  destruct (dports cmd) as [ps|]; cbn.
  - by destruct (icmp_timestamp cmd).
  - destruct (dport cmd) as [dp|]; cbn; [rewrite parse_uint_to_string by (by apply Hdp)|];
      by destruct (icmp_timestamp cmd).
Qed.

(** ** Theorems *)

(** C13. The orchestrator and the worker agree on the command line: for every
    valid command the worker parses the argv built by [TrafficCmd::argv] back
    to exactly the command's fields; an omitted option reads back as the value
    that made it be omitted, and a count of zero as one. A valid command has an
    IPv4 destination. *)
Theorem worker_reads_argv `{!Clap, !ClapLaws} cmd uid p :
  cmd_valid cmd uid → parse_proto (proto cmd) = Some p →
  parse_traffic (drop 1 (argv cmd uid)) = Some (worker_args cmd uid p).
Proof. exact (argv_read_back cmd uid p). Qed.

(** The command of the catalog's TCP port scan. *)
Definition demo_scan : TrafficCmd := {|
  proto := "tcp"; to := V4 (ipv4 10 123 0 1); dport := None;
  dports := Some [9001; 9002; 9003; 9004; 9005]; sport := None; count := 1;
  timeout_ms := 250; interval_ms := 0; await_reply := false; fin_only := false;
  icmp_timestamp := false |}.

Lemma worker_reads_argv_witness :
  @parse_traffic simple_clap (drop 1 (argv demo_scan (Some 2000)))
  = Some (worker_args demo_scan (Some 2000) Tcp).
Proof.
  apply (@worker_reads_argv simple_clap simple_clap_laws demo_scan (Some 2000) Tcp);
    [|reflexivity].
  unfold cmd_valid; split_and!; try done; try (split; discriminate).
  - exists (ipv4 10 123 0 1). split; [done|]. repeat constructor; discriminate.
  - intros u [= <-]. split; discriminate.
Defined.
