(* ===== verification/Tally.v ===== *)
(** * Outcomes and verdicts of generated traffic ([agent/traffic.rs])

    The outcome of one attempt, the tally over all attempts and the verdict
    the orchestrator decides on. A counter that would overflow its [u32] is a
    panic of the debug build: [None]. *)

From S2P Require Import Prelude RustInt RustStr Effects.

Inductive Outcome :=
  | Success
  | Timeout
  | Refused
  | Denied
  | Sent
  | Other.

#[export] Instance Outcome_eq_dec : EqDecision Outcome.
Proof. solve_decision. Defined.

Record Tally := mk_tally {
  success : Z;
  timeout : Z;
  refused : Z;
  denied : Z;
  sent : Z;
  other : Z;
}.

(** [Tally::default()] *)
Definition tally_default : Tally := mk_tally 0 0 0 0 0 0.

Definition record (self : Tally) (outcome : Outcome) : option Tally :=
  let '(mk_tally s t r d n o) := self in
  match outcome with
  | Success => s ← u32_add s 1; Some (mk_tally s t r d n o)
  | Timeout => t ← u32_add t 1; Some (mk_tally s t r d n o)
  | Refused => r ← u32_add r 1; Some (mk_tally s t r d n o)
  | Denied => d ← u32_add d 1; Some (mk_tally s t r d n o)
  | Sent => n ← u32_add n 1; Some (mk_tally s t r d n o)
  | Other => o ← u32_add o 1; Some (mk_tally s t r d n o)
  end.

Definition attempts (self : Tally) : option Z :=
  a ← u32_add (success self) (timeout self);
  a ← u32_add a (refused self);
  a ← u32_add a (denied self);
  a ← u32_add a (sent self);
  u32_add a (other self).

Definition verdict (self : Tally) : string :=
  if 0 <? success self then "allowed"
  else if (0 <? timeout self) || (0 <? denied self) then "blocked"
  else if 0 <? refused self then "refused"
  else if 0 <? sent self then "sent"
  else "unknown".

(** [for outcome in outcomes { tally.record(outcome) }] *)
Definition record_all (t : Tally) (outcomes : list Outcome) : option Tally :=
  foldl (λ acc o, acc ≫= λ t, record t o) (Some t) outcomes.

(** [classify_io] *)
Definition classify_io (error : io_error) : Outcome :=
  match kind error with
  | TimedOut | WouldBlock => Timeout
  | ConnectionRefused => Refused
  | PermissionDenied => Denied
  | _ => Other
  end.

(** ** Specification: counting *)

(** The counters as a function of the outcome. *)
Definition counter (t : Tally) (o : Outcome) : Z :=
  match o with
  | Success => success t | Timeout => timeout t | Refused => refused t
  | Denied => denied t | Sent => sent t | Other => other t
  end.

Definition occurrences (o : Outcome) (l : list Outcome) : Z :=
  Z.of_nat (length (filter (λ o', o' = o) l)).

(** The verdict as a decision on the outcomes seen. *)
Definition spec_verdict (l : list Outcome) : string :=
  if decide (Success ∈ l) then "allowed"
  else if decide (Timeout ∈ l ∨ Denied ∈ l) then "blocked"
  else if decide (Refused ∈ l) then "refused"
  else if decide (Sent ∈ l) then "sent"
  else "unknown".

(** ** Lemmas *)

Definition total (t : Tally) : Z :=
  success t + timeout t + refused t + denied t + sent t + other t.
Definition tally_wf (t : Tally) : Prop := ∀ o, 0 <= counter t o.

Lemma tally_wf_total t o : tally_wf t → 0 <= counter t o <= total t.
Proof.
  intros Hwf. pose proof (Hwf Success). pose proof (Hwf Timeout).
  pose proof (Hwf Refused). pose proof (Hwf Denied). pose proof (Hwf Sent).
  pose proof (Hwf Other). unfold total. destruct o; simpl in *; lia.
Qed.

Lemma attempts_total t : tally_wf t → total t <= u32_max → attempts t = Some (total t).
Proof.
  intros Hwf Ht. pose proof (Hwf Success). pose proof (Hwf Timeout).
  pose proof (Hwf Refused). pose proof (Hwf Denied). pose proof (Hwf Sent).
  pose proof (Hwf Other). unfold attempts, u32_add, total in *. simpl in *.
  do 4 (rewrite add_checked_some by lia; cbn [mbind option_bind]).
  rewrite add_checked_some by lia. done.
Qed.

Lemma record_spec t o :
  tally_wf t → total t < u32_max →
  ∃ t', record t o = Some t' ∧ tally_wf t' ∧ total t' = total t + 1 ∧
        ∀ o', counter t' o' = counter t o' + (if decide (o' = o) then 1 else 0).
Proof.
  intros Hwf Ht. pose proof (tally_wf_total t o Hwf) as Hc.
  assert (u32_add (counter t o) 1 = Some (counter t o + 1)) as Ha
    by (apply add_checked_some; unfold u32_max in *; lia).
  destruct t as [s ti r d n ot]. destruct o; simpl in *; rewrite Ha; cbn [mbind option_bind];
    eexists; (split; [done|]); unfold tally_wf, total in *; simpl in *;
    (split; [intros o'; specialize (Hwf o'); destruct o'; simpl in *; lia|]);
    (split; [lia|]); intros o'; destruct o'; simpl; try case_decide; congruence || lia.
Qed.

Lemma record_all_spec l t :
  tally_wf t → total t + Z.of_nat (length l) <= u32_max →
  ∃ t', record_all t l = Some t' ∧ tally_wf t' ∧
        total t' = total t + Z.of_nat (length l) ∧
        ∀ o, counter t' o = counter t o + occurrences o l.
Proof.
  revert t. induction l as [|o l IH]; intros t Hwf Ht.
  - exists t. simpl in *. split_and!; [done|done|lia|]. intros o. unfold occurrences.
    simpl. lia.
  - simpl length in *. destruct (record_spec t o Hwf ltac:(lia)) as (t1 & Hr & Hw1 & Ht1 & Hc1).
    destruct (IH t1 Hw1 ltac:(lia)) as (t' & Hr' & Hw' & Ht' & Hc').
    exists t'. unfold record_all in *. cbn [foldl mbind option_bind]. rewrite Hr.
    split_and!; [done|done|lia|]. intros o'. rewrite Hc', Hc1. unfold occurrences.
    rewrite filter_cons. repeat case_decide; try congruence; simpl; lia.
Qed.

Lemma record_all_snoc t l o :
  record_all t (l ++ [o]) = record_all t l ≫= λ t, record t o.
Proof. unfold record_all. by rewrite foldl_app. Qed.

(** From the empty tally. *)
Lemma record_all_default l :
  Z.of_nat (length l) <= u32_max →
  ∃ t, record_all tally_default l = Some t ∧ tally_wf t ∧
       total t = Z.of_nat (length l) ∧ ∀ o, counter t o = occurrences o l.
Proof.
  intros Hl. destruct (record_all_spec l tally_default) as (t & Hr & Hw & Ht & Hc).
  - by intros [].
  - change (total tally_default) with 0. lia.
  - exists t. split_and!; [done|done|by rewrite Ht|].
    intros o. rewrite Hc. assert (counter tally_default o = 0) as -> by (by destruct o). lia.
Qed.

Lemma occurrences_pos o l : 0 < occurrences o l ↔ o ∈ l.
Proof.
  unfold occurrences. split.
  - intros H. destruct (filter _ l) as [|x k] eqn:E; [simpl in H; lia|].
    assert (x ∈ filter (λ o', o' = o) l) as Hx by (rewrite E; left).
    apply list_elem_of_filter in Hx as [-> ?]. done.
  - intros H. assert (o ∈ filter (λ o', o' = o) l) as Hx by (apply list_elem_of_filter; done).
    destruct (filter _ l); [by inversion Hx|simpl; lia].
Qed.

Lemma verdict_spec t l :
  (∀ o, counter t o = occurrences o l) → verdict t = spec_verdict l.
Proof.
  intros Hc. pose proof (λ o, occurrences_pos o l) as Hp.
  pose proof (Hp Success) as HS. pose proof (Hp Timeout) as HT.
  pose proof (Hp Denied) as HD. pose proof (Hp Refused) as HR.
  pose proof (Hp Sent) as HN. rewrite <- Hc in HS, HT, HD, HR, HN. simpl in *.
  unfold verdict, spec_verdict.
  destruct (Z.ltb_spec 0 (success t)), (Z.ltb_spec 0 (timeout t)),
    (Z.ltb_spec 0 (denied t)), (Z.ltb_spec 0 (refused t)), (Z.ltb_spec 0 (sent t));
    simpl; repeat case_decide; try done; exfalso; intuition lia.
Qed.

(** ** Theorem *)

(** C16. However many attempts a run makes (up to the width of the counters),
    tallying them does not overflow, [attempts] is their number, every counter
    is the number of outcomes of its kind and the verdict is the documented
    priority (a success wins, then a drop or a policy deny, then a refusal,
    then a send without reply) over the outcomes seen, in whatever order the
    threads finished. *)
Theorem tally_verdict outcomes observed :
  Z.of_nat (length outcomes) <= u32_max → observed ≡ₚ outcomes →
  ∃ t, record_all tally_default observed = Some t ∧
       attempts t = Some (Z.of_nat (length outcomes)) ∧
       (∀ o, counter t o = occurrences o outcomes) ∧
       verdict t = spec_verdict outcomes.
Proof.
  intros Hl Hp. pose proof (Permutation_length Hp) as Hlen.
  destruct (record_all_default observed) as (t & Hr & Hw & Ht & Hc); [by rewrite Hlen|].
  assert (∀ o, counter t o = occurrences o outcomes) as Hc'.
  { intros o. rewrite Hc. unfold occurrences. by rewrite Hp. }
  exists t. split_and!; [done| |done|by apply verdict_spec].
  rewrite attempts_total by (done || by rewrite Ht, Hlen). by rewrite Ht, Hlen.
Qed.

Lemma tally_verdict_witness :
  ∃ t, record_all tally_default [Refused; Timeout; Success; Timeout] = Some t ∧
       attempts t = Some 4 ∧
       (∀ o, counter t o = occurrences o [Success; Timeout; Timeout; Refused]) ∧
       verdict t = "allowed".
Proof.
  apply (tally_verdict [Success; Timeout; Timeout; Refused]
           [Refused; Timeout; Success; Timeout]).
  - vm_compute. discriminate.
  - change ([Success; Timeout; Timeout; Refused]) with (rev [Refused; Timeout; Timeout; Success]).
    rewrite <- Permutation_rev. apply perm_skip, perm_skip, perm_swap.
Defined.
