(* ===== verification/Sockets.v ===== *)
(** * Sockets, libc and scoped threads

    The network services the worker calls ([socket2], [std::net], [libc]) as an
    interface [Net] over the world, and the programs of worker threads: a
    thread is a sequence of calls ([prog]), performed alone ([perform]) or
    interleaved call by call with its siblings ([run_scope], the model of
    [std::thread::scope]) in the order the operating system's scheduler picks. *)

From S2P Require Import Prelude RustInt RustStr RustNet Effects.

(** ** Interface *)

(** [std::net::SocketAddr]. *)
Record SocketAddr := mk_addr { sa_ip : IpAddr; sa_port : Z }.

Definition valid_addr (a : SocketAddr) : Prop := valid_ip (sa_ip a) ∧ is_u16 (sa_port a).

(** [socket2::Domain], [Type] and [Protocol], as far as they are used. *)
Inductive Domain := IPV4 | IPV6.
Inductive SockType := STREAM | RAW.
Inductive Protocol := TCP | ICMPV4.

(** The link-layer address [arp] fills in: protocol, interface index, and the
    first [sll_halen] bytes of the hardware address. *)
Record sockaddr_ll := mk_sll {
  sll_protocol : Z; sll_ifindex : Z; sll_halen : Z; sll_addr : list Z }.

Class Net (W : Type) := {
  Socket : Type;
  UdpSocket : Type;
  TcpStream : Type;
  TcpListener : Type;
  (* [socket2::Socket] *)
  n_socket : Domain → SockType → Protocol → W → io_result Socket * W;
  n_set_reuse_address : Socket → bool → W → io_result unit * W;
  n_bind : Socket → SocketAddr → W → io_result unit * W;
  n_connect_timeout : Socket → SocketAddr → Z → W → io_result unit * W;
  n_set_read_timeout : Socket → Z → W → io_result unit * W;
  n_send_to : Socket → list Z → SocketAddr → W → io_result Z * W;
  n_recv : Socket → nat → W → io_result (list Z) * W;
  (* [std::net::UdpSocket] *)
  n_udp_bind : SocketAddr → W → io_result UdpSocket * W;
  n_udp_connect : UdpSocket → SocketAddr → W → io_result unit * W;
  n_udp_send : UdpSocket → string → W → io_result Z * W;
  n_udp_set_read_timeout : UdpSocket → Z → W → io_result unit * W;
  n_udp_recv : UdpSocket → nat → W → io_result (list Z) * W;
  n_udp_local_addr : UdpSocket → W → io_result SocketAddr * W;
  n_udp_recv_from : UdpSocket → nat → W → io_result (list Z * SocketAddr) * W;
  n_udp_send_to : UdpSocket → list Z → SocketAddr → W → io_result Z * W;
  (* [std::net::TcpStream], [TcpListener] *)
  n_tcp_connect : SocketAddr → Z → W → io_result TcpStream * W;
  n_tcp_bind : SocketAddr → W → io_result TcpListener * W;
  n_set_nonblocking : TcpListener → bool → W → io_result unit * W;
  n_accept : TcpListener → W → io_result (TcpStream * SocketAddr) * W;
  n_stream_set_read_timeout : TcpStream → Z → W → io_result unit * W;
  n_stream_read : TcpStream → nat → W → io_result (list Z) * W;
  n_stream_write_all : TcpStream → list Z → W → io_result unit * W;
  n_drop_streams : list TcpStream → W → W;
  (* [libc] *)
  n_last_os_error : W → io_error * W;
  n_setgroups_none : W → Z * W;
  n_setgid : Z → W → Z * W;
  n_setuid : Z → W → Z * W;
  n_if_nametoindex : string → W → Z * W;
  n_packet_socket : Z → W → Z * W;
  n_dgram_socket : W → Z * W;
  n_sendto : Z → list Z → sockaddr_ll → W → Z * W;
  n_siocgifhwaddr : Z → string → W → Z * list Z * W;
  n_close : Z → W → W;
  (* which of [n] runnable threads runs next *)
  n_schedule : nat → W → nat * W;
}.

(** What the program relies on: the kernel reports well-formed addresses, and
    none of these calls sets the monotonic clock back. *)
Class NetLaws (W : Type) `{!World W, !WorldClock W, !Net W} : Prop := {
  local_addr_valid s w a :
    (n_udp_local_addr s w).1 = Ok a → valid_addr a;
  clock_socket d t p w : clock w <= clock (n_socket d t p w).2;
  clock_reuse s b w : clock w <= clock (n_set_reuse_address s b w).2;
  clock_bind s a w : clock w <= clock (n_bind s a w).2;
  clock_connect s a t w : clock w <= clock (n_connect_timeout s a t w).2;
  clock_read_timeout s t w : clock w <= clock (n_set_read_timeout s t w).2;
  clock_send_to s p a w : clock w <= clock (n_send_to s p a w).2;
  clock_recv s n w : clock w <= clock (n_recv s n w).2;
  clock_udp_bind a w : clock w <= clock (n_udp_bind a w).2;
  clock_udp_connect s a w : clock w <= clock (n_udp_connect s a w).2;
  clock_udp_send s p w : clock w <= clock (n_udp_send s p w).2;
  clock_udp_timeout s t w : clock w <= clock (n_udp_set_read_timeout s t w).2;
  clock_udp_recv s n w : clock w <= clock (n_udp_recv s n w).2;
  clock_local_addr s w : clock w <= clock (n_udp_local_addr s w).2;
  clock_schedule n w : clock w <= clock (n_schedule n w).2;
  clock_os_error w : clock w <= clock (n_last_os_error w).2;
  clock_setgroups w : clock w <= clock (n_setgroups_none w).2;
  clock_setgid u w : clock w <= clock (n_setgid u w).2;
  clock_setuid u w : clock w <= clock (n_setuid u w).2;
}.

(** ** Programs: sequences of calls *)

(** [Done] is the result, [Panicked] a panic, [Call f k] one call to the world
    and the rest of the program. *)
Inductive prog (W A : Type) : Type :=
  | Done (a : A)
  | Panicked
  | Call {B : Type} (f : W → B * W) (k : B → prog W A).
Arguments Done {W A} a.
Arguments Panicked {W A}.
Arguments Call {W A B} f k.

Fixpoint prog_bind {W A B} (p : prog W A) (k : A → prog W B) : prog W B :=
  match p with
  | Done a => k a
  | Panicked => Panicked
  | Call f h => Call f (λ b, prog_bind (h b) k)
  end.

Definition call {W B} (f : W → B * W) : prog W B := Call f Done.
(** A pure step that panics on [None]. *)
Definition prog_unwrap {W A} (o : option A) : prog W A :=
  match o with Some a => Done a | None => Panicked end.

Declare Scope prog_scope.
Delimit Scope prog_scope with prog.
Bind Scope prog_scope with prog.
Notation "'let!' x := m 'in' k" := (prog_bind m (λ x, k))
  (at level 10, x name, m at level 100, k at level 200) : prog_scope.
(** [m.context(s)?] on a call: errors end the program. *)
Definition prog_try {W A B} `{!Anyhow} (s : string) (m : prog W (io_result A))
    (k : A → prog W (res B)) : prog W (res B) :=
  prog_bind m (λ r, match r with
                    | Ok a => k a
                    | Err e => Done (Err (add_context s (from_io e)))
                    end).
Notation "'try!' x := m 'context' s 'in' k" := (prog_try s m (λ x, k))
  (at level 10, x name, m at level 100, s at level 100, k at level 200) : prog_scope.

(** One thread on its own. *)
Fixpoint perform {W A} (p : prog W A) : io W A := λ w,
  match p with
  | Done a => Some (a, w)
  | Panicked => None
  | Call f k => let '(b, w') := f w in perform (k b) w'
  end.

(** ** Scoped threads *)

(** A finished thread: its result, or [None] when it panicked
    ([JoinHandle::join] of an [Err]). *)
Definition finished {W A} (p : prog W A) : option (option A) :=
  match p with
  | Done a => Some (Some a)
  | Panicked => Some None
  | Call _ _ => None
  end.

(** The indices of the threads that can run. *)
Definition runnable {W A} (ts : list (prog W A)) : list nat :=
  filter (λ i, (ts !! i ≫= finished) = None) (seq 0 (length ts)).

Definition step_thread {W A} (p : prog W A) (w : W) : prog W A * W :=
  match p with
  | Call f k => let '(b, w') := f w in (k b, w')
  | _ => (p, w)
  end.

(** Until every thread is finished, the scheduler picks a runnable one, which
    makes one call. *)
Fixpoint run_threads {W A} `{!Net W} (fuel : nat) (ts : list (prog W A))
    : io W (list (option A)) := λ w,
  match runnable ts with
  | [] => Some (map (λ p, default None (finished p)) ts, w)
  | r :: rs =>
      match fuel with
      | O => None
      | S fuel =>
          let '(pick, w) := n_schedule (length (r :: rs)) w in
          let i := nth (pick mod length (r :: rs)) (r :: rs) r in
          match ts !! i with
          | Some p => let '(p', w) := step_thread p w in
                      run_threads fuel (<[i := p']> ts) w
          | None => None
          end
      end
  end.

(** [std::thread::scope] over threads that make at most [bound] calls each. *)
Definition run_scope {W A} `{!Net W} (bound : nat) (ts : list (prog W A))
    : io W (list (option A)) := run_threads (bound * length ts) ts.

(** ** Reasoning about programs *)

Section safe.
  Context {W : Type} `{!World W, !WorldClock W, !Net W}.

(** Whatever the world answers, [p] ends within [n] calls, its result ([None]
    for a panic) satisfies [P], and no call sets the clock back. *)
Fixpoint safe {A} (n : nat) (P : option A → Prop) (p : prog W A) {struct p} : Prop :=
  match p with
  | Done a => P (Some a)
  | Panicked => P None
  | Call f k =>
      match n with
      | O => False
      | S n => ∀ w, clock w <= clock (f w).2 ∧ safe n P (k (f w).1)
      end
  end.

Lemma safe_mono {A} n m (P Q : option A → Prop) p :
  (n <= m)%nat → (∀ o, P o → Q o) → safe n P p → safe m Q p.
Proof.
  intros Hnm HPQ. revert n m Hnm. induction p as [a| |B f k IH];
    [naive_solver|naive_solver|].
  intros [|n] [|m] Hnm Hp; simpl in *; try done; try lia. intros w. destruct (Hp w) as [Hc Hk].
  split; [done|]. eapply IH; [|done]. lia.
Qed.

Lemma safe_bind {A B} n m (P : option B → Prop) (p : prog W A) k :
  safe n (λ o, match o with Some a => safe m P (k a) | None => P None end) p →
  safe (n + m) P (prog_bind p k).
Proof.
  revert n. induction p as [a| |B' f h IH]; simpl; intros n Hp.
  - eapply safe_mono; [|done|exact Hp]. lia.
  - done.
  - destruct n as [|n]; [done|]. simpl. intros w. destruct (Hp w) as [Hc Hh]. auto.
Qed.

Lemma safe_perform {A} n (P : A → Prop) (p : prog W A) w :
  safe n (λ o, match o with Some a => P a | None => False end) p →
  wp (perform p) (λ a w', P a ∧ clock w <= clock w') w.
Proof.
  revert n w. induction p as [a| |B f k IH]; simpl; intros n w Hp; [|done|].
  - split; [done|lia].
  - destruct n as [|n]; [done|]. destruct (Hp w) as [Hc Hk]. unfold wp. simpl.
    destruct (f w) as [b w1]; simpl in *. specialize (IH b n w1 Hk). unfold wp in IH.
    destruct (perform (k b) w1) as [[a w2]|]; [|done]. destruct IH. split; [done|lia].
Qed.

Lemma safe_finished {A} n (P : option A → Prop) (p : prog W A) o :
  safe n P p → finished p = Some o → P o.
Proof. destruct p; simpl; [by intros ? [= <-]|by intros ? [= <-]|done]. Qed.

Lemma safe_step {A} n (P : option A → Prop) (p : prog W A) w :
  safe n P p → finished p = None →
  ∃ n', n = S n' ∧ safe n' P (step_thread p w).1 ∧ clock w <= clock (step_thread p w).2.
Proof.
  destruct p as [| |B f k]; simpl; [done..|]. destruct n as [|n]; [done|].
  intros Hp _. destruct (Hp w) as [Hc Hk]. destruct (f w) as [b w']; simpl in *. eauto.
Qed.

Lemma runnable_nil {A} (ts : list (prog W A)) :
  runnable ts = [] → Forall (λ p, is_Some (finished p)) ts.
Proof.
  intros Hr. apply Forall_lookup. intros i p Hi. destruct (finished p) eqn:E; [eauto|].
  assert (i ∈ runnable ts) as Hin; [|by rewrite Hr in Hin; inversion Hin].
  unfold runnable. apply list_elem_of_filter. split; [by rewrite Hi|].
  apply elem_of_seq. apply lookup_lt_Some in Hi. lia.
Qed.

Lemma runnable_pick {A} (ts : list (prog W A)) r rs pick :
  runnable ts = r :: rs →
  ∃ p, ts !! nth (pick mod length (r :: rs)) (r :: rs) r = Some p ∧ finished p = None.
Proof.
  intros Hr. set (i := nth _ _ _).
  assert (i ∈ runnable ts) as Hin.
  { rewrite Hr. apply list_elem_of_In, nth_In, Nat.mod_upper_bound. done. }
  unfold runnable in Hin. apply list_elem_of_filter in Hin as [Hf Hi].
  apply elem_of_seq in Hi. destruct (lookup_lt_is_Some_2 ts i ltac:(lia)) as [p Hp].
  exists p. split; [done|]. by rewrite Hp in Hf.
Qed.

(** The scoped threads all finish, within the sum of their bounds, under every
    schedule; the results are in spawn order. *)
Lemma run_threads_wp {A} `{!NetLaws W} (P : option A → Prop) fuel ns (ts : list (prog W A)) w :
  Forall2 (λ n p, safe n P p) ns ts → (sum_list ns <= fuel)%nat →
  wp (run_threads fuel ts)
     (λ rs w', length rs = length ts ∧ Forall P rs ∧ clock w <= clock w') w.
Proof.
  revert ns ts w. induction fuel as [|fuel IH]; intros ns ts w Hts Hf;
    unfold wp; cbn [run_threads];
    destruct (runnable ts) as [|r rs] eqn:Hr.
  1, 3: split_and!; [by rewrite length_map| |lia]; apply runnable_nil in Hr;
    apply Forall_fmap; clear -Hts Hr; induction Hts as [|n p ns ts Hp Hts IH];
    [done|]; decompose_Forall_hyps; constructor; [|by apply IH];
    simpl; destruct (finished p) as [o|] eqn:E; [|by destruct H];
    by eapply safe_finished.
  - exfalso. destruct (runnable_pick ts r rs 0 Hr) as (p & Hp & Hfin).
    destruct (Forall2_lookup_r _ _ _ _ _ Hts Hp) as (n & Hn & Hs).
    destruct (safe_step _ _ _ w Hs Hfin) as (n' & -> & _).
    apply list_elem_of_lookup_2 in Hn. clear -Hn Hf.
    assert (S n' <= sum_list ns)%nat; [|lia].
    clear Hf. induction Hn; simpl; lia.
  - destruct (n_schedule (length (r :: rs)) w) as [pick w1] eqn:Hsch.
    pose proof (clock_schedule (length (r :: rs)) w) as Hc. rewrite Hsch in Hc. simpl in Hc.
    destruct (runnable_pick ts r rs pick Hr) as (p & Hp & Hfin). rewrite Hp.
    destruct (Forall2_lookup_r _ _ _ _ _ Hts Hp) as (n & Hn & Hs).
    destruct (safe_step _ _ _ w1 Hs Hfin) as (n' & -> & Hs' & Hc').
    destruct (step_thread p w1) as [p' w2]. simpl in Hs', Hc'.
    set (i := nth _ _ _) in *.
    eapply wp_mono; [|apply (IH (<[i:=n']> ns) (<[i:=p']> ts))].
    + intros rs' w'. rewrite length_insert. intros (?&?&?). split_and!; [done..|lia].
    + by apply Forall2_insert.
    + assert (sum_list (<[i:=n']> ns) + 1 = sum_list ns)%nat; [|lia].
      clear -Hn. clearbody i. revert i Hn. induction ns as [|m ns IHn]; intros [|i] Hn; simplify_eq/=; [lia|].
      rewrite <- (IHn i Hn). lia.
Qed.

Lemma run_scope_wp {A} `{!NetLaws W} (P : option A → Prop) n (ts : list (prog W A)) w :
  Forall (safe n P) ts →
  wp (run_scope n ts)
     (λ rs w', length rs = length ts ∧ Forall P rs ∧ clock w <= clock w') w.
Proof.
  intros Hts. apply (run_threads_wp P _ (replicate (length ts) n)).
  - induction Hts; simpl; auto.
  - clear Hts. induction ts; simpl; lia.
Qed.

End safe.

(** ** Programs along a relation *)

Section moves.
  Context {W : Type} (R : W → W → Prop) `{!PreOrder R}.

(** Every call of the program is along [R]. *)
Fixpoint prog_moves {A} (p : prog W A) : Prop :=
  match p with
  | Call f k => (∀ w, R w (f w).2) ∧ ∀ b, prog_moves (k b)
  | _ => True
  end.

Lemma prog_moves_bind {A B} (p : prog W A) (k : A → prog W B) :
  prog_moves p → (∀ a, prog_moves (k a)) → prog_moves (prog_bind p k).
Proof.
  intros Hp Hk. induction p as [a| |B' f h IH]; simpl in *; [auto|done|].
  destruct Hp as [Hf Hh]. auto.
Qed.

Lemma prog_moves_call {A} (f : W → A * W) : (∀ w, R w (f w).2) → prog_moves (call f).
Proof. by split. Qed.

Lemma prog_moves_unwrap {A} (o : option A) : prog_moves (prog_unwrap o).
Proof. by destruct o. Qed.

Lemma prog_moves_try `{!Anyhow} {A B} s (m : prog W (io_result A)) (k : A → prog W (res B)) :
  prog_moves m → (∀ a, prog_moves (k a)) → prog_moves (prog_try s m k).
Proof. intros Hm Hk. apply prog_moves_bind; [done|]. intros []; [auto|done]. Qed.

Lemma moves_perform {A} (p : prog W A) : prog_moves p → moves R (perform p).
Proof.
  induction p as [a| |B f k IH]; simpl; intros Hp w b w'; simpl.
  - intros [= <- <-]. reflexivity.
  - done.
  - destruct Hp as [Hf Hk]. specialize (Hf w). destruct (f w) as [c w1]; simpl in Hf.
    intros Hb. transitivity w1; [done|]. by eapply IH.
Qed.

Lemma moves_run_threads {A} `{!Net W} fuel (ts : list (prog W A)) :
  (∀ n w, R w (n_schedule n w).2) → Forall prog_moves ts → moves R (run_threads fuel ts).
Proof.
  intros Hs. revert ts. induction fuel as [|fuel IH]; intros ts Hts w rs w'; cbn [run_threads];
    destruct (runnable ts) as [|r rs'] eqn:Hr; try (intros [= <- <-]; reflexivity).
  specialize (Hs (length (r :: rs')) w). destruct (n_schedule _ w) as [pick w1]; simpl in Hs.
  destruct (ts !! _) as [p|] eqn:Hp; [|done].
  pose proof (Forall_lookup_1 _ _ _ _ Hts Hp) as Hm.
  assert (R w1 (step_thread p w1).2 ∧ prog_moves (step_thread p w1).1) as [Hw Hm'].
  { destruct p as [a| |B f k]; cbn [step_thread]; try by split.
    destruct Hm as [Hf Hk]. specialize (Hf w1). destruct (f w1) as [b w2]; simpl in *. auto. }
  destruct (step_thread p w1) as [p' w2]; simpl in *. intros Hrun.
  apply IH in Hrun; [|by apply Forall_insert].
  etransitivity; [exact Hs|]. by etransitivity.
Qed.

Lemma run_threads_length {A} `{!Net W} fuel (ts : list (prog W A)) w rs w' :
  run_threads fuel ts w = Some (rs, w') → length rs = length ts.
Proof.
  revert ts w. induction fuel as [|fuel IH]; intros ts w; cbn [run_threads];
    destruct (runnable ts) as [|r rs'] eqn:Hr; try (intros [= <- <-]; by rewrite length_map).
  destruct (n_schedule _ w) as [pick w1]. destruct (ts !! _) as [p|]; [|done].
  destruct (step_thread p w1) as [p' w2]. intros Hrun. apply IH in Hrun.
  by rewrite length_insert in Hrun.
Qed.

End moves.
