(* ===== verification/SimNet.v ===== *)
(** * A simulated network

    The device of [Sim.v] with sockets: ports from 9003 up refuse connections,
    the lower ones accept them; reads time out. The scheduler picks by the
    clock, which it advances. *)

From S2P Require Import Prelude RustInt RustNet Effects Sim Sockets.

Definition sim_refused : io_error := mk_io_error ConnectionRefused "Connection refused (os error 111)".
Definition sim_timeout : io_error := mk_io_error WouldBlock "Resource temporarily unavailable (os error 11)".

#[export] Instance sim_net : Net device := {|
  Socket := unit; UdpSocket := unit; TcpStream := unit; TcpListener := unit;
  n_socket _ _ _ w := (Ok tt, w);
  n_set_reuse_address _ _ w := (Ok tt, w);
  n_bind _ _ w := (Ok tt, w);
  n_connect_timeout _ a _ w := (if sa_port a <? 9003 then Ok tt else Err sim_refused, w);
  n_set_read_timeout _ _ w := (Ok tt, w);
  n_send_to _ p _ w := (Ok (Z.of_nat (length p)), w);
  n_recv _ _ w := (Err sim_timeout, tick 1000000 w);
  n_udp_bind _ w := (Ok tt, w);
  n_udp_connect _ _ w := (Ok tt, w);
  n_udp_send _ p w := (Ok (Z.of_nat (String.length p)), w);
  n_udp_set_read_timeout _ _ w := (Ok tt, w);
  n_udp_recv _ _ w := (Err sim_timeout, tick 1000000 w);
  n_udp_local_addr _ w := (Ok (mk_addr (V4 (ipv4 10 123 0 2)) 40001), w);
  n_udp_recv_from _ _ w := (Err sim_timeout, tick 1000000 w);
  n_udp_send_to _ p _ w := (Ok (Z.of_nat (length p)), w);
  n_tcp_connect a _ w := (if sa_port a <? 9003 then Ok tt else Err sim_refused, tick 1000 w);
  n_tcp_bind _ w := (Ok tt, w);
  n_set_nonblocking _ _ w := (Ok tt, w);
  n_accept _ w := (Err sim_timeout, tick 1000 w);
  n_stream_set_read_timeout _ _ w := (Ok tt, w);
  n_stream_read _ _ w := (Err sim_timeout, tick 1000 w);
  n_stream_write_all _ _ w := (Ok tt, w);
  n_drop_streams _ w := w;
  n_last_os_error w := (mk_io_error PermissionDenied "Operation not permitted (os error 1)", w);
  n_setgroups_none w := (0, w);
  n_setgid _ w := (0, w);
  n_setuid _ w := (0, w);
  n_if_nametoindex _ w := (5, w);
  n_packet_socket _ w := (7, w);
  n_dgram_socket w := (8, w);
  n_sendto _ p _ w := (Z.of_nat (length p), w);
  n_siocgifhwaddr _ _ w := (0, [2; 66; 10; 123; 0; 2; 0; 0; 0; 0; 0; 0; 0; 0], w);
  n_close _ w := w;
  n_schedule _ w := (Z.to_nat (d_clock w mod 5), tick 1 w);
|}.

#[export] Instance sim_net_laws : NetLaws device.
Proof.
  split; intros; simpl in *; try lia.
  match goal with H : Ok _ = Ok _ |- _ => injection H as <- end.
  split; [|split; discriminate]. repeat constructor; discriminate.
Qed.
