(* ===== verification/Traffic.v ===== *)
(** * Traffic generation ([agent/traffic.rs], [agent/mod.rs])

    The attempts over real sockets, the port list, the source ports of the
    bare-FIN probes, the parallel burst and the sequential loop of [run], and
    the JSON line [emit] prints for the orchestrator. *)

From S2P Require Import Prelude RustInt RustStr RustNet Effects Sim Packets Cli Exec Peer Sockets SimNet Tally.

Definition lower_proto (p : Proto) : string :=
  to_ascii_lowercase match p with Tcp => "Tcp" | Udp => "Udp" | Icmp => "Icmp" end.

(** [Domain::for_address], [SocketAddr::is_ipv4]. *)
Definition domain_for (dst : SocketAddr) : Domain :=
  match sa_ip dst with V4 _ => IPV4 | V6 _ => IPV6 end.

Definition unspecified (domain : Domain) : SocketAddr :=
  match domain with
  | IPV4 => mk_addr (V4 (ipv4 0 0 0 0)) 0
  | IPV6 => mk_addr (V6 (ipv6 (zeroes 8))) 0
  end.
Definition set_port (a : SocketAddr) (port : Z) : SocketAddr := mk_addr (sa_ip a) port.

(** ** Attempts *)

Section attempts.
  Context {W : Type} `{!World W, !Net W, !Anyhow}.

#[local] Open Scope prog_scope.

Definition tcp_attempt (dst : SocketAddr) (sport : option Z) (timeout : Z)
    : prog W (res Outcome) :=
  let domain := domain_for dst in
  try! socket := call (n_socket domain STREAM TCP)
    context "failed to create tcp socket" in
  let connect :=
    let! r := call (n_connect_timeout socket dst timeout) in
    Done (Ok match r with Ok _ => Success | Err error => classify_io error end) in
  match sport with
  | Some port =>
      try! _ := call (n_set_reuse_address socket true)
        context "failed to set reuse_address" in
      let bind_addr := set_port (unspecified domain) port in
      try! _ := call (n_bind socket bind_addr)
        context ("failed to bind source port " +:+ uint_to_string port) in
      connect
  | None => connect
  end.

Definition udp_attempt (dst : SocketAddr) (sport : option Z) (timeout : Z)
    (await_reply : bool) : prog W (res Outcome) :=
  let bind := set_port (unspecified (domain_for dst)) (default 0 sport) in
  try! socket := call (n_udp_bind bind) context "failed to bind udp socket" in
  try! _ := call (n_udp_connect socket dst) context "failed to connect udp socket" in
  try! _ := call (n_udp_send socket "fw-agent-probe")
    context "failed to send udp probe" in
  if negb await_reply then Done (Ok Sent) else
  try! _ := call (n_udp_set_read_timeout socket timeout)
    context "failed to set udp read timeout" in
  let! r := call (n_udp_recv socket 128) in
  Done (Ok match r with Ok _ => Success | Err error => classify_io error end).

Definition icmp_attempt (dst : IpAddr) (ident seq : Z) (kind : IcmpKind) (timeout : Z)
    : prog W (res Outcome) :=
  match dst with
  | V6 _ => Done (Err (anyhow "icmp traffic currently supports IPv4 only"))
  | V4 _ =>
      try! socket := call (n_socket IPV4 RAW ICMPV4)
        context "failed to create raw icmp socket (needs root)" in
      try! _ := call (n_set_read_timeout socket timeout)
        context "failed to set icmp read timeout" in
      let target := mk_addr dst 0 in
      if decide (kind = Timestamp) then
        let! packet := prog_unwrap (build_icmp_timestamp ident seq) in
        try! _ := call (n_send_to socket packet target)
          context "failed to send icmp timestamp request" in
        Done (Ok Sent)
      else
        let! packet := prog_unwrap (build_icmp_echo ident seq) in
        try! _ := call (n_send_to socket packet target)
          context "failed to send icmp echo" in
        let! r := call (n_recv socket 1500) in
        Done (Ok match r with
                 | Ok filled =>
                     if is_matching_echo_reply filled ident then Success else Other
                 | Err error => classify_io error
                 end)
  end.

Definition local_src_ipv4 (dst : IpAddr) : prog W (res Ipv4Addr) :=
  try! probe := call (n_udp_bind (unspecified IPV4))
    context "failed to bind probe socket" in
  try! _ := call (n_udp_connect probe (mk_addr dst 9))
    context "failed to connect probe socket" in
  try! addr := call (n_udp_local_addr probe)
    context "failed to read probe local_addr" in
  match sa_ip addr with
  | V4 v4 => Done (Ok v4)
  | V6 _ => Done (Err (anyhow "fin-only traffic currently supports IPv4 only"))
  end.

Definition fin_attempt (dst : SocketAddr) (sport : option Z) (seq : Z)
    : prog W (res Outcome) :=
  match sa_ip dst with
  | V6 _ => Done (Err (anyhow "fin-only traffic currently supports IPv4 only"))
  | V4 dst_v4 =>
      let! src := local_src_ipv4 (sa_ip dst) in
      match src with
      | Err e => Done (Err e)
      | Ok src_v4 =>
          try! socket := call (n_socket IPV4 RAW TCP)
            context "failed to create raw tcp socket (needs root)" in
          let! packet := prog_unwrap
            (build_fin src_v4 dst_v4 (default 40000 sport) (sa_port dst) seq) in
          let target := mk_addr (sa_ip dst) 0 in
          try! _ := call (n_send_to socket packet target)
            context "failed to send tcp fin" in
          Done (Ok Sent)
      end
  end.

End attempts.

(** ** Dropping privileges ([agent/mod.rs]) *)

Section drop_to_uid.
  Context {W : Type} `{!World W, !Net W, !Anyhow}.

Definition last_os_error : io W io_error := lift n_last_os_error.

Definition drop_to_uid (uid : Z) : io W (res unit) :=
  r <- lift n_setgroups_none ;;
  if negb (r =? 0) then
    e <- last_os_error ;; io_ret (Err (anyhow ("setgroups failed: " +:+ io_text e)))
  else
  r <- lift (n_setgid uid) ;;
  if negb (r =? 0) then
    e <- last_os_error ;;
    io_ret (Err (anyhow ("setgid(" +:+ uint_to_string uid +:+ ") failed: " +:+ io_text e)))
  else
  r <- lift (n_setuid uid) ;;
  if negb (r =? 0) then
    e <- last_os_error ;;
    io_ret (Err (anyhow ("setuid(" +:+ uint_to_string uid +:+ ") failed: " +:+ io_text e)))
  else io_ret (Ok tt).

End drop_to_uid.

(** ** The ports and the source ports *)

Section ports.
  Context `{!Anyhow}.

Definition parse_port (item : string) : res Z :=
  match parse_uint u16_max (trim item) with
  | Some p => Ok p
  | None => Err (add_context ("invalid port `" +:+ item +:+ "`")
                   (anyhow (parse_int_error u16_max (trim item))))
  end.

(** [let ports: Vec<u16> = ..] of [run]. *)
Definition traffic_ports (args : TrafficArgs) : res (list Z) :=
  match ta_dports args, ta_dport args with
  | Some list, _ =>
      collect (map parse_port
        (filter (λ item, trim item ≠ "") (split_char "," list)))
  | None, Some port => Ok [port]
  | None, None =>
      if decide (ta_proto args = Icmp) then Ok [0]
      else Err (anyhow "--dport or --dports is required for tcp/udp")
  end.

End ports.

(** [20000_u16.wrapping_add((std::process::id() as u16) % 20000)] *)
Definition fin_sport_base (pid : Z) : Z := wrapping_add_u16 20000 (as_u16 pid mod 20000).

(** The source port of the bare-FIN probe at [offset]. *)
Definition fin_sport (base offset : Z) : Z :=
  let p := wrapping_add_u16 base offset in
  if p <? 1024 then Z.lor p 16384 else p.

(** ** The result line *)

Section emit.
  Context {W : Type} `{!World W, !Anyhow, !SerdeJson}.

Definition emit_fields (args : TrafficArgs) (ports : list Z) (attempts : Z) (t : Tally)
    : list (string * jtree) :=
  [("proto", TStr (lower_proto (ta_proto args)));
   ("to", TStr (ip_to_string (ta_to args)));
   ("ports", TArr (map TInt ports));
   ("attempts", TInt attempts);
   ("success", TInt (success t));
   ("timeout", TInt (timeout t));
   ("refused", TInt (refused t));
   ("denied", TInt (denied t));
   ("sent", TInt (sent t));
   ("other", TInt (other t));
   ("verdict", TStr (verdict t))].

Definition emit (args : TrafficArgs) (ports : list Z) (t : Tally) : io W (res unit) :=
  n <- unwrap (attempts t) ;;
  println (to_string (json (TObj (emit_fields args ports n t)))) ;;;
  io_ret (Ok tt).

End emit.

(** ** [run] *)

Section run.
  Context {W : Type} `{!World W, !Net W, !Anyhow, !SerdeJson}.

(** One probe of the parallel burst; an error counts as [Other]. *)
Definition burst_probe (args : TrafficArgs) (base timeout : Z) (index : nat) (port : Z)
    : prog W Outcome :=
  let dst := mk_addr (ta_to args) port in
  prog_bind
    (if ta_fin_only args then
       let sport := default (fin_sport base (as_u16 (Z.of_nat index))) (ta_sport args) in
       prog_bind (prog_unwrap (u32_add (as_u32 (Z.of_nat index)) 1))
         (λ seq, fin_attempt dst (Some sport) seq)
     else tcp_attempt dst (ta_sport args) timeout)
    (λ r, Done (unwrap_or Other r)).

(** No probe makes more than six calls (lemma [burst_probe_safe]). *)
Definition probe_calls : nat := 6.

(** A probe that panicked joins as [Other]. *)
Definition burst (args : TrafficArgs) (base timeout : Z) (ports : list Z)
    : io W (list Outcome) :=
  outcomes <- run_scope probe_calls (imap (burst_probe args base timeout) ports) ;;
  io_ret (map (default Other) outcomes).

(** The mutable locals of the sequential loop. *)
Record Loop := mk_loop { tally : Tally; l_seq : Z; first : bool; fin_offset : Z }.

Definition attempt (args : TrafficArgs) (ident base timeout interval port : Z) (s : Loop)
    : io W (res Loop) :=
  (if negb (first s) && negb (interval =? 0) then sleep interval else io_ret tt) ;;;
  let done seq offset m :=
    outcome <-? perform m ;;
    t <- unwrap (record (tally s) outcome) ;;
    io_ret (Ok (mk_loop t seq false offset)) in
  match ta_proto args with
  | Tcp =>
      if ta_fin_only args then
        let seq := wrapping_add_u16 (l_seq s) 1 in
        let sport := default (fin_sport base (fin_offset s)) (ta_sport args) in
        done seq (wrapping_add_u16 (fin_offset s) 1)
          (fin_attempt (mk_addr (ta_to args) port) (Some sport) seq)
      else
        done (l_seq s) (fin_offset s)
          (tcp_attempt (mk_addr (ta_to args) port) (ta_sport args) timeout)
  | Udp =>
      done (l_seq s) (fin_offset s)
        (udp_attempt (mk_addr (ta_to args) port) (ta_sport args) timeout (ta_await_reply args))
  | Icmp =>
      let seq := wrapping_add_u16 (l_seq s) 1 in
      done seq (fin_offset s)
        (icmp_attempt (ta_to args) ident seq (ta_icmp_type args) timeout)
  end.

(** [for &port in &ports { for _ in 0..args.count.max(1) { .. } }] *)
Definition sequential (args : TrafficArgs) (ident base timeout interval : Z)
    (ports : list Z) : io W (res Loop) :=
  io_fold ports (λ s port,
    io_fold (replicate (Z.to_nat (Z.max (ta_count args) 1)) tt)
      (λ s _, attempt args ident base timeout interval port s) s)
    (mk_loop tally_default 0 true 0).

Definition parallel (args : TrafficArgs) (ports : list Z) : bool :=
  bool_decide (ta_proto args = Tcp) && bool_decide (1 < length ports)%nat
  && (ta_count args <=? 1).

Definition run (args : TrafficArgs) : io W (res unit) :=
  _ <-? match ta_uid args with Some uid => drop_to_uid uid | None => io_ret (Ok tt) end ;;
  let timeout := millis (ta_timeout_ms args) in
  let interval := millis (ta_interval_ms args) in
  match traffic_ports args with
  | Err e => io_ret (Err e)
  | Ok ports =>
      pid <- process_id ;;
      let ident := Z.land pid 65535 in
      pid <- process_id ;;
      let base := fin_sport_base pid in
      if parallel args ports then
        outcomes <- burst args base timeout ports ;;
        t <- unwrap (record_all tally_default outcomes) ;;
        emit args ports t
      else
        s <-? sequential args ident base timeout interval ports ;;
        emit args ports (tally s)
  end.

End run.

(** ** Lemmas: source ports *)

Lemma lor_16384 p : 0 <= p < 1024 → Z.lor p 16384 = p + 16384.
Proof.
  intros Hp. rewrite <- Z.add_lor_land.
  assert (Z.land p 16384 = 0) as ->; [|lia].
  change 16384 with (2 ^ 14). apply Z.bits_inj'. intros n Hn.
  rewrite Z.land_spec, Z.pow2_bits_eqb, Z.bits_0 by lia.
  destruct (Z.eqb_spec 14 n) as [<-|]; [|by rewrite andb_false_r].
  rewrite andb_true_r. destruct (Z.eq_dec p 0) as [->|]; [done|].
  apply Z.bits_above_log2; [lia|]. apply Z.log2_lt_pow2; lia.
Qed.

Lemma fin_sport_value base offset :
  fin_sport base offset =
  let p := (base + offset) mod 65536 in if p <? 1024 then p + 16384 else p.
Proof.
  unfold fin_sport, wrapping_add_u16, as_u16.
  pose proof (Z.mod_pos_bound (base + offset) 65536 ltac:(lia)).
  cbv zeta. case_match; bool_prop; [|done]. by rewrite lor_16384 by lia.
Qed.

Lemma fin_sport_u16 base offset : is_u16 (fin_sport base offset).
Proof.
  rewrite fin_sport_value. unfold is_u. cbv zeta.
  pose proof (Z.mod_pos_bound (base + offset) 65536 ltac:(lia)).
  case_match; bool_prop; lia.
Qed.

(** ** Lemmas: probes return *)

Section probes.
  Context {W : Type} `{!World W, !WorldClock W, !Net W, !NetLaws W, !Anyhow, !SerdeJson}.

Lemma safe_try {A B} n (P : option (res B) → Prop) s (f : W → io_result A * W) k :
  (∀ w, clock w <= clock (f w).2) → (∀ e, P (Some (Err e))) →
  (∀ a w, (f w).1 = Ok a → safe n P (k a)) →
  safe (S n) P (prog_try s (call f) k).
Proof.
  intros Hc He Hk w. split; [apply Hc|]. simpl.
  destruct ((f w).1) as [a|e] eqn:E; [by eapply Hk|apply He].
Qed.

Lemma safe_call {A B} n (P : option B → Prop) (f : W → A * W) k :
  (∀ w, clock w <= clock (f w).2) → (∀ a, safe n P (k a)) →
  safe (S n) P (prog_bind (call f) k).
Proof. intros Hc Hk w. split; [apply Hc|apply Hk]. Qed.

(** Follows the calls of an attempt. *)
Ltac probe :=
  repeat match goal with
  | |- safe _ _ (prog_try _ _ _) => apply safe_try; [auto with clock|eauto|intros ? ? ?]
  | |- safe _ _ (prog_bind (call _) _) => apply safe_call; [auto with clock|intros ?]
  | |- safe _ _ (Done _) => simpl; eauto
  end.

Create HintDb clock.
#[local] Hint Resolve clock_socket clock_reuse clock_bind clock_connect
  clock_read_timeout clock_send_to clock_recv clock_udp_bind clock_udp_connect
  clock_udp_send clock_udp_timeout clock_udp_recv clock_local_addr : clock.

Lemma tcp_attempt_safe dst sport timeout : safe 4 is_Some (tcp_attempt dst sport timeout).
Proof.
  unfold tcp_attempt. destruct sport; probe.
Qed.

Lemma udp_attempt_safe dst sport timeout reply :
  safe 5 is_Some (udp_attempt dst sport timeout reply).
Proof. unfold udp_attempt. probe. destruct reply; cbn [negb]; probe. Qed.

Lemma icmp_attempt_safe dst ident seq kind timeout :
  is_u16 ident → is_u16 seq → safe 4 is_Some (icmp_attempt dst ident seq kind timeout).
Proof.
  intros Hi Hs. unfold icmp_attempt. destruct dst; probe.
  destruct (icmp_echo_built ident seq Hi Hs) as (p & -> & _).
  destruct (icmp_timestamp_built ident seq Hi Hs) as (q & -> & _).
  case_decide; cbn [prog_unwrap prog_bind]; probe.
Qed.

Lemma local_src_ipv4_safe dst :
  safe 3 (λ o, match o with
               | Some (Ok v4) => valid_ipv4 v4
               | Some (Err _) => True
               | None => False
               end) (local_src_ipv4 (W := W) dst).
Proof.
  unfold local_src_ipv4. probe. match goal with
  | H : (n_udp_local_addr _ _).1 = Ok ?x |- _ =>
      apply local_addr_valid in H as [Ha _]; by destruct (sa_ip x)
  end.
Qed.

Lemma fin_attempt_safe dst sport seq :
  valid_addr dst → (∀ p, sport = Some p → is_u16 p) → is_u32 seq →
  safe 5 is_Some (fin_attempt dst sport seq).
Proof.
  intros [Hip Hport] Hsp Hseq. unfold fin_attempt. destruct (sa_ip dst) as [v4|]; [|simpl; eauto].
  apply (safe_bind 3 2). eapply safe_mono; [done| |apply local_src_ipv4_safe].
  intros [[src|]|]; [|simpl; eauto|done]. intros Hsrc. probe.
  assert (is_u16 (default 40000 sport)) as Hdp
    by (destruct sport; simpl; [auto|unfold is_u; lia]).
  destruct (fin_built src v4 _ (sa_port dst) seq Hsrc Hip Hdp Hport Hseq) as (p & -> & _).
  cbn [prog_unwrap prog_bind]. probe.
Qed.

End probes.

(** ** Lemmas: [run] returns *)

Section runs.
  Context {W : Type} `{!World W, !WorldClock W, !Net W, !NetLaws W, !Anyhow, !SerdeJson}.

(** Arguments as the parser delivers them. *)
Definition args_valid (args : TrafficArgs) : Prop :=
  valid_ip (ta_to args) ∧ (∀ p, ta_sport args = Some p → is_u16 p) ∧
  (∀ p, ta_dport args = Some p → is_u16 p).

Lemma traffic_ports_u16 args ports :
  args_valid args → traffic_ports args = Ok ports → Forall is_u16 ports.
Proof.
  intros (_ & _ & Hd). unfold traffic_ports.
  destruct (ta_dports args) as [l|].
  - intros Hl%collect_ok. induction Hl as [|item p items ports Hp _ IH]; constructor; [|done].
    unfold parse_port in Hp. destruct (parse_uint u16_max (trim item)) eqn:E; [|done].
    injection Hp as <-. by apply parse_uint_range in E.
  - destruct (ta_dport args) as [p|].
    + intros [= <-]. constructor; auto.
    + case_decide; [|done]. intros [= <-]. repeat constructor; unfold is_u; lia.
Qed.

Lemma sport_u16 args base offset :
  args_valid args → is_u16 (default (fin_sport base offset) (ta_sport args)).
Proof.
  intros (_ & Hs & _). destruct (ta_sport args); simpl; [auto|apply fin_sport_u16].
Qed.

Lemma burst_probe_safe args base timeout index port :
  args_valid args → is_u16 port →
  safe probe_calls (λ _, True) (burst_probe args base timeout index port).
Proof.
  intros Ha Hp. unfold burst_probe, probe_calls. apply (safe_bind 5 1).
  assert (valid_addr (mk_addr (ta_to args) port)) as Hv by (split; [apply Ha|done]).
  destruct (ta_fin_only args).
  - destruct (u32_add _ 1) as [seq|] eqn:Hseq; [|done]. cbn [prog_unwrap prog_bind].
    eapply safe_mono; [done| |apply fin_attempt_safe; [done| |]].
    + by intros [].
    + intros p [= <-]. by apply sport_u16.
    + eapply u32_add_u32; [apply as_u32_nonneg| |exact Hseq]. done.
  - eapply safe_mono; [| |apply tcp_attempt_safe]; [lia|by intros []].
Qed.

Lemma burst_wp args base timeout ports w :
  args_valid args → Forall is_u16 ports →
  wp (burst args base timeout ports) (λ os _, length os = length ports) w.
Proof.
  intros Ha Hp. unfold burst. apply wp_bind.
  eapply wp_mono; [|apply (run_scope_wp (λ _, True))].
  - intros rs w' (Hl & _). apply wp_ret. by rewrite length_map, Hl, length_imap.
  - apply Forall_lookup. intros i p. rewrite list_lookup_imap.
    destruct (ports !! i) as [port|] eqn:E; [|done]. intros [= <-].
    apply burst_probe_safe; [done|]. by eapply Forall_lookup_1.
Qed.

(** The sequential loop so far: the outcomes it has recorded. *)
Definition loop_inv (s : Loop) (os : list Outcome) : Prop :=
  record_all tally_default os = Some (tally s) ∧ is_u16 (l_seq s).

Lemma wrapping_u16 a b : is_u16 (wrapping_add_u16 a b).
Proof.
  unfold is_u, wrapping_add_u16, as_u16. pose proof (Z.mod_pos_bound (a + b) 65536). lia.
Qed.

(** Recording after a probe that does not panic. *)
Lemma probe_recorded n (m : prog W (res Outcome)) os s seq offset w :
  safe n is_Some m → loop_inv s os → is_u16 seq →
  Z.of_nat (length os) + 1 <= u32_max →
  wp (outcome <-? perform m ;;
      t <- unwrap (record (tally s) outcome) ;;
      io_ret (Ok (mk_loop t seq false offset)))
     (λ r _, match r with Ok s' => ∃ o, loop_inv s' (os ++ [o]) | Err _ => True end) w.
Proof.
  intros Hm [Hr _] Hseq Hlen. apply wp_try.
  eapply wp_mono; [|eapply (safe_perform n (λ _, True)), safe_mono; [done| |done]].
  - intros [o|e] w' _; [|done]. apply wp_bind.
    destruct (record_all_default (os ++ [o])) as (t & Ht & _);
      [rewrite length_app; simpl; lia|].
    pose proof Ht as Ht'. rewrite record_all_snoc, Hr in Ht'. simpl in Ht'.
    rewrite Ht'. unfold wp, unwrap; simpl. exists o. by split.
  - intros [a|]; [done|]. by intros [? ?].
Qed.

Lemma attempt_wp args ident base timeout interval port s os w :
  args_valid args → is_u16 port → is_u16 ident → 0 <= interval →
  loop_inv s os → Z.of_nat (length os) + 1 <= u32_max →
  wp (attempt args ident base timeout interval port s)
     (λ r _, match r with Ok s' => ∃ o, loop_inv s' (os ++ [o]) | Err _ => True end) w.
Proof.
  intros Ha Hp Hid Hi Hs Hl. unfold attempt. apply wp_bind.
  assert (steady (if negb (first s) && negb (interval =? 0)
                  then sleep interval else io_ret tt)) as Hst.
  { destruct (_ && _); [by apply steady_sleep|apply steady_ret]. }
  eapply wp_mono; [|apply Hst]. intros [] w1 _. cbv zeta.
  assert (valid_addr (mk_addr (ta_to args) port)) as Hv by (split; [apply Ha|done]).
  destruct (ta_proto args); [destruct (ta_fin_only args)| |].
  - eapply (probe_recorded 5); try done; try apply wrapping_u16.
    apply fin_attempt_safe; [done| |].
    + intros p [= <-]. by apply sport_u16.
    + pose proof (wrapping_u16 (l_seq s) 1). unfold is_u, u32_max in *. lia.
  - eapply (probe_recorded 4); try done; [apply tcp_attempt_safe|apply Hs].
  - eapply (probe_recorded 5); try done; [apply udp_attempt_safe|apply Hs].
  - eapply (probe_recorded 4); try done; try apply wrapping_u16.
    apply icmp_attempt_safe; [done|apply wrapping_u16].
Qed.

Definition attempts_of (args : TrafficArgs) (ports : list Z) : Z :=
  Z.of_nat (length ports) * Z.max 1 (ta_count args).

Lemma sequential_wp args ident base timeout interval ports w :
  args_valid args → Forall is_u16 ports → is_u16 ident → 0 <= interval →
  attempts_of args ports <= u32_max →
  wp (sequential args ident base timeout interval ports)
     (λ r _, match r with
             | Ok s => ∃ os, loop_inv s os ∧ Z.of_nat (length os) = attempts_of args ports
             | Err _ => True
             end) w.
Proof.
  intros Ha Hports Hid Hi Hn. unfold sequential, attempts_of in *.
  set (c := Z.max 1 (ta_count args)) in *.
  apply (wp_fold (λ i s _, ∃ os, loop_inv s os ∧ Z.of_nat (length os) = Z.of_nat i * c)
                 (λ _ _, True)).
  - intros i port s w1 Hport (os & Hs & Hos).
    assert (is_u16 port) as Hp by (by eapply Forall_lookup_1).
    apply lookup_lt_Some in Hport.
    eapply wp_mono; [|apply (wp_fold (λ j s _, ∃ os, loop_inv s os ∧
        Z.of_nat (length os) = Z.of_nat i * c + Z.of_nat j) (λ _ _, True))].
    + intros [s'|e] w2; [|done]. rewrite length_replicate.
      intros (os' & Hs' & Hos'). exists os'. split; [done|]. lia.
    + intros j [] s1 w2 Hj (os1 & Hs1 & Hos1). apply lookup_lt_Some in Hj.
      rewrite length_replicate in Hj.
      eapply wp_mono; [|apply (attempt_wp _ _ _ _ _ _ _ os1); try done; nia].
      intros [s'|e] w3; [|done]. intros (o & Ho). exists (os1 ++ [o]).
      split; [done|]. rewrite length_app. simpl. lia.
    + exists os. split; [done|]. lia.
  - exists []. split; [|simpl; lia]. split; [done|simpl; unfold is_u; lia].
Qed.

End runs.

(** ** Theorems *)

Lemma trim_uint n : trim (uint_to_string n) = uint_to_string n.
Proof. apply trim_no_ws, digits_no_ws, uint_to_string_digits. Qed.

(** The port list, read back. *)
Lemma ports_read_back `{!Anyhow} cmd uid p ports :
  dports cmd = Some ports → Forall is_u16 ports →
  traffic_ports (worker_args cmd uid p) = Ok ports.
Proof.
  intros Hd Hp. unfold traffic_ports, worker_args. cbn [ta_dports]. rewrite Hd.
  cbn [fmap option_fmap option_map]. unfold join_ports.
  destruct (decide (ports = [])) as [->|Hne]; [reflexivity|].
  change "," with (String "," ""). rewrite split_char_join; last first.
  { apply Forall_fmap, Forall_forall. intros n _.
    apply digits_no_char, uint_to_string_digits. done. }
  { by destruct ports. }
  rewrite filter_all; last first.
  { apply Forall_fmap, Forall_forall. intros n _. simpl. rewrite trim_uint.
    apply uint_to_string_nonempty. }
  apply collect_ok. clear Hd Hne. induction Hp as [|n ports Hn _ IH]; constructor; [|done].
  unfold parse_port. by rewrite trim_uint, parse_uint_to_string.
Qed.

(** The port list survives the command line: the comma-separated list the
    orchestrator writes for any ports is read back by the worker as exactly
    those ports, in order. *)
Theorem traffic_ports_join `{!Anyhow} cmd uid p ports :
  dports cmd = Some ports → Forall is_u16 ports →
  traffic_ports (worker_args cmd uid p) = Ok ports.
Proof. exact (ports_read_back cmd uid p ports). Qed.

Lemma traffic_ports_join_witness :
  traffic_ports (worker_args demo_scan (Some 2000) Tcp) = Ok [9001; 9002; 9003; 9004; 9005].
Proof.
  apply (traffic_ports_join demo_scan (Some 2000) Tcp [9001; 9002; 9003; 9004; 9005]).
  - reflexivity.
  - repeat constructor; discriminate.
Defined.

(** C37. The bare-FIN probes of one run never share a source port, whatever the
    process id, up to 41921 probes (the bound is tight), and no source port is
    a privileged one. *)
Theorem fin_sports_distinct pid i j :
  0 <= i < j → j < 41921 →
  fin_sport (fin_sport_base pid) i ≠ fin_sport (fin_sport_base pid) j ∧
  1024 <= fin_sport (fin_sport_base pid) i <= u16_max.
Proof.
  intros Hi Hj. rewrite !fin_sport_value. unfold fin_sport_base, wrapping_add_u16, as_u16, u16_max.
  pose proof (Z.mod_pos_bound (pid mod 65536) 20000 ltac:(lia)) as Hb.
  set (r := (pid mod 65536) mod 20000) in *.
  rewrite (Z.mod_small (20000 + r)) by lia. set (b := 20000 + r) in *. cbv zeta.
  assert (∀ k, 0 <= k < 41921 →
    (b + k) mod 65536 = if b + k <? 65536 then b + k else b + k - 65536) as Hm.
  { intros k Hk. destruct (Z.ltb_spec (b + k) 65536); [by apply Z.mod_small; lia|].
    symmetry. apply (Z.mod_unique_pos _ _ 1); lia. }
  rewrite !Hm by lia.
  destruct (Z.ltb_spec (b + i) 65536), (Z.ltb_spec (b + j) 65536);
    repeat (case_match; bool_prop); lia.
Qed.

Lemma fin_sports_distinct_witness :
  fin_sport (fin_sport_base 39999) 25537 ≠ fin_sport (fin_sport_base 39999) 41920 ∧
  1024 <= fin_sport (fin_sport_base 39999) 25537 <= u16_max.
Proof. apply (fin_sports_distinct 39999 25537 41920); lia. Defined.

(** The bound is tight: one more probe can collide. *)
Example fin_sport_collision :
  fin_sport (fin_sport_base 39999) 25537 = fin_sport (fin_sport_base 39999) 41921.
Proof. vm_compute. reflexivity. Qed.

(** What the orchestrator should read of a run with these outcomes. *)
Definition spec_outcome (os : list Outcome) : TrafficOutcome := {|
  Peer.verdict := spec_verdict os;
  o_success := occurrences Success os;
  o_timeout := occurrences Timeout os;
  o_refused := occurrences Refused os;
  o_denied := occurrences Denied os;
  o_sent := occurrences Sent os;
  o_other := occurrences Other os;
|}.

Section reports.
  Context {W : Type} `{!World W, !WorldClock W, !Net W, !NetLaws W, !Anyhow, !SerdeJson,
                       !SerdeJsonLaws, !DeOutcome, !DeOutcomeLaws}.

(** The fields [emit] prints for these outcomes, as the orchestrator reads them. *)
Lemma emit_fields_read args ports os t :
  Z.of_nat (length os) <= u32_max → record_all tally_default os = Some t →
  result_bind (parse_json (unlines
    [to_string (json (TObj (emit_fields args ports (total t) t)))])) outcome_of_value
  = Ok (spec_outcome os).
Proof.
  intros Hl Hr. destruct (record_all_default os Hl) as (t' & Hr' & Hw & Ht & Hc).
  rewrite Hr in Hr'. apply (inj Some) in Hr' as <-.
  pose proof (parse_json_last_line [] (emit_fields args ports (total t) t)) as Hp.
  cbn [app] in Hp. rewrite Hp by auto. cbn [result_bind].
  assert (∀ k o, assoc k (emit_fields args ports (total t) t) = Some (TInt (counter t o)) →
     u32_field (emit_fields args ports (total t) t) k = Some (occurrences o os)) as Hf.
  { intros k o Hk. unfold u32_field. rewrite Hk.
    pose proof (tally_wf_total t o Hw). rewrite (proj2 (Z.leb_le _ _)) by lia.
    rewrite (proj2 (Z.leb_le (counter t o) _)) by lia. by rewrite <- Hc. }
  rewrite (outcome_of_obj _ (spec_verdict os) (occurrences Success os)
    (occurrences Timeout os) (occurrences Refused os) (occurrences Denied os)
    (occurrences Sent os) (occurrences Other os)); try (by apply Hf); [done| |].
  - apply (bool_decide_unpack _). vm_compute. done.
  - cbn [assoc emit_fields]. by rewrite (verdict_spec t os).
Qed.

Lemma emit_read args ports os t :
  Z.of_nat (length os) <= u32_max → record_all tally_default os = Some t →
  ∃ line, (∀ w, emit args ports t w = Some (Ok tt, w_println line w)) ∧
    result_bind (parse_json (unlines [line])) outcome_of_value = Ok (spec_outcome os).
Proof.
  intros Hl Hr. destruct (record_all_default os Hl) as (t' & Hr' & Hw & Ht & Hc).
  rewrite Hr in Hr'. apply (inj Some) in Hr' as <-.
  pose proof (attempts_total t Hw ltac:(lia)) as Ha.
  eexists. split; [intros w; unfold emit, unwrap, io_bind; by rewrite Ha|].
  by apply emit_fields_read.
Qed.

Lemma steady_drop_to_uid uid : steady (drop_to_uid uid).
Proof.
  assert (steady last_os_error) by (apply steady_lift, clock_os_error).
  unfold drop_to_uid. repeat (steady; try apply steady_lift);
    auto using clock_setgroups, clock_setgid, clock_setuid.
Qed.

(** The outcomes of a run and what the orchestrator makes of its output. *)
Definition reported (args : TrafficArgs) (ports : list Z) (w' : W) : Prop :=
  ∃ os line w1, Z.of_nat (length os) = attempts_of args ports ∧ w' = w_println line w1 ∧
    result_bind (parse_json (unlines [line])) outcome_of_value = Ok (spec_outcome os).

Lemma emit_reported args ports os t w :
  Z.of_nat (length os) = attempts_of args ports → attempts_of args ports <= u32_max →
  record_all tally_default os = Some t →
  wp (emit args ports t) (λ r w', r = Ok tt ∧ reported args ports w') w.
Proof.
  intros Hl Hb Hr. destruct (emit_read args ports os t) as (line & He & Hp); [lia|done|].
  eapply wp_intro; [apply He|]. split; [done|]. by exists os, line, w.
Qed.

Lemma land_u16 pid : is_u16 (Z.land pid 65535).
Proof.
  change (Z.land pid 65535) with (Z.land pid (Z.ones 16)).
  rewrite Z.land_ones by lia. unfold is_u.
  pose proof (Z.mod_pos_bound pid (2 ^ 16) ltac:(lia)). lia.
Qed.

(** [run] always returns. *)
Lemma run_wp args ports w :
  args_valid args → 0 <= ta_interval_ms args → traffic_ports args = Ok ports →
  attempts_of args ports <= u32_max →
  wp (run args)
     (λ r w', match r with
              | Ok _ => reported args ports w'
              | Err _ => ta_uid args = None → parallel args ports = false
              end) w.
Proof.
  intros Ha Hi Hports Hn. unfold run. apply wp_try.
  eapply wp_mono with (P := λ r _, ta_uid args = None → r = Ok tt).
  2: { destruct (ta_uid args) as [uid|]; [|by apply wp_ret].
       eapply wp_mono; [|apply steady_drop_to_uid]. done. }
  intros [[]|e] w1 Hu; [clear Hu|by intros Hnone; specialize (Hu Hnone)].
  rewrite Hports. apply wp_bind, wp_lift, wp_bind, wp_lift.
  pose proof (traffic_ports_u16 _ _ Ha Hports) as Hpu.
  destruct (parallel args ports) eqn:Hpar.
  - apply wp_bind. eapply wp_mono; [|by apply burst_wp]. intros os w2 Hos.
    assert (Z.of_nat (length os) = attempts_of args ports) as Hlen.
    { unfold attempts_of, parallel in *. bool_prop. lia. }
    destruct (record_all_default os ltac:(lia)) as (t & Ht & _).
    apply wp_bind. rewrite Ht. unfold unwrap. unfold wp at 1.
    eapply wp_mono; [|by apply (emit_reported _ _ os)]. by intros r w' [-> ?].
  - apply wp_try. eapply wp_mono; [|apply sequential_wp; try done].
    + intros [s|e] w2; [|done]. intros (os & [Hr _] & Hlen).
      eapply wp_mono; [|by apply (emit_reported _ _ os)]. by intros r w' [-> ?].
    + apply land_u16.
    + unfold millis. lia.
Qed.

End reports.

(** The port scan of the catalog, as the worker receives it. *)
Definition demo_scan_args : TrafficArgs := worker_args demo_scan None Tcp.

(** The scan runs in parallel, two ports accept and three refuse. *)
Example demo_scan_parallel :
  parallel demo_scan_args [9001; 9002; 9003; 9004; 9005] = true ∧
  fst <$> burst demo_scan_args 24242 (millis 250) [9001; 9002; 9003; 9004; 9005] demo_device
  = Some [Success; Success; Refused; Refused; Refused].
Proof. vm_compute. done. Qed.
