(* ===== verification/TrafficSpec.v ===== *)
(** * What the traffic worker does, without its counters

    [probes] is the abstract account of [agent/traffic.rs]'s [run]: the probes
    of the plan are made in order, the [i]-th with the numbers that follow from
    [i], or all at once in a burst; the answer is the list of their outcomes.
    [run] keeps a tally, a sequence number, a source-port offset and a flag
    instead; that it does the same to the world and prints what the outcomes
    amount to is the refinement theorem. *)

From S2P Require Import Prelude RustInt RustStr RustNet Effects Sim Packets Cli Exec Peer Tally Sockets SimNet Traffic.

Section spec.
  Context {W : Type} `{!World W, !Net W, !Anyhow, !SerdeJson}.

(** The attempts of a sequential run: number and port. *)
Definition plan (args : TrafficArgs) (ports : list Z) : list (nat * Z) :=
  imap pair (concat (map (replicate (Z.to_nat (Z.max (ta_count args) 1))) ports)).

(** The [i]-th attempt; 16-bit numbers wrap around. *)
Definition planned_probe (args : TrafficArgs) (ident base timeout : Z) (i : nat) (port : Z)
    : prog W (res Outcome) :=
  let n := as_u16 (Z.of_nat i) in
  let next := as_u16 (Z.of_nat i + 1) in
  match ta_proto args with
  | Tcp =>
      if ta_fin_only args then
        fin_attempt (mk_addr (ta_to args) port)
          (Some (default (fin_sport base n) (ta_sport args))) next
      else tcp_attempt (mk_addr (ta_to args) port) (ta_sport args) timeout
  | Udp => udp_attempt (mk_addr (ta_to args) port) (ta_sport args) timeout (ta_await_reply args)
  | Icmp => icmp_attempt (ta_to args) ident next (ta_icmp_type args) timeout
  end.

(** Make the planned attempts, with the pause between them, until one fails. *)
Definition probe_in_order (args : TrafficArgs) (ident base timeout interval : Z)
    (p : list (nat * Z)) : io W (res (list Outcome)) :=
  io_fold p (λ os ip,
    (if negb (ip.1 =? 0)%nat && negb (interval =? 0) then sleep interval else io_ret tt) ;;;
    o <-? perform (planned_probe args ident base timeout ip.1 ip.2) ;;
    io_ret (Ok (os ++ [o]))) [].

Definition probes (args : TrafficArgs) (ports : list Z) : io W (res (list Outcome)) :=
  pid <- process_id ;;
  let ident := Z.land pid 65535 in
  pid <- process_id ;;
  let base := fin_sport_base pid in
  let timeout := millis (ta_timeout_ms args) in
  if parallel args ports then
    os <- burst args base timeout ports ;; io_ret (Ok os)
  else probe_in_order args ident base timeout (millis (ta_interval_ms args)) (plan args ports).

(** The line a run with these outcomes prints. *)
Definition report_line (args : TrafficArgs) (ports : list Z) (os : list Outcome) : string :=
  to_string (json (TObj
    [("proto", TStr (lower_proto (ta_proto args)));
     ("to", TStr (ip_to_string (ta_to args)));
     ("ports", TArr (map TInt ports));
     ("attempts", TInt (Z.of_nat (length os)));
     ("success", TInt (occurrences Success os));
     ("timeout", TInt (occurrences Timeout os));
     ("refused", TInt (occurrences Refused os));
     ("denied", TInt (occurrences Denied os));
     ("sent", TInt (occurrences Sent os));
     ("other", TInt (occurrences Other os));
     ("verdict", TStr (spec_verdict os))])).

Definition run_spec (args : TrafficArgs) : io W (res unit) :=
  _ <-? match ta_uid args with Some uid => drop_to_uid uid | None => io_ret (Ok tt) end ;;
  match traffic_ports args with
  | Err e => io_ret (Err e)
  | Ok ports =>
      os <-? probes args ports ;;
      println (report_line args ports os) ;;;
      io_ret (Ok tt)
  end.

End spec.

(** ** The loop against the plan *)

Section refinement.
  Context {W : Type} `{!World W, !Net W, !Anyhow, !SerdeJson}.

Lemma length_plan args ports :
  Z.of_nat (length (plan args ports)) = attempts_of args ports.
Proof.
  unfold plan, attempts_of. rewrite length_imap.
  assert (length (concat (map (replicate (Z.to_nat (Z.max (ta_count args) 1))) ports))
          = length ports * Z.to_nat (Z.max (ta_count args) 1))%nat as ->;
    [|rewrite Nat2Z.inj_mul, Z2Nat.id by lia; f_equal; lia].
  induction ports as [|p ports IH]; [done|]. cbn [map concat]. rewrite length_app, length_replicate, IH.
  simpl. lia.
Qed.

(** The nested loops are one loop over the ports of the plan. *)
Lemma sequential_flat args ident base timeout interval ports :
  io_eq (sequential args ident base timeout interval ports)
        (io_fold (concat (map (replicate (Z.to_nat (Z.max (ta_count args) 1))) ports))
           (λ s port, attempt args ident base timeout interval port s)
           (mk_loop tally_default 0 true 0)).
Proof.
  intros w. unfold sequential. rewrite (io_fold_concat _ _ _ w), (io_fold_map _ _ _ _ w).
  apply io_fold_ext. intros s port w1.
  replace (replicate (Z.to_nat (Z.max (ta_count args) 1)) port)
    with (map (λ _, port) (replicate (Z.to_nat (Z.max (ta_count args) 1)) tt)).
  - by rewrite (io_fold_map _ _ _ _ w1).
  - generalize (Z.to_nat (Z.max (ta_count args) 1)). intros n. induction n; simpl; by f_equal.
Qed.

(** The loop's variables after [k] attempts with outcomes [os]. *)
Definition loop_at (args : TrafficArgs) (k : nat) (s : Loop) (os : list Outcome) : Prop :=
  length os = k ∧ record_all tally_default os = Some (tally s) ∧
  first s = (k =? 0)%nat ∧
  (ta_proto args = Icmp ∨ ta_fin_only args = true → ta_proto args ≠ Udp →
     l_seq s = as_u16 (Z.of_nat k)) ∧
  (ta_proto args = Tcp → ta_fin_only args = true → fin_offset s = as_u16 (Z.of_nat k)).

Lemma as_u16_succ k : wrapping_add_u16 (as_u16 (Z.of_nat k)) 1 = as_u16 (Z.of_nat k + 1).
Proof. unfold wrapping_add_u16, as_u16. by rewrite Zplus_mod_idemp_l. Qed.

(** A probe recorded in the tally, and the same probe noted in the list. *)
Lemma record_sim args k s os seq offset (m : prog W (res Outcome)) w :
  length os = k → record_all tally_default os = Some (tally s) →
  Z.of_nat k + 1 <= u32_max →
  (ta_proto args = Icmp ∨ ta_fin_only args = true → ta_proto args ≠ Udp →
     seq = as_u16 (Z.of_nat (S k))) →
  (ta_proto args = Tcp → ta_fin_only args = true → offset = as_u16 (Z.of_nat (S k))) →
  sim_step (loop_at args (S k))
    ((outcome <-? perform m ;;
      t <- unwrap (record (tally s) outcome) ;;
      io_ret (Ok (mk_loop t seq false offset))) w)
    ((o <-? perform m ;; io_ret (Ok (os ++ [o]))) w).
Proof.
  intros Hk Hr Hb Hseq Hoff. unfold io_try, io_bind. destruct (perform m w) as [[[o|e] w1]|]; [|by split|done].
  destruct (record_all_default (os ++ [o])) as (t & Ht & _); [rewrite length_app; simpl; lia|].
  pose proof Ht as Ht'. rewrite record_all_snoc, Hr in Ht'. simpl in Ht'. rewrite Ht'.
  split; [done|]. unfold loop_at; simpl. split_and!; auto. rewrite length_app, Hk. simpl. lia.
Qed.

Lemma attempt_sim args ident base timeout interval k port s os w :
  Z.of_nat k + 1 <= u32_max → loop_at args k s os →
  sim_step (loop_at args (S k))
    (attempt args ident base timeout interval port s w)
    (((if negb (k =? 0)%nat && negb (interval =? 0) then sleep interval else io_ret tt) ;;;
      o <-? perform (planned_probe args ident base timeout k port) ;;
      io_ret (Ok (os ++ [o]))) w).
Proof.
  intros Hb (Hk & Hr & Hf & Hs & Ho). unfold attempt. rewrite Hf.
  apply sim_step_bind. intros [] w1. cbv zeta. unfold planned_probe.
  assert (∀ x, x = as_u16 (Z.of_nat k) → wrapping_add_u16 x 1 = as_u16 (Z.of_nat (S k))) as Hw.
  { intros x ->. rewrite as_u16_succ. f_equal. lia. }
  assert (as_u16 (Z.of_nat (S k)) = as_u16 (Z.of_nat k + 1)) as Hn by (f_equal; lia).
  destruct (ta_proto args) eqn:Hp; [destruct (ta_fin_only args) eqn:Hfin|..].
  - rewrite Ho, Hs, as_u16_succ, <- Hn by auto.
    apply record_sim; auto; rewrite ?Hp; intuition congruence.
  - apply record_sim; auto; rewrite ?Hp, ?Hfin; intuition congruence.
  - apply record_sim; auto; rewrite ?Hp; intuition congruence.
  - rewrite Hs, as_u16_succ, <- Hn by auto. apply record_sim; auto; rewrite ?Hp; intuition congruence.
Qed.

Lemma sequential_sim args ident base timeout interval ports w :
  attempts_of args ports <= u32_max →
  sim_step (loop_at args (length (plan args ports)))
    (sequential args ident base timeout interval ports w)
    (probe_in_order args ident base timeout interval (plan args ports) w).
Proof.
  intros Hb. rewrite (sequential_flat _ _ _ _ _ _ w). unfold probe_in_order.
  pose proof (length_plan args ports) as Hl. unfold plan in *. rewrite length_imap in *.
  set (l := concat _) in *.
  apply (io_fold_sim (loop_at args)).
  - by rewrite length_imap.
  - intros i port ip s os w1 Hi Hip Hat. rewrite list_lookup_imap, Hi in Hip.
    injection Hip as <-. apply lookup_lt_Some in Hi. cbn [fst snd].
    apply attempt_sim; [lia|done].
  - unfold loop_at. by split_and!.
Qed.

Lemma report_line_fields args ports os t :
  Z.of_nat (length os) <= u32_max → record_all tally_default os = Some t →
  report_line args ports os = to_string (json (TObj (emit_fields args ports (total t) t))).
Proof.
  intros Hl Hr. destruct (record_all_default os Hl) as (t' & Hr' & Hw & Ht & Hc).
  rewrite Hr in Hr'. apply (inj Some) in Hr' as <-. unfold report_line, emit_fields.
  by rewrite Ht, (verdict_spec t os Hc), <- !Hc.
Qed.

(** The line [emit] prints is the report line. *)
Lemma emit_report args ports os t :
  Z.of_nat (length os) <= u32_max → record_all tally_default os = Some t →
  io_eq (emit args ports t) (println (report_line args ports os) ;;; io_ret (Ok tt)).
Proof.
  intros Hl Hr w. destruct (record_all_default os Hl) as (t' & Hr' & Hw & Ht & Hc).
  rewrite Hr in Hr'. apply (inj Some) in Hr' as <-. unfold emit.
  by rewrite (attempts_total t Hw ltac:(lia)), (report_line_fields args ports os t Hl Hr).
Qed.

Lemma length_burst args base timeout ports w os w' :
  burst args base timeout ports w = Some (os, w') → length os = length ports.
Proof.
  unfold burst, io_bind. destruct (run_scope _ _ w) as [[rs w1]|] eqn:E; [|done].
  intros [= <- <-]. apply run_threads_length in E. by rewrite length_map, E, length_imap.
Qed.

Lemma run_refined args w :
  (∀ ports, traffic_ports args = Ok ports → attempts_of args ports <= u32_max) →
  run args w = run_spec args w.
Proof.
  intros Hb. unfold run, run_spec. apply io_try_ext. clear w. intros u w. cbv zeta.
  destruct (traffic_ports args) as [ports|e] eqn:Hp; [|done]. specialize (Hb ports eq_refl).
  unfold probes. rewrite (io_try_bind _ _ _ w). apply io_bind_proper; [done|]. clear w. intros pid w.
  cbv zeta. rewrite (io_try_bind _ _ _ w). apply io_bind_proper; [done|]. clear w. intros pid' w.
  destruct (parallel args ports) eqn:Hpar.
  - rewrite (io_try_bind _ _ _ w). unfold io_bind at 1 3.
    destruct (burst _ _ _ _ w) as [[os w1]|] eqn:E; [|done]. apply length_burst in E.
    assert (Z.of_nat (length os) <= u32_max) as Hl.
    { unfold attempts_of, parallel in *. bool_prop. lia. }
    destruct (record_all_default os Hl) as (t & Ht & _). rewrite Ht.
    exact (emit_report args ports os t Hl Ht w1).
  - unfold io_try, io_bind at 1 2.
    pose proof (sequential_sim args (Z.land pid 65535) (fin_sport_base pid')
      (millis (ta_timeout_ms args)) (millis (ta_interval_ms args)) ports w Hb) as Hs.
    unfold sim_step in Hs. destruct (sequential _ _ _ _ _ _ w) as [[[s|e] w1]|],
      (probe_in_order _ _ _ _ _ _ w) as [[[os|e'] w2]|]; try done.
    + destruct Hs as [<- (Hl & Hr & _)].
      apply (emit_report args ports os (tally s)); [|done]. rewrite Hl, length_plan. done.
    + by destruct Hs as [-> ->].
Qed.

(** What [probes] answers has one outcome per planned attempt. *)
Lemma length_probes args ports os w w' :
  attempts_of args ports <= u32_max → probes args ports w = Some (Ok os, w') →
  Z.of_nat (length os) = attempts_of args ports.
Proof.
  intros Hb. unfold probes. unfold io_bind at 1 2.
  destruct (process_id w) as [[pid w1]|]; [|done]. destruct (process_id w1) as [[pid' w2]|]; [|done].
  cbv zeta. destruct (parallel args ports) eqn:Hpar.
  - unfold io_bind. destruct (burst _ _ _ _ w2) as [[os' w3]|] eqn:E; [|done].
    intros [= <- <-]. apply length_burst in E. unfold attempts_of, parallel in *. bool_prop. lia.
  - intros Hp. pose proof (sequential_sim args (Z.land pid 65535) (fin_sport_base pid')
      (millis (ta_timeout_ms args)) (millis (ta_interval_ms args)) ports w2 Hb) as Hs.
    unfold sim_step in Hs. rewrite Hp in Hs.
    destruct (sequential _ _ _ _ _ _ w2) as [[[s|e] w3]|]; [|done..].
    destruct Hs as [_ [Hl _]]. by rewrite Hl, length_plan.
Qed.

(** The orchestrator reads the report line back as the outcomes amount to. *)
Lemma report_line_read `{!SerdeJsonLaws, !DeOutcome, !DeOutcomeLaws} args ports os :
  Z.of_nat (length os) <= u32_max →
  result_bind (parse_json (unlines [report_line args ports os])) outcome_of_value
  = Ok (spec_outcome os).
Proof.
  intros Hl. destruct (record_all_default os Hl) as (t & Ht & _).
  rewrite (report_line_fields args ports os t Hl Ht). by apply emit_fields_read.
Qed.

(** What a run amounts to: dropping to the uid, then the probes, then the
    report line, each in the world the one before left. *)
Definition reports (args : TrafficArgs) (ports : list Z) (w : W) (r : res unit) (w' : W)
    (read : string → list Outcome → Prop) : Prop :=
  ∃ u w1,
    match ta_uid args with
    | Some uid => drop_to_uid uid w = Some (u, w1)
    | None => u = Ok tt ∧ w1 = w
    end ∧
    match u with
    | Err e => r = Err e ∧ w' = w1
    | Ok _ => ∃ x w2, probes args ports w1 = Some (x, w2) ∧
        match x with
        | Ok os => r = Ok tt ∧ Z.of_nat (length os) = attempts_of args ports ∧
            ∃ line, w' = w_println line w2 ∧ read line os
        | Err e => r = Err e ∧ w' = w2 ∧ parallel args ports = false
        end
    end.

Lemma run_spec_reports args ports w r w' :
  traffic_ports args = Ok ports → attempts_of args ports <= u32_max →
  run_spec args w = Some (r, w') →
  reports args ports w r w' (λ line os, line = report_line args ports os).
Proof.
  intros Hp Hb (u & w1 & Hu & Hs)%io_bind_inv. exists u, w1.
  split; [destruct (ta_uid args); [done|by injection Hu as <- <-]|].
  destruct u as [[]|e]; [|by injection Hs as <- <-]. rewrite Hp in Hs.
  apply io_bind_inv in Hs as (x & w2 & Hx & Hs). exists x, w2. split; [done|].
  destruct x as [os|e].
  - injection Hs as <- <-. split; [done|]. split; [by apply (length_probes _ _ _ _ _ Hb Hx)|].
    by eexists.
  - injection Hs as <- <-. split_and!; [done..|]. unfold probes in Hx.
    apply io_bind_inv in Hx as (? & ? & _ & Hx). apply io_bind_inv in Hx as (? & ? & _ & Hx).
    cbv zeta in Hx. destruct (parallel args ports); [|done].
    by apply io_bind_inv in Hx as (? & ? & _ & ?).
Qed.

(** ** Theorems *)

(** C6. The traffic worker refines its plan: on every world, and under every
    thread schedule, [run] makes the same calls with the same results as
    [run_spec], which knows no counters. The [i]-th attempt of a sequential run
    has the sequence number and the source port that follow from [i] (with the
    16-bit wrap-around), pauses come between attempts and not before the first,
    a failing attempt ends the run without a line, and the line printed counts
    exactly the outcomes of the attempts made, one for each of the plan. *)
Theorem run_refines args w :
  (∀ ports, traffic_ports args = Ok ports → attempts_of args ports <= u32_max) →
  run args w = run_spec args w ∧
  (∀ ports os w0 w1, traffic_ports args = Ok ports → probes args ports w0 = Some (Ok os, w1) →
     Z.of_nat (length os) = attempts_of args ports).
Proof.
  intros Hb. split; [by apply run_refined|]. intros ports os w0 w1 Hp. apply length_probes. auto.
Qed.

(** C11. [run] always returns: whatever the sockets answer, under every thread
    schedule, no probe panics and no counter overflows. When it succeeds it
    dropped to the uid it was given, then made the probes of the plan on the
    world ([probes], one per port and repetition), and its last action was to
    print one line, from which the orchestrator parses the verdict and the
    counters of exactly the outcomes those probes had. It fails only in dropping
    to the uid, with no probe made, or in the sequential loop on the probe that
    could not be sent, and then prints nothing; a parallel burst never fails. *)
Theorem run_reports `{!WorldClock W, !NetLaws W, !SerdeJsonLaws, !DeOutcome, !DeOutcomeLaws}
    args ports w :
  args_valid args → 0 <= ta_interval_ms args → traffic_ports args = Ok ports →
  attempts_of args ports <= u32_max →
  wp (run args)
     (λ r w', reports args ports w r w' (λ line os,
        result_bind (parse_json (unlines [line])) outcome_of_value = Ok (spec_outcome os))) w.
Proof.
  intros Ha Hi Hp Hb.
  destruct (wp_elim _ _ _ (run_wp args ports w Ha Hi Hp Hb)) as (r & w' & Hr & _).
  eapply wp_intro; [exact Hr|]. rewrite run_refined in Hr by congruence.
  destruct (run_spec_reports args ports w r w' Hp Hb Hr) as (u & w1 & Hu & Hx).
  exists u, w1. split; [exact Hu|]. destruct u as [[]|e]; [|exact Hx].
  destruct Hx as (x & w2 & Hx & Hy). exists x, w2. split; [exact Hx|]. destruct x as [os|e]; [|exact Hy].
  destruct Hy as (-> & Hl & line & -> & ->). split_and!; [done..|].
  eexists. split; [done|]. apply report_line_read. lia.
Qed.

End refinement.

(** Three bare FINs to each of two ports, one after the other. *)
Definition demo_fin_args : TrafficArgs := {|
  ta_proto := Tcp; ta_to := V4 (ipv4 10 123 0 1); ta_dport := None;
  ta_dports := Some "9011, 9012"; ta_sport := None; ta_count := 3; ta_interval_ms := 20;
  ta_timeout_ms := 250; ta_await_reply := false; ta_fin_only := true;
  ta_icmp_type := Echo; ta_uid := None |}.

Lemma run_refines_witness :
  run demo_fin_args demo_device = run_spec demo_fin_args demo_device ∧
  fst <$> probes demo_fin_args [9011; 9012] demo_device = Some (Ok (replicate 6 Sent)).
Proof.
  split; [|vm_compute; reflexivity].
  apply (run_refines demo_fin_args demo_device). intros ports Hp.
  assert (traffic_ports demo_fin_args = Ok [9011; 9012]) as E by (vm_compute; reflexivity).
  rewrite E in Hp. injection Hp as <-. vm_compute. discriminate.
Defined.

Lemma run_reports_witness :
  wp (run demo_scan_args)
     (λ r w', reports demo_scan_args [9001; 9002; 9003; 9004; 9005] demo_device r w' (λ line os,
        result_bind (parse_json (unlines [line])) outcome_of_value = Ok (spec_outcome os)))
     demo_device.
Proof.
  apply (run_reports demo_scan_args [9001; 9002; 9003; 9004; 9005] demo_device).
  - split_and!; [|by intros p [=]|by intros p [=]]. repeat constructor; discriminate.
  - discriminate.
  - vm_compute. reflexivity.
  - vm_compute. discriminate.
Defined.
