(* ===== verification/Db.v ===== *)
(** * The idps-fw state database ([agent/events.rs])

    The queries over the tables [firewall_event] and [report_outbox], as JSON
    rows. SQLite is an interface ([Sqlite]); [Sql.SqliteLaws] states what its
    answers to a query are in terms of its text and the rows of the tables. *)

From S2P Require Import Prelude RustStr Effects Sim Cli.

(** ** Interface *)

Inductive sql_param := PInt (n : Z) | POptStr (s : option string).

Class Sqlite (W : Type) `{!Anyhow} := {
  Connection : Type;
  Statement : Type;
  Row : Type;
  sql_error : Type;
  from_sql : sql_error → error;
  sq_open : string → W → result sql_error Connection * W;
  sq_prepare : Connection → string → W → result sql_error Statement * W;
  sq_query_map : Statement → list sql_param → W →
                 result sql_error (list (result sql_error Row)) * W;
  row_str : Row → nat → result sql_error string;
  row_i64 : Row → nat → result sql_error Z;
  row_opt_i64 : Row → nat → result sql_error (option Z);
  row_opt_str : Row → nat → result sql_error (option string);
}.

(** ** Queries *)

Definition event_sql : string :=
  "SELECT event_id, event_time_ms, event_type, action, app_id, ifindex, src_ip, src_port, dst_ip, dst_port, proto, rule_id, detail, report_state FROM firewall_event WHERE event_time_ms > ?1 ORDER BY event_time_ms ASC".
Definition report_sql : string :=
  "SELECT report_id, report_type, payload, created_at_ms FROM report_outbox WHERE created_at_ms > ?1 AND (?2 IS NULL OR report_type = ?2) ORDER BY created_at_ms ASC".
Definition state_sql : string :=
  "SELECT event_id, event_time_ms, event_type, report_state FROM firewall_event WHERE event_time_ms > ?1 ORDER BY event_time_ms ASC".
Definition outbox_sql : string :=
  "SELECT state, COUNT(*), MAX(retry_count), MAX(last_error) FROM report_outbox GROUP BY state".

Definition opt_int (o : option Z) : jtree := match o with Some n => TInt n | None => TNull end.
Definition opt_str (o : option string) : jtree := match o with Some s => TStr s | None => TNull end.

Section db.
  Context {W : Type} `{!World W, !Anyhow, !SerdeJson, !Sqlite W}.

Definition unquote (value : string) : string := unwrap_or value (string_from_str value).

Definition sql_ctx {A} (s : string) (r : result sql_error A) : res A :=
  match r with Ok a => Ok a | Err e => Err (add_context s (from_sql e)) end.

Definition open_db (db : string) : io W (res Connection) :=
  r <- lift (sq_open db) ;;
  io_ret (sql_ctx ("failed to open idps-fw state db " +:+ db) r).

(** [prepare], [query_map] and [collect] of one query; [what] names it in the
    error messages. *)
Definition query {A} (c : Connection) (sql : string) (params : list sql_param)
    (prepare_msg query_msg read_msg : string) (f : Row → result sql_error A)
    : io W (res (list A)) :=
  r <- lift (sq_prepare c sql) ;;
  match sql_ctx prepare_msg r with
  | Err e => io_ret (Err e)
  | Ok statement =>
      r <- lift (sq_query_map statement params) ;;
      io_ret (let? rows := sql_ctx query_msg r in
              sql_ctx read_msg (collect (map (λ row, let? row := row in f row) rows)))
  end.

Definition event_row_json (row : Row) : result sql_error value :=
  let? event_id := row_str row 0 in
  let? event_time_ms := row_i64 row 1 in
  let? event_type := row_str row 2 in
  let? action := row_str row 3 in
  let? app_id := row_opt_i64 row 4 in
  let? ifindex := row_opt_i64 row 5 in
  let? src_ip := row_str row 6 in
  let? src_port := row_i64 row 7 in
  let? dst_ip := row_str row 8 in
  let? dst_port := row_i64 row 9 in
  let? proto := row_str row 10 in
  let? rule_id := row_opt_i64 row 11 in
  let? detail := row_str row 12 in
  let? report_state := row_str row 13 in
  Ok (json (TObj
    [("event_id", TStr event_id);
     ("event_time_ms", TInt event_time_ms);
     ("event_type", TStr (unquote event_type));
     ("action", TStr (unquote action));
     ("app_id", opt_int app_id);
     ("ifindex", opt_int ifindex);
     ("src_ip", TStr src_ip);
     ("src_port", TInt src_port);
     ("dst_ip", TStr dst_ip);
     ("dst_port", TInt dst_port);
     ("proto", TStr proto);
     ("rule_id", opt_int rule_id);
     ("detail", TStr detail);
     ("report_state", TStr report_state)])).

Definition query_events (db : string) (since : Z) : io W (res (list value)) :=
  connection <-? open_db db ;;
  query connection event_sql [PInt since]
    "failed to prepare firewall_event query" "failed to query firewall_event"
    "failed to read firewall_event rows" event_row_json.

Definition report_row_json (row : Row) : result sql_error value :=
  let? payload := row_str row 2 in
  let parsed := unwrap_or (json (TStr payload)) (from_str payload) in
  let? report_id := row_str row 0 in
  let? report_type := row_str row 1 in
  let? created_at_ms := row_i64 row 3 in
  Ok (obj [("report_id", json (TStr report_id));
           ("report_type", json (TStr report_type));
           ("payload", parsed);
           ("created_at_ms", json (TInt created_at_ms))]).

Definition query_reports (db : string) (since : Z) (report_type : option string)
    : io W (res (list value)) :=
  connection <-? open_db db ;;
  query connection report_sql [PInt since; POptStr report_type]
    "failed to prepare report_outbox query" "failed to query report_outbox"
    "failed to read report_outbox rows" report_row_json.

(** ** The subcommands *)

Definition dump_rows (what : string) (since : Z) (rows : list value) : io W (res unit) :=
  println (to_string (obj [("since", json (TInt since));
                           ("count", json (TInt (Z.of_nat (length rows))));
                           (what, arr rows)])) ;;;
  io_ret (Ok tt).

Definition dump_events (args : EventQueryArgs) : io W (res unit) :=
  rows <-? query_events (eq_db args) (eq_since args) ;;
  dump_rows "events" (eq_since args) rows.

Definition dump_reports (args : ReportQueryArgs) : io W (res unit) :=
  rows <-? query_reports (rq_db args) (rq_since args) (rq_report_type args) ;;
  dump_rows "reports" (rq_since args) rows.

Definition state_row_json (row : Row) : result sql_error value :=
  let? event_id := row_str row 0 in
  let? event_time_ms := row_i64 row 1 in
  let? event_type := row_str row 2 in
  let? report_state := row_str row 3 in
  Ok (json (TObj
    [("event_id", TStr event_id);
     ("event_time_ms", TInt event_time_ms);
     ("event_type", TStr (unquote event_type));
     ("report_state", TStr report_state)])).

Definition outbox_row_json (row : Row) : result sql_error value :=
  let? state := row_str row 0 in
  let? count := row_i64 row 1 in
  let? max_retry := row_opt_i64 row 2 in
  let? last_error := row_opt_str row 3 in
  Ok (json (TObj
    [("state", TStr state); ("count", TInt count);
     ("max_retry", opt_int max_retry); ("last_error", opt_str last_error)])).

(** [e["report_state"] == s] *)
Definition state_is (s : string) (e : value) : bool :=
  bool_decide ((get e "report_state" ≫= as_str) = Some s).

Definition report_status (args : EventQueryArgs) : io W (res unit) :=
  connection <-? open_db (eq_db args) ;;
  events <-? query connection state_sql [PInt (eq_since args)]
    "failed to prepare report_state query" "failed to query report_state"
    "failed to read report_state rows" state_row_json ;;
  let sent := length (filter (λ e, state_is "sent" e = true) events) in
  let pending := length (filter (λ e, state_is "pending" e = true) events) in
  outbox <-? query connection outbox_sql []
    "failed to prepare report_outbox query" "failed to query report_outbox"
    "failed to read report_outbox rows" outbox_row_json ;;
  println (to_string (obj
    [("since", json (TInt (eq_since args)));
     ("events_total", json (TInt (Z.of_nat (length events))));
     ("events_sent", json (TInt (Z.of_nat sent)));
     ("events_pending", json (TInt (Z.of_nat pending)));
     ("events", arr events);
     ("outbox", arr outbox)])) ;;;
  io_ret (Ok tt).

End db.
