(* ===== verification/Sql.v ===== *)
(** * What SQLite answers

    The program sends SQL text. [parse_sql] reads the fragment of SQL its
    row queries are written in, and the definitions below it give the fragment
    its documented meaning: conditions in three-valued logic, rows ordered by
    storage class and value. [SqliteLaws] says that a statement of the fragment
    is answered that way; nothing in it speaks of a particular query. *)

From stdpp Require Import sorting.
From S2P Require Import Prelude RustStr Effects Sim Db.

(** ** The text *)

Inductive operand := OCol (name : string) | OParam (n : nat).
Inductive comparator := CmpEq | CmpLt | CmpLe | CmpGt | CmpGe.
Inductive cond :=
  | CCmp (op : comparator) (a b : operand)
  | CIsNull (a : operand)
  | CAnd (a b : cond)
  | COr (a b : cond).

(** [SELECT cols FROM table WHERE cond ORDER BY column [ASC|DESC]] *)
Record select := {
  sel_cols : list string;
  sel_from : string;
  sel_where : cond;
  sel_order : string;
  sel_desc : bool;
}.

(** The kinds of characters a token is made of. *)
Inductive char_kind := Blank | Word | Operator | Single.
Definition kind_of (c : ascii) : char_kind :=
  let n := N_of_ascii c in
  if is_ws c then Blank
  else if is_digit c || ((65 <=? n) && (n <=? 90))%N || ((97 <=? n) && (n <=? 122))%N
          || (n =? 95)%N || (n =? 63)%N then Word
  else if ((60 <=? n) && (n <=? 62))%N then Operator
  else Single.
#[export] Instance char_kind_eq_dec : EqDecision char_kind.
Proof. solve_decision. Defined.

Definition flush (cur : string) : list string := if String.eqb cur "" then [] else [cur].

(** Tokens: words (and parameters), runs of operator characters, and single
    characters; [cur] is the token under way, of kind [k]. *)
Fixpoint lex (k : char_kind) (cur s : string) : list string :=
  match s with
  | "" => flush cur
  | String c s =>
      match kind_of c with
      | Blank => flush cur ++ lex Blank "" s
      | Single => flush cur ++ [String c ""] ++ lex Blank "" s
      | k' => if decide (k = k') then lex k (cur +:+ String c "") s
              else flush cur ++ lex k' (String c "") s
      end
  end.

(** Identifiers are in lower case here, and no keyword is one. *)
Definition ident_char (c : ascii) : bool :=
  let n := N_of_ascii c in ((97 <=? n) && (n <=? 122))%N || is_digit c || (n =? 95)%N.
Definition keywords : list string :=
  ["select"; "from"; "where"; "order"; "by"; "asc"; "desc"; "and"; "or"; "is"; "not"; "null";
   "in"; "like"; "between"; "case"; "as"; "true"; "false"; "exists"; "glob"; "distinct"; "all"].
Definition ident (t : string) : option string :=
  match t with
  | String c _ =>
      if negb (is_digit c) && str_forall ident_char t && negb (bool_decide (t ∈ keywords))
      then Some t else None
  | "" => None
  end.

Definition operand_of (t : string) : option operand :=
  match strip_prefix "?" t with
  | Some digits => n ← parse_uint 99 digits; Some (OParam (Z.to_nat n))
  | None => OCol <$> ident t
  end.
Definition comparator_of (t : string) : option comparator :=
  assoc t [("=", CmpEq); ("<", CmpLt); ("<=", CmpLe); (">", CmpGt); (">=", CmpGe)].

(** The rest of the tokens after the given one. *)
Definition eat (t : string) (ts : list string) : option (list string) :=
  match ts with
  | t' :: rest => if String.eqb t t' then Some rest else None
  | [] => None
  end.

(** A condition and the tokens after it: [AND] binds tighter than [OR]. *)
Fixpoint parse_or (fuel : nat) (ts : list string) : option (cond * list string) :=
  match fuel with
  | O => None
  | S fuel =>
      a ← parse_and fuel ts;
      match eat "OR" a.2 with
      | Some rest => b ← parse_or fuel rest; Some (COr a.1 b.1, b.2)
      | None => Some a
      end
  end
with parse_and (fuel : nat) (ts : list string) : option (cond * list string) :=
  match fuel with
  | O => None
  | S fuel =>
      a ← parse_atom fuel ts;
      match eat "AND" a.2 with
      | Some rest => b ← parse_and fuel rest; Some (CAnd a.1 b.1, b.2)
      | None => Some a
      end
  end
with parse_atom (fuel : nat) (ts : list string) : option (cond * list string) :=
  match fuel with
  | O => None
  | S fuel =>
      match eat "(" ts with
      | Some rest => a ← parse_or fuel rest; rest ← eat ")" a.2; Some (a.1, rest)
      | None =>
          match ts with
          | t :: op :: u :: rest =>
              a ← operand_of t;
              if String.eqb op "IS" && String.eqb u "NULL" then Some (CIsNull a, rest)
              else op ← comparator_of op; b ← operand_of u; Some (CCmp op a b, rest)
          | _ => None
          end
      end
  end.

(** Column names separated by commas, and the tokens after them. *)
Fixpoint parse_cols (ts : list string) : option (list string * list string) :=
  match ts with
  | t :: "," :: rest => c ← ident t; cs ← parse_cols rest; Some (c :: cs.1, cs.2)
  | t :: rest => c ← ident t; Some ([c], rest)
  | [] => None
  end.

Definition parse_sql (sql : string) : option select :=
  ts ← eat "SELECT" (lex Blank "" sql);
  cols ← parse_cols ts;
  ts ← eat "FROM" cols.2;
  table ← head ts; table ← ident table;
  ts ← eat "WHERE" (tail ts);
  c ← parse_or (3 * length ts) ts;
  ts ← eat "ORDER" c.2; ts ← eat "BY" ts;
  col ← head ts; col ← ident col;
  desc ← match tail ts with
         | [] | ["ASC"] => Some false
         | ["DESC"] => Some true
         | _ => None
         end;
  Some {| sel_cols := cols.1; sel_from := table; sel_where := c.1; sel_order := col;
          sel_desc := desc |}.

(** ** Its meaning *)

(** A stored value, by its storage class; integers are 64 bits wide. *)
Inductive cell := CNull | CInt (n : Z) | CText (s : string).
Definition row : Type := list (string * cell).

Definition sql_value (p : sql_param) : cell :=
  match p with
  | PInt n => CInt n
  | POptStr (Some s) => CText s
  | POptStr None => CNull
  end.

Definition eval_operand (ps : list sql_param) (r : row) (o : operand) : option cell :=
  match o with
  | OCol name => assoc name r
  | OParam n => sql_value <$> (ps !! (n - 1)%nat)
  end.

Definition comparator_holds (op : comparator) (c : comparison) : bool :=
  match op, c with
  | CmpEq, Eq | CmpLt, Lt | CmpLe, (Lt | Eq) | CmpGt, Gt | CmpGe, (Gt | Eq) => true
  | _, _ => false
  end.

(** A comparison with NULL is unknown ([Some None]). What a comparison of a
    number with a text gives depends on column affinities: that is left open
    ([None]). *)
Definition eval_cmp (op : comparator) (a b : cell) : option (option bool) :=
  match a, b with
  | CNull, _ | _, CNull => Some None
  | CInt m, CInt n => Some (Some (comparator_holds op (m ?= n)))
  | CText s, CText t => Some (Some (comparator_holds op (String.compare s t)))
  | _, _ => None
  end.

Definition and3 (a b : option bool) : option bool :=
  match a, b with
  | Some false, _ | _, Some false => Some false
  | Some true, Some true => Some true
  | _, _ => None
  end.
Definition or3 (a b : option bool) : option bool :=
  match a, b with
  | Some true, _ | _, Some true => Some true
  | Some false, Some false => Some false
  | _, _ => None
  end.

Fixpoint eval_cond (ps : list sql_param) (r : row) (c : cond) : option (option bool) :=
  match c with
  | CCmp op a b => x ← eval_operand ps r a; y ← eval_operand ps r b; eval_cmp op x y
  | CIsNull a => x ← eval_operand ps r a;
                 Some (Some match x with CNull => true | _ => false end)
  | CAnd a b => x ← eval_cond ps r a; y ← eval_cond ps r b; Some (and3 x y)
  | COr a b => x ← eval_cond ps r a; y ← eval_cond ps r b; Some (or3 x y)
  end.

(** [WHERE] keeps the rows for which the condition is true, not unknown. *)
Definition kept (q : select) (ps : list sql_param) (r : row) : Prop :=
  eval_cond ps r (sel_where q) = Some (Some true).
#[export] Instance kept_dec q ps r : Decision (kept q ps r).
Proof. unfold kept. apply _. Defined.

(** The order of sorting: NULL, then numbers, then texts byte by byte. *)
Definition cell_le (a b : cell) : Prop :=
  match a, b with
  | CNull, _ => True
  | CInt m, CInt n => m <= n
  | CInt _, CText _ => True
  | CText s, CText t => String.le s t
  | _, _ => False
  end.
#[export] Instance cell_le_dec : RelDecision cell_le.
Proof. intros [] []; simpl; apply _. Defined.
#[export] Instance cell_le_trans : Transitive cell_le.
Proof. intros [] [] []; simpl; try done; [lia|apply transitivity]. Qed.
#[export] Instance cell_le_total : Total cell_le.
Proof. intros [] []; simpl; auto; [lia|apply total, _]. Qed.

Definition sort_key (q : select) (r : row) : cell := default CNull (assoc (sel_order q) r).
Definition ordered (q : select) (r1 r2 : row) : Prop :=
  if sel_desc q then cell_le (sort_key q r2) (sort_key q r1)
  else cell_le (sort_key q r1) (sort_key q r2).

Definition project (cols : list string) (r : row) : option (list cell) :=
  mapM (λ c, assoc c r) cols.

(** The fragment says what the query does with this row. *)
Definition described (q : select) (ps : list sql_param) (r : row) : Prop :=
  is_Some (eval_cond ps r (sel_where q)) ∧ is_Some (project (sel_cols q) r) ∧
  is_Some (assoc (sel_order q) r).

(** The rows of the table a query selects, in the order it asks for; rows that
    tie may come in any order. *)
Definition selects (q : select) (ps : list sql_param) (table out : list row) : Prop :=
  out ≡ₚ filter (kept q ps) table ∧ StronglySorted (ordered q) out.

(** ** The law *)

(** The tables of the database at a path, and the selected cells of a result
    row. A query that is answered without an error is answered as its text
    means; a cell is read at a Rust type that fits it. *)
Class SqliteLaws (W : Type) `{!Anyhow, !Sqlite W} := {
  tables : W → string → string → list row;
  row_cells : Row → list cell;
  sq_select path wo c wo' sql q wp stmt wp' ps w rs w' rows :
    sq_open path wo = (Ok c, wo') →
    sq_prepare c sql wp = (Ok stmt, wp') → parse_sql sql = Some q →
    Forall (described q ps) (tables w path (sel_from q)) →
    sq_query_map stmt ps w = (Ok rs, w') → collect rs = Ok rows →
    ∃ out, selects q ps (tables w path (sel_from q)) out ∧
      Forall2 (λ r cells, project (sel_cols q) r = Some cells) out (map row_cells rows);
  row_str_text r i s : row_cells r !! i = Some (CText s) → row_str r i = Ok s;
  row_i64_int r i n : row_cells r !! i = Some (CInt n) → row_i64 r i = Ok n;
  row_opt_i64_int r i n : row_cells r !! i = Some (CInt n) → row_opt_i64 r i = Ok (Some n);
  row_opt_i64_null r i : row_cells r !! i = Some CNull → row_opt_i64 r i = Ok None;
  row_opt_str_text r i s : row_cells r !! i = Some (CText s) → row_opt_str r i = Ok (Some s);
  row_opt_str_null r i : row_cells r !! i = Some CNull → row_opt_str r i = Ok None;
}.

(** The columns a row has, projected in their order. *)
Lemma project_columns (l r : row) :
  Forall (λ nc, assoc nc.1 r = Some nc.2) l → project (l.*1) r = Some (l.*2).
Proof.
  intros Hl. apply mapM_Some. induction Hl as [|[n c] l Hc _ IH]; [constructor|].
  by constructor.
Qed.

Lemma collect_ok_inv {E A} (rs : list (result E A)) l : collect rs = Ok l → rs = map Ok l.
Proof.
  revert l. induction rs as [|[a|e] rs IH]; intros l; cbn [collect result_bind]; [|..|done].
  - by intros [= <-].
  - destruct (collect rs) as [l'|e]; [|done]. intros [= <-]. cbn [map]. by rewrite (IH l').
Qed.

Lemma collect_all_ok {E A} (l : list A) : collect (map (@Ok E A) l) = Ok l.
Proof. induction l as [|x l IH]; [done|]. cbn [map collect result_bind]. by rewrite IH. Qed.

(** ** What a table of encoded values selects *)

Section encoded.
  Context {A B : Type} (R : A → B → Prop).

Lemma Forall2_perm_r xs ys ys' :
  Forall2 R xs ys → ys' ≡ₚ ys → ∃ xs', Forall2 R xs' ys' ∧ xs' ≡ₚ xs.
Proof.
  intros Hf Hp. symmetry in Hp. revert xs Hf. induction Hp; intros xs Hf.
  - inversion_clear Hf. by exists [].
  - inversion_clear Hf as [|x' ? xs0 ? Hx Hf']. destruct (IHHp _ Hf') as (xs1 & Hf1 & Hp1).
    exists (x' :: xs1). split; [by constructor|by rewrite Hp1].
  - inversion_clear Hf as [|x1 ? xs0 ? Hx1 Hf']. inversion_clear Hf' as [|x2 ? xs1 ? Hx2 Hf''].
    exists (x2 :: x1 :: xs1). split; [by repeat constructor|by constructor].
  - destruct (IHHp1 _ Hf) as (xs1 & Hf1 & Hq1). destruct (IHHp2 _ Hf1) as (xs2 & Hf2 & Hq2).
    exists xs2. split; [done|by rewrite Hq2].
Qed.

Lemma Forall2_filter_iff (P : A → Prop) (Q : B → Prop) `{!∀ x, Decision (P x), !∀ y, Decision (Q y)}
    xs ys :
  (∀ x y, R x y → P x ↔ Q y) → Forall2 R xs ys → Forall2 R (filter P xs) (filter Q ys).
Proof.
  intros HPQ. induction 1 as [|x y xs ys Hxy _ IH]; [constructor|].
  rewrite !filter_cons. specialize (HPQ x y Hxy).
  repeat case_decide; [by constructor|tauto..|done].
Qed.

Lemma StronglySorted_Forall2 (S : A → A → Prop) (T : B → B → Prop) xs ys :
  (∀ x1 x2 y1 y2, R x1 y1 → R x2 y2 → T y1 y2 → S x1 x2) →
  Forall2 R xs ys → StronglySorted T ys → StronglySorted S xs.
Proof.
  intros HST. induction 1 as [|x y xs ys Hxy Hf IH]; [constructor|].
  intros [Hs Hr]%StronglySorted_inv. constructor; [by apply IH|]. clear IH Hs.
  induction Hf as [|x' y' xs ys Hxy' _ IH]; [constructor|].
  inversion_clear Hr. constructor; [by eapply HST|by apply IH].
Qed.

End encoded.

(** ** The program's queries *)

Definition since_cond (col : string) : cond := CCmp CmpGt (OCol col) (OParam 1).

Lemma event_sql_parsed :
  parse_sql event_sql = Some {|
    sel_cols := ["event_id"; "event_time_ms"; "event_type"; "action"; "app_id"; "ifindex"; "src_ip";
      "src_port"; "dst_ip"; "dst_port"; "proto"; "rule_id"; "detail"; "report_state"];
    sel_from := "firewall_event"; sel_where := since_cond "event_time_ms";
    sel_order := "event_time_ms"; sel_desc := false |}.
Proof. vm_compute. reflexivity. Qed.

Lemma report_sql_parsed :
  parse_sql report_sql = Some {|
    sel_cols := ["report_id"; "report_type"; "payload"; "created_at_ms"];
    sel_from := "report_outbox";
    sel_where := CAnd (since_cond "created_at_ms")
      (COr (CIsNull (OParam 2)) (CCmp CmpEq (OCol "report_type") (OParam 2)));
    sel_order := "created_at_ms"; sel_desc := false |}.
Proof. vm_compute. reflexivity. Qed.

(** The grouping query of [report_status] is outside the fragment. *)
Lemma outbox_sql_not_parsed : parse_sql outbox_sql = None.
Proof. vm_compute. reflexivity. Qed.

(** ** A concrete engine *)

#[export] Instance ordered_dec q : RelDecision (ordered q).
Proof. intros r1 r2. unfold ordered. destruct (sel_desc q); apply _. Defined.
#[export] Instance ordered_trans q : Transitive (ordered q).
Proof. intros r1 r2 r3. unfold ordered. destruct (sel_desc q); intros; by etransitivity. Qed.
#[export] Instance ordered_total q : Total (ordered q).
Proof. intros r1 r2. unfold ordered. destruct (sel_desc q); apply total, _. Qed.

Definition run_select (q : select) (ps : list sql_param) (table : list row) : list (list cell) :=
  omap (project (sel_cols q)) (merge_sort (ordered q) (filter (kept q ps) table)).

Lemma run_select_spec q ps table :
  Forall (described q ps) table →
  ∃ out, selects q ps table out ∧
    Forall2 (λ r cells, project (sel_cols q) r = Some cells) out (run_select q ps table).
Proof.
  intros Hd. exists (merge_sort (ordered q) (filter (kept q ps) table)). split; [split|].
  - apply merge_sort_Permutation.
  - apply (StronglySorted_merge_sort (ordered q)).
  - unfold run_select.
    assert (Forall (described q ps) (merge_sort (ordered q) (filter (kept q ps) table))) as Hf.
    { rewrite merge_sort_Permutation. apply list.Forall_forall. intros r [_ Hr]%list_elem_of_filter.
      by eapply list.Forall_forall in Hr; [|exact Hd]. }
    induction Hf as [|r out (_ & [cells Hc] & _) _ IH]; [constructor|].
    cbn [omap list_omap]. rewrite Hc. by constructor.
Qed.
