(* ===== verification/Target.v ===== *)
(** * TARGET-side observation ([target.rs], [vsoc.rs])

    Health and statistics snapshots of idps-fw, its events and reports, the
    clock watermark, and the VSOC dashboard client of host mode. *)

From stdpp Require Import sorting.
From S2P Require Import Prelude RustStr RustNet Effects Sim Cli Exec Config Db Sql.

(** ** Events and reports *)

Record FwEvent := {
  event_id : string;
  event_time_ms : Z;
  event_type : string;
  ev_action : string;
  ev_src_ip : string;
  ev_src_port : Z;
  ev_dst_ip : string;
  ev_dst_port : Z;
  ev_proto : string;
  ev_rule_id : option Z;
  ev_detail : string;
  report_state : string;
}.

Record FwReport `{SerdeJson} := {
  report_type : string;
  payload : value;
  created_at_ms : Z;
}.

(** The fields a row object must have to be read as an event or a report. *)
Definition event_fields `{SerdeJson} (e : FwEvent) (fs : list (string * value)) : Prop :=
  NoDup (fs.*1) ∧
  assoc "event_id" fs = Some (json (TStr (event_id e))) ∧
  assoc "event_time_ms" fs = Some (json (TInt (event_time_ms e))) ∧
  assoc "event_type" fs = Some (json (TStr (event_type e))) ∧
  assoc "action" fs = Some (json (TStr (ev_action e))) ∧
  assoc "src_ip" fs = Some (json (TStr (ev_src_ip e))) ∧
  assoc "src_port" fs = Some (json (TInt (ev_src_port e))) ∧
  assoc "dst_ip" fs = Some (json (TStr (ev_dst_ip e))) ∧
  assoc "dst_port" fs = Some (json (TInt (ev_dst_port e))) ∧
  assoc "proto" fs = Some (json (TStr (ev_proto e))) ∧
  assoc "rule_id" fs = Some (json (opt_int (ev_rule_id e))) ∧
  assoc "detail" fs = Some (json (TStr (ev_detail e))) ∧
  assoc "report_state" fs = Some (json (TStr (report_state e))).

Definition report_fields `{SerdeJson} (r : FwReport) (fs : list (string * value)) : Prop :=
  NoDup (fs.*1) ∧
  assoc "report_type" fs = Some (json (TStr (report_type r))) ∧
  assoc "payload" fs = Some (payload r) ∧
  assoc "created_at_ms" fs = Some (json (TInt (created_at_ms r))).

(** The [Deserialize] instances derived for [Vec<FwEvent>] and [Vec<FwReport>]:
    an array of such objects is read element by element. *)
Class DeRows `{SerdeJson} := {
  events_of_value : value → res (list FwEvent);
  reports_of_value : value → res (list FwReport);
}.
Class DeRowsLaws `{DeRows} : Prop := {
  events_of_arr es fss :
    Forall2 event_fields es fss → events_of_value (arr (map obj fss)) = Ok es;
  reports_of_arr rs fss :
    Forall2 report_fields rs fss → reports_of_value (arr (map obj fss)) = Ok rs;
}.

Section target.
  Context {W : Type} `{!World W, !Anyhow, !SerdeJson, !Sqlite W, !DeRows}.

Definition health (cfg : RunConfig) : io W (res value) :=
  shell_json (rc_target cfg) (rc_idps_fw cfg +:+ " health").

Definition statistics (cfg : RunConfig) : io W (res value) :=
  shell_json (rc_target cfg) (rc_idps_fw cfg +:+ " statistics").

Definition firewall_rule_ver (cfg : RunConfig) : io W (res Z) :=
  v <-? health cfg ;;
  io_ret (Ok (default (-1) (get v "firewall_rule_ver" ≫= as_i64))).

(** [agent::now_ms], which [now_ms] wraps. *)
Definition agent_now_ms : io W Z := t <- epoch_ms ;; io_ret (default 0 t).
Definition now_ms (_cfg : RunConfig) : io W (res Z) :=
  t <- agent_now_ms ;; io_ret (Ok t).

Definition dump_events (cfg : RunConfig) (since : Z) : io W (res (list FwEvent)) :=
  rows <-? query_events (rc_state_db cfg) since ;;
  io_ret (res_context "failed to parse firewall_event rows" (events_of_value (arr rows))).

Definition dump_reports (cfg : RunConfig) (since : Z) : io W (res (list FwReport)) :=
  rows <-? query_reports (rc_state_db cfg) since None ;;
  io_ret (res_context "failed to parse report_outbox rows" (reports_of_value (arr rows))).

End target.

(** ** The VSOC client *)

Section vsoc.
  Context {W : Type} `{!World W, !Anyhow, !SerdeJson}.

Definition api (cfg : RunConfig) : res VsocApi :=
  opt_context "VSOC API is not configured (host mode requires --vsoc-url)" (rc_vsoc cfg).

Definition opt_flag (flag : string) (o : option string) : list string :=
  match o with Some v => [flag; v] | None => [] end.

Definition base_args (vsoc : VsocApi) : list string :=
  ["-sS"; "--noproxy"; "*"; "-k"; "--max-time"; "20"] ++
  opt_flag "--cert" (cert vsoc) ++ opt_flag "--key" (key vsoc) ++
  opt_flag "--cacert" (cacert vsoc).

Definition run_curl (args : list string) : io W (res string) :=
  r <- cmd_output ("curl" :: args) ;;
  match io_ctx "failed to spawn curl (host-mode VSOC client)" r with
  | Err e => io_ret (Err e)
  | Ok output =>
      io_ret (if success output then Ok (stdout output)
              else Err (anyhow ("curl failed: " +:+ trim (stderr output))))
  end.

(** The answer of [PUT /api/rules/acd/fun]. *)
Definition upsert_answer (acd fun_ : Z) (stdout : string) : res Z :=
  let? value := res_context ("VSOC upsert did not return JSON: " +:+ trim stdout)
                  (from_str (trim stdout)) in
  match get value "detail" ≫= as_str with
  | Some detail =>
      Err (anyhow ("VSOC rejected rule (acd=" +:+ int_to_string acd +:+ " fun=" +:+
                   int_to_string fun_ +:+ "): " +:+ detail))
  | None => opt_context "VSOC upsert response missing ver" (get value "ver" ≫= as_i64)
  end.

Definition upsert_rule (cfg : RunConfig) (fun_ : Z) (content : string) : io W (res Z) :=
  match api cfg with
  | Err e => io_ret (Err e)
  | Ok vsoc =>
      let url := trim_end_matches "/" (base_url vsoc) +:+ "/api/rules/" +:+
                 int_to_string (rc_acd cfg) +:+ "/" +:+ int_to_string fun_ in
      let body := to_string (json (TObj [("content", TStr content); ("enabled", TBool true)])) in
      let args := base_args vsoc ++
        ["-X"; "PUT"; "-H"; "Content-Type: application/json"; "-d"; body; url] in
      stdout <-? run_curl args ;;
      io_ret (upsert_answer (rc_acd cfg) fun_ stdout)
  end.

Definition events_mention (cfg : RunConfig) (needle : string) : io W (res bool) :=
  match api cfg with
  | Err e => io_ret (Err e)
  | Ok vsoc =>
      let url := trim_end_matches "/" (base_url vsoc) +:+ "/api/events?limit=100" in
      stdout <-? run_curl (base_args vsoc ++ [url]) ;;
      io_ret (Ok (contains needle stdout))
  end.

End vsoc.

(** ** What SQLite answers *)

(** A row of [firewall_event]; the two enum columns as stored. *)
Record event_row := {
  er_event : FwEvent;
  er_type : string;
  er_action : string;
  er_app_id : option Z;
  er_ifindex : option Z;
}.

Definition opt_cell (o : option Z) : cell := match o with Some n => CInt n | None => CNull end.

(** Its columns. *)
Definition event_columns (r : event_row) : row :=
  let e := er_event r in
  [("event_id", CText (event_id e)); ("event_time_ms", CInt (event_time_ms e));
   ("event_type", CText (er_type r)); ("action", CText (er_action r));
   ("app_id", opt_cell (er_app_id r)); ("ifindex", opt_cell (er_ifindex r));
   ("src_ip", CText (ev_src_ip e)); ("src_port", CInt (ev_src_port e));
   ("dst_ip", CText (ev_dst_ip e)); ("dst_port", CInt (ev_dst_port e));
   ("proto", CText (ev_proto e)); ("rule_id", opt_cell (ev_rule_id e));
   ("detail", CText (ev_detail e)); ("report_state", CText (report_state e))].

(** A stored enum column is its JSON string. *)
Definition stored (r : event_row) : Prop :=
  er_type r = dq +:+ event_type (er_event r) +:+ dq ∧
  er_action r = dq +:+ ev_action (er_event r) +:+ dq ∧
  str_forall plain_char (event_type (er_event r)) = true ∧
  str_forall plain_char (ev_action (er_event r)) = true.

(** A row of the table that holds an event: among its columns, in whatever
    order, are those. *)
Definition holds_event (r : event_row) (cells : row) : Prop :=
  stored r ∧ Forall (λ nc, assoc nc.1 cells = Some nc.2) (event_columns r).

(** Database calls do not set the clock back. *)
Class SqliteClock (W : Type) `{!World W, !WorldClock W, !Anyhow, !Sqlite W} : Prop := {
  clock_sq_open p w : clock w <= clock (sq_open p w).2;
  clock_sq_prepare c s w : clock w <= clock (sq_prepare c s w).2;
  clock_sq_query s p w : clock w <= clock (sq_query_map s p w).2;
}.

(** ** Lemmas *)

Section target_steady.
  Context {W : Type} `{!World W, !WorldClock W, !Anyhow, !SerdeJson, !Sqlite W,
                       !SqliteClock W, !DeRows}.

Lemma steady_open_db db : steady (open_db db).
Proof. unfold open_db. apply steady_bind; [apply steady_lift, clock_sq_open|steady]. Qed.
#[local] Hint Resolve steady_open_db : steady.
Lemma steady_query {A} c sql ps m1 m2 m3 (f : Row → result sql_error A) :
  steady (query c sql ps m1 m2 m3 f).
Proof.
  unfold query. apply steady_bind; [apply steady_lift, clock_sq_prepare|]. intros r.
  destruct (sql_ctx m1 r); [|steady].
  apply steady_bind; [apply steady_lift, clock_sq_query|steady].
Qed.
#[local] Hint Resolve steady_query : steady.
Lemma steady_query_events db since : steady (query_events db since).
Proof. unfold query_events. steady. Qed.
Lemma steady_query_reports db since ty : steady (query_reports db since ty).
Proof. unfold query_reports. steady. Qed.
#[local] Hint Resolve steady_query_events steady_query_reports : steady.
Lemma steady_health cfg : steady (health cfg).
Proof. unfold health. steady. Qed.
#[local] Hint Resolve steady_health : steady.
Lemma steady_statistics cfg : steady (statistics cfg).
Proof. unfold statistics. steady. Qed.
Lemma steady_firewall_rule_ver cfg : steady (firewall_rule_ver cfg).
Proof. unfold firewall_rule_ver. steady. Qed.
Lemma steady_now_ms cfg : steady (now_ms cfg).
Proof. unfold now_ms, agent_now_ms. steady. Qed.
Lemma steady_dump_events cfg since : steady (dump_events cfg since).
Proof. unfold dump_events. steady. Qed.
Lemma steady_dump_reports cfg since : steady (dump_reports cfg since).
Proof. unfold dump_reports. steady. Qed.
Lemma steady_run_curl args : steady (run_curl args).
Proof. unfold run_curl. steady. Qed.
#[local] Hint Resolve steady_run_curl : steady.
Lemma steady_upsert_rule cfg f content : steady (upsert_rule cfg f content).
Proof. unfold upsert_rule. steady. Qed.
Lemma steady_events_mention cfg needle : steady (events_mention cfg needle).
Proof. unfold events_mention. steady. Qed.

End target_steady.

#[export] Hint Resolve steady_query_events steady_query_reports steady_health
  steady_statistics steady_firewall_rule_ver steady_now_ms steady_dump_events
  steady_dump_reports steady_upsert_rule steady_events_mention : steady.

Section rows.
  Context {W : Type} `{!World W, !Anyhow, !SerdeJson, !SerdeJsonLaws, !Sqlite W,
                       !SqliteLaws W, !DeRows, !DeRowsLaws}.

Lemma unquote_stored s : str_forall plain_char s = true → unquote (dq +:+ s +:+ dq) = s.
Proof. intros Hs. unfold unquote. by rewrite string_quoted. Qed.

(** The object the query writes for a row. *)
Definition event_object (r : event_row) : list (string * jtree) :=
  let e := er_event r in
  [("event_id", TStr (event_id e)); ("event_time_ms", TInt (event_time_ms e));
   ("event_type", TStr (event_type e)); ("action", TStr (ev_action e));
   ("app_id", opt_int (er_app_id r)); ("ifindex", opt_int (er_ifindex r));
   ("src_ip", TStr (ev_src_ip e)); ("src_port", TInt (ev_src_port e));
   ("dst_ip", TStr (ev_dst_ip e)); ("dst_port", TInt (ev_dst_port e));
   ("proto", TStr (ev_proto e)); ("rule_id", opt_int (ev_rule_id e));
   ("detail", TStr (ev_detail e)); ("report_state", TStr (report_state e))].

Lemma row_opt_cell (r : Row) i o : row_cells r !! i = Some (opt_cell o) → row_opt_i64 r i = Ok o.
Proof. destruct o; [apply row_opt_i64_int|apply row_opt_i64_null]. Qed.

Lemma event_row_object r (cells : Row) :
  stored r → row_cells cells = (event_columns r).*2 →
  event_row_json cells = Ok (json (TObj (event_object r))).
Proof.
  intros (Ht & Ha & Hpt & Hpa) Hc. unfold event_row_json.
  rewrite (row_str_text _ 0 (event_id (er_event r))),
    (row_i64_int _ 1 (event_time_ms (er_event r))), (row_str_text _ 2 (er_type r)),
    (row_str_text _ 3 (er_action r)), (row_opt_cell _ 4 (er_app_id r)),
    (row_opt_cell _ 5 (er_ifindex r)), (row_str_text _ 6 (ev_src_ip (er_event r))),
    (row_i64_int _ 7 (ev_src_port (er_event r))), (row_str_text _ 8 (ev_dst_ip (er_event r))),
    (row_i64_int _ 9 (ev_dst_port (er_event r))), (row_str_text _ 10 (ev_proto (er_event r))),
    (row_opt_cell _ 11 (ev_rule_id (er_event r))), (row_str_text _ 12 (ev_detail (er_event r))),
    (row_str_text _ 13 (report_state (er_event r))) by (by rewrite Hc).
  cbn [result_bind]. rewrite Ht, Ha, !unquote_stored by done. done.
Qed.

Lemma event_object_fields r :
  event_fields (er_event r) (map (λ kt, (kt.1, json kt.2)) (event_object r)).
Proof. unfold event_fields. split_and!; try reflexivity. by apply (bool_decide_unpack _). Qed.

Lemma collect_rows evs (rows : list Row) :
  Forall2 (λ r cells, stored r ∧ row_cells cells = (event_columns r).*2) evs rows →
  collect (map (λ row : result sql_error Row, let? row := row in event_row_json row) (map Ok rows))
  = Ok (map (λ r, json (TObj (event_object r))) evs).
Proof.
  induction 1 as [|r cells evs rows [Hst Hc] _ IH]; [done|]. cbn [map collect result_bind].
  rewrite (event_row_object r) by done. cbn [result_bind]. by rewrite IH.
Qed.

(** ** The event query on a table of events *)

Definition event_query : select :=
  {| sel_cols := ["event_id"; "event_time_ms"; "event_type"; "action"; "app_id"; "ifindex";
       "src_ip"; "src_port"; "dst_ip"; "dst_port"; "proto"; "rule_id"; "detail"; "report_state"];
     sel_from := "firewall_event"; sel_where := since_cond "event_time_ms";
     sel_order := "event_time_ms"; sel_desc := false |}.

Lemma event_time_cell r cells :
  holds_event r cells → assoc "event_time_ms" cells = Some (CInt (event_time_ms (er_event r))).
Proof.
  intros [_ Hc].
  exact (proj1 (Forall_lookup _ _) Hc 1%nat ("event_time_ms", CInt _) eq_refl).
Qed.

Lemma event_cond r cells since :
  holds_event r cells →
  eval_cond [PInt since] cells (sel_where event_query)
  = Some (Some (since <? event_time_ms (er_event r))).
Proof.
  intros Hr. cbn. rewrite (event_time_cell r) by done. cbn. do 2 f_equal.
  unfold Z.ltb. rewrite (Z.compare_antisym since). by destruct (since ?= _).
Qed.

Lemma event_kept r cells since :
  holds_event r cells → since < event_time_ms (er_event r) ↔ kept event_query [PInt since] cells.
Proof.
  intros Hr. unfold kept. rewrite (event_cond r) by done.
  rewrite <- Z.ltb_lt. split; [by intros ->|by intros [=]].
Qed.

Lemma event_projected r cells :
  holds_event r cells → project (sel_cols event_query) cells = Some ((event_columns r).*2).
Proof. intros [_ Hc]. by apply (project_columns (event_columns r)). Qed.

Lemma event_described r cells since :
  holds_event r cells → described event_query [PInt since] cells.
Proof.
  intros Hr. unfold described. rewrite (event_cond r), (event_projected r) by done.
  cbn [sel_order event_query]. rewrite (event_time_cell r) by done. by split_and!; eexists.
Qed.

Lemma table_described evs table since :
  Forall2 holds_event evs table → Forall (described event_query [PInt since]) table.
Proof. induction 1; constructor; [by eapply event_described|done]. Qed.

Definition row_time_le (r1 r2 : event_row) : Prop :=
  event_time_ms (er_event r1) <= event_time_ms (er_event r2).

(** The rows selected hold the events newer than the bound, in their order. *)
Lemma event_selected evs table out since :
  Forall2 holds_event evs table → selects event_query [PInt since] table out →
  ∃ evs', Forall2 holds_event evs' out ∧
    evs' ≡ₚ filter (λ r, since < event_time_ms (er_event r)) evs ∧
    StronglySorted row_time_le evs'.
Proof.
  intros Ht [Hp Hs].
  pose proof (Forall2_filter_iff holds_event _ _ _ _ (λ r cells, event_kept r cells since) Ht) as Hf.
  destruct (Forall2_perm_r _ _ _ _ Hf Hp) as (evs' & He & Hperm). exists evs'. split_and!; [done..|].
  refine (StronglySorted_Forall2 _ _ _ _ _ _ He Hs). intros r1 r2 c1 c2 Hr1 Hr2.
  unfold ordered, sort_key, row_time_le. cbn [sel_desc sel_order event_query].
  by rewrite (event_time_cell r1), (event_time_cell r2) by done.
Qed.

(** A row that was not fetched fails the whole read. *)
Lemma collect_fails {A} (f : Row → result sql_error A) rs e :
  collect rs = Err e → is_ok (collect (map (λ row, let? row := row in f row) rs)) = false.
Proof.
  induction rs as [|[r|e'] rs IH]; cbn [collect map result_bind]; [done| |done].
  destruct (collect rs) as [rows|e'']; [done|]. intros [= <-]. specialize (IH eq_refl).
  destruct (f r); [|done]. cbn [result_bind]. by destruct (collect (map _ rs)).
Qed.

(** What the event query fetches, column by column, is events. *)
Lemma event_rows_read path wo c wo' wp stmt wp' since w rs w' rows evs :
  sq_open path wo = (Ok c, wo') → sq_prepare c event_sql wp = (Ok stmt, wp') →
  Forall2 holds_event evs (tables w path "firewall_event") →
  sq_query_map stmt [PInt since] w = (Ok rs, w') → collect rs = Ok rows →
  ∃ evs',
    collect (map (λ row : result sql_error Row, let? row := row in event_row_json row) rs)
    = Ok (map (λ r, json (TObj (event_object r))) evs') ∧
    evs' ≡ₚ filter (λ r, since < event_time_ms (er_event r)) evs ∧
    StronglySorted row_time_le evs'.
Proof.
  intros Ho Hp Ht Hq Hc.
  destruct (sq_select path wo c wo' event_sql event_query wp stmt wp' [PInt since] w rs w' rows
    Ho Hp event_sql_parsed (table_described evs _ since Ht) Hq Hc) as (out & Hsel & Hout).
  destruct (event_selected evs _ out since Ht Hsel) as (evs' & He & Hperm & Hs).
  exists evs'. split; [|done]. rewrite (collect_ok_inv _ _ Hc). apply collect_rows.
  clear -He Hout. revert rows Hout. induction He as [|r cells evs' out Hr _ IH]; intros rows Hout.
  - destruct rows; [constructor|inversion Hout].
  - destruct rows as [|row rows]; [inversion Hout|]. cbn [map] in Hout.
    inversion_clear Hout as [|? ? ? ? Hpr Hout']. constructor; [|by apply IH].
    split; [apply Hr|]. rewrite (event_projected r) in Hpr by done. by injection Hpr as <-.
Qed.

Lemma er_event_filter since evs :
  map er_event (filter (λ r, since < event_time_ms (er_event r)) evs)
  = filter (λ e, since < event_time_ms e) (map er_event evs).
Proof.
  induction evs as [|r l IH]; [done|].
  cbn [map]. rewrite !filter_cons. repeat case_decide; simpl; by rewrite ?IH.
Qed.

Lemma er_event_sorted evs :
  StronglySorted row_time_le evs →
  StronglySorted (λ e1 e2, event_time_ms e1 <= event_time_ms e2) (map er_event evs).
Proof.
  induction 1 as [|r rows Hs IH Hr]; simpl; constructor; [done|]. by apply Forall_fmap.
Qed.

(** The objects of events, read as events. *)
Lemma events_read evs :
  events_of_value (arr (map (λ r, json (TObj (event_object r))) evs)) = Ok (map er_event evs).
Proof.
  replace (map (λ r, json (TObj (event_object r))) evs)
    with (map obj (map (λ r, map (λ kt, (kt.1, json kt.2)) (event_object r)) evs))
    by (rewrite map_map; apply map_ext; intros r; symmetry; apply json_obj).
  rewrite (events_of_arr (map er_event evs)); [done|].
  induction evs; constructor; [apply event_object_fields|done].
Qed.

End rows.

(** ** Theorem *)

Definition event_time_le (e1 e2 : FwEvent) : Prop := event_time_ms e1 <= event_time_ms e2.

Section dump.
  Context {W : Type} `{!World W, !Anyhow, !SerdeJson, !SerdeJsonLaws, !Sqlite W,
                       !SqliteLaws W, !DeRows, !DeRowsLaws}.

(** C23. Reading the events is lossless and scoped. It always returns, and fails
    exactly when the state database cannot be opened, the query not prepared or
    run, or a row not fetched. Otherwise, where the rows of [firewall_event] in
    that database hold events when the query runs, it yields exactly the events
    newer than the watermark, oldest first: that is what the text of the query
    means, and no event is dropped or rejected by the column reads, the
    unquoting of the enum columns or the JSON round trip. *)
Theorem dump_events_scoped cfg since w :
  wp (dump_events cfg since) (λ r w',
    match sq_open (rc_state_db cfg) w with
    | (Err _, w1) => is_ok r = false ∧ w' = w1
    | (Ok c, w1) =>
        match sq_prepare c event_sql w1 with
        | (Err _, w2) => is_ok r = false ∧ w' = w2
        | (Ok stmt, w2) =>
            match sq_query_map stmt [PInt since] w2 with
            | (Err _, w3) => is_ok r = false ∧ w' = w3
            | (Ok rs, w3) => w' = w3 ∧
                ∀ evs, Forall2 holds_event evs (tables w2 (rc_state_db cfg) "firewall_event") →
                match collect rs with
                | Err _ => is_ok r = false
                | Ok _ => ∃ es, r = Ok es ∧
                    es ≡ₚ filter (λ e, since < event_time_ms e) (map er_event evs) ∧
                    StronglySorted event_time_le es
                end
            end
        end
    end) w.
Proof.
  unfold dump_events, query_events, open_db, query.
  apply wp_try, wp_try, wp_bind, wp_lift.
  destruct (sq_open _ w) as [[c|e] w1] eqn:Ho; cbn [fst snd sql_ctx]; [|by apply wp_ret, wp_ret].
  apply wp_ret. apply wp_bind, wp_lift.
  destruct (sq_prepare c _ w1) as [[stmt|e] w2] eqn:Hp; cbn [fst snd sql_ctx]; [|by apply wp_ret, wp_ret].
  apply wp_bind, wp_lift.
  destruct (sq_query_map stmt _ w2) as [[rs|e] w3] eqn:Hq; cbn [fst snd sql_ctx result_bind];
    [|by apply wp_ret, wp_ret].
  apply wp_ret. destruct (collect rs) as [rows|e] eqn:Hc.
  - destruct (collect (map (λ row : result sql_error Row, let? row := row in event_row_json row) rs))
      as [vs|e] eqn:Hv; cbn [sql_ctx]; apply wp_ret; (split; [done|]); intros evs Ht;
      destruct (event_rows_read _ _ _ _ _ _ _ _ _ _ _ _ _ Ho Hp Ht Hq Hc) as (evs' & Hr & Hperm & Hs);
      rewrite Hr in Hv; [|done].
    injection Hv as <-. exists (map er_event evs'). rewrite events_read. split; [done|]. split.
    + by rewrite Hperm, er_event_filter.
    + by apply er_event_sorted.
  - destruct (collect (map _ rs)) as [vs|e'] eqn:Hv;
      [by apply (collect_fails event_row_json) in Hc; rewrite Hv in Hc|].
    cbn [sql_ctx]. by apply wp_ret.
Qed.

End dump.

(** ** A concrete database *)

(** The deserializers on literal trees. *)
Definition sim_event (v : jtree) : option FwEvent :=
  match v with
  | TObj f =>
      match assoc "event_id" f, assoc "event_time_ms" f, assoc "event_type" f,
            assoc "action" f, assoc "src_ip" f, assoc "src_port" f, assoc "dst_ip" f with
      | Some (TStr id), Some (TInt t), Some (TStr ty), Some (TStr ac), Some (TStr si),
        Some (TInt sp), Some (TStr di) =>
          match assoc "dst_port" f, assoc "proto" f, assoc "rule_id" f, assoc "detail" f,
                assoc "report_state" f with
          | Some (TInt dp), Some (TStr pr), Some r, Some (TStr de), Some (TStr st) =>
              Some {| event_id := id; event_time_ms := t; event_type := ty; ev_action := ac;
                      ev_src_ip := si; ev_src_port := sp; ev_dst_ip := di; ev_dst_port := dp;
                      ev_proto := pr;
                      ev_rule_id := match r with TInt n => Some n | _ => None end;
                      ev_detail := de; report_state := st |}
          | _, _, _, _, _ => None
          end
      | _, _, _, _, _, _, _ => None
      end
  | _ => None
  end.
Definition sim_report (v : jtree) : option FwReport :=
  match v with
  | TObj f =>
      match assoc "report_type" f, assoc "payload" f, assoc "created_at_ms" f with
      | Some (TStr ty), Some p, Some (TInt t) =>
          Some {| report_type := ty; payload := (p : @value sim_anyhow sim_json);
                  created_at_ms := t |}
      | _, _, _ => None
      end
  | _ => None
  end.
Definition sim_rows {A} (f : jtree → option A) (v : jtree) : result string (list A) :=
  match v with
  | TArr l => match mapM f l with Some rows => Ok rows | None => Err "invalid row" end
  | _ => Err "invalid type"
  end.
#[export] Instance sim_de_rows : DeRows := {|
  events_of_value := sim_rows sim_event;
  reports_of_value := sim_rows sim_report;
|}.

Lemma sim_rows_ok {A} (f : jtree → option A) es (l : list jtree) :
  Forall2 (λ e v, f v = Some e) es l → sim_rows f (TArr l) = Ok es.
Proof.
  intros H. unfold sim_rows. assert (mapM f l = Some es) as ->; [|done].
  apply mapM_Some. induction H; constructor; auto.
Qed.

#[export] Instance sim_de_rows_laws : DeRowsLaws.
Proof.
  split.
  - intros es fss H. apply sim_rows_ok. induction H as [|e fs es fss He _ IH]; [done|].
    constructor; [|exact IH].
    destruct He as (_ & H1 & H2 & H3 & H4 & H5 & H6 & H7 & H8 & H9 & H10 & H11 & H12).
    cbn [sim_event obj json sim_json value] in *. rewrite H1, H2, H3, H4, H5, H6, H7, H8, H9, H10, H11, H12.
    destruct e as [? ? ? ? ? ? ? ? ? [?|] ? ?]; done.
  - intros es fss H. apply sim_rows_ok. induction H as [|r fs rs fss Hr _ IH]; [done|].
    constructor; [|exact IH]. destruct Hr as (_ & H1 & H2 & H3).
    cbn [sim_report obj json sim_json value] in *. rewrite H1, H2, H3. by destruct r.
Qed.

(** A block of the egress rule on port 6001, already reported, and an older
    event. *)
Definition demo_event : FwEvent := {|
  event_id := "ev-2"; event_time_ms := 1000; event_type := "NetworkBlock";
  ev_action := "Block"; ev_src_ip := "10.123.0.1"; ev_src_port := 40000;
  ev_dst_ip := "10.123.0.2"; ev_dst_port := 6001; ev_proto := "tcp";
  ev_rule_id := Some 2; ev_detail := "connection state invalid attack";
  report_state := "sent" |}.
Definition demo_old_event : FwEvent := {|
  event_id := "ev-1"; event_time_ms := -5; event_type := "PortScan";
  ev_action := "Block"; ev_src_ip := "10.123.0.2"; ev_src_port := 40001;
  ev_dst_ip := "10.123.0.1"; ev_dst_port := 9001; ev_proto := "udp";
  ev_rule_id := None; ev_detail := "udp portscan attack"; report_state := "pending" |}.
Definition stored_row (e : FwEvent) : event_row := {|
  er_event := e; er_type := dq +:+ event_type e +:+ dq;
  er_action := dq +:+ ev_action e +:+ dq; er_app_id := None; er_ifindex := Some 7 |}.
Definition demo_rows : list event_row := [stored_row demo_event; stored_row demo_old_event].

(** A database whose only rows are these. *)
Definition sim_tables (name : string) : list row :=
  if String.eqb name "firewall_event" then map event_columns demo_rows else [].
Definition sim_cell {A} (f : cell → option A) (r : list cell) (i : nat) : result string A :=
  match r !! i ≫= f with Some a => Ok a | None => Err "invalid column" end.

(** The engine runs the statements of the fragment; any other has no rows. *)
#[export] Instance sim_sqlite : Sqlite device := {|
  Connection := unit; Statement := option select; Row := list cell; sql_error := string;
  from_sql e := (e : @error sim_anyhow);
  sq_open _ w := (Ok tt, w);
  sq_prepare _ s w := (Ok (parse_sql s), w);
  sq_query_map q ps w :=
    (Ok (match q with Some q => map Ok (run_select q ps (sim_tables (sel_from q))) | None => [] end), w);
  row_str := sim_cell (λ c, match c with CText s => Some s | _ => None end);
  row_i64 := sim_cell (λ c, match c with CInt n => Some n | _ => None end);
  row_opt_i64 := sim_cell (λ c, match c with
                           | CInt n => Some (Some n) | CNull => Some None | _ => None end);
  row_opt_str := sim_cell (λ c, match c with
                           | CText s => Some (Some s) | CNull => Some None | _ => None end);
|}.

#[export] Instance sim_sqlite_laws : SqliteLaws device.
Proof.
  refine (@Build_SqliteLaws device _ sim_sqlite (λ _ _ name, sim_tables name)
            (λ r : list cell, r) _ _ _ _ _ _ _).
  - intros path wo c wo' sql q wp stmt wp' ps w rs w' rows _ [= <- <-] Hsql Hd [= <- <-] Hc.
    rewrite Hsql, collect_all_ok in Hc. injection Hc as <-.
    destruct (run_select_spec q ps _ Hd) as (out & Hs & Hf). exists out. split; [done|].
    by rewrite map_id.
  - intros r i s Hi. cbn. unfold sim_cell. by rewrite Hi.
  - intros r i s Hi. cbn. unfold sim_cell. by rewrite Hi.
  - intros r i s Hi. cbn. unfold sim_cell. by rewrite Hi.
  - intros r i Hi. cbn. unfold sim_cell. by rewrite Hi.
  - intros r i s Hi. cbn. unfold sim_cell. by rewrite Hi.
  - intros r i Hi. cbn. unfold sim_cell. by rewrite Hi.
Defined.

#[export] Instance sim_sqlite_clock : SqliteClock device.
Proof. split; intros; simpl; lia. Qed.

Lemma dump_events_scoped_witness :
  wp (dump_events demo_config 0) (λ r _, ∃ es, r = Ok es ∧
    es ≡ₚ filter (λ e, 0 < event_time_ms e) (map er_event demo_rows) ∧
    StronglySorted event_time_le es) demo_device.
Proof.
  eapply wp_mono; [|exact (dump_events_scoped demo_config 0 demo_device)].
  intros r w' [_ Hr]. specialize (Hr demo_rows).
  assert (Forall2 holds_event demo_rows (map event_columns demo_rows)) as Ht.
  { repeat constructor. }
  exact (Hr Ht).
Defined.

(** On the demo device the read yields the newer event alone. *)
Example demo_dump : fst <$> dump_events demo_config 0 demo_device = Some (Ok [demo_event]).
Proof. vm_compute. reflexivity. Qed.
