(* ===== verification/Provision.v ===== *)
(** * Rule provisioning ([provision.rs], [agent/provision.rs])

    Android mode writes the encrypted depot, host mode uploads to VSOC; both
    wait until idps-fw reports the new version. The depot, the keystore and
    the device identity belong to idps-core and idps-server: an interface. *)

From S2P Require Import Prelude RustInt RustStr Effects Sim Cli Exec Config Db Target.

(** ** Signed widths *)

Definition i32_max : Z := 2147483647.
Definition i64_max : Z := 9223372036854775807.
(** [n as i32] *)
Definition as_i32 (n : Z) : Z := (n + 2147483648) mod 4294967296 - 2147483648.
(** [i32::saturating_add] of a non-negative number. *)
Definition saturating_add_i32 (a b : Z) : Z := Z.min i32_max (a + b).
Definition i64_add : Z → Z → option Z := add_checked i64_max.

(** ** The depot interface *)

Record RuleMetadata := {
  ver : Z;
  rule_ver : Z;
  prot_ver : Z;
  major_ver : Z;
  minor_ver : Z;
  sha256 : string;
  sign : string;
}.

(** [RuleMetadata::default()] is a parameter: its fields are not in the source. *)
Class Depot (W : Type) `{!Anyhow} := {
  IdpsConfig : Type;
  KeyStore : Type;
  RuntimeKey : Type;
  AesParams : Type;
  RuleDepot : Type;
  depot_path : IdpsConfig → string;
  default_rules_path : IdpsConfig → string;
  load_runtime : string → W → res (IdpsConfig * AesParams) * W;
  collect_device_info : IdpsConfig → W → res (string * string) * W;
  keystore_open : string → W → res KeyStore * W;
  resolve_keys : KeyStore → string → string → W → res (option RuntimeKey) * W;
  depot_new : string → string → option RuntimeKey → AesParams → W → res RuleDepot * W;
  load_metadata : RuleDepot → Z → Z → Z → W → res RuleMetadata * W;
  default_metadata : RuleMetadata;
  save_rule : RuleDepot → Z → Z → string → RuleMetadata → W → res unit * W;
  sha256_hex : string → string;
}.

Class DepotClock (W : Type) `{!World W, !WorldClock W, !Anyhow, !Depot W} : Prop := {
  clock_load_runtime p w : clock w <= clock (load_runtime p w).2;
  clock_device_info c w : clock w <= clock (collect_device_info c w).2;
  clock_keystore p w : clock w <= clock (keystore_open p w).2;
  clock_resolve k v d w : clock w <= clock (resolve_keys k v d w).2;
  clock_depot_new p d k a w : clock w <= clock (depot_new p d k a w).2;
  clock_load_metadata d a f p w : clock w <= clock (load_metadata d a f p w).2;
  clock_save_rule d a f b m w : clock w <= clock (save_rule d a f b m w).2;
}.

(** ** [agent/provision.rs] *)

Section depot.
  Context {W : Type} `{!World W, !Anyhow, !SerdeJson, !Depot W}.

Definition DEFAULT_CONFIG : string := "/etc/idd/idps.yaml".
Definition DEFAULT_KEYSTORE : string := "/data/idd/keys".

(** A call into the depot with its error context. *)
Definition dep {A} (s : string) (f : W → res A * W) : io W (res A) :=
  io_context s (lift f).

Definition new_metadata (previous : RuleMetadata) (prot : Z) (v : option Z) (hash : string)
    : RuleMetadata :=
  let v := default (saturating_add_i32 (ver previous) 1) v in
  {| ver := v; rule_ver := v; prot_ver := prot; major_ver := Z.max (major_ver previous) 1;
     minor_ver := minor_ver previous; sha256 := hash; sign := "" |}.

Definition provision_rule (acd fun_ prot : Z) (v : option Z) (rule_bytes : string)
    (config_path keystore_path : string) : io W (res value) :=
  loaded <-? dep ("failed to load config " +:+ config_path) (load_runtime config_path) ;;
  let config := loaded.1 in
  device <-? dep "failed to collect device info" (collect_device_info config) ;;
  keystore <-? dep ("failed to open keystore " +:+ keystore_path) (keystore_open keystore_path) ;;
  key <-? dep "failed to resolve runtime AES key" (resolve_keys keystore device.1 device.2) ;;
  let key_present := bool_decide (is_Some key) in
  depot <-? dep "failed to open rule depot"
    (depot_new (depot_path config) (default_rules_path config) key loaded.2) ;;
  let prot := Z.max prot 1 in
  r <- lift (load_metadata depot acd fun_ prot) ;;
  let meta := new_metadata (unwrap_or default_metadata r) prot v (sha256_hex rule_bytes) in
  _ <-? dep "failed to write depot rule" (save_rule depot acd fun_ rule_bytes meta) ;;
  let path := trim_end_matches "/" (depot_path config) +:+ "/" +:+ int_to_string acd +:+ "-" +:+
              int_to_string fun_ +:+ "-" +:+ int_to_string prot +:+ ".rule" in
  io_ret (Ok (json (TObj
    [("acd", TInt acd); ("fun", TInt fun_); ("prot_ver", TInt prot); ("ver", TInt (ver meta));
     ("sha256", TStr (sha256_hex rule_bytes));
     ("bytes", TInt (Z.of_nat (String.length rule_bytes)));
     ("path", TStr path); ("key_present", TBool key_present)]))).

(** [agent provision-rule]; a rule file is text here. *)
Definition provision_run (args : ProvisionArgs) : io W (res unit) :=
  r <- read_to_string (pa_input args) ;;
  match io_ctx ("failed to read rule file " +:+ pa_input args) r with
  | Err e => io_ret (Err e)
  | Ok rule_bytes =>
      out <-? provision_rule (pa_acd args) (pa_fun args) (pa_prot_ver args) (pa_ver args)
                rule_bytes (pa_config args) (pa_keystore args) ;;
      println (to_string out) ;;; io_ret (Ok tt)
  end.

End depot.

(** ** [provision.rs] *)

Section provision.
  Context {W : Type} `{!World W, !Anyhow, !SerdeJson, !Depot W}.

Definition DEFAULT_DEPOT : string := "/data/idd/rule/depot".
Definition POLL : Z := millis 1000.

Definition require_key_present (out : value) : res unit :=
  if bool_decide ((get out "key_present" ≫= as_bool) = Some false) then
    Err (anyhow "fw-agent could not derive the runtime AES key (no keystore / VIN+DSN); is idps-server initialized on the target?")
  else Ok tt.

Definition write_depot_rule (cfg : RunConfig) (fun_ v : Z) (rule_text : string)
    : io W (res unit) :=
  out <-? io_context "failed to write depot rule"
    (provision_rule (rc_acd cfg) fun_ 1 (Some (as_i32 v)) rule_text
       DEFAULT_CONFIG DEFAULT_KEYSTORE) ;;
  io_ret (require_key_present out).

(** The checks of the two wait loops; a failed health read is retried. *)
Definition health_check (cfg : RunConfig) (p : value → bool) : io W bool :=
  r <- health cfg ;;
  io_ret match r with Ok v => p v | Err _ => false end.

Definition field_at_least (field : string) (expected : Z) (v : value) : bool :=
  expected <=? default (-1) (get v field ≫= as_i64).

Definition cycle_is (cycle : Z) (v : value) : bool :=
  default 0 (get v "traffic_cycle_secs" ≫= as_u64) =? cycle.

(** The first reading of the clock, [start], serves the log alone. *)
Definition wait_for (cfg : RunConfig) (field : string) (expected : Z) : io W (res unit) :=
  _ <- instant_now ;;
  ok <- poll_for (rc_reload_timeout cfg) POLL (health_check cfg (field_at_least field expected)) ;;
  io_ret (if ok : bool then Ok tt
          else Err (anyhow ("timed out waiting for idps-fw " +:+ field +:+ " >= " +:+
                            int_to_string expected))).

Definition wait_for_cycle (cfg : RunConfig) (cycle : Z) : io W (res unit) :=
  _ <- instant_now ;;
  ok <- poll_for (rc_reload_timeout cfg) POLL (health_check cfg (cycle_is cycle)) ;;
  io_ret (if ok : bool then Ok tt
          else Err (anyhow ("timed out waiting for idps-fw traffic_cycle_secs == " +:+
                            uint_to_string cycle))).

Definition provision_firewall_android (cfg : RunConfig) (rule_text : string) : io W (res Z) :=
  r <- firewall_rule_ver cfg ;;
  let before := unwrap_or (-1) r in
  target_ver <- unwrap (i64_add (Z.max before 0) 1) ;;
  _ <-? write_depot_rule cfg (rc_fun_fw cfg) target_ver rule_text ;;
  _ <-? wait_for cfg "firewall_rule_ver" target_ver ;;
  io_ret (Ok target_ver).

Definition provision_firewall_host (cfg : RunConfig) (rule_text : string) : io W (res Z) :=
  v <-? upsert_rule cfg (rc_fun_fw cfg) rule_text ;;
  _ <-? wait_for cfg "firewall_rule_ver" v ;;
  io_ret (Ok v).

Definition provision_firewall (cfg : RunConfig) (rule_text : string) : io W (res Z) :=
  match rc_mode cfg with
  | Android => provision_firewall_android cfg rule_text
  | Host => provision_firewall_host cfg rule_text
  end.

(** [format!("{{\"cycle\":{cycle}}}")] *)
Definition cycle_text (cycle : Z) : string :=
  "{" +:+ dq +:+ "cycle" +:+ dq +:+ ":" +:+ uint_to_string cycle +:+ "}".

Definition write_traffic_rule_android (cfg : RunConfig) (cycle : Z) : io W (res unit) :=
  r <- health cfg ;;
  let before := default (-1) (v ← result_ok r; get v "traffic_rule_ver" ≫= as_i64) in
  target_ver <- unwrap (i64_add (Z.max before 0) 1) ;;
  write_depot_rule cfg (rc_fun_traffic cfg) target_ver (cycle_text cycle).

Definition write_traffic_rule (cfg : RunConfig) (cycle : Z) : io W (res unit) :=
  match rc_mode cfg with
  | Android => write_traffic_rule_android cfg cycle
  | Host =>
      _ <-? upsert_rule cfg (rc_fun_traffic cfg) (cycle_text cycle) ;;
      io_ret (Ok tt)
  end.

Definition provision_traffic_cycle (cfg : RunConfig) (cycle : Z) : io W (res unit) :=
  _ <-? write_traffic_rule cfg cycle ;;
  wait_for_cycle cfg cycle.

Definition reset_rules (cfg : RunConfig) : io W (res unit) :=
  match rc_mode cfg with
  | Android =>
      let pattern fun_ := DEFAULT_DEPOT +:+ "/" +:+ int_to_string (rc_acd cfg) +:+ "-" +:+
                          int_to_string fun_ +:+ "-*.rule*" in
      _ <-? shell (rc_target cfg) ("rm -f " +:+ pattern (rc_fun_fw cfg) +:+ " " +:+
                                   pattern (rc_fun_traffic cfg)) ;;
      io_ret (Ok tt)
  | Host =>
      _ <-? upsert_rule cfg (rc_fun_fw cfg) ("chain=localin,action=P" +:+ nl) ;;
      io_ret (Ok tt)
  end.

End provision.

(** ** Lemmas: the calls return *)

Section provision_steady.
  Context {W : Type} `{!World W, !WorldClock W, !Anyhow, !SerdeJson, !Depot W, !DepotClock W}.

Lemma steady_dep {A} s (f : W → res A * W) :
  (∀ w, clock w <= clock (f w).2) → steady (dep s f).
Proof. intros Hf. unfold dep, io_context. apply steady_bind; [by apply steady_lift|steady]. Qed.

Lemma steady_provision_rule acd f prot v bytes c k :
  steady (provision_rule acd f prot v bytes c k).
Proof.
  unfold provision_rule.
  repeat (apply steady_try; [apply steady_dep; auto using clock_load_runtime,
    clock_device_info, clock_keystore, clock_resolve, clock_depot_new|intros ?]).
  apply steady_bind; [apply steady_lift, clock_load_metadata|]. intros r.
  apply steady_try; [apply steady_dep, clock_save_rule|steady].
Qed.
#[local] Hint Resolve steady_provision_rule : steady.

Lemma steady_write_depot_rule cfg f v text : steady (write_depot_rule cfg f v text).
Proof. unfold write_depot_rule, io_context. steady. Qed.
#[local] Hint Resolve steady_write_depot_rule : steady.

Lemma steady_health_check cfg p : steady (health_check cfg p).
Proof. unfold health_check. steady. Qed.

Lemma steady_wait_for cfg field expected :
  0 <= rc_reload_timeout cfg → steady (wait_for cfg field expected).
Proof.
  intros Ht. unfold wait_for. apply steady_bind; [steady|]. intros _.
  apply steady_bind; [|steady]. by apply steady_poll_for, steady_health_check.
Qed.
Lemma steady_wait_for_cycle cfg cycle :
  0 <= rc_reload_timeout cfg → steady (wait_for_cycle cfg cycle).
Proof.
  intros Ht. unfold wait_for_cycle. apply steady_bind; [steady|]. intros _.
  apply steady_bind; [|steady]. by apply steady_poll_for, steady_health_check.
Qed.

(** In android mode, which writes the successor of the version idps-fw reports,
    those versions stay below [i64::MAX], the one number without a successor. *)
Definition versions_bounded (cfg : RunConfig) : Prop :=
  rc_mode cfg = Android → ∀ w v w' k, health cfg w = Some (Ok v, w') →
    default (-1) (get v k ≫= as_i64) < i64_max.

Lemma next_version before w :
  before < i64_max →
  unwrap (W := W) (i64_add (Z.max before 0) 1) w = Some (Z.max before 0 + 1, w).
Proof. intros Hb. unfold i64_add. rewrite add_checked_some by (unfold i64_max in *; lia). done. Qed.

Lemma rule_ver_bounded cfg w r w' :
  versions_bounded cfg → rc_mode cfg = Android →
  firewall_rule_ver cfg w = Some (r, w') → unwrap_or (-1) r < i64_max.
Proof.
  intros Hb Ha. specialize (Hb Ha). unfold firewall_rule_ver, io_try, io_bind.
  destruct (health cfg w) as [[[v|e] w1]|] eqn:Hh; [..|done].
  - intros [= <- <-]. by eapply Hb.
  - intros [= <- <-]. done.
Qed.

Lemma steady_next_version {A B} (m : io W A) (f : A → Z) (k : Z → io W B) :
  steady m → (∀ w a w', m w = Some (a, w') → f a < i64_max) → (∀ v, steady (k v)) →
  steady (a <- m ;; v <- unwrap (i64_add (Z.max (f a) 0) 1) ;; k v).
Proof.
  intros Hm Hf Hk w. apply wp_bind. destruct (wp_elim _ _ _ (Hm w)) as (a & w1 & He & Hc).
  eapply wp_intro; [exact He|]. unfold wp, io_bind.
  rewrite next_version by (by eapply Hf).
  eapply wp_mono; [|apply Hk]. intros r w2 ?. simpl in *. lia.
Qed.

Lemma steady_provision_firewall cfg text :
  0 <= rc_reload_timeout cfg → versions_bounded cfg → steady (provision_firewall cfg text).
Proof.
  intros Ht Hb. unfold provision_firewall, provision_firewall_android, provision_firewall_host.
  destruct (rc_mode cfg) eqn:Hm.
  - apply (steady_next_version (firewall_rule_ver cfg) (unwrap_or (-1))); [steady| |].
    + intros w r w'. by apply rule_ver_bounded.
    + intros v. apply steady_try; [steady|]. intros _.
      apply steady_try; [by apply steady_wait_for|steady].
  - apply steady_try; [steady|]. intros v. apply steady_try; [by apply steady_wait_for|steady].
Qed.

Lemma steady_write_traffic_rule cfg cycle :
  versions_bounded cfg → steady (write_traffic_rule cfg cycle).
Proof.
  intros Hb. unfold write_traffic_rule, write_traffic_rule_android. destruct (rc_mode cfg) eqn:Hm.
  - apply (steady_next_version (health cfg)
      (λ r, default (-1) (v ← result_ok r; get v "traffic_rule_ver" ≫= as_i64))); [steady| |steady].
    intros w [v|e] w' Hh; [by eapply Hb|done].
  - steady.
Qed.

Lemma steady_provision_traffic_cycle cfg cycle :
  0 <= rc_reload_timeout cfg → versions_bounded cfg →
  steady (provision_traffic_cycle cfg cycle).
Proof.
  intros Ht Hb. unfold provision_traffic_cycle.
  apply steady_try; [by apply steady_write_traffic_rule|]. intros _. by apply steady_wait_for_cycle.
Qed.

Lemma steady_reset_rules cfg : steady (reset_rules cfg).
Proof. unfold reset_rules. steady. Qed.

(** What a successful wait started at [w] establishes: the last health snapshot
    it read shows what was waited for. *)
Definition observed (cfg : RunConfig) (P : value → Prop) (w w' : W) : Prop :=
  ∃ w1 v, clock w <= clock w1 ∧ health cfg w1 = Some (Ok v, w') ∧ P v.

(** The field has reached a number; a field that is not there counts as -1. *)
Definition reached (field : string) (expected : Z) (v : value) : Prop :=
  match get v field ≫= as_i64 with Some n => expected <= n | None => expected <= -1 end.

(** The traffic cycle is a number; a cycle that is not there counts as 0. *)
Definition cycle_reached (cycle : Z) (v : value) : Prop :=
  match get v "traffic_cycle_secs" ≫= as_u64 with Some n => n = cycle | None => cycle = 0 end.

Lemma field_at_least_reached field expected v :
  field_at_least field expected v = true → reached field expected v.
Proof.
  unfold field_at_least, reached. destruct (get v field ≫= as_i64); intros Hf; by bool_prop.
Qed.

Lemma cycle_is_reached cycle v : cycle_is cycle v = true → cycle_reached cycle v.
Proof.
  unfold cycle_is, cycle_reached.
  destruct (get v "traffic_cycle_secs" ≫= as_u64); intros Hc; by bool_prop.
Qed.

Lemma observed_mono cfg (P Q : value → Prop) w0 w w' :
  (∀ v, P v → Q v) → clock w0 <= clock w → observed cfg P w w' → observed cfg Q w0 w'.
Proof. intros HPQ Hc (w1 & v & Hc1 & Hh & Hv). exists w1, v. split; [lia|auto]. Qed.

Lemma health_check_wp cfg p w :
  wp (health_check cfg p)
     (λ ok w', clock w <= clock w' ∧
        if ok : bool then observed cfg (λ v, p v = true) w w' else True) w.
Proof.
  unfold health_check. apply wp_bind.
  destruct (wp_elim _ _ _ (steady_health cfg w)) as ([v|e] & w1 & Hh & Hc);
    (eapply wp_intro; [exact Hh|]); apply wp_ret; [|done].
  split; [done|]. destruct (p v) eqn:Hp; [|done]. exists w, v. split; [lia|done].
Qed.

Lemma poll_health_wp cfg p w :
  0 <= rc_reload_timeout cfg →
  wp (poll_for (rc_reload_timeout cfg) POLL (health_check cfg p))
     (λ ok w', clock w <= clock w' ∧
        if ok : bool then observed cfg (λ v, p v = true) w w'
        else clock w + rc_reload_timeout cfg <= clock w') w.
Proof.
  intros Ht.
  eapply wp_mono; [|apply (poll_for_wp (λ w1, clock w <= clock w1)
    (observed cfg (λ v, p v = true) w)); [done|done|..]].
  - intros [] w' [? Hw]; split; [done|done|done|apply Hw].
  - intros w1 Hw1. eapply wp_mono; [|apply health_check_wp]. intros [] w2 [Hc Ho].
    + split; [done|]. by apply (observed_mono _ _ _ w w1 w2 (λ v Hv, Hv)).
    + split; [done|lia].
  - intros w1 Hw1. pose proof (clock_now w1). lia.
  - intros w1 Hw1. pose proof (clock_sleep POLL w1 ltac:(discriminate)).
    assert (0 <= POLL) by discriminate. lia.
  - lia.
Qed.

(** The body shared by the two waits. *)
Lemma wait_wp cfg p (P : value → Prop) (e : error) w :
  0 <= rc_reload_timeout cfg → (∀ v, p v = true → P v) →
  wp (_ <- instant_now ;;
      ok <- poll_for (rc_reload_timeout cfg) POLL (health_check cfg p) ;;
      io_ret (if ok : bool then Ok tt else Err e))
     (λ r w', match r with
              | Ok _ => observed cfg P w w'
              | Err _ => clock w + rc_reload_timeout cfg <= clock w'
              end) w.
Proof.
  intros Ht HP. pose proof (clock_now w) as Hc.
  apply wp_bind, wp_lift, wp_bind. eapply wp_mono; [|by apply poll_health_wp].
  intros [] w' [? Hw]; apply wp_ret; simpl; [|lia].
  eapply observed_mono; [exact HP| |exact Hw]. lia.
Qed.

Lemma wait_for_wp cfg field expected w :
  0 <= rc_reload_timeout cfg →
  wp (wait_for cfg field expected)
     (λ r w', match r with
              | Ok _ => observed cfg (reached field expected) w w'
              | Err _ => clock w + rc_reload_timeout cfg <= clock w'
              end) w.
Proof. intros Ht. apply wait_wp; [done|]. apply field_at_least_reached. Qed.

Lemma wait_for_cycle_wp cfg cycle w :
  0 <= rc_reload_timeout cfg →
  wp (wait_for_cycle cfg cycle)
     (λ r w', match r with
              | Ok _ => observed cfg (cycle_reached cycle) w w'
              | Err _ => clock w + rc_reload_timeout cfg <= clock w'
              end) w.
Proof. intros Ht. apply wait_wp; [done|]. apply cycle_is_reached. Qed.

Lemma wait_for_ok cfg field expected w0 w u w' :
  0 <= rc_reload_timeout cfg → clock w0 <= clock w →
  wait_for cfg field expected w = Some (Ok u, w') →
  observed cfg (reached field expected) w0 w'.
Proof.
  intros Ht Hc Hw. apply (observed_mono _ _ _ w0 w w' (λ v Hv, Hv) Hc). pose proof (wait_for_wp cfg field expected w Ht) as Hwp.
  unfold wp in Hwp. by rewrite Hw in Hwp.
Qed.

End provision_steady.

#[export] Hint Resolve steady_provision_rule steady_reset_rules : steady.

(** ** Theorems *)

Section theorems.
  Context {W : Type} `{!World W, !WorldClock W, !Anyhow, !SerdeJson, !Depot W, !DepotClock W}.

(** C9. Waiting for idps-fw always ends: it succeeds only on a health snapshot
    (the last one read) whose field has reached the expected version, or whose
    traffic cycle is the expected one; it fails only when the reload timeout
    has passed since the wait began. Failed health reads are retried. *)
Theorem waits_confirm cfg field expected cycle w :
  0 <= rc_reload_timeout cfg →
  wp (wait_for cfg field expected)
     (λ r w', match r with
              | Ok _ => observed cfg (reached field expected) w w'
              | Err _ => clock w + rc_reload_timeout cfg <= clock w'
              end) w ∧
  wp (wait_for_cycle cfg cycle)
     (λ r w', match r with
              | Ok _ => observed cfg (cycle_reached cycle) w w'
              | Err _ => clock w + rc_reload_timeout cfg <= clock w'
              end) w.
Proof.
  intros Ht. split; [by apply wait_for_wp|by apply wait_for_cycle_wp].
Qed.

(** What a successful provisioning has observed. *)
Lemma provision_firewall_ok cfg text v w w' :
  0 <= rc_reload_timeout cfg →
  provision_firewall cfg text w = Some (Ok v, w') →
  observed cfg (reached "firewall_rule_ver" v) w w' ∧
  (rc_mode cfg = Android →
   ∃ r w1, firewall_rule_ver cfg w = Some (r, w1) ∧ Z.max 0 (unwrap_or (-1) r) < v).
Proof.
  intros Ht. unfold provision_firewall. destruct (rc_mode cfg).
  - unfold provision_firewall_android, io_bind at 1.
    destruct (firewall_rule_ver cfg w) as [[r w1]|] eqn:Hr; [|done].
    unfold unwrap, i64_add, add_checked, io_bind at 1.
    destruct (Z.max _ 0 + 1 <=? i64_max); [|done].
    intros (wr & w2 & Hwr & Hw)%io_try_ok_inv. apply io_try_ok_inv in Hw as (u & w3 & Hw & Heq).
    unfold io_ret in Heq. apply (inj Some) in Heq. simplify_eq.
    apply (steady_run _ _ _ _ (steady_firewall_rule_ver cfg)) in Hr as Hc1.
    apply (steady_run _ _ _ _ (steady_write_depot_rule _ _ _ _)) in Hwr as Hc2.
    split; [apply (wait_for_ok _ _ _ w w2 u w' Ht); [lia|exact Hw]|].
    intros _. exists r, w1. split; [done|lia].
  - unfold provision_firewall_host. intros (v' & w1 & Hup & Hw)%io_try_ok_inv.
    apply io_try_ok_inv in Hw as (u & w2 & Hw & Heq).
    unfold io_ret in Heq. apply (inj Some) in Heq. simplify_eq.
    apply (steady_run _ _ _ _ (steady_upsert_rule cfg _ _)) in Hup as Hc1.
    split; [by apply (wait_for_ok _ _ _ w w1 u w' Ht)|done].
Qed.

(** C10. A firewall rule set counts as provisioned only when idps-fw has
    confirmed it: the version returned is one that the last health snapshot
    reports as reached; in android mode it is also positive and strictly above
    the version reported before, so the reload really happened. *)
Theorem provision_firewall_confirmed cfg text v w w' :
  0 <= rc_reload_timeout cfg →
  provision_firewall cfg text w = Some (Ok v, w') →
  observed cfg (reached "firewall_rule_ver" v) w w' ∧
  (rc_mode cfg = Android →
   ∃ r w1, firewall_rule_ver cfg w = Some (r, w1) ∧ Z.max 0 (unwrap_or (-1) r) < v).
Proof. exact (provision_firewall_ok cfg text v w w'). Qed.

(** A call into the depot that succeeded. *)
Lemma dep_ok {A} s (f : W → res A * W) w a w' :
  dep s f w = Some (Ok a, w') → f w = (Ok a, w').
Proof.
  unfold dep, io_context, lift, io_bind, io_ret. destruct (f w) as [[a'|e] w1].
  - intros Hw. apply (inj Some) in Hw. by simplify_eq.
  - intros Hw. apply (inj Some) in Hw. by simplify_eq.
Qed.

(** C34. A rule written to the depot is stored under fresh metadata: one
    version number for the rule and its file (the requested one, or the
    successor of the previous version, strictly above it unless the [i32] is
    exhausted), protocol and major versions at least 1, the digest of exactly
    the bytes stored, no signature; and the answer reports that version. *)
Theorem provision_rule_saved `{!SerdeJsonLaws} acd f prot v bytes c k w out w' :
  provision_rule acd f prot v bytes c k w = Some (Ok out, w') →
  ∃ depot previous meta w1,
    save_rule depot acd f bytes meta w1 = (Ok tt, w') ∧
    (∃ w0, w1 = (load_metadata depot acd f (Z.max prot 1) w0).2 ∧
       previous = unwrap_or default_metadata (load_metadata depot acd f (Z.max prot 1) w0).1) ∧
    ver meta = default (saturating_add_i32 (ver previous) 1) v ∧ rule_ver meta = ver meta ∧
    (v = None → ver previous < i32_max → ver previous < ver meta <= i32_max) ∧
    1 <= prot_ver meta ∧ 1 <= major_ver meta ∧ sha256 meta = sha256_hex bytes ∧ sign meta = "" ∧
    get out "ver" = Some (json (TInt (ver meta))).
Proof.
  unfold provision_rule.
  intros (loaded & w1 & _ & Hw)%io_try_ok_inv. apply io_try_ok_inv in Hw as (device & w2 & _ & Hw).
  apply io_try_ok_inv in Hw as (ks & w3 & _ & Hw). apply io_try_ok_inv in Hw as (key & w4 & _ & Hw).
  apply io_try_ok_inv in Hw as (depot & w5 & _ & Hw). unfold io_bind, lift in Hw.
  destruct (load_metadata depot acd f (Z.max prot 1) w5) as [r w6] eqn:Hl.
  apply io_try_ok_inv in Hw as ([] & w7 & Hs & Hw). apply dep_ok in Hs.
  unfold io_ret in Hw. apply (inj Some) in Hw. injection Hw as <- <-.
  eexists depot, _, _, w6. split; [exact Hs|]. split; [by exists w5; rewrite Hl|].
  cbn [fst ver rule_ver prot_ver major_ver sha256 sign new_metadata].
  split_and!; try done; try lia.
  - intros -> Hlt. simpl. unfold saturating_add_i32. lia.
  - rewrite get_json_obj; [done|]. by apply (bool_decide_unpack _).
Qed.

End theorems.

(** ** Witnesses *)

(** A depot with a previous rule version 6 and a runtime key. *)
#[export] Instance sim_depot : Depot device := {|
  IdpsConfig := unit; KeyStore := unit; RuntimeKey := unit; AesParams := unit; RuleDepot := unit;
  depot_path _ := "/data/idd/rule/depot/"; default_rules_path _ := "/data/idd/rule/default";
  load_runtime _ w := (Ok (tt, tt), w);
  collect_device_info _ w := (Ok ("VIN", "DSN"), w);
  keystore_open _ w := (Ok tt, w);
  resolve_keys _ _ _ w := (Ok (Some tt), w);
  depot_new _ _ _ _ w := (Ok tt, w);
  default_metadata := {| ver := 0; rule_ver := 0; prot_ver := 0; major_ver := 0;
                         minor_ver := 0; sha256 := ""; sign := "" |};
  load_metadata _ _ _ _ w :=
    (Ok {| ver := 6; rule_ver := 6; prot_ver := 1; major_ver := 0; minor_ver := 3;
           sha256 := "0a"; sign := "s" |}, w);
  save_rule _ _ _ b _ w := (Ok tt, set_files (base.insert "depot" b (d_files w)) w);
  sha256_hex b := "sha:" +:+ b;
|}.
#[export] Instance sim_depot_clock : DepotClock device.
Proof. split; intros; simpl; lia. Qed.

Lemma waits_confirm_witness :
  wp (wait_for demo_config "firewall_rule_ver" 7)
     (λ r w', match r with
              | Ok _ => observed demo_config (reached "firewall_rule_ver" 7) demo_device w'
              | Err _ => clock demo_device + rc_reload_timeout demo_config <= clock w'
              end) demo_device.
Proof.
  exact (proj1 (waits_confirm demo_config "firewall_rule_ver" 7 5 demo_device
                  ltac:(discriminate))).
Defined.

Lemma provision_firewall_confirmed_witness :
  ∃ w', provision_firewall demo_config "chain=localin,action=P" demo_device = Some (Ok 7, w')
        ∧ observed demo_config (reached "firewall_rule_ver" 7) demo_device w'.
Proof.
  eexists. assert (provision_firewall demo_config "chain=localin,action=P" demo_device
                   = Some (Ok 7, _)) as Hr by (vm_compute; reflexivity).
  split; [exact Hr|].
  exact (proj1 (provision_firewall_confirmed demo_config _ 7 demo_device _
                  ltac:(discriminate) Hr)).
Defined.

Lemma provision_rule_saved_witness :
  ∃ out w' depot meta w1,
    provision_rule 1 1 1 None "chain=localin,action=P" "" "" demo_device = Some (Ok out, w') ∧
    save_rule depot 1 1 "chain=localin,action=P" meta w1 = (Ok tt, w').
Proof.
  eexists _, _.
  assert (provision_rule 1 1 1 None "chain=localin,action=P" "" "" demo_device
          = Some (Ok _, _)) as Hr by (vm_compute; reflexivity).
  destruct (provision_rule_saved _ _ _ _ _ _ _ _ _ _ Hr) as (depot & prev & meta & w1 & Hs & _).
  exists depot, meta, w1. split; [exact Hr|exact Hs].
Defined.
