(* ===== verification/Catalog.v ===== *)
(** * The case catalog ([catalog.rs])

    Groups, provisioning bundles with their firewall rule text, and the cases.
    The list [all_cases] is the concatenation of the sections the source
    separates by comments. *)

From S2P Require Import Prelude RustInt RustStr RustNet Effects Sim Cli Exec Config.

(** ** Data *)

Inductive Group :=
  | Group_Ingress
  | Group_Default
  | Group_Egress
  | Group_App
  | Group_Match
  | Group_Detection
  | Group_Traffic
  | Group_Monitor.

Inductive Bundle :=
  | Bundle_IngressTuple
  | Bundle_DefaultDeny
  | Bundle_DefaultAllow
  | Bundle_EgressTuple
  | Bundle_AppDeny
  | Bundle_AppAllow
  | Bundle_MatchFields
  | Bundle_Detection
  | Bundle_Traffic
  | Bundle_Priority.

Inductive Side := Side_Peer | Side_Target.

Inductive TrafficKind :=
  | Kind_Tcp (dport : Z)
  | Kind_Icmp
  | Kind_Udp (dport : Z) (await_reply : bool)
  | Kind_TcpScan (dports : list Z)
  | Kind_UdpScan (dports : list Z)
  | Kind_TcpBurst (dport count : Z)
  | Kind_UdpVolume (dport count : Z)
  | Kind_TcpFinScan (dports : list Z).

Inductive Enforce :=
  | Enforce_Blocked
  | Enforce_Allowed
  | Enforce_Sent
  | Enforce_Refused.

#[export] Instance Group_eq_dec : EqDecision Group.
Proof. solve_decision. Defined.
#[export] Instance Bundle_eq_dec : EqDecision Bundle.
Proof. solve_decision. Defined.
#[export] Instance Side_eq_dec : EqDecision Side.
Proof. solve_decision. Defined.

Record ExpectEvent := {
  ee_kind : string;
  ee_action : string;
  ee_proto : string;
  ee_rule_id : option Z;
  match_dport : option Z;
  ee_detail : option string;
}.

Record ListenSpec := mk_listen { ls_side : Side; ls_proto : string; ls_port : Z }.

Record FwCase := {
  fc_id : string;
  fc_group : Group;
  fc_bundle : Bundle;
  fc_origin : Side;
  fc_uid : bool;
  fc_sport : option Z;
  fc_listen : list ListenSpec;
  fc_traffic : TrafficKind;
  expect_enforce : Enforce;
  expect_event : option ExpectEvent;
  fc_skip : option string;
  fc_notes : string;
}.

(** ** Groups *)

Definition as_str (self : Group) : string :=
  match self with
  | Group_Ingress => "ingress"
  | Group_Default => "default"
  | Group_Egress => "egress"
  | Group_App => "app"
  | Group_Match => "match"
  | Group_Detection => "detection"
  | Group_Traffic => "traffic"
  | Group_Monitor => "monitor"
  end.

Definition group_parse `{!Anyhow} (value : string) : res Group :=
  if decide (value = "ingress") then Ok Group_Ingress
  else if decide (value = "default") then Ok Group_Default
  else if decide (value = "egress") then Ok Group_Egress
  else if decide (value = "app") then Ok Group_App
  else if decide (value = "match") then Ok Group_Match
  else if decide (value = "detection") then Ok Group_Detection
  else if decide (value = "traffic") then Ok Group_Traffic
  else if decide (value = "monitor") then Ok Group_Monitor
  else Err (anyhow ("unknown group `" +:+ value +:+
              "` (ingress|default|egress|app|match|detection|traffic|monitor)")).

(** ** Rule text *)

(** The lines of [firewall_text]; a rule is its comma-separated fields. *)
Definition firewall_lines (b : Bundle) (cfg : RunConfig) : list string :=
  let peer := ip_to_string (rc_peer_ip cfg) in
  let target := ip_to_string (rc_target_ip cfg) in
  let peer24 := peer_slash24 cfg in
  let key := rc_app_identity_key cfg in
  let rule := join "," in
  match b with
  | Bundle_IngressTuple =>
      [rule ["chain=localin"; "action=P"];
       rule ["sip=" +:+ peer; "dip=" +:+ target; "dport=5001"; "proto=tcp"; "action=P"; "chain=localin"];
       rule ["sip=" +:+ peer; "dip=" +:+ target; "dport=5002"; "proto=tcp"; "action=LP"; "chain=localin"];
       rule ["sip=" +:+ peer; "dip=" +:+ target; "dport=5003"; "proto=tcp"; "action=LD"; "chain=localin"];
       rule ["sip=" +:+ peer; "dip=" +:+ target; "dport=5004"; "proto=tcp"; "action=NLD"; "chain=localin"]]
  | Bundle_DefaultDeny =>
      [rule ["chain=localin"; "action=LD"];
       rule ["sip=" +:+ peer; "dip=" +:+ target; "dport=5101"; "proto=tcp"; "action=P"; "chain=localin"]]
  | Bundle_DefaultAllow => [rule ["chain=localin"; "action=P"]]
  | Bundle_EgressTuple =>
      [rule ["chain=localin"; "action=P"];
       rule ["sip=" +:+ target; "dip=" +:+ peer; "dport=6001"; "proto=tcp"; "action=LD"; "chain=output"];
       rule ["sip=" +:+ target; "dip=" +:+ peer; "dport=6002"; "proto=tcp"; "action=LP"; "chain=output"];
       rule ["sip=" +:+ target; "dip=" +:+ peer; "dport=6003"; "proto=udp"; "action=LD"; "chain=output"]]
  | Bundle_AppDeny => [rule ["chain=localin"; "action=P"]; rule ["prog=" +:+ key; "action=LD"]]
  | Bundle_AppAllow => [rule ["chain=localin"; "action=P"]; rule ["prog=" +:+ key; "action=LP"]]
  | Bundle_MatchFields =>
      [rule ["chain=localin"; "action=P"];
       rule ["sip=" +:+ peer +:+ "/32"; "dip=" +:+ target; "dport=7001"; "proto=tcp"; "action=LD"; "chain=localin"];
       rule ["sip=" +:+ peer24; "dip=" +:+ target; "dport=7002"; "proto=tcp"; "action=LD"; "chain=localin"];
       rule ["sip=*"; "dip=" +:+ target; "dport=7100-7110"; "proto=tcp"; "action=LD"; "chain=localin"];
       rule ["sip=*"; "sport=8000-8005"; "dip=" +:+ target; "dport=7200"; "proto=udp"; "action=LD"; "chain=localin"];
       rule ["sip=*"; "dip=" +:+ target; "proto=icmp"; "action=LD"; "chain=localin"];
       rule ["sip=*"; "dip=" +:+ target; "dport=7300"; "proto=*"; "action=LD"; "chain=localin"]]
  | Bundle_Detection => [rule ["chain=localin"; "action=LD"]]
  | Bundle_Priority =>
      [rule ["chain=localin"; "action=P"];
       rule ["sip=" +:+ peer; "dip=" +:+ target; "dport=8001"; "proto=tcp"; "action=P"; "chain=localin"];
       rule ["sip=" +:+ peer; "dip=" +:+ target; "dport=8001"; "proto=tcp"; "action=LD"; "chain=localin"];
       rule ["sip=" +:+ peer; "dip=" +:+ target; "dport=8002"; "proto=tcp"; "action=P"; "chain=localin"]]
  | Bundle_Traffic =>
      [rule ["chain=localin"; "action=P"];
       rule ["prog=" +:+ key; "action=LP"];
       rule ["sip=" +:+ peer; "dip=" +:+ target; "dport=5301"; "proto=udp"; "action=P"; "chain=localin"]]
  end.

Definition firewall_text (b : Bundle) (cfg : RunConfig) : string :=
  unlines (firewall_lines b cfg).

Definition traffic_cycle (b : Bundle) : option Z :=
  if decide (b = Bundle_Traffic) then Some 5 else None.

(** ** Cases *)

Definition event (kind action proto : string) (rule_id match_dport : option Z)
    : option ExpectEvent :=
  Some {| ee_kind := kind; ee_action := action; ee_proto := proto; ee_rule_id := rule_id;
          match_dport := match_dport; ee_detail := None |}.

Definition event_d (kind action proto : string) (rule_id match_dport : option Z)
    (detail : string) : option ExpectEvent :=
  Some {| ee_kind := kind; ee_action := action; ee_proto := proto; ee_rule_id := rule_id;
          match_dport := match_dport; ee_detail := Some detail |}.

Definition listen (side : Side) (proto : string) (port : Z) : list ListenSpec :=
  [mk_listen side proto port].

(** INGRESS_TUPLE *)
Definition ingress_cases : list FwCase := [
  {| fc_id := "ingress-tuple-pass"; fc_group := Group_Ingress; fc_bundle := Bundle_IngressTuple; fc_origin := Side_Peer;
     fc_uid := false; fc_sport := None; fc_listen := listen Side_Target "tcp" 5001;
     fc_traffic := Kind_Tcp 5001; expect_enforce := Enforce_Allowed;
     expect_event := None;
     fc_skip := None;
     fc_notes := "Pass action allows the SYN and emits no event" |};
  {| fc_id := "ingress-tuple-alert"; fc_group := Group_Ingress; fc_bundle := Bundle_IngressTuple; fc_origin := Side_Peer;
     fc_uid := false; fc_sport := None; fc_listen := listen Side_Target "tcp" 5002;
     fc_traffic := Kind_Tcp 5002; expect_enforce := Enforce_Allowed;
     expect_event := None;
     fc_skip := None;
     fc_notes := "Ingress LP allows the SYN; single connections emit no event (vendor-aligned)" |};
  {| fc_id := "ingress-tuple-block"; fc_group := Group_Ingress; fc_bundle := Bundle_IngressTuple; fc_origin := Side_Peer;
     fc_uid := false; fc_sport := None; fc_listen := [];
     fc_traffic := Kind_Tcp 5003; expect_enforce := Enforce_Blocked;
     expect_event := None;
     fc_skip := None;
     fc_notes := "Ingress LD drops the SYN; single connections emit no event (only scans do)" |};
  {| fc_id := "ingress-tuple-blocksilent"; fc_group := Group_Ingress; fc_bundle := Bundle_IngressTuple; fc_origin := Side_Peer;
     fc_uid := false; fc_sport := None; fc_listen := [];
     fc_traffic := Kind_Tcp 5004; expect_enforce := Enforce_Refused;
     expect_event := None;
     fc_skip := None;
     fc_notes := "NLD passes the first new-flow SYN (IPS handoff): the probe reaches the closed port and is refused (RST), with no event — distinct from LD which drops the SYN (blocked)" |}
].

(** DEFAULT policy *)
Definition default_cases : list FwCase := [
  {| fc_id := "default-deny-blocks"; fc_group := Group_Default; fc_bundle := Bundle_DefaultDeny; fc_origin := Side_Peer;
     fc_uid := false; fc_sport := None; fc_listen := [];
     fc_traffic := Kind_Tcp 5102; expect_enforce := Enforce_Blocked;
     expect_event := None;
     fc_skip := None;
     fc_notes := "Default ingress deny drops unlisted traffic; emits no per-connection event" |};
  {| fc_id := "default-deny-carveout"; fc_group := Group_Default; fc_bundle := Bundle_DefaultDeny; fc_origin := Side_Peer;
     fc_uid := false; fc_sport := None; fc_listen := listen Side_Target "tcp" 5101;
     fc_traffic := Kind_Tcp 5101; expect_enforce := Enforce_Allowed;
     expect_event := None;
     fc_skip := None;
     fc_notes := "Explicit Pass rule overrides the default deny" |};
  {| fc_id := "default-allow"; fc_group := Group_Default; fc_bundle := Bundle_DefaultAllow; fc_origin := Side_Peer;
     fc_uid := false; fc_sport := None; fc_listen := listen Side_Target "tcp" 5201;
     fc_traffic := Kind_Tcp 5201; expect_enforce := Enforce_Allowed;
     expect_event := None;
     fc_skip := None;
     fc_notes := "Default ingress allow passes unlisted traffic" |}
].

(** EGRESS_TUPLE *)
Definition egress_cases : list FwCase := [
  {| fc_id := "egress-tcp-block"; fc_group := Group_Egress; fc_bundle := Bundle_EgressTuple; fc_origin := Side_Target;
     fc_uid := false; fc_sport := None; fc_listen := listen Side_Peer "tcp" 6001;
     fc_traffic := Kind_Tcp 6001; expect_enforce := Enforce_Blocked;
     expect_event := event_d "NetworkBlock" "Block" "tcp" (Some 2) (Some 6001) "connection state invalid attack";
     fc_skip := None;
     fc_notes := "Egress Block drops the target's outbound SYN and records a NetworkBlock" |};
  {| fc_id := "egress-tcp-alert"; fc_group := Group_Egress; fc_bundle := Bundle_EgressTuple; fc_origin := Side_Target;
     fc_uid := false; fc_sport := None; fc_listen := listen Side_Peer "tcp" 6002;
     fc_traffic := Kind_Tcp 6002; expect_enforce := Enforce_Allowed;
     expect_event := None;
     fc_skip := None;
     fc_notes := "Egress LP allows outbound and emits no event (vendor egress has no LPASS log)" |};
  {| fc_id := "egress-udp-block"; fc_group := Group_Egress; fc_bundle := Bundle_EgressTuple; fc_origin := Side_Target;
     fc_uid := false; fc_sport := None; fc_listen := listen Side_Peer "udp" 6003;
     fc_traffic := Kind_Udp 6003 true; expect_enforce := Enforce_Blocked;
     expect_event := event_d "NetworkBlock" "Block" "udp" (Some 4) (Some 6003) "connection state invalid attack";
     fc_skip := None;
     fc_notes := "Egress UDP Block drops the outbound datagram (no echo) and records a NetworkBlock" |}
].

(** APP/UID policy *)
Definition app_cases : list FwCase := [
  {| fc_id := "app-policy-deny"; fc_group := Group_App; fc_bundle := Bundle_AppDeny; fc_origin := Side_Target;
     fc_uid := true; fc_sport := None; fc_listen := listen Side_Peer "tcp" 6101;
     fc_traffic := Kind_Tcp 6101; expect_enforce := Enforce_Blocked;
     expect_event := event "PolicyDeny" "Block" "tcp" None None;
     fc_skip := None;
     fc_notes := "App policy LD denies the mapped UID's connect (cgroup connect4)" |};
  {| fc_id := "app-policy-allow"; fc_group := Group_App; fc_bundle := Bundle_AppAllow; fc_origin := Side_Target;
     fc_uid := true; fc_sport := None; fc_listen := listen Side_Peer "tcp" 6101;
     fc_traffic := Kind_Tcp 6101; expect_enforce := Enforce_Allowed;
     expect_event := None;
     fc_skip := None;
     fc_notes := "App policy LP allows the mapped UID's connect" |}
].

(** MATCH_FIELDS (full 5-tuple coverage) *)
Definition match_cases : list FwCase := [
  {| fc_id := "match-sip-host"; fc_group := Group_Match; fc_bundle := Bundle_MatchFields; fc_origin := Side_Peer;
     fc_uid := false; fc_sport := None; fc_listen := [];
     fc_traffic := Kind_Tcp 7001; expect_enforce := Enforce_Blocked;
     expect_event := None;
     fc_skip := None;
     fc_notes := "Exact /32 source IP match; blocked proves the rule matched (no ingress event)" |};
  {| fc_id := "match-sip-cidr"; fc_group := Group_Match; fc_bundle := Bundle_MatchFields; fc_origin := Side_Peer;
     fc_uid := false; fc_sport := None; fc_listen := [];
     fc_traffic := Kind_Tcp 7002; expect_enforce := Enforce_Blocked;
     expect_event := None;
     fc_skip := None;
     fc_notes := "CIDR /24 source match; blocked proves the rule matched (no ingress event)" |};
  {| fc_id := "match-dport-range-lo"; fc_group := Group_Match; fc_bundle := Bundle_MatchFields; fc_origin := Side_Peer;
     fc_uid := false; fc_sport := None; fc_listen := [];
     fc_traffic := Kind_Tcp 7100; expect_enforce := Enforce_Blocked;
     expect_event := None;
     fc_skip := None;
     fc_notes := "Destination port range low bound; blocked proves the match (no ingress event)" |};
  {| fc_id := "match-dport-range-hi"; fc_group := Group_Match; fc_bundle := Bundle_MatchFields; fc_origin := Side_Peer;
     fc_uid := false; fc_sport := None; fc_listen := [];
     fc_traffic := Kind_Tcp 7110; expect_enforce := Enforce_Blocked;
     expect_event := None;
     fc_skip := None;
     fc_notes := "Destination port range high bound; blocked proves the match (no ingress event)" |};
  {| fc_id := "match-dport-range-out"; fc_group := Group_Match; fc_bundle := Bundle_MatchFields; fc_origin := Side_Peer;
     fc_uid := false; fc_sport := None; fc_listen := listen Side_Target "tcp" 7111;
     fc_traffic := Kind_Tcp 7111; expect_enforce := Enforce_Allowed;
     expect_event := None;
     fc_skip := None;
     fc_notes := "Negative: port just outside the range falls through to default allow" |};
  {| fc_id := "match-sport-range"; fc_group := Group_Match; fc_bundle := Bundle_MatchFields; fc_origin := Side_Peer;
     fc_uid := false; fc_sport := (Some 8000); fc_listen := [];
     fc_traffic := Kind_Udp 7200 true; expect_enforce := Enforce_Blocked;
     expect_event := None;
     fc_skip := None;
     fc_notes := "Source port range + UDP protocol match; blocked proves the match (no event)" |};
  {| fc_id := "match-proto-icmp"; fc_group := Group_Match; fc_bundle := Bundle_MatchFields; fc_origin := Side_Peer;
     fc_uid := false; fc_sport := None; fc_listen := [];
     fc_traffic := Kind_Icmp; expect_enforce := Enforce_Blocked;
     expect_event := None;
     fc_skip := None;
     fc_notes := "ICMP protocol match; blocked (no reply) proves the match (no ingress event)" |};
  {| fc_id := "match-proto-any-tcp"; fc_group := Group_Match; fc_bundle := Bundle_MatchFields; fc_origin := Side_Peer;
     fc_uid := false; fc_sport := None; fc_listen := [];
     fc_traffic := Kind_Tcp 7300; expect_enforce := Enforce_Blocked;
     expect_event := None;
     fc_skip := None;
     fc_notes := "Wildcard protocol match (tcp); blocked proves the match (no ingress event)" |};
  {| fc_id := "match-proto-any-udp"; fc_group := Group_Match; fc_bundle := Bundle_MatchFields; fc_origin := Side_Peer;
     fc_uid := false; fc_sport := None; fc_listen := [];
     fc_traffic := Kind_Udp 7300 true; expect_enforce := Enforce_Blocked;
     expect_event := None;
     fc_skip := None;
     fc_notes := "Wildcard protocol match (udp); drop -> no echo -> timeout=blocked (no event)" |}
].

(** DETECTION (port-scan / connection-abnormality) *)
Definition detection_cases : list FwCase := [
  {| fc_id := "detect-portscan-tcp"; fc_group := Group_Detection; fc_bundle := Bundle_Detection; fc_origin := Side_Peer;
     fc_uid := false; fc_sport := None; fc_listen := [];
     fc_traffic := Kind_TcpScan [9001; 9002; 9003; 9004; 9005]; expect_enforce := Enforce_Blocked;
     expect_event := event_d "PortScan" "Block" "tcp" None None "tcp portscan attack";
     fc_skip := None;
     fc_notes := "≥3 distinct dst ports in a <1s burst -> PortScan; sent as 5 so the global vendor detector fires even if prior cases left slot residue" |};
  {| fc_id := "detect-portscan-udp"; fc_group := Group_Detection; fc_bundle := Bundle_Detection; fc_origin := Side_Peer;
     fc_uid := false; fc_sport := None; fc_listen := [];
     fc_traffic := Kind_UdpScan [9001; 9002; 9003; 9004; 9005]; expect_enforce := Enforce_Sent;
     expect_event := event_d "PortScan" "Block" "udp" None None "udp portscan attack";
     fc_skip := None;
     fc_notes := "≥3 distinct UDP dst ports in a <1s burst -> PortScan (UDP fire-and-forget => verdict 'sent'); 5 ports for detector robustness" |};
  {| fc_id := "detect-portscan-tcp-fin"; fc_group := Group_Detection; fc_bundle := Bundle_Detection; fc_origin := Side_Peer;
     fc_uid := false; fc_sport := None; fc_listen := [];
     fc_traffic := Kind_TcpFinScan [9011; 9012; 9013; 9014; 9015]; expect_enforce := Enforce_Sent;
     expect_event := event_d "PortScan" "Block" "tcp" None None "tcp fin portscan attack";
     fc_skip := None;
     fc_notes := "≥3 distinct dst ports hit by bare-FIN packets in a <1s burst -> FIN PortScan (raw socket on PEER, needs root; verdict 'sent'); 5 ports for detector robustness" |};
  {| fc_id := "detect-conn-abnormal"; fc_group := Group_Detection; fc_bundle := Bundle_Detection; fc_origin := Side_Peer;
     fc_uid := false; fc_sport := None; fc_listen := [];
     fc_traffic := Kind_TcpBurst 9100 5; expect_enforce := Enforce_Blocked;
     expect_event := event_d "ConnectionAbnormal" "Block" "tcp" None (Some 9100) "translation layer --tcp state unnormal";
     fc_skip := None;
     fc_notes := "5 distinct flows (fresh source ports) to one dst port -> ConnectionAbnormal (same dst port 4th hit across flows)" |};
  {| fc_id := "detect-below-threshold"; fc_group := Group_Detection; fc_bundle := Bundle_Detection; fc_origin := Side_Peer;
     fc_uid := false; fc_sport := None; fc_listen := [];
     fc_traffic := Kind_TcpScan [9201; 9202]; expect_enforce := Enforce_Blocked;
     expect_event := None;
     fc_skip := None;
     fc_notes := "Negative: only 2 distinct ports -> sub-threshold -> no event (blocked, no escalation)" |}
].

(** TRAFFIC statistics *)
Definition traffic_cases : list FwCase := [
  {| fc_id := "traffic-global"; fc_group := Group_Traffic; fc_bundle := Bundle_Traffic; fc_origin := Side_Peer;
     fc_uid := false; fc_sport := None; fc_listen := [];
     fc_traffic := Kind_UdpVolume 5301 200; expect_enforce := Enforce_Allowed;
     expect_event := None;
     fc_skip := None;
     fc_notes := "Allowed volume bumps global ingress counters and a traffic window" |};
  {| fc_id := "traffic-per-app"; fc_group := Group_Traffic; fc_bundle := Bundle_Traffic; fc_origin := Side_Target;
     fc_uid := true; fc_sport := None; fc_listen := [];
     fc_traffic := Kind_UdpVolume 5301 200; expect_enforce := Enforce_Allowed;
     expect_event := None;
     fc_skip := None;
     fc_notes := "Volume from the mapped UID attributes wifi bytes to an app window" |}
].

(** PRIORITY (rule precedence) *)
Definition priority_cases : list FwCase := [
  {| fc_id := "priority-later-wins"; fc_group := Group_Match; fc_bundle := Bundle_Priority; fc_origin := Side_Peer;
     fc_uid := false; fc_sport := None; fc_listen := listen Side_Target "tcp" 8001;
     fc_traffic := Kind_Tcp 8001; expect_enforce := Enforce_Blocked;
     expect_event := None;
     fc_skip := None;
     fc_notes := "Two rules on dport 8001 (Pass then Block): the later, higher-priority Block wins -> blocked" |};
  {| fc_id := "priority-control-pass"; fc_group := Group_Match; fc_bundle := Bundle_Priority; fc_origin := Side_Peer;
     fc_uid := false; fc_sport := None; fc_listen := listen Side_Target "tcp" 8002;
     fc_traffic := Kind_Tcp 8002; expect_enforce := Enforce_Allowed;
     expect_event := None;
     fc_skip := None;
     fc_notes := "Control: dport 8002 has only a Pass rule -> allowed (proves the block above is rule-specific, not a side effect)" |}
].

Definition all_cases : list FwCase :=
  ingress_cases ++ default_cases ++ egress_cases ++ app_cases ++ match_cases ++
  detection_cases ++ traffic_cases ++ priority_cases.

Definition bundle_order : list Bundle :=
  [Bundle_IngressTuple; Bundle_DefaultDeny; Bundle_DefaultAllow; Bundle_EgressTuple;
   Bundle_AppDeny; Bundle_AppAllow; Bundle_MatchFields; Bundle_Detection;
   Bundle_Traffic; Bundle_Priority].

Definition case_by_id (id : string) : option FwCase :=
  snd <$> list_find (λ case, fc_id case = id) all_cases.

(** ** Lemmas *)

Lemma bundle_order_complete b : b ∈ bundle_order.
Proof. apply (bool_decide_unpack _). by destruct b. Qed.

Lemma bundle_order_nodup : NoDup bundle_order.
Proof. apply (bool_decide_unpack _). by vm_compute. Qed.

Lemma all_ids_nodup : NoDup (map fc_id all_cases).
Proof. apply (bool_decide_unpack _). by vm_compute. Qed.

Lemma case_by_id_some id case : case_by_id id = Some case → case ∈ all_cases ∧ fc_id case = id.
Proof.
  unfold case_by_id. destruct (list_find _ all_cases) as [[i c]|] eqn:E; [|done].
  intros [= <-]. apply list_find_Some in E as (Hi & Hid & _).
  split; [by eapply list_elem_of_lookup_2|done].
Qed.

(** Text that stays on its line. *)
Definition no_break (s : string) : bool :=
  str_forall (λ c, negb (Ascii.eqb c char_nl) && negb (Ascii.eqb c char_cr)) s.

Lemma no_break_app s t : no_break (s +:+ t) = no_break s && no_break t.
Proof. apply str_forall_app. Qed.

Lemma no_break_digits s : str_forall is_digit s = true → no_break s = true.
Proof. apply str_forall_impl. intros c. by destruct c as [[] [] [] [] [] [] [] []]. Qed.

Lemma no_break_no_nl s : no_break s = true → no_nl s = true.
Proof. apply str_forall_impl. intros c Hc. bool_prop. by apply negb_true_iff. Qed.

Lemma no_break_strip_cr s : no_break s = true → strip_cr s = s.
Proof.
  unfold no_break. induction s as [|c s IH]; [done|]. cbn [str_forall strip_cr]. intros H.
  bool_prop. rewrite IH by done. by destruct s; use_bools.
Qed.

Lemma no_break_hex n : no_break (hex_u16 n) = true.
Proof.
  assert (∀ n, no_break (hex_digit n) = true) as Hd.
  { intros m. unfold hex_digit. destruct (Z.to_nat m) as [|k] eqn:Hk; [done|].
    do 16 (destruct k as [|k]; [done|]). done. }
  unfold hex_u16. rewrite !no_break_app, Hd. repeat case_match; rewrite ?Hd; done.
Qed.

Lemma no_break_join sep l :
  no_break sep = true → Forall (λ s, no_break s = true) l → no_break (join sep l) = true.
Proof.
  intros Hsep Hl. unfold join. induction Hl as [|s l Hs Hl IH]; [done|].
  destruct l as [|t l]; [done|].
  change (String.concat sep (s :: t :: l)) with (s +:+ (sep +:+ String.concat sep (t :: l))).
  by rewrite !no_break_app, Hs, Hsep, IH.
Qed.

Lemma no_break_uint n : no_break (uint_to_string n) = true.
Proof. apply no_break_digits, uint_to_string_digits. Qed.

Lemma no_break_ipv4 ip : no_break (ipv4_to_string ip) = true.
Proof. unfold ipv4_to_string. by rewrite !no_break_app, !no_break_uint. Qed.

Lemma no_break_subslice segs : no_break (fmt_subslice segs) = true.
Proof.
  apply no_break_join; [done|]. apply Forall_fmap, Forall_forall. intros n _.
  apply no_break_hex.
Qed.

Lemma no_break_ipv6 ip : no_break (ipv6_to_string ip) = true.
Proof.
  assert (∀ segs, no_break
    (let '(start, len) := longest_zeroes 0 (0%nat, 0%nat) (0%nat, 0%nat) segs in
     if bool_decide (1 < len)%nat
     then fmt_subslice (take start segs) +:+ "::" +:+ fmt_subslice (drop (start + len) segs)
     else fmt_subslice segs) = true) as Hseg.
  { intros segs. destruct (longest_zeroes _ _ _ segs) as [start len].
    case_match; [|apply no_break_subslice]. by rewrite !no_break_app, !no_break_subslice. }
  unfold ipv6_to_string.
  repeat (case_match; try apply Hseg; try (rewrite no_break_app, no_break_ipv4; reflexivity)).
Qed.

Lemma no_break_ip ip : no_break (ip_to_string ip) = true.
Proof. destruct ip; [apply no_break_ipv4|apply no_break_ipv6]. Qed.

Lemma no_break_slash24 cfg : no_break (peer_slash24 cfg) = true.
Proof.
  unfold peer_slash24. destruct (rc_peer_ip cfg) as [v4|v6].
  - by rewrite !no_break_app, !no_break_uint.
  - by rewrite no_break_app, no_break_ip.
Qed.

(** A rule line: a first field that is neither empty nor a comment, and
    nothing that breaks the line. *)
Definition rule_line (l : string) : Prop :=
  no_break l = true ∧ l ≠ "" ∧ starts_with "#" l = false.

Lemma firewall_lines_rules b cfg :
  no_break (rc_app_identity_key cfg) = true → Forall rule_line (firewall_lines b cfg).
Proof.
  intros Hk. pose proof (no_break_ip (rc_peer_ip cfg)) as Hp.
  pose proof (no_break_ip (rc_target_ip cfg)) as Ht. pose proof (no_break_slash24 cfg) as H24.
  unfold firewall_lines.
  destruct b; repeat apply List.Forall_cons; try apply List.Forall_nil;
    (split; [apply no_break_join; [done|];
             repeat apply List.Forall_cons; try apply List.Forall_nil;
             rewrite ?no_break_app, ?Hp, ?Ht, ?H24, ?Hk; reflexivity
            |split; done]).
Qed.

Lemma firewall_text_lines b cfg :
  no_break (rc_app_identity_key cfg) = true →
  lines (firewall_text b cfg) = firewall_lines b cfg.
Proof.
  intros Hk. pose proof (firewall_lines_rules b cfg Hk) as Hl. unfold firewall_text.
  rewrite lines_unlines by (eapply Forall_impl; [|exact Hl]; intros l [? _];
                            by apply no_break_no_nl).
  induction Hl as [|l ls [Hb _] _ IH]; [done|]. simpl. by rewrite no_break_strip_cr, IH.
Qed.

(** ** Theorems *)

(** C35. The catalog is consistent: case ids are unique, looking an
    id up finds exactly the case that has it, every bundle is provisioned exactly once, no case is in
    the monitor group, at most one listener is started per case, and the
    listener is on the side that receives the case's traffic, at its port. *)
Theorem catalog_consistent :
  NoDup (map fc_id all_cases) ∧
  (∀ id case, case_by_id id = Some case ↔ case ∈ all_cases ∧ fc_id case = id) ∧
  (NoDup bundle_order ∧ ∀ b, b ∈ bundle_order) ∧
  Forall (λ c, fc_group c ≠ Group_Monitor ∧ (length (fc_listen c) <= 1)%nat ∧
     Forall (λ l, ls_side l ≠ fc_origin c ∧
        match fc_traffic c with
        | Kind_Tcp p => ls_proto l = "tcp" ∧ ls_port l = p
        | Kind_Udp p _ => ls_proto l = "udp" ∧ ls_port l = p
        | _ => False
        end) (fc_listen c)) all_cases.
Proof.
  split_and!; try exact all_ids_nodup; try exact bundle_order_nodup.
  - intros id case. split; [apply case_by_id_some|]. intros [Hin <-].
    unfold case_by_id. destruct (list_find _ all_cases) as [[i c]|] eqn:E.
    + apply list_find_Some in E as (Hi & Hid & _). simpl. f_equal.
      apply list_elem_of_lookup in Hin as [j Hj].
      assert (i = j) as ->; [|congruence].
      eapply (NoDup_lookup _ _ _ (fc_id case)); [exact all_ids_nodup|..];
        change (map fc_id all_cases) with (fc_id <$> all_cases);
        rewrite list_lookup_fmap; [rewrite Hi|rewrite Hj]; simpl; congruence.
    + exfalso. apply list_find_None in E. by eapply list.Forall_forall in E; [|exact Hin].
  - exact bundle_order_complete.
  - repeat apply List.Forall_cons; try apply List.Forall_nil;
      (split; [done|]); (split; [simpl; lia|]); repeat constructor; done.
Qed.

(** The group names are a round trip, and nothing else parses. *)
Theorem group_parse_iff `{!Anyhow} value g : group_parse value = Ok g ↔ value = as_str g.
Proof.
  unfold group_parse. split.
  - repeat case_decide; try done; by intros [= <-].
  - intros ->. by destruct g.
Qed.

(** The rule a case expects to have matched, as a line of the rule text. *)
Definition expected_rule (cfg : RunConfig) (c : FwCase) (e : ExpectEvent) : option string :=
  let '(src, dst) := match fc_origin c with
                     | Side_Peer => (rc_peer_ip cfg, rc_target_ip cfg)
                     | Side_Target => (rc_target_ip cfg, rc_peer_ip cfg)
                     end in
  dport ← match_dport e;
  Some (join "," ["sip=" +:+ ip_to_string src; "dip=" +:+ ip_to_string dst;
                  "dport=" +:+ uint_to_string dport; "proto=" +:+ ee_proto e;
                  "action=LD"; "chain=output"]).

(** C36. Rule ids are line numbers: whatever the addresses (IPv4 or IPv6) and
    for every app key without a line break, the rendered rule text splits into
    exactly the bundle's rules, none blank and none a comment; and the rule id
    a case expects in its event is the 1-based number of the line holding the
    blocking egress rule for that case's flow, port and protocol. *)
Theorem rule_ids_are_line_numbers cfg :
  no_break (rc_app_identity_key cfg) = true →
  (∀ b, lines (firewall_text b cfg) = firewall_lines b cfg ∧
        Forall rule_line (firewall_lines b cfg)) ∧
  Forall (λ c, ∀ e n, expect_event c = Some e → ee_rule_id e = Some n →
    ∃ line, lines (firewall_text (fc_bundle c) cfg) !! Z.to_nat (n - 1) = Some line ∧
            expected_rule cfg c e = Some line) all_cases.
Proof.
  intros Hk. split.
  - intros b. split; [by apply firewall_text_lines|by apply firewall_lines_rules].
  - repeat apply List.Forall_cons; try apply List.Forall_nil;
      intros e n He Hn; cbn [expect_event] in He; try discriminate He;
      (injection He as <-); cbn [ee_rule_id] in Hn; try discriminate Hn;
      (injection Hn as <-); rewrite firewall_text_lines by done; eexists; split; reflexivity.
Qed.

Lemma rule_ids_are_line_numbers_witness :
  ∃ line, lines (firewall_text Bundle_EgressTuple demo_config) !! 3%nat = Some line ∧
    line = "sip=10.123.0.1,dip=10.123.0.2,dport=6003,proto=udp,action=LD,chain=output".
Proof.
  destruct (rule_ids_are_line_numbers demo_config ltac:(vm_compute; reflexivity)) as [Hl _].
  rewrite (proj1 (Hl Bundle_EgressTuple)). eexists. split; vm_compute; reflexivity.
Defined.
