(* ===== verification/Monitor.v ===== *)
(** * Side-channel monitor cases ([monitor.rs])

    The four monitor cases, and the result record [CaseResult] of [verify.rs]
    they share with the firewall cases. *)

From S2P Require Import Prelude RustInt RustStr RustNet Effects Sim Cli Exec Config Peer Db Target Provision.

(** ** Results *)

Record CaseResult := {
  r_id : string;
  r_group : string;
  r_bundle : string;
  r_result : string;
  enforce_expected : string;
  enforce_observed : string;
  event_expected : string;
  event_observed : string;
  report_confirmed : option bool;
  r_rule_id : option Z;
  r_detail : string;
}.

(** ** Data *)

Inductive MonitorKind := IcmpTimestamp | ConnPerIp | ConnTotal | ArpSpoof.

Record MonitorCase := { m_id : string; m_kind : MonitorKind; m_notes : string }.

Definition MONITOR_SETTLE : Z := secs 13.
Definition HOLD_SECS : Z := 22.
Definition CONN_FLOOD_COUNT : Z := 60.
Definition FLOOD_PORT : Z := 7400.
Definition ARP_CLAIM_IP : string := "10.123.0.250".

Definition monitor_cases : list MonitorCase := [
  {| m_id := "monitor-icmp-timestamp"; m_kind := IcmpTimestamp;
     m_notes := "ICMP timestamp request (type 13) -> IcmpTimestampProbe event (232)" |};
  {| m_id := "monitor-conn-total"; m_kind := ConnTotal;
     m_notes := "always-on total established-TCP monitor emits a sample (102)" |};
  {| m_id := "monitor-conn-perip"; m_kind := ConnPerIp;
     m_notes := "many held target->peer connections push the peer IP past the threshold (231)" |};
  {| m_id := "monitor-arp-spoof"; m_kind := ArpSpoof;
     m_notes := "gratuitous ARP replies for a spoofed IP -> ArpSpoof event (303)" |}
].

Definition monitor_case_by_id (id : string) : option MonitorCase :=
  snd <$> list_find (λ case, m_id case = id) monitor_cases.

Definition monitor_expect_label (kind : MonitorKind) : string :=
  match kind with
  | IcmpTimestamp => "IcmpTimestampProbe"
  | ConnPerIp => "tcp_conn_per_ip"
  | ConnTotal => "tcp_conn_total"
  | ArpSpoof => "arp_spoof"
  end.

Definition monitor_result (case : MonitorCase) (status observed detail : string)
    : CaseResult := {|
  r_id := m_id case; r_group := "monitor"; r_bundle := "monitor"; r_result := status;
  enforce_expected := "report"; enforce_observed := observed;
  event_expected := monitor_expect_label (m_kind case); event_observed := observed;
  report_confirmed := None; r_rule_id := None; r_detail := detail;
|}.

(** [iter().any(p)] *)
Definition any {A} (p : A → bool) (l : list A) : bool := existsb p l.

(** ** Assertions on what was read back *)

Definition probe_seen (cfg : RunConfig) (events : list FwEvent) : bool :=
  let src := ip_to_string (rc_peer_ip cfg) in
  any (λ e, String.eqb (event_type e) "IcmpTimestampProbe" && String.eqb (ev_src_ip e) src) events.

Section asserts.
  Context `{!Anyhow, !SerdeJson}.

Definition opt_is (s : string) (o : option string) : bool := bool_decide (o = Some s).

(** A [tcp_conn_per_ip] report that lists the peer with at least 50
    connections. *)
Definition breach_seen (cfg : RunConfig) (reports : list FwReport) : bool :=
  let peer := ip_to_string (rc_peer_ip cfg) in
  any (λ r,
    match get (payload r) "ips" ≫= as_array with
    | Some ips => any (λ entry, opt_is peer (get entry "ip" ≫= as_str)
                                && (50 <=? default 0 (get entry "count" ≫= as_u64))) ips
    | None => false
    end) (filter (λ r, report_type r = "tcp_conn_per_ip") reports).

Definition total_seen (reports : list FwReport) : option Z :=
  (λ r, default 0 (get (payload r.2) "total" ≫= as_u64)) <$>
    list_find (λ r, report_type r = "tcp_conn_total") reports.

Definition spoof_seen (reports : list FwReport) : bool :=
  any (λ r, opt_is ARP_CLAIM_IP (get (payload r) "sip" ≫= as_str))
    (filter (λ r, report_type r = "arp_spoof") reports).

End asserts.

(** ** The cases *)

(** The workers' command lines. *)
Definition hold_argv : list string :=
  ["listen"; "tcp"; "--port"; uint_to_string FLOOD_PORT; "--duration-secs";
   uint_to_string (HOLD_SECS + 6); "--hold"].
Definition flood_argv (cfg : RunConfig) : list string :=
  ["conn-flood"; "--to"; ip_to_string (rc_peer_ip cfg); "--dport"; uint_to_string FLOOD_PORT;
   "--count"; uint_to_string CONN_FLOOD_COUNT; "--hold-secs"; uint_to_string HOLD_SECS].
Definition arp_argv (cfg : RunConfig) : list string :=
  ["arp-spoof"; "--iface"; rc_peer_iface cfg; "--claim-ip"; ARP_CLAIM_IP; "--count"; "6"].

Section monitor.
  Context {W : Type} `{!World W, !Anyhow, !SerdeJson, !DeOutcome, !Sqlite W, !DeRows, !Depot W}.

(** [match m { Ok(v) => k(v), Err(error) => return result(.., "what failed:
    {error:#}") }] *)
Definition or_fail {A} (case : MonitorCase) (what : string) (m : io W (res A))
    (k : A → io W CaseResult) : io W CaseResult :=
  r <- m ;;
  match r with
  | Ok a => k a
  | Err e => io_ret (monitor_result case "FAIL" "none" (what +:+ " failed: " +:+ show_alt e))
  end.

Definition timestamp_cmd (cfg : RunConfig) : TrafficCmd := {|
  proto := "icmp"; to := rc_target_ip cfg; dport := None; dports := None; sport := None;
  count := 1; timeout_ms := 500; interval_ms := 0; await_reply := false; fin_only := false;
  icmp_timestamp := true |}.

Definition run_icmp_timestamp (cfg : RunConfig) (case : MonitorCase) : io W CaseResult :=
  or_fail case "watermark" (now_ms cfg) (λ since,
  or_fail case "probe" (traffic (rc_peer cfg) cfg (timestamp_cmd cfg) None) (λ _,
  sleep (rc_event_settle cfg) ;;;
  r <- dump_events cfg since ;;
  let events := unwrap_or [] r in
  io_ret (if probe_seen cfg events
          then monitor_result case "PASS" "IcmpTimestampProbe" ""
          else monitor_result case "FAIL" "none" "no IcmpTimestampProbe event recorded"))).

Definition teardown_child (listener : Child) : io W (io_result unit) := kill listener.

Definition run_conn_perip (cfg : RunConfig) (case : MonitorCase) : io W CaseResult :=
  or_fail case "watermark" (now_ms cfg) (λ since,
  or_fail case "listener"
    (agent_spawn (rc_peer cfg) hold_argv) (λ listener,
  sleep (millis 500) ;;;
  flood <- agent_spawn (rc_target cfg) (flood_argv cfg) ;;
  match flood with
  | Err error =>
      _ <- teardown_child listener ;;
      io_ret (monitor_result case "FAIL" "none" ("conn-flood failed: " +:+ show_alt error))
  | Ok flood =>
      sleep MONITOR_SETTLE ;;;
      r <- dump_reports cfg since ;;
      let reports := unwrap_or [] r in
      _ <- kill flood ;;
      _ <- teardown_child listener ;;
      let peer := ip_to_string (rc_peer_ip cfg) in
      io_ret (if breach_seen cfg reports
              then monitor_result case "PASS" "tcp_conn_per_ip" (peer +:+ " >= 50 conns")
              else monitor_result case "FAIL" "none" "no tcp_conn_per_ip breach for the peer IP")
  end)).

Definition run_conn_total (cfg : RunConfig) (case : MonitorCase) : io W CaseResult :=
  or_fail case "watermark" (now_ms cfg) (λ since,
  sleep MONITOR_SETTLE ;;;
  r <- dump_reports cfg since ;;
  let reports := unwrap_or [] r in
  io_ret match total_seen reports with
         | Some total =>
             monitor_result case "PASS" "tcp_conn_total" ("total=" +:+ uint_to_string total)
         | None => monitor_result case "FAIL" "none" "no tcp_conn_total sample emitted"
         end).

Definition run_arp_spoof (cfg : RunConfig) (case : MonitorCase) : io W CaseResult :=
  or_fail case "watermark" (now_ms cfg) (λ since,
  or_fail case "arp-spoof"
    (agent_json (rc_peer cfg) (arp_argv cfg)) (λ _,
  sleep MONITOR_SETTLE ;;;
  r <- dump_reports cfg since ;;
  let reports := unwrap_or [] r in
  io_ret (if spoof_seen reports
          then monitor_result case "PASS" "arp_spoof" ("sip=" +:+ ARP_CLAIM_IP)
          else monitor_result case "FAIL" "none" "no arp_spoof event for the claimed IP"))).

Definition run_monitor (cfg : RunConfig) (case : MonitorCase) : io W CaseResult :=
  match m_kind case with
  | IcmpTimestamp => run_icmp_timestamp cfg case
  | ConnPerIp => run_conn_perip cfg case
  | ConnTotal => run_conn_total cfg case
  | ArpSpoof => run_arp_spoof cfg case
  end.

Definition run_monitor_filtered (cfg : RunConfig) (keep : MonitorCase → bool)
    : io W (list CaseResult) :=
  let cases := filter (λ c, keep c = true) monitor_cases in
  match cases with
  | [] => io_ret []
  | _ =>
      _ <- write_traffic_rule cfg 5 ;;
      r <- provision_firewall cfg ("chain=localin,action=P" +:+ nl) ;;
      match r with
      | Err error =>
          io_ret (map (λ case, monitor_result case "FAIL" "none"
                                 ("provision failed: " +:+ show_alt error)) cases)
      | Ok _ => io_map cases (run_monitor cfg)
      end
  end.

Definition run_monitor_all (cfg : RunConfig) : io W (list CaseResult) :=
  run_monitor_filtered cfg (λ _, true).

Definition run_monitor_one (cfg : RunConfig) (id : string)
    : option (io W (list CaseResult)) :=
  (λ _, run_monitor_filtered cfg (λ c, String.eqb (m_id c) id)) <$> monitor_case_by_id id.

End monitor.

(** ** Lemmas *)

Lemma any_exists {A} (p : A → bool) l : any p l = true ↔ ∃ a, a ∈ l ∧ p a = true.
Proof.
  unfold any. rewrite existsb_exists. split; intros (a & Ha & Hp); exists a;
    (split; [by apply list_elem_of_In|done]).
Qed.

Lemma monitor_ids_nodup : NoDup (map m_id monitor_cases).
Proof. apply (bool_decide_unpack _). by vm_compute. Qed.

(** What a passing case has seen among the events and reports newer than the
    watermark. *)
Definition evidence `{SerdeJson} (cfg : RunConfig) (kind : MonitorKind)
    (events : list FwEvent) (reports : list FwReport) : Prop :=
  match kind with
  | IcmpTimestamp => ∃ e, e ∈ events ∧ event_type e = "IcmpTimestampProbe" ∧
      ev_src_ip e = ip_to_string (rc_peer_ip cfg)
  | ConnPerIp => ∃ r ips entry n, r ∈ reports ∧ report_type r = "tcp_conn_per_ip" ∧
      get (payload r) "ips" ≫= as_array = Some ips ∧ entry ∈ ips ∧
      get entry "ip" ≫= as_str = Some (ip_to_string (rc_peer_ip cfg)) ∧
      get entry "count" ≫= as_u64 = Some n ∧ 50 <= n
  | ConnTotal => ∃ r, r ∈ reports ∧ report_type r = "tcp_conn_total"
  | ArpSpoof => ∃ r, r ∈ reports ∧ report_type r = "arp_spoof" ∧
      get (payload r) "sip" ≫= as_str = Some ARP_CLAIM_IP
  end.

Section evidence.
  Context `{!Anyhow, !SerdeJson}.

Lemma probe_seen_evidence cfg events reports :
  probe_seen cfg events = true → evidence cfg IcmpTimestamp events reports.
Proof.
  intros (e & He & Hp)%any_exists. apply andb_true_iff in Hp as [Ht%String.eqb_eq Hs%String.eqb_eq].
  by exists e.
Qed.

Lemma breach_seen_evidence cfg events reports :
  breach_seen cfg reports = true → evidence cfg ConnPerIp events reports.
Proof.
  intros (r & Hr & Hp)%any_exists. apply list_elem_of_filter in Hr as [Ht Hr].
  destruct (get (payload r) "ips" ≫= as_array) as [ips|] eqn:Hips; [|done].
  apply any_exists in Hp as (entry & He & Hp). apply andb_true_iff in Hp as [Hip Hn].
  apply bool_decide_eq_true in Hip. apply Z.leb_le in Hn.
  destruct (get entry "count" ≫= as_u64) as [n|] eqn:Hc; simpl in Hn; [|lia].
  by exists r, ips, entry, n.
Qed.

Lemma total_seen_evidence cfg events reports n :
  total_seen reports = Some n → evidence cfg ConnTotal events reports.
Proof.
  unfold total_seen. destruct (list_find _ reports) as [[i r]|] eqn:E; [|done]. intros _.
  apply list_find_Some in E as (Hi & Ht & _). exists r. split; [|done].
  by eapply list_elem_of_lookup_2.
Qed.

Lemma spoof_seen_evidence cfg events reports :
  spoof_seen reports = true → evidence cfg ArpSpoof events reports.
Proof.
  intros (r & Hr & Hp)%any_exists. apply list_elem_of_filter in Hr as [Ht Hr].
  apply bool_decide_eq_true in Hp. by exists r.
Qed.

End evidence.

Section monitor_wp.
  Context {W : Type} `{!World W, !WorldClock W, !Anyhow, !SerdeJson, !DeOutcome, !Sqlite W,
                       !SqliteClock W, !DeRows, !Depot W, !DepotClock W}.

(** What was read back between [w] and [w'] shows what the case asserts. *)
Definition monitor_evidence (cfg : RunConfig) (kind : MonitorKind) (since : Z) (w w' : W)
    : Prop :=
  match kind with
  | IcmpTimestamp => ∃ events w1 w2, dump_events cfg since w1 = Some (Ok events, w2) ∧
      clock w <= clock w1 ∧ clock w2 <= clock w' ∧ evidence cfg kind events []
  | _ => ∃ reports w1 w2, dump_reports cfg since w1 = Some (Ok reports, w2) ∧
      clock w <= clock w1 ∧ clock w2 <= clock w' ∧ evidence cfg kind [] reports
  end.

(** The verdict on one monitor case run from [w]. *)
Definition monitor_post (cfg : RunConfig) (case : MonitorCase) (w : W) (res : CaseResult)
    (w' : W) : Prop :=
  clock w <= clock w' ∧ r_id res = m_id case ∧
  ((r_result res = "FAIL") ∨
   (r_result res = "PASS" ∧
    ∃ since w0, now_ms cfg w = Some (Ok since, w0) ∧
      monitor_evidence cfg (m_kind case) since w w')).

(** The rule of [or_fail]: a failure is reported as FAIL. *)
Lemma or_fail_wp {A} cfg case what (m : io W (res A)) k w0 w :
  steady m → clock w0 <= clock w →
  (∀ a w1, m w = Some (Ok a, w1) → clock w <= clock w1 →
     wp (k a) (monitor_post cfg case w0) w1) →
  wp (or_fail case what m k) (monitor_post cfg case w0) w.
Proof.
  intros Hm Hw Hk. unfold or_fail. apply wp_bind.
  destruct (wp_elim _ _ _ (Hm w)) as ([a|e] & w1 & He & Hc); (eapply wp_intro; [exact He|]).
  - apply Hk; [done|lia].
  - apply wp_ret. split_and!; [lia|done|by left].
Qed.

(** The rule of a step whose answer is not used. *)
Lemma monitor_step {A} cfg case (m : io W A) k w0 w :
  steady m → clock w0 <= clock w →
  (∀ a w1, m w = Some (a, w1) → clock w <= clock w1 →
     wp (k a) (monitor_post cfg case w0) w1) →
  wp (io_bind m k) (monitor_post cfg case w0) w.
Proof. intros Hm Hw Hk. apply wp_step; [done|]. intros a w1 He Hc. apply Hk; [done|lia]. Qed.

Lemma monitor_fail cfg case w0 w observed detail :
  clock w0 <= clock w →
  wp (io_ret (monitor_result case "FAIL" observed detail)) (monitor_post cfg case w0) w.
Proof. intros Hw. apply wp_ret. split_and!; [done|done|by left]. Qed.

Ltac mon := first
  [ apply or_fail_wp; [solve [eauto with steady]|lia|intros ? ? ? ?]
  | apply monitor_step; [solve [eauto with steady | steady]|lia|intros ? ? ? ?] ].

Lemma run_icmp_timestamp_wp cfg case w :
  0 <= rc_event_settle cfg → m_kind case = IcmpTimestamp →
  wp (run_icmp_timestamp cfg case) (monitor_post cfg case w) w.
Proof.
  intros Hs Hk. unfold run_icmp_timestamp. mon. mon.
  apply monitor_step; [by apply steady_sleep|lia|intros ? ? ? ?]. mon.
  match goal with H : dump_events _ _ _ = Some (?r, _) |- _ => destruct r as [events|e] end;
    cbn [unwrap_or]; [|apply monitor_fail; lia].
  destruct (probe_seen cfg events) eqn:Hp; [|apply monitor_fail; lia].
  apply wp_ret. split_and!; [lia|done|]. right. split; [done|]. eexists _, _. split; [done|].
  rewrite Hk. eexists events, _, _. split; [eassumption|].
  split_and!; [lia|lia|by apply probe_seen_evidence].
Qed.

Lemma run_conn_total_wp cfg case w :
  m_kind case = ConnTotal →
  wp (run_conn_total cfg case) (monitor_post cfg case w) w.
Proof.
  intros Hk. unfold run_conn_total, MONITOR_SETTLE. mon. mon. mon.
  match goal with H : dump_reports _ _ _ = Some (?r, _) |- _ => destruct r as [reports|e] end;
    cbn [unwrap_or]; [|apply monitor_fail; lia].
  destruct (total_seen reports) eqn:Hp; [|apply monitor_fail; lia].
  apply wp_ret. split_and!; [lia|done|]. right. split; [done|]. eexists _, _. split; [done|].
  rewrite Hk. eexists reports, _, _. split; [eassumption|].
  split_and!; [lia|lia|by eapply total_seen_evidence].
Qed.

Lemma run_arp_spoof_wp cfg case w :
  m_kind case = ArpSpoof →
  wp (run_arp_spoof cfg case) (monitor_post cfg case w) w.
Proof.
  intros Hk. unfold run_arp_spoof, MONITOR_SETTLE. mon. mon. mon. mon.
  match goal with H : dump_reports _ _ _ = Some (?r, _) |- _ => destruct r as [reports|e] end;
    cbn [unwrap_or]; [|apply monitor_fail; lia].
  destruct (spoof_seen reports) eqn:Hp; [|apply monitor_fail; lia].
  apply wp_ret. split_and!; [lia|done|]. right. split; [done|]. eexists _, _. split; [done|].
  rewrite Hk. eexists reports, _, _. split; [eassumption|].
  split_and!; [lia|lia|by apply spoof_seen_evidence].
Qed.

Lemma run_conn_perip_wp cfg case w :
  m_kind case = ConnPerIp →
  wp (run_conn_perip cfg case) (monitor_post cfg case w) w.
Proof.
  intros Hk. unfold run_conn_perip, MONITOR_SETTLE, teardown_child. mon. mon. mon. mon.
  match goal with |- wp (match ?r with _ => _ end) _ _ => destruct r as [flood|e] end;
    [|mon; apply monitor_fail; lia].
  mon. mon. mon. mon.
  match goal with H : dump_reports _ _ _ = Some (?r, _) |- _ => destruct r as [reports|e] end;
    cbn [unwrap_or]; [|apply monitor_fail; lia].
  destruct (breach_seen cfg reports) eqn:Hp; [|apply monitor_fail; lia].
  apply wp_ret. split_and!; [lia|done|]. right. split; [done|]. eexists _, _. split; [done|].
  rewrite Hk. eexists reports, _, _. split; [eassumption|].
  split_and!; [lia|lia|by apply breach_seen_evidence].
Qed.

Lemma run_monitor_wp cfg case w :
  0 <= rc_event_settle cfg →
  wp (run_monitor cfg case) (monitor_post cfg case w) w.
Proof.
  intros Hs. unfold run_monitor. destruct (m_kind case) eqn:Hk.
  - by apply run_icmp_timestamp_wp.
  - by apply run_conn_perip_wp.
  - by apply run_conn_total_wp.
  - by apply run_arp_spoof_wp.
Qed.

End monitor_wp.

(** A status the report counts. *)
Definition status_ok (r : CaseResult) : Prop :=
  r_result r = "PASS" ∨ r_result r = "FAIL" ∨ r_result r = "SKIP".

Section monitor_runs.
  Context {W : Type} `{!World W, !WorldClock W, !Anyhow, !SerdeJson, !DeOutcome, !Sqlite W,
                       !SqliteClock W, !DeRows, !Depot W, !DepotClock W}.

(** What the runners rely on of the configuration and the device. *)
Definition runnable_cfg (cfg : RunConfig) : Prop :=
  0 <= rc_event_settle cfg ∧ 0 <= rc_reload_timeout cfg ∧ versions_bounded (W := W) cfg.

(** One result for each case, in order, with its id and a known status. *)
Definition results_for (ids : list string) (rs : list CaseResult) : Prop :=
  map r_id rs = ids ∧ Forall status_ok rs.

Lemma results_for_map {A} (f : A → string) (l : list A) rs :
  Forall2 (λ a r, r_id r = f a ∧ status_ok r) l rs → results_for (map f l) rs.
Proof.
  unfold results_for. induction 1 as [|a r l rs [Hid Hst] _ [IH1 IH2]]; [done|].
  simpl. rewrite Hid, IH1. split; [done|by constructor].
Qed.

Lemma results_for_app ids1 ids2 rs1 rs2 :
  results_for ids1 rs1 → results_for ids2 rs2 → results_for (ids1 ++ ids2) (rs1 ++ rs2).
Proof.
  intros [Hm1 Hs1] [Hm2 Hs2]. split; [by rewrite map_app, Hm1, Hm2|by apply Forall_app].
Qed.

Lemma run_monitor_filtered_wp cfg keep w :
  runnable_cfg cfg →
  wp (run_monitor_filtered cfg keep)
     (λ rs w', results_for (map m_id (filter (λ c, keep c = true) monitor_cases)) rs
               ∧ clock w <= clock w') w.
Proof.
  intros (Hs & Hr & Hv). unfold run_monitor_filtered.
  set (cases := filter _ monitor_cases). destruct cases as [|c cs] eqn:E.
  { apply wp_ret. split; [by split|lia]. }
  rewrite <- E. apply wp_bind. eapply wp_mono; [|by apply steady_write_traffic_rule].
  intros ? w1 Hc1. simpl in Hc1. apply wp_bind.
  eapply wp_mono; [|by apply steady_provision_firewall].
  intros [v|e] w2 Hc2; simpl in Hc2.
  - eapply wp_mono; [|apply (wp_map (λ c r, r_id r = m_id c ∧ status_ok r))].
    + intros rs w3 [Hrs Hc3]. split; [by apply results_for_map|lia].
    + intros case w3 _. eapply wp_mono; [|by apply run_monitor_wp].
      intros r w4 (Hc4 & Hid & Hst). split; [|done]. split; [done|].
      unfold status_ok. destruct Hst as [?|[? _]]; auto.
  - apply wp_ret. split; [|lia]. split.
    + rewrite map_map. done.
    + apply Forall_fmap, Forall_forall. intros case _. right; by left.
Qed.

Lemma run_monitor_one_wp cfg id m w :
  runnable_cfg cfg → run_monitor_one cfg id = Some m →
  wp m (λ rs w', results_for [id] rs ∧ clock w <= clock w') w.
Proof.
  intros Hcfg. unfold run_monitor_one, monitor_case_by_id.
  destruct (list_find _ monitor_cases) as [[i c]|] eqn:E; [|done]. intros Hm.
  apply (inj Some) in Hm as <-.
  assert (map m_id (filter (λ c, String.eqb (m_id c) id = true) monitor_cases) = [id]) as Hids.
  { apply list_find_Some in E as (Hi & <- & _).
    do 4 (destruct i as [|i]; [simpl in Hi; injection Hi as <-; reflexivity|]). done. }
  eapply wp_mono; [|by apply run_monitor_filtered_wp]. intros rs w' Hrs.
  cbv beta in Hrs. by rewrite Hids in Hrs.
Qed.

(** C24. Every monitor case ends with a verdict, PASS only on evidence: a PASS
    means that the events (for the ICMP probe) or the reports read back after
    the watermark contain what the case asserts: a timestamp-probe event from
    the peer, a per-address report listing the peer with at least 50
    connections, a total-connections sample, or a spoof report for exactly the
    claimed address. Everything else, errors included, is a FAIL. *)
Theorem run_monitor_verdict cfg case w :
  0 <= rc_event_settle cfg →
  wp (run_monitor cfg case) (monitor_post cfg case w) w.
Proof. apply run_monitor_wp. Qed.

End monitor_runs.

Lemma run_monitor_verdict_witness :
  wp (run_monitor demo_config {| m_id := "monitor-icmp-timestamp"; m_kind := IcmpTimestamp;
                                 m_notes := "" |})
     (monitor_post demo_config {| m_id := "monitor-icmp-timestamp"; m_kind := IcmpTimestamp;
                                  m_notes := "" |} demo_device) demo_device.
Proof. exact (run_monitor_verdict demo_config _ demo_device ltac:(discriminate)). Defined.
