(* ===== verification/Verify.v ===== *)
(** * Per-case orchestration ([verify.rs])

    Run a case (listeners, watermark, traffic, events, report confirmation),
    judge it, and the bundle-batched runners. *)

From S2P Require Import Prelude RustInt RustStr RustNet Effects Sim Cli Exec Config Peer Tally Traffic Db Target Provision Catalog Monitor.

(** ** Pure parts *)

Definition LISTEN_SECS : Z := 12.
Definition LISTEN_READY : Z := millis 500.

Definition bundle_name (b : Bundle) : string :=
  match b with
  | Bundle_IngressTuple => "ingress_tuple"
  | Bundle_DefaultDeny => "default_deny"
  | Bundle_DefaultAllow => "default_allow"
  | Bundle_EgressTuple => "egress_tuple"
  | Bundle_AppDeny => "app_deny"
  | Bundle_AppAllow => "app_allow"
  | Bundle_MatchFields => "match_fields"
  | Bundle_Detection => "detection"
  | Bundle_Traffic => "traffic"
  | Bundle_Priority => "priority"
  end.

Definition enforce_str (enforce : Enforce) : string :=
  match enforce with
  | Enforce_Blocked => "blocked"
  | Enforce_Allowed => "allowed"
  | Enforce_Sent => "sent"
  | Enforce_Refused => "refused"
  end.

Definition describe_expect (expect : ExpectEvent) : string :=
  ee_kind expect +:+ "/" +:+ ee_action expect +:+ "/" +:+ ee_proto expect.

(** [result(case, status, detail)] *)
Definition case_result (case : FwCase) (status detail : string) : CaseResult := {|
  r_id := fc_id case;
  r_group := as_str (fc_group case);
  r_bundle := bundle_name (fc_bundle case);
  r_result := status;
  enforce_expected := enforce_str (expect_enforce case);
  enforce_observed := "";
  event_expected := match expect_event case with
                    | Some e => describe_expect e
                    | None => "none"
                    end;
  event_observed := "";
  report_confirmed := None;
  r_rule_id := e ← expect_event case; ee_rule_id e;
  r_detail := detail;
|}.

Definition endpoint (cfg : RunConfig) (side : Side) : Endpoint :=
  match side with Side_Peer => rc_peer cfg | Side_Target => rc_target cfg end.

(** (src_ip, dst_ip, to) *)
Definition flow (cfg : RunConfig) (origin : Side) : string * string * IpAddr :=
  match origin with
  | Side_Peer => (ip_to_string (rc_peer_ip cfg), ip_to_string (rc_target_ip cfg), rc_target_ip cfg)
  | Side_Target => (ip_to_string (rc_target_ip cfg), ip_to_string (rc_peer_ip cfg), rc_peer_ip cfg)
  end.

Definition build_cmd (case : FwCase) (to : IpAddr) : TrafficCmd :=
  let base proto dport dports count timeout_ms await_reply fin_only := {|
    proto := proto; to := to; dport := dport; dports := dports; sport := fc_sport case;
    count := count; timeout_ms := timeout_ms; interval_ms := 0; await_reply := await_reply;
    fin_only := fin_only; icmp_timestamp := false |} in
  match fc_traffic case with
  | Kind_Tcp dport => base "tcp" (Some dport) None 1 1500 false false
  | Kind_Icmp => base "icmp" None None 1 1500 false false
  | Kind_Udp dport await_reply => base "udp" (Some dport) None 1 1500 await_reply false
  | Kind_TcpScan dports => base "tcp" None (Some dports) 1 250 false false
  | Kind_UdpScan dports => base "udp" None (Some dports) 1 250 false false
  | Kind_TcpFinScan dports => base "tcp" None (Some dports) 1 250 false true
  | Kind_TcpBurst dport count => base "tcp" (Some dport) None count 200 false false
  | Kind_UdpVolume dport count => base "udp" (Some dport) None count 200 false false
  end.

Definition case_dport (case : FwCase) : option Z :=
  match fc_traffic case with
  | Kind_Tcp dport | Kind_Udp dport _ | Kind_TcpBurst dport _ | Kind_UdpVolume dport _ =>
      Some dport
  | _ => None
  end.

Definition event_matches (cfg : RunConfig) (case : FwCase) (ev : FwEvent)
    (expect : ExpectEvent) : bool :=
  if negb (String.eqb (event_type ev) (ee_kind expect))
     || negb (String.eqb (ev_action ev) (ee_action expect))
     || negb (String.eqb (ev_proto ev) (ee_proto expect)) then false else
  let '(src, dst, _) := flow cfg (fc_origin case) in
  if negb (String.eqb (ee_kind expect) "PolicyDeny") && negb (String.eqb (ev_src_ip ev) src)
  then false else
  if match match_dport expect with
     | Some dport => negb (ev_dst_port ev =? dport) || negb (String.eqb (ev_dst_ip ev) dst)
     | None => false
     end then false else
  if match ee_detail expect with
     | Some want_detail => negb (String.eqb (ev_detail ev) want_detail)
     | None => false
     end then false else
  true.

(** [let enforce_ok = ..] *)
Definition enforce_ok (expect : Enforce) (verdict : string) : bool :=
  match expect with
  | Enforce_Blocked => String.eqb verdict "blocked"
  | Enforce_Allowed => String.eqb verdict "allowed"
  | Enforce_Sent => String.eqb verdict "sent"
  | Enforce_Refused => String.eqb verdict "refused"
  end.

(** [let (event_ok, matched) = ..], with the text it sets as observed and the
    details it pushes. *)
Record Detection := mk_detection {
  event_ok : bool; matched : option FwEvent; d_observed : string; d_detail : list string }.

Definition detect (cfg : RunConfig) (case : FwCase) (events : list FwEvent) : Detection :=
  match expect_event case with
  | Some expect =>
      match list_find (λ ev, event_matches cfg case ev expect = true) events with
      | Some (_, ev) =>
          mk_detection true (Some ev)
            (event_type ev +:+ "/" +:+ ev_action ev +:+ "/" +:+ ev_proto ev)
            match ee_rule_id expect, ev_rule_id ev with
            | Some want, Some got =>
                if negb (want =? got)
                then ["rule_id expected " +:+ int_to_string want +:+ " got " +:+ int_to_string got]
                else []
            | _, _ => []
            end
      | None => mk_detection false None "none" []
      end
  | None =>
      let dport := case_dport case in
      let '(src, _, _) := flow cfg (fc_origin case) in
      match list_find (λ ev, String.eqb (ev_src_ip ev) src && match dport with
                             | Some d => ev_dst_port ev =? d
                             | None => false
                             end = true) events with
      | Some (_, ev) =>
          mk_detection false None ("unexpected " +:+ event_type ev +:+ "/" +:+ ev_action ev) []
      | None => mk_detection true None "none" []
      end
  end.

Definition uid_of (cfg : RunConfig) (case : FwCase) : option Z :=
  if fc_uid case then Some (rc_app_uid cfg) else None.

(** ** Running a case *)

Section verify.
  Context {W : Type} `{!World W, !Anyhow, !SerdeJson, !DeOutcome, !Sqlite W, !DeRows, !Depot W}.

Definition is_sent (event_id' : string) (events : list FwEvent) : bool :=
  any (λ e, String.eqb (event_id e) event_id' && String.eqb (report_state e) "sent") events.

(** The first reading of the clock serves the log alone. *)
Definition confirm_local_sent (cfg : RunConfig) (since : Z) (event_id' : string) : io W bool :=
  _ <- instant_now ;;
  poll_for (secs 8) (millis 700)
    (r <- dump_events cfg since ;;
     io_ret match r with Ok events => is_sent event_id' events | Err _ => false end).

Definition confirm_server_log (cfg : RunConfig) : io W string :=
  if decide (rc_mode cfg = Host) then io_ret "server-log:n/a-host" else
  r <- shell (rc_target cfg) "logcat -d -t 400" ;;
  io_ret match r with
         | Ok log => if contains "received report" log then "server-log:found"
                     else "server-log:absent"
         | Err _ => "server-log:unavailable"
         end.

Definition confirm_vsoc (cfg : RunConfig) : io W string :=
  r <- events_mention cfg (ip_to_string (rc_target_ip cfg)) ;;
  io_ret match r with
         | Ok true => "vsoc:found"
         | Ok false => "vsoc:absent"
         | Err error => "vsoc:error(" +:+ show_alt error +:+ ")"
         end.

Definition finish_with (case : FwCase) (status detail : string) (res : CaseResult)
    (children : list Child) (cfg : RunConfig) : io W CaseResult :=
  io_for children (λ child, _ <- kill child ;; io_ret tt) ;;;
  io_for (fc_listen case) (λ spec, stop_listeners (endpoint cfg (ls_side spec)) cfg) ;;;
  io_ret {| r_id := r_id res; r_group := r_group res; r_bundle := r_bundle res;
            r_result := status; enforce_expected := enforce_expected res;
            enforce_observed := enforce_observed res; event_expected := event_expected res;
            event_observed := event_observed res; report_confirmed := report_confirmed res;
            r_rule_id := r_rule_id res; r_detail := detail |}.

Definition finish (case : FwCase) (status detail : string) (children : list Child)
    (cfg : RunConfig) : io W CaseResult :=
  let res := case_result case status detail in
  finish_with case status (r_detail res) res children cfg.

Definition start_listeners (cfg : RunConfig) (case : FwCase) : io W (res (list Child)) :=
  io_fold (fc_listen case)
    (λ children spec,
      child <-? start_listener (endpoint cfg (ls_side spec)) cfg (ls_proto spec) (ls_port spec)
                  LISTEN_SECS ;;
      io_ret (Ok (children ++ [child]))) [].

(** [res] with what was observed. *)
Definition observed_result (case : FwCase) (verdict : string) (d : Detection)
    (confirmed : option bool) : CaseResult :=
  let res := case_result case "PASS" "" in
  {| r_id := r_id res; r_group := r_group res; r_bundle := r_bundle res;
     r_result := r_result res; enforce_expected := enforce_expected res;
     enforce_observed := verdict; event_expected := event_expected res;
     event_observed := d_observed d; report_confirmed := confirmed;
     r_rule_id := r_rule_id res; r_detail := r_detail res |}.

(** The report confirmation of a matched event: the flag and the details. *)
Definition confirm (cfg : RunConfig) (since : Z) (ev : FwEvent) : io W (bool * list string) :=
  local <- confirm_local_sent cfg since (event_id ev) ;;
  let detail := if local : bool then [] else ["report not confirmed sent to idps-server"] in
  match rc_report_confirm cfg with
  | Local => io_ret (local, detail)
  | Server => s <- confirm_server_log cfg ;; io_ret (local, detail ++ [s])
  | Vsoc =>
      s <- confirm_server_log cfg ;;
      v <- confirm_vsoc cfg ;;
      io_ret (local, detail ++ [s; v])
  end.

(** The judgement on a case whose traffic ran. *)
Definition judge (cfg : RunConfig) (case : FwCase) (since : Z) (outcome_verdict : string)
    (events : list FwEvent) (children : list Child) : io W CaseResult :=
  let enforced := enforce_ok (expect_enforce case) outcome_verdict in
  let d := detect cfg case events in
  c <- match matched d with
       | Some ev => r <- confirm cfg since ev ;; io_ret (Some r.1, r.2)
       | None => io_ret (None, [])
       end ;;
  let detail := d_detail d ++ c.2 in
  let report_gate := negb (bool_decide (c.1 = Some false)) in
  let pass := enforced && event_ok d && report_gate in
  let detail :=
    if pass then detail else
    detail ++
    (if enforced then []
     else ["enforce expected " +:+ enforce_str (expect_enforce case) +:+ " got " +:+ outcome_verdict]) ++
    (if event_ok d then [] else ["event expectation not met"]) in
  finish_with case (if pass then "PASS" else "FAIL") (join "; " detail)
    (observed_result case outcome_verdict d c.1) children cfg.

Definition stat (v : value) (key : string) : Z := default 0 (get v key ≫= as_i64).

(** The judgement of a traffic-statistics case: the counters that must grow. *)
Definition traffic_judgement (case : FwCase) (before after : value) : bool * string :=
  let delta key := wrapping_sub_i64 (stat after key) (stat before key) in
  if String.eqb (fc_id case) "traffic-per-app" then
    ((stat before "egress_bytes" <? stat after "egress_bytes")
     && (stat before "app_traffic_windows" <? stat after "app_traffic_windows"),
     "egress_bytes +" +:+ int_to_string (delta "egress_bytes") +:+ ", app_windows +" +:+
     int_to_string (delta "app_traffic_windows"))
  else
    ((stat before "ingress_bytes" <? stat after "ingress_bytes")
     && (stat before "global_traffic_windows" <? stat after "global_traffic_windows"),
     "ingress_bytes +" +:+ int_to_string (delta "ingress_bytes") +:+ ", global_windows +" +:+
     int_to_string (delta "global_traffic_windows")).

(** [match m { Ok(v) => .., Err(error) => return result(case, "FAIL", ..) }] *)
Definition or_result {A} (case : FwCase) (what : string) (m : io W (res A))
    (k : A → io W CaseResult) : io W CaseResult :=
  r <- m ;;
  match r with
  | Ok a => k a
  | Err e => io_ret (case_result case "FAIL" (what +:+ " failed: " +:+ show_alt e))
  end.

Definition case_traffic (cfg : RunConfig) (case : FwCase) : io W (res TrafficOutcome) :=
  let '(_, _, to) := flow cfg (fc_origin case) in
  traffic (endpoint cfg (fc_origin case)) cfg (build_cmd case to) (uid_of cfg case).

Definition run_traffic_case (cfg : RunConfig) (case : FwCase) : io W CaseResult :=
  or_result case "stats" (statistics cfg) (λ before,
  or_result case "traffic" (case_traffic cfg case) (λ _,
  sleep (secs 7) ;;;
  or_result case "stats" (statistics cfg) (λ after,
  let '(ok, detail) := traffic_judgement case before after in
  let res := case_result case "PASS" "" in
  io_ret {| r_id := r_id res; r_group := r_group res; r_bundle := r_bundle res;
            r_result := if ok then "PASS" else "FAIL";
            enforce_expected := enforce_expected res; enforce_observed := "allowed";
            event_expected := event_expected res; event_observed := detail;
            report_confirmed := report_confirmed res; r_rule_id := r_rule_id res;
            r_detail := detail |}))).

Definition run_case (cfg : RunConfig) (case : FwCase) : io W CaseResult :=
  match fc_skip case with
  | Some reason => io_ret (case_result case "SKIP" reason)
  | None =>
  if decide (fc_group case = Group_Traffic) then run_traffic_case cfg case else
  r <- start_listeners cfg case ;;
  match r with
  | Err error => io_ret (case_result case "SKIP" ("listener failed: " +:+ show_alt error))
  | Ok children =>
      (if bool_decide (fc_listen case = []) then io_ret tt else sleep LISTEN_READY) ;;;
      r <- now_ms cfg ;;
      match r with
      | Err error => finish case "FAIL" ("watermark failed: " +:+ show_alt error) children cfg
      | Ok since =>
          r <- case_traffic cfg case ;;
          match r with
          | Err error => finish case "FAIL" ("traffic failed: " +:+ show_alt error) children cfg
          | Ok outcome =>
              sleep (rc_event_settle cfg) ;;;
              r <- dump_events cfg since ;;
              judge cfg case since (Peer.verdict outcome) (unwrap_or [] r) children
          end
      end
  end
  end.

(** ** The runners *)

Definition provision_bundle (cfg : RunConfig) (b : Bundle) : io W (res unit) :=
  _ <-? provision_firewall cfg (firewall_text b cfg) ;;
  match traffic_cycle b with
  | Some cycle => provision_traffic_cycle cfg cycle
  | None => io_ret (Ok tt)
  end.

Definition provision_error (case : FwCase) (e : error) : CaseResult :=
  case_result case "FAIL" ("provision failed: " +:+ show_alt e).

Definition unknown_case (id : string) : CaseResult := {|
  r_id := id; r_group := ""; r_bundle := ""; r_result := "FAIL"; enforce_expected := "";
  enforce_observed := ""; event_expected := ""; event_observed := "";
  report_confirmed := None; r_rule_id := None; r_detail := "unknown case id" |}.

Definition run_one (cfg : RunConfig) (id : string) : io W (list CaseResult) :=
  match run_monitor_one cfg id with
  | Some results => results
  | None =>
      match case_by_id id with
      | None => io_ret [unknown_case id]
      | Some case =>
          _ <- write_traffic_rule cfg 5 ;;
          r <- provision_bundle cfg (fc_bundle case) ;;
          match r with
          | Err e => io_ret [provision_error case e]
          | Ok _ => result <- run_case cfg case ;; io_ret [result]
          end
      end
  end.

(** The cases of a bundle that are kept. *)
Definition members (keep : FwCase → bool) (b : Bundle) : list FwCase :=
  filter (λ case, fc_bundle case = b ∧ keep case = true) all_cases.

Definition run_bundle (cfg : RunConfig) (keep : FwCase → bool) (b : Bundle)
    : io W (list CaseResult) :=
  match members keep b with
  | [] => io_ret []
  | cases =>
      r <- provision_bundle cfg b ;;
      match r with
      | Err e => io_ret (map (λ case, provision_error case e) cases)
      | Ok _ => io_map cases (run_case cfg)
      end
  end.

Definition run_filtered (cfg : RunConfig) (keep : FwCase → bool) : io W (list CaseResult) :=
  _ <- write_traffic_rule cfg 5 ;;
  results <- io_map bundle_order (run_bundle cfg keep) ;;
  io_ret (concat results).

Definition run_group (cfg : RunConfig) (group : Group) : io W (list CaseResult) :=
  if decide (group = Group_Monitor) then run_monitor_all cfg
  else run_filtered cfg (λ case, bool_decide (fc_group case = group)).

Definition run_all (cfg : RunConfig) : io W (list CaseResult) :=
  results <- run_filtered cfg (λ _, true) ;;
  monitors <- run_monitor_all cfg ;;
  io_ret (results ++ monitors).

End verify.

(** ** Lemmas: what is detected *)

(** An expected event was recorded; or, when none is expected and the case has a
    single destination port, no event from its sender to that port was. Of a
    case with no single port nothing is asked then. *)
Definition detected (cfg : RunConfig) (case : FwCase) (events : list FwEvent) : Prop :=
  match expect_event case with
  | Some expect => ∃ ev, ev ∈ events ∧ event_matches cfg case ev expect = true
  | None => ∀ ev dport, ev ∈ events → case_dport case = Some dport →
      ev_src_ip ev = (flow cfg (fc_origin case)).1.1 → ev_dst_port ev ≠ dport
  end.

Lemma detect_ok cfg case events :
  event_ok (detect cfg case events) = true ↔ detected cfg case events.
Proof.
  unfold detect, detected. destruct (expect_event case) as [expect|].
  - destruct (list_find _ events) as [[i ev]|] eqn:E; simpl.
    + apply list_find_Some in E as (Hi & Hm & _). split; [|done]. intros _.
      exists ev. split; [by eapply list_elem_of_lookup_2|done].
    + apply list_find_None in E. split; [done|]. intros (ev & Hin & Hm).
      by eapply list.Forall_forall in E; [|exact Hin].
  - destruct (flow cfg (fc_origin case)) as [[src dst] to]. simpl.
    destruct (list_find _ events) as [[i ev]|] eqn:E; simpl.
    + apply list_find_Some in E as (Hi & Hm & _). split; [done|]. intros H. exfalso.
      apply andb_true_iff in Hm as [Hs%String.eqb_eq Hd].
      destruct (case_dport case) as [d|]; [|done]. apply Z.eqb_eq in Hd.
      by apply (H ev d); [eapply list_elem_of_lookup_2|..].
    + apply list_find_None in E. split; [|done]. intros _ ev d Hin Hd Hs Hp.
      rewrite Hd in E. eapply list.Forall_forall in E; [|exact Hin]. apply E.
      by rewrite Hs, Hp, String.eqb_refl, Z.eqb_refl.
Qed.

Lemma detect_matched cfg case events :
  match matched (detect cfg case events) with
  | Some ev => event_ok (detect cfg case events) = true ∧ ev ∈ events ∧
      ∃ expect, expect_event case = Some expect ∧ event_matches cfg case ev expect = true
  | None => expect_event case = None ∨ event_ok (detect cfg case events) = false
  end.
Proof.
  unfold detect. destruct (expect_event case) as [expect|].
  - destruct (list_find _ events) as [[i ev]|] eqn:E; simpl; [|auto].
    apply list_find_Some in E as (Hi & Hm & _).
    split_and!; [done|by eapply list_elem_of_lookup_2|eauto].
  - destruct (flow cfg (fc_origin case)) as [[src dst] to].
    destruct (list_find _ events) as [[i ev]|]; simpl; auto.
Qed.

Lemma enforce_ok_iff e v : enforce_ok e v = true ↔ v = enforce_str e.
Proof. destruct e; apply String.eqb_eq. Qed.

(** ** Lemmas: the steps return *)

Section verify_steady.
  Context {W : Type} `{!World W, !WorldClock W, !Anyhow, !SerdeJson, !DeOutcome, !Sqlite W,
                       !SqliteClock W, !DeRows, !Depot W, !DepotClock W}.

Lemma steady_sent_check cfg since id :
  steady (r <- dump_events cfg since ;;
          io_ret match r with Ok events => is_sent id events | Err _ => false end).
Proof. steady. Qed.

Lemma steady_confirm_local_sent cfg since id : steady (confirm_local_sent cfg since id).
Proof.
  unfold confirm_local_sent. apply steady_bind; [steady|]. intros _.
  apply steady_poll_for; [done|done|apply steady_sent_check].
Qed.
Lemma steady_confirm_server_log cfg : steady (confirm_server_log cfg).
Proof. unfold confirm_server_log. steady. Qed.
Lemma steady_confirm_vsoc cfg : steady (confirm_vsoc cfg).
Proof. unfold confirm_vsoc. steady. Qed.
#[local] Hint Resolve steady_confirm_local_sent steady_confirm_server_log
  steady_confirm_vsoc : steady.
Lemma steady_confirm cfg since ev : steady (confirm cfg since ev).
Proof. unfold confirm. steady. Qed.
#[local] Hint Resolve steady_confirm : steady.
Lemma steady_finish_with case status detail res children cfg :
  steady (finish_with case status detail res children cfg).
Proof. unfold finish_with. steady. Qed.
#[local] Hint Resolve steady_finish_with : steady.
Lemma steady_start_listeners cfg case : steady (start_listeners cfg case).
Proof. unfold start_listeners. steady. Qed.
Lemma steady_case_traffic cfg case : steady (case_traffic cfg case).
Proof. unfold case_traffic. steady. Qed.

(** Finishing keeps the result but for the status and the detail. *)
Lemma finish_with_wp case status detail res children cfg w :
  wp (finish_with case status detail res children cfg)
     (λ res' w', clock w <= clock w' ∧ r_id res' = r_id res ∧ r_result res' = status ∧
                 report_confirmed res' = report_confirmed res) w.
Proof.
  unfold finish_with. apply wp_step; [steady|]. intros ? w1 _ Hc1.
  apply wp_step; [steady|]. intros ? w2 _ Hc2. apply wp_ret.
  split_and!; [lia|done|done|done].
Qed.

Lemma now_ms_ok cfg w e w' : now_ms cfg w = Some (Err e, w') → False.
Proof.
  unfold now_ms, agent_now_ms, io_bind, epoch_ms, lift.
  destruct (w_epoch_ms w) as [t w1]. done.
Qed.

(** The event was read back as sent. *)
Definition seen_sent (cfg : RunConfig) (since : Z) (id : string) : Prop :=
  ∃ w1 w2 events e, dump_events cfg since w1 = Some (Ok events, w2) ∧ e ∈ events ∧
    event_id e = id ∧ report_state e = "sent".

Lemma confirm_local_sent_wp cfg since id w :
  wp (confirm_local_sent cfg since id)
     (λ ok w', clock w <= clock w' ∧
        if ok : bool then seen_sent cfg since id else clock w + secs 8 <= clock w') w.
Proof.
  unfold confirm_local_sent. apply wp_step; [steady|]. intros ? w1 _ Hc1.
  eapply wp_mono; [|apply (poll_for_wp (λ _, True) (λ _, seen_sent cfg since id));
    [done|done| |done..]].
  - intros [] w' [? Hq]; (split; [lia|]); [done|]. simpl in *. lia.
  - intros w2 _. apply wp_step; [steady|]. intros r w3 He Hc3. apply wp_ret. split; [done|].
    destruct r as [events|]; [|done]. destruct (is_sent id events) eqn:Hs; [|done].
    apply any_exists in Hs as (e & Hin & Hp).
    apply andb_true_iff in Hp as [Hi%String.eqb_eq Hst%String.eqb_eq].
    by exists w2, w3, events, e.
Qed.

(** The confirmation flag is the local one, whatever else is asked. *)
Lemma confirm_wp cfg since ev w :
  wp (confirm cfg since ev)
     (λ c w', clock w <= clock w' ∧
        if c.1 then seen_sent cfg since (event_id ev) else clock w + secs 8 <= clock w') w.
Proof.
  unfold confirm. apply wp_bind. eapply wp_mono; [|apply confirm_local_sent_wp].
  intros ok w1 [Hc1 Hok]. cbv zeta.
  assert (∀ w', clock w1 <= clock w' →
    clock w <= clock w' ∧ if ok : bool then seen_sent cfg since (event_id ev)
                          else clock w + secs 8 <= clock w') as Hw.
  { intros w' ?. split; [lia|]. destruct ok; [done|lia]. }
  destruct (rc_report_confirm cfg).
  - apply wp_ret. by apply Hw.
  - apply wp_step; [steady|]. intros s w2 _ ?. apply wp_ret. by apply Hw.
  - apply wp_step; [steady|]. intros s w2 _ ?. apply wp_step; [steady|].
    intros v w3 _ ?. apply wp_ret. apply Hw. lia.
Qed.

End verify_steady.

(** ** Lemmas: a case *)

Section cases.
  Context {W : Type} `{!World W, !WorldClock W, !Anyhow, !SerdeJson, !DeOutcome, !Sqlite W,
                       !SqliteClock W, !DeRows, !Depot W, !DepotClock W}.

(** How the result [res] of a case follows from the verdict [v] of its traffic
    and the [events] read back: PASS exactly when enforcement, detection and
    report gates hold; the report is asked for exactly for a matched event,
    and its flag is true only if the event was read back as sent. *)
Definition judged (cfg : RunConfig) (case : FwCase) (since : Z) (v : string)
    (events : list FwEvent) (res : CaseResult) : Prop :=
  (r_result res = "PASS" ∨ r_result res = "FAIL") ∧
  (r_result res = "PASS" ↔
   v = enforce_str (expect_enforce case) ∧ detected cfg case events ∧
   report_confirmed res ≠ Some false) ∧
  (is_Some (report_confirmed res) ↔
   is_Some (expect_event case) ∧ detected cfg case events) ∧
  (report_confirmed res = Some true →
   ∃ ev expect, ev ∈ events ∧ expect_event case = Some expect ∧
     event_matches cfg case ev expect = true ∧ seen_sent (W := W) cfg since (event_id ev)).

Lemma pass_iff cfg case v events (c : option bool) :
  enforce_ok (expect_enforce case) v && event_ok (detect cfg case events)
    && negb (bool_decide (c = Some false)) = true ↔
  v = enforce_str (expect_enforce case) ∧ detected cfg case events ∧ c ≠ Some false.
Proof.
  rewrite !andb_true_iff, enforce_ok_iff, detect_ok, negb_true_iff, bool_decide_eq_false.
  tauto.
Qed.

Lemma pass_string (b : bool) : (if b then "PASS" else "FAIL") = "PASS" ↔ b = true.
Proof. by destruct b. Qed.

Lemma judge_wp cfg case since v events children w :
  wp (judge cfg case since v events children)
     (λ res w', clock w <= clock w' ∧ r_id res = fc_id case ∧
                judged cfg case since v events res) w.
Proof.
  unfold judge. cbv zeta. set (d := detect cfg case events).
  apply wp_bind.
  eapply wp_mono with (P := λ c w', clock w <= clock w' ∧
    (is_Some c.1 ↔ is_Some (expect_event case) ∧ detected cfg case events) ∧
    (c.1 = Some true → ∃ ev expect, ev ∈ events ∧ expect_event case = Some expect ∧
       event_matches cfg case ev expect = true ∧ seen_sent cfg since (event_id ev))).
  - intros [c texts] w1 (Hc & Hsome & Hsent). cbn [fst snd] in *.
    eapply wp_mono; [|apply finish_with_wp].
    intros res w2 (Hc2 & Hid & Hr & Hrep). cbn [observed_result r_id report_confirmed] in *.
    split_and!; [lia|done|]. unfold judged. rewrite Hr, Hrep, pass_string.
    split_and!; [by destruct (_ && _); auto|apply pass_iff|done|done].
  - pose proof (detect_matched cfg case events) as Hm. fold d in Hm.
    pose proof (detect_ok cfg case events) as Hok. fold d in Hok.
    destruct (matched d) as [ev|].
    + destruct Hm as (Hd & Hin & expect & He & Hmatch).
      apply wp_bind. eapply wp_mono; [|apply confirm_wp]. intros [ok texts] w1 [Hc Hs].
      apply wp_ret. cbn [fst snd] in *. split_and!; [done| |].
      * split; [|by eauto]. intros _. split; [by eauto|by apply Hok].
      * intros [= ->]. by exists ev, expect.
    + apply wp_ret. cbn [fst snd]. split_and!; [lia| |done].
      split; [by intros [? [=]]|]. intros [[e He] Hdet]. apply Hok in Hdet.
      destruct Hm as [Hn|Hn]; congruence.
Qed.

(** The history of a judged case: watermark, then traffic, then, no earlier
    than the settle time later, the events. A failed read of the events counts
    as no events. *)
Definition case_history (cfg : RunConfig) (case : FwCase) (w : W) (res : CaseResult) : Prop :=
  ∃ since outcome w0 w1 w2 w3 r w4,
    now_ms cfg w0 = Some (Ok since, w1) ∧ clock w <= clock w0 <= clock w1 ∧
    case_traffic cfg case w1 = Some (Ok outcome, w2) ∧
    sleep (rc_event_settle cfg) w2 = Some (tt, w3) ∧
    clock w2 + rc_event_settle cfg <= clock w3 ∧
    dump_events cfg since w3 = Some (r, w4) ∧
    judged cfg case since (Peer.verdict outcome)
      (match r with Ok events => events | Err _ => [] end) res.

Lemma finish_wp case status detail children cfg w :
  wp (finish case status detail children cfg)
     (λ res w', clock w <= clock w' ∧ r_id res = fc_id case ∧ r_result res = status) w.
Proof.
  unfold finish. eapply wp_mono; [|apply finish_with_wp]. intros res w' (?&?&?&?). done.
Qed.

Lemma run_case_wp cfg case w :
  0 <= rc_event_settle cfg → fc_skip case = None → fc_group case ≠ Group_Traffic →
  wp (run_case cfg case)
     (λ res w', clock w <= clock w' ∧ r_id res = fc_id case ∧
        (r_result res = "SKIP" ∧ (∃ e w1, start_listeners cfg case w = Some (Err e, w1)) ∨
         r_result res = "FAIL" ∧ (∃ e w0 w1, clock w <= clock w0 ∧ clock w1 <= clock w' ∧
            case_traffic cfg case w0 = Some (Err e, w1)) ∨
         case_history cfg case w res)) w.
Proof.
  intros Hs Hskip Hg. unfold run_case. rewrite Hskip, decide_False by done.
  apply wp_step; [apply steady_start_listeners|]. intros [children|e] w1 Hl Hc1.
  2: { apply wp_ret. split_and!; [done|done|]. left. split; [done|by exists e, w1]. }
  apply wp_step; [destruct (bool_decide _); [steady|by apply steady_sleep]|].
  intros ? w2 _ Hc2. apply wp_step; [steady|].
  intros [since|e] w3 Hn Hc3; [|by apply now_ms_ok in Hn].
  apply wp_step; [apply steady_case_traffic|]. intros [outcome|e] w4 Ht Hc4.
  2: { eapply wp_mono; [|apply finish_wp]. intros res w5 (?&?&?).
       split_and!; [lia|done|]. right; left. split; [done|].
       exists e, w3, w4. split_and!; [lia|lia|done]. }
  unfold sleep, lift_. apply wp_bind. unfold wp at 1.
  pose proof (clock_sleep (rc_event_settle cfg) w4 Hs) as Hc5.
  apply wp_step; [steady|]. intros r w6 Hd Hc6.
  eapply wp_mono; [|apply judge_wp]. intros res w7 (Hc7 & Hid & Hj).
  split_and!; [lia|done|]. right; right.
  exists since, outcome, w2, w3, w4, (w_sleep (rc_event_settle cfg) w4), r, w6.
  split_and!; try done; lia.
Qed.

End cases.

(** ** Lemmas: the runners *)

Section runners.
  Context {W : Type} `{!World W, !WorldClock W, !Anyhow, !SerdeJson, !DeOutcome, !Sqlite W,
                       !SqliteClock W, !DeRows, !Depot W, !DepotClock W}.

(** What every run of a case yields: a result with its id and a known status. *)
Definition case_post (case : FwCase) (w : W) (res : CaseResult) (w' : W) : Prop :=
  (r_id res = fc_id case ∧ status_ok res) ∧ clock w <= clock w'.

Lemma or_result_wp {A} case what (m : io W (res A)) k w0 w :
  steady m → clock w0 <= clock w →
  (∀ a w1, m w = Some (Ok a, w1) → clock w0 <= clock w1 → wp (k a) (case_post case w0) w1) →
  wp (or_result case what m k) (case_post case w0) w.
Proof.
  intros Hm Hw Hk. unfold or_result. apply wp_step; [done|]. intros [a|e] w1 He Hc.
  - apply Hk; [done|lia].
  - apply wp_ret. split; [|lia]. split; [done|]. right; by left.
Qed.

Lemma run_traffic_case_wp cfg case w :
  wp (run_traffic_case cfg case) (case_post case w) w.
Proof.
  unfold run_traffic_case. apply or_result_wp; [eauto with steady|lia|]. intros before w1 _ Hc1.
  apply or_result_wp; [apply steady_case_traffic|lia|]. intros o w2 _ Hc2.
  apply wp_step; [steady|]. intros ? w3 _ Hc3.
  apply or_result_wp; [eauto with steady|lia|]. intros after w4 _ Hc4.
  destruct (traffic_judgement case before after) as [ok detail]. apply wp_ret.
  split; [|done]. split; [done|]. unfold status_ok. destruct ok; auto.
Qed.

Lemma run_any_case_wp cfg case w :
  0 <= rc_event_settle cfg → wp (run_case cfg case) (case_post case w) w.
Proof.
  intros Hs. destruct (fc_skip case) as [reason|] eqn:Hskip.
  { unfold run_case. rewrite Hskip. apply wp_ret. split; [|lia]. split; [done|].
    right; by right. }
  destruct (decide (fc_group case = Group_Traffic)) as [Hg|Hg].
  { unfold run_case. rewrite Hskip, decide_True by done. apply run_traffic_case_wp. }
  eapply wp_mono; [|by apply run_case_wp]. intros res w' (Hc & Hid & Hres).
  split; [|done]. split; [done|]. unfold status_ok.
  destruct Hres as [[? _]|[[? _]|(?&?&?&?&?&?&?&?&?&?&?&?&?&?&[[?|?] _])]]; auto.
Qed.

Lemma steady_provision_bundle cfg b :
  0 <= rc_reload_timeout cfg → versions_bounded (W := W) cfg → steady (provision_bundle cfg b).
Proof.
  intros Ht Hv. unfold provision_bundle. apply steady_try; [by apply steady_provision_firewall|].
  intros _. destruct (traffic_cycle b); [by apply steady_provision_traffic_cycle|steady].
Qed.

Lemma run_bundle_wp cfg keep b w :
  runnable_cfg (W := W) cfg →
  wp (run_bundle cfg keep b)
     (λ rs w', results_for (map fc_id (members keep b)) rs ∧ clock w <= clock w') w.
Proof.
  intros (Hs & Ht & Hv). unfold run_bundle.
  destruct (members keep b) as [|c cs] eqn:E; [apply wp_ret; split; [by split|lia]|].
  rewrite <- E. apply wp_step; [by apply steady_provision_bundle|]. intros [u|e] w1 _ Hc1.
  - eapply wp_mono; [|apply (wp_map (λ c r, r_id r = fc_id c ∧ status_ok r))].
    + intros rs w2 [Hrs Hc2]. split; [by apply results_for_map|lia].
    + intros case w2 _. eapply wp_mono; [|by apply run_any_case_wp]. by intros res w3 [? ?].
  - apply wp_ret. split; [|done]. split; [by rewrite map_map|].
    apply Forall_fmap, Forall_forall. intros case _. right; by left.
Qed.

(** The ids of the kept cases, in provisioning order. *)
Definition kept_ids (keep : FwCase → bool) : list string :=
  concat (map (λ b, map fc_id (members keep b)) bundle_order).

Lemma results_for_concat (ids : Bundle → list string) bs rss :
  Forall2 (λ b rs, results_for (ids b) rs) bs rss →
  results_for (concat (map ids bs)) (concat rss).
Proof.
  induction 1 as [|b rs bs rss Hb _ IH]; [by split|]. simpl. by apply results_for_app.
Qed.

Lemma run_filtered_wp cfg keep w :
  runnable_cfg (W := W) cfg →
  wp (run_filtered cfg keep)
     (λ rs w', results_for (kept_ids keep) rs ∧ clock w <= clock w') w.
Proof.
  intros Hcfg. pose proof Hcfg as (Hs & Ht & Hv). unfold run_filtered.
  apply wp_step; [by apply steady_write_traffic_rule|]. intros ? w1 _ Hc1.
  apply wp_bind.
  eapply wp_mono; [|apply (wp_map (λ b rs, results_for (map fc_id (members keep b)) rs));
                    intros b w2 _; by apply run_bundle_wp].
  intros rss w2 [Hrs Hc2]. apply wp_ret. split; [|lia]. by apply results_for_concat.
Qed.

(** Every kept case is in the list once. *)
Lemma members_perm keep :
  concat (map (members keep) bundle_order) ≡ₚ filter (λ c, keep c = true) all_cases.
Proof.
  unfold members. generalize all_cases as l. induction l as [|c l IH].
  - clear. induction bundle_order; simpl; done.
  - rewrite filter_cons. destruct (decide (keep c = true)) as [Hk|Hk].
    + rewrite <- IH. destruct (list_elem_of_split _ _ (bundle_order_complete (fc_bundle c)))
        as (l1 & l2 & Hbs). pose proof bundle_order_nodup as Hnd. rewrite Hbs in *.
      assert (∀ bs, fc_bundle c ∉ bs →
        map (λ b, filter (λ case, fc_bundle case = b ∧ keep case = true) (c :: l)) bs
        = map (λ b, filter (λ case, fc_bundle case = b ∧ keep case = true) l) bs) as Hout.
      { intros bs Hn. apply map_ext_in. intros b Hb%list_elem_of_In.
        rewrite filter_cons_False; [done|]. intros [<- _]. done. }
      apply list.NoDup_app in Hnd as (_ & Hd & Hnd). apply list.NoDup_cons in Hnd as [Hn2 _].
      rewrite !map_app, !concat_app. cbn [map concat].
      rewrite filter_cons_True by done.
      rewrite !Hout; [|done|]. 
      * cbn [app]. symmetry. apply Permutation_middle.
      * intros Hin. apply (Hd _ Hin). left.
    + rewrite <- IH. erewrite map_ext; [reflexivity|]. intros b.
      rewrite filter_cons_False; [done|]. by intros [_ ?].
Qed.

End runners.

(** ** Theorems *)

(** What a matching event is. *)
Definition matching (cfg : RunConfig) (case : FwCase) (ev : FwEvent) (expect : ExpectEvent)
    : Prop :=
  let '(src, dst, _) := flow cfg (fc_origin case) in
  event_type ev = ee_kind expect ∧ ev_action ev = ee_action expect ∧
  ev_proto ev = ee_proto expect ∧
  (ee_kind expect ≠ "PolicyDeny" → ev_src_ip ev = src) ∧
  (∀ dport, match_dport expect = Some dport → ev_dst_port ev = dport ∧ ev_dst_ip ev = dst) ∧
  (∀ detail, ee_detail expect = Some detail → ev_detail ev = detail).

(** The guards of [event_matches], one by one. *)
Lemma guard_iff (b x : bool) : (if b then false else x) = true ↔ b = false ∧ x = true.
Proof. destruct b, x; intuition done. Qed.

Lemma source_guard k s src :
  negb (String.eqb k "PolicyDeny") && negb (String.eqb s src) = false ↔
  (k ≠ "PolicyDeny" → s = src).
Proof.
  destruct (String.eqb_spec k "PolicyDeny"), (String.eqb_spec s src); simpl; intuition congruence.
Qed.

Lemma dport_guard o p ip dst :
  match o with Some d => negb (p =? d) || negb (String.eqb ip dst) | None => false end = false ↔
  (∀ d, o = Some d → p = d ∧ ip = dst).
Proof.
  destruct o as [d|]; [|done]. destruct (Z.eqb_spec p d), (String.eqb_spec ip dst); simpl.
  - split; [by intros _ ? [= <-]|done].
  - split; [done|]. intros H. by destruct (H d eq_refl).
  - split; [done|]. intros H. by destruct (H d eq_refl).
  - split; [done|]. intros H. by destruct (H d eq_refl).
Qed.

Lemma detail_guard o s :
  match o with Some want => negb (String.eqb s want) | None => false end = false ↔
  (∀ want, o = Some want → s = want).
Proof.
  destruct o as [d|]; [|done]. destruct (String.eqb_spec s d); simpl.
  - split; [by intros _ ? [= <-]|done].
  - split; [done|]. intros H. by specialize (H d eq_refl).
Qed.

(** C21. An event matches an expectation exactly when kind, action and protocol
    agree, its source is the case's sender (policy denials excepted), its
    destination and port are the flow's where a port is asserted, and its
    detail is the asserted vendor text; the rule id plays no part. *)
Theorem event_matches_iff cfg case ev expect :
  event_matches cfg case ev expect = true ↔ matching cfg case ev expect.
Proof.
  unfold event_matches, matching. destruct (flow cfg (fc_origin case)) as [[src dst] to].
  rewrite !guard_iff, !orb_false_iff, !negb_false_iff, !String.eqb_eq.
  rewrite source_guard, dport_guard, detail_guard. tauto.
Qed.

Section theorems.
  Context {W : Type} `{!World W, !WorldClock W, !Anyhow, !SerdeJson, !DeOutcome, !Sqlite W,
                       !SqliteClock W, !DeRows, !Depot W, !DepotClock W}.

(** The ids a runner must report. *)
Definition group_ids (g : Group) : list string :=
  if decide (g = Group_Monitor) then map m_id monitor_cases
  else map fc_id (filter (λ c, bool_decide (fc_group c = g) = true) all_cases).

Lemma kept_ids_perm keep :
  kept_ids keep ≡ₚ map fc_id (filter (λ c, keep c = true) all_cases).
Proof.
  unfold kept_ids. rewrite <- members_perm, concat_map, map_map. done.
Qed.

Lemma run_all_wp cfg w :
  runnable_cfg (W := W) cfg →
  wp (run_all cfg) (λ rs w',
    (map r_id rs ≡ₚ map fc_id all_cases ++ map m_id monitor_cases ∧ Forall status_ok rs)
    ∧ clock w <= clock w') w.
Proof.
  intros Hcfg. unfold run_all. apply wp_bind. eapply wp_mono; [|by apply run_filtered_wp].
  intros rs w1 [[Hr Hst] Hc]. apply wp_bind.
  eapply wp_mono; [|by apply run_monitor_filtered_wp].
  intros ms w2 [[Hm Hst'] Hc']. apply wp_ret. split; [|lia]. split.
  - rewrite map_app, Hr, Hm. apply Permutation_app; [|by rewrite filter_all by (by apply Forall_true)].
    rewrite kept_ids_perm. by rewrite filter_all by (by apply Forall_true).
  - by apply Forall_app.
Qed.

Lemma run_group_wp cfg g w :
  runnable_cfg (W := W) cfg →
  wp (run_group cfg g) (λ rs w',
    (map r_id rs ≡ₚ group_ids g ∧ Forall status_ok rs) ∧ clock w <= clock w') w.
Proof.
  intros Hcfg. unfold run_group, group_ids. case_decide.
  - eapply wp_mono; [|by apply run_monitor_filtered_wp].
    intros rs w1 [[Hr Hst] Hc]. split; [|done]. split; [by rewrite Hr|done].
  - eapply wp_mono; [|by apply run_filtered_wp].
    intros rs w1 [[Hr Hst] Hc]. split; [|done]. split; [by rewrite Hr, kept_ids_perm|done].
Qed.

Lemma run_one_wp cfg id w :
  runnable_cfg (W := W) cfg →
  wp (run_one cfg id) (λ rs w',
    (map r_id rs = [id] ∧ Forall status_ok rs) ∧ clock w <= clock w') w.
Proof.
  intros Hcfg. pose proof Hcfg as (Hs & Ht & Hv).
  unfold run_one. destruct (run_monitor_one cfg id) as [m|] eqn:E.
  { eapply wp_mono; [|by eapply run_monitor_one_wp]. by intros rs w1 [[? ?] ?]. }
  destruct (case_by_id id) as [case|] eqn:Hcase.
  2: { apply wp_ret. split; [|lia]. split; [done|]. constructor; [right; by left|done]. }
  apply case_by_id_some in Hcase as [_ <-].
  apply wp_step; [by apply steady_write_traffic_rule|]. intros ? w1 _ Hc1.
  apply wp_step; [by apply steady_provision_bundle|]. intros [u|e] w2 _ Hc2.
  - apply wp_bind. eapply wp_mono; [|by apply run_any_case_wp].
    intros res w3 [[Hid Hst] Hc3]. apply wp_ret. split; [|lia].
    split; [by rewrite <- Hid|by constructor].
  - apply wp_ret. split; [|lia]. split; [done|]. constructor; [right; by left|done].
Qed.

(** The two counters that a traffic case wants to see grow. *)
Definition traffic_counters (case : FwCase) : list string :=
  if String.eqb (fc_id case) "traffic-per-app" then ["egress_bytes"; "app_traffic_windows"]
  else ["ingress_bytes"; "global_traffic_windows"].

Lemma traffic_judgement_iff case before after :
  (traffic_judgement case before after).1 = true ↔
  Forall (λ k, stat before k < stat after k) (traffic_counters case).
Proof.
  unfold traffic_judgement, traffic_counters.
  destruct (String.eqb _ _); cbn [fst]; rewrite andb_true_iff, !Z.ltb_lt, !list.Forall_cons;
    (split; [intros [? ?]; auto|intros (? & ? & _); auto]).
Qed.

(** A step that failed, and what it left as the result. *)
Definition step_failed {A} (case : FwCase) (m : io W (res A)) (res : CaseResult) : Prop :=
  r_result res = "FAIL" ∧ ∃ e w w', m w = Some (Err e, w').

Lemma or_result_verdict {A} case what (m : io W (res A)) (k : A → io W CaseResult) Q w :
  steady m →
  (∀ res, r_id res = fc_id case → step_failed case m res → ∀ w', clock w <= clock w' → Q res w') →
  (∀ a w1, m w = Some (Ok a, w1) → clock w <= clock w1 → wp (k a) Q w1) →
  wp (or_result case what m k) Q w.
Proof.
  intros Hm He Hk. unfold or_result. apply wp_step; [done|]. intros [a|e] w1 Hr Hc; [by apply Hk|].
  apply wp_ret, He; [done| |done]. split; [done|]. eauto.
Qed.

(** The history of a traffic case. *)
Definition traffic_history (cfg : RunConfig) (case : FwCase) (w : W) (res : CaseResult) (w' : W)
    : Prop :=
  r_id res = fc_id case ∧
  (step_failed case (statistics cfg) res ∨ step_failed case (case_traffic cfg case) res ∨
   ∃ before after outcome w1 w2 w3,
     statistics cfg w = Some (Ok before, w1) ∧
     case_traffic cfg case w1 = Some (Ok outcome, w2) ∧
     sleep (secs 7) w2 = Some (tt, w3) ∧ clock w2 + secs 7 <= clock w3 ∧
     statistics cfg w3 = Some (Ok after, w') ∧ enforce_observed res = "allowed" ∧
     (r_result res = "PASS" ∧ Forall (λ k, stat before k < stat after k) (traffic_counters case) ∨
      r_result res = "FAIL" ∧
        ¬ Forall (λ k, stat before k < stat after k) (traffic_counters case))).

Lemma traffic_case_history cfg case w :
  wp (run_traffic_case cfg case) (traffic_history cfg case w) w.
Proof.
  unfold run_traffic_case, traffic_history. apply or_result_verdict; [eauto with steady|by auto|].
  intros before w1 Hb _. apply or_result_verdict; [apply steady_case_traffic|by auto|].
  intros outcome w2 Ho _. unfold sleep, lift_. apply wp_bind. unfold wp at 1.
  pose proof (clock_sleep (secs 7) w2 ltac:(discriminate)) as Hc.
  apply or_result_verdict; [eauto with steady|by auto|]. intros after w4 Ha _.
  pose proof (traffic_judgement_iff case before after) as Hj.
  destruct (traffic_judgement case before after) as [ok detail]. apply wp_ret.
  split; [done|]. right; right. exists before, after, outcome, w1, w2, (w_sleep (secs 7) w2).
  split_and!; try done. cbn [fst r_result] in *. destruct ok; [left|right]; split; naive_solver.
Qed.

(** C15. A traffic case is judged by the device's counters and by nothing else.
    It reads the statistics, sends the case's traffic, waits at least seven
    seconds and reads the statistics again; it passes exactly when both of the
    case's counters are larger than before, and fails when one is not or when
    one of these steps failed. What the traffic itself came to is not looked
    at: the result always shows it as allowed. *)
Theorem traffic_case_verdict cfg case w :
  wp (run_traffic_case cfg case) (λ res w', r_id res = fc_id case ∧
    (step_failed case (statistics cfg) res ∨ step_failed case (case_traffic cfg case) res ∨
     ∃ before after outcome w1 w2 w3,
       statistics cfg w = Some (Ok before, w1) ∧
       case_traffic cfg case w1 = Some (Ok outcome, w2) ∧
       sleep (secs 7) w2 = Some (tt, w3) ∧ clock w2 + secs 7 <= clock w3 ∧
       statistics cfg w3 = Some (Ok after, w') ∧ enforce_observed res = "allowed" ∧
       (r_result res = "PASS" ∧ Forall (λ k, stat before k < stat after k) (traffic_counters case) ∨
        r_result res = "FAIL" ∧
          ¬ Forall (λ k, stat before k < stat after k) (traffic_counters case)))) w.
Proof. exact (traffic_case_history cfg case w). Qed.

(** The history of a firewall case that is not skipped: a listener could not be
    started, the traffic could not be generated, or it was judged. *)
Definition firewall_history (cfg : RunConfig) (case : FwCase) (w : W) (res : CaseResult) (w' : W)
    : Prop :=
  (r_result res = "SKIP" ∧ (∃ e w1, start_listeners cfg case w = Some (Err e, w1))) ∨
  (r_result res = "FAIL" ∧ (∃ e w0 w1, clock w <= clock w0 ∧ clock w1 <= clock w' ∧
     case_traffic cfg case w0 = Some (Err e, w1))) ∨
  case_history cfg case w res.

(** C1. The verdict on a case, whichever it is. Running it always ends, and the
    result bears its id. A case the catalog marks as skipped is reported as SKIP
    with that reason and nothing is done. A traffic-statistics case is judged by
    its counters alone. A firewall case is SKIP only if a listener could not be
    started, FAIL without a judgement only if its traffic could not be generated,
    and otherwise judged on its history: the watermark is read before the
    traffic, the events after the settle time and only those newer than the
    watermark, a failed read counting as no events. That judgement is PASS
    exactly when the verdict of the traffic is the expected enforcement, the
    expected event was read (or, where none is expected and the case has a single
    destination port, no event from its sender to that port was; where it has
    none, this asks nothing), and the report was not refused confirmation.
    Confirmation is asked for exactly when an expected event was found, and is
    given only when that event was read back as sent. *)
Theorem run_case_verdict cfg case w :
  0 <= rc_event_settle cfg →
  wp (run_case cfg case) (λ res w', clock w <= clock w' ∧ r_id res = fc_id case ∧
    match fc_skip case with
    | Some reason => res = case_result case "SKIP" reason ∧ w' = w
    | None => if decide (fc_group case = Group_Traffic)
              then traffic_history cfg case w res w'
              else firewall_history cfg case w res w'
    end) w.
Proof.
  intros Hs. destruct (fc_skip case) as [reason|] eqn:Hskip.
  { unfold run_case. rewrite Hskip. apply wp_ret. by split_and!. }
  destruct (decide (fc_group case = Group_Traffic)) as [Hg|Hg]; [|by apply run_case_wp].
  unfold run_case. rewrite Hskip, decide_True by done.
  eapply wp_mono; [|apply (wp_and _ _ _ _ (run_traffic_case_wp cfg case w)
                                          (traffic_case_history cfg case w))].
  intros res w' [[[Hid _] Hc] Ht]. done.
Qed.

(** C3. No case is lost and none is run twice. Every runner returns (all the
    waits it contains end): [run_all] reports each case of the catalog and each
    monitor case exactly once, [run_group] exactly the cases of its group,
    [run_one] exactly the case asked for, known or not; and every result
    is a PASS, a FAIL or a SKIP, whatever provisioning did. *)
Theorem runners_complete cfg g id w :
  runnable_cfg (W := W) cfg →
  wp (run_all cfg) (λ rs w',
    (map r_id rs ≡ₚ map fc_id all_cases ++ map m_id monitor_cases ∧ Forall status_ok rs)
    ∧ clock w <= clock w') w ∧
  wp (run_group cfg g) (λ rs w',
    (map r_id rs ≡ₚ group_ids g ∧ Forall status_ok rs) ∧ clock w <= clock w') w ∧
  wp (run_one cfg id) (λ rs w',
    (map r_id rs = [id] ∧ Forall status_ok rs) ∧ clock w <= clock w') w.
Proof. auto using run_all_wp, run_group_wp, run_one_wp. Qed.

End theorems.

(** ** The catalog's commands *)

(** The probes a case asks for. *)
Definition case_probes (c : FwCase) : Z :=
  match fc_traffic c with
  | Kind_TcpScan ds | Kind_UdpScan ds | Kind_TcpFinScan ds => Z.of_nat (length ds)
  | Kind_TcpBurst _ n | Kind_UdpVolume _ n => n
  | _ => 1
  end.

(** The scans that must fall into one detector window. *)
Definition is_tcp_scan (c : FwCase) : bool :=
  match fc_traffic c with Kind_TcpScan _ | Kind_TcpFinScan _ => true | _ => false end.

(** The ports a case probes; an ICMP case probes the address alone. *)
Definition case_ports (c : FwCase) : list Z :=
  match fc_traffic c with
  | Kind_TcpScan ds | Kind_UdpScan ds | Kind_TcpFinScan ds => ds
  | Kind_Icmp => [0]
  | Kind_Tcp p | Kind_Udp p _ | Kind_TcpBurst p _ | Kind_UdpVolume p _ => [p]
  end.

(** The kind of probe a case is made of: the protocol, whether it is a bare FIN
    and whether it waits for a reply. *)
Definition case_kind (c : FwCase) : Proto * bool * bool :=
  match fc_traffic c with
  | Kind_Tcp _ | Kind_TcpScan _ | Kind_TcpBurst _ _ => (Tcp, false, false)
  | Kind_TcpFinScan _ => (Tcp, true, false)
  | Kind_Icmp => (Icmp, false, false)
  | Kind_Udp _ await_reply => (Udp, false, await_reply)
  | Kind_UdpScan _ | Kind_UdpVolume _ _ => (Udp, false, false)
  end.

(** What the worker is to make of a case. *)
Definition worker_does (args : TrafficArgs) (c : FwCase) : Prop :=
  (∀ `(Anyhow), traffic_ports args = Ok (case_ports c)) ∧
  attempts_of args (case_ports c) = case_probes c ∧
  parallel args (case_ports c) = is_tcp_scan c ∧ ta_sport args = fc_sport c ∧
  (ta_proto args, ta_fin_only args, ta_await_reply args) = case_kind c.

(** A case whose numbers are in range. *)
Definition case_wf (c : FwCase) : bool :=
  let u16 n := (0 <=? n) && (n <=? 65535) in
  match fc_traffic c with
  | Kind_Tcp p | Kind_Udp p _ => u16 p
  | Kind_Icmp => true
  | Kind_TcpScan ds | Kind_TcpFinScan ds => forallb u16 ds && bool_decide (1 < length ds)%nat
  | Kind_UdpScan ds => forallb u16 ds
  | Kind_TcpBurst p n | Kind_UdpVolume p n => u16 p && (1 <=? n) && (n <=? u32_max)
  end && match fc_sport c with Some p => u16 p | None => true end.

Lemma all_cases_wf : forallb case_wf all_cases = true.
Proof. vm_compute. reflexivity. Qed.

Lemma range_u16 n : (0 <=? n) && (n <=? 65535) = true → is_u16 n.
Proof. intros H. bool_prop. split; done. Qed.

Lemma build_cmd_valid c to uid :
  case_wf c = true → (∃ v4, to = V4 v4 ∧ valid_ipv4 v4) →
  (∀ u, uid = Some u → is_u32 u) → cmd_valid (build_cmd c to) uid.
Proof.
  intros Hwf Hto Hu. unfold case_wf in Hwf. bool_prop. unfold cmd_valid, build_cmd.
  assert (∀ p, fc_sport c = Some p → is_u16 p) as Hsp.
  { intros p Hp. rewrite Hp in *. by apply range_u16. }
  destruct (fc_traffic c); bool_prop; cbn;
    split_and!; try done; try (eexists; reflexivity); try (by intros ? [= <-]);
    unfold is_u, u32_max in *; lia.
Qed.

Lemma worker_does_case c to uid p :
  case_wf c = true → parse_proto (proto (build_cmd c to)) = Some p →
  worker_does (worker_args (build_cmd c to) uid p) c.
Proof.
  intros Hwf Hp. unfold case_wf in Hwf.
  assert (∀ ds, forallb (λ n, (0 <=? n) && (n <=? 65535)) ds = true → Forall is_u16 ds) as Hds.
  { intros ds Hd. apply list.Forall_forall. intros n Hn. rewrite forallb_forall in Hd.
    apply range_u16, Hd. by apply list_elem_of_In. }
  unfold worker_does, parallel, attempts_of, is_tcp_scan, case_probes, case_ports, case_kind.
  destruct (fc_traffic c) eqn:E; bool_prop;
    try (match goal with H : forallb _ _ = true |- _ => pose proof (Hds _ H) end;
         split; [intros ?; apply (ports_read_back (build_cmd c to));
                   [unfold build_cmd; rewrite E; reflexivity|done]|]);
    unfold worker_args, build_cmd in *; rewrite E in *; cbn in *;
    apply (inj Some) in Hp as <-;
    repeat match goal with H : bool_decide _ = true |- _ => apply bool_decide_eq_true in H end;
    split_and!; try done; try lia;
    try (rewrite !bool_decide_true by done; reflexivity).
Qed.

(** The command of a case, and what the worker reads from it. *)
Lemma case_command `{!Clap, !ClapLaws} c cfg :
  c ∈ all_cases →
  (∃ v4, rc_target_ip cfg = V4 v4 ∧ valid_ipv4 v4) →
  (∃ v4, rc_peer_ip cfg = V4 v4 ∧ valid_ipv4 v4) → is_u32 (rc_app_uid cfg) →
  let cmd := build_cmd c (flow cfg (fc_origin c)).2 in
  let uid := uid_of cfg c in
  ∃ p, case_wf c = true ∧ cmd_valid cmd uid ∧ parse_proto (proto cmd) = Some p ∧
    parse_traffic (drop 1 (argv cmd uid)) = Some (worker_args cmd uid p) ∧
    worker_does (worker_args cmd uid p) c.
Proof.
  intros Hc Ht Hp Hu. set (to := (flow cfg (fc_origin c)).2). cbv zeta.
  assert (case_wf c = true) as Hwf.
  { pose proof all_cases_wf as Hall. rewrite forallb_forall in Hall.
    apply Hall. by apply list_elem_of_In. }
  assert (∃ v4, to = V4 v4 ∧ valid_ipv4 v4) as Hto by (unfold to; by destruct (fc_origin c)).
  assert (∀ u, uid_of cfg c = Some u → is_u32 u) as Huid.
  { unfold uid_of. destruct (fc_uid c); [|done]. by intros u [= <-]. }
  assert (is_Some (parse_proto (proto (build_cmd c to)))) as [p Hproto]
    by (unfold build_cmd; destruct (fc_traffic c); eauto).
  assert (cmd_valid (build_cmd c to) (uid_of cfg c)) by by apply build_cmd_valid.
  exists p. split_and!; [done..| |by apply worker_does_case]. by apply argv_read_back.
Qed.

(** C14. Every case of the catalog reaches the worker as intended: the command
    built for it, written as an argv and parsed by the worker, makes the worker
    probe exactly the case's ports in order, with the case's protocol, kind of
    segment and source port, waiting for a reply where the case does, as many
    times in all as the case says; and the multi-port TCP and FIN scans,
    and only they, are fired as one parallel burst. The addresses of both sides
    are IPv4. *)
Theorem catalog_commands `{!Clap, !ClapLaws} c cfg :
  c ∈ all_cases →
  (∃ v4, rc_target_ip cfg = V4 v4 ∧ valid_ipv4 v4) →
  (∃ v4, rc_peer_ip cfg = V4 v4 ∧ valid_ipv4 v4) → is_u32 (rc_app_uid cfg) →
  ∃ args, parse_traffic (drop 1 (argv (build_cmd c (flow cfg (fc_origin c)).2) (uid_of cfg c)))
          = Some args ∧
    ta_to args = (flow cfg (fc_origin c)).2 ∧ ta_uid args = uid_of cfg c ∧ worker_does args c.
Proof.
  intros Hc Ht Hp Hu. destruct (case_command c cfg Hc Ht Hp Hu) as (p & _ & _ & _ & Hargs & Hd).
  eexists. split_and!; [exact Hargs| |done..]. unfold build_cmd. by destruct (fc_traffic c).
Qed.

(** ** Where the checks are weaker than they look *)

(** Cases that expect no event but name no single destination port. *)
Definition unscoped (c : FwCase) : Prop := expect_event c = None ∧ case_dport c = None.

(** C39. For a case that expects no event and whose traffic names no single
    destination port, the detection check cannot fail: whatever events were
    recorded, an attack report for its own flow included, it passes. The
    catalog has two such cases, the sub-threshold scan, whose point is that no
    event is raised, and the ICMP match. *)
Theorem negative_check_vacuous cfg :
  (∀ c events, unscoped c →
     event_ok (detect cfg c events) = true ∧ matched (detect cfg c events) = None) ∧
  (∀ c, c ∈ all_cases → unscoped c →
     fc_id c = "detect-below-threshold" ∨ fc_id c = "match-proto-icmp") ∧
  (∃ c, case_by_id "detect-below-threshold" = Some c ∧ unscoped c).
Proof.
  split_and!.
  - intros c events [He Hd]. unfold detect. rewrite He, Hd.
    destruct (flow cfg (fc_origin c)) as [[src dst] to].
    destruct (list_find _ events) as [[i ev]|] eqn:E; [|done].
    apply list_find_Some in E as (_ & Hm & _). by rewrite andb_false_r in Hm.
  - assert (Forall (λ c, unscoped c →
      fc_id c = "detect-below-threshold" ∨ fc_id c = "match-proto-icmp") all_cases) as Hall.
    { repeat apply List.Forall_cons; try apply List.Forall_nil; intros [He Hd]; cbn in *;
        try discriminate; auto. }
    intros c Hc. by eapply list.Forall_forall in Hall; [|exact Hc].
  - eexists. split; [reflexivity|]. by split.
Qed.

(** C40. A wrong rule id never fails a case: the detection gate is the same
    whatever rule id the recorded events carry; a difference only adds a line
    to the detail. *)
Theorem rule_id_not_gated cfg c events events' :
  Forall2 (λ e e', ∃ r, e' = {| event_id := event_id e; event_time_ms := event_time_ms e;
     event_type := event_type e; ev_action := ev_action e; ev_src_ip := ev_src_ip e;
     ev_src_port := ev_src_port e; ev_dst_ip := ev_dst_ip e; ev_dst_port := ev_dst_port e;
     ev_proto := ev_proto e; ev_rule_id := r; ev_detail := ev_detail e;
     report_state := report_state e |}) events events' →
  event_ok (detect cfg c events) = event_ok (detect cfg c events') ∧
  (event_id <$> matched (detect cfg c events)) = (event_id <$> matched (detect cfg c events')).
Proof.
  intros H. unfold detect. destruct (expect_event c) as [expect|];
    [|destruct (flow cfg (fc_origin c)) as [[src dst] to]];
    induction H as [|e e' l l' [r ->] Hl IH]; try done; cbn [list_find];
    repeat match goal with |- context [decide ?P] => destruct (decide P) end; try done;
    try (match goal with Hy : ?P, Hn : ¬ ?Q |- _ => exfalso; exact (Hn Hy) end);
    destruct (list_find _ l) as [[i ev]|], (list_find _ l') as [[i' ev']|]; exact IH.
Qed.

(** ** Witnesses *)

(** The egress block on the demo device, whose event was recorded and sent. *)
Definition demo_case : FwCase := List.nth 7 all_cases (List.nth 0 all_cases
  {| fc_id := ""; fc_group := Group_Egress; fc_bundle := Bundle_EgressTuple;
     fc_origin := Side_Target; fc_uid := false; fc_sport := None; fc_listen := [];
     fc_traffic := Kind_Icmp; expect_enforce := Enforce_Blocked; expect_event := None;
     fc_skip := None; fc_notes := "" |}).

Example demo_case_passes :
  (λ r, (r_id r.1, r_result r.1, event_observed r.1, report_confirmed r.1)) <$>
    run_case demo_config demo_case demo_device
  = Some ("egress-tcp-block", "PASS", "NetworkBlock/Block/tcp", Some true).
Proof. vm_compute. reflexivity. Qed.

Lemma run_case_verdict_witness :
  0 <= rc_event_settle demo_config ∧
  wp (run_case demo_config demo_case)
     (λ res w', r_id res = "egress-tcp-block" ∧
        firewall_history demo_config demo_case demo_device res w') demo_device.
Proof.
  assert (0 <= rc_event_settle demo_config) as Hs by discriminate. split; [exact Hs|].
  eapply wp_mono; [|exact (run_case_verdict demo_config demo_case demo_device Hs)].
  intros res w' (_ & Hid & Hr). exact (conj Hid Hr).
Defined.

(** A case that expects no event passes although the events could not be read. *)
Lemma failed_read_no_events cfg case since v res :
  expect_event case = None → judged (W := device) cfg case since v [] res →
  r_result res = "PASS" ↔ v = enforce_str (expect_enforce case).
Proof.
  intros He (_ & Hp & Hc & _). rewrite Hp.
  assert (detected cfg case []) as Hd by (unfold detected; rewrite He; by intros ? ? ?%elem_of_nil).
  split; [by intros [? _]|]. intros ->. split_and!; [done..|].
  intros Hr. rewrite Hr in Hc. destruct (proj1 Hc (mk_is_Some _ _ eq_refl)) as [[e Hn] _]. congruence.
Qed.

Lemma demo_runnable : runnable_cfg (W := device) demo_config.
Proof. split_and!; [discriminate|discriminate|]. intros [=]. Qed.

Lemma runners_complete_witness :
  wp (run_group demo_config Group_Egress) (λ rs w',
    (map r_id rs ≡ₚ group_ids Group_Egress ∧ Forall status_ok rs)
    ∧ clock demo_device <= clock w') demo_device.
Proof.
  exact (proj1 (proj2 (runners_complete demo_config Group_Egress "" demo_device demo_runnable))).
Defined.

Lemma catalog_commands_witness :
  ∃ args, @parse_traffic simple_clap
            (drop 1 (argv (build_cmd demo_case (flow demo_config (fc_origin demo_case)).2)
                      (uid_of demo_config demo_case))) = Some args ∧
    ta_to args = (flow demo_config (fc_origin demo_case)).2 ∧
    ta_uid args = uid_of demo_config demo_case ∧ worker_does args demo_case.
Proof.
  apply (@catalog_commands simple_clap simple_clap_laws demo_case demo_config).
  - apply (list_elem_of_lookup_2 _ 7). reflexivity.
  - exists (ipv4 10 123 0 1). split; [reflexivity|]. repeat constructor; discriminate.
  - exists (ipv4 10 123 0 2). split; [reflexivity|]. repeat constructor; discriminate.
  - split; discriminate.
Defined.

Definition demo_wrong_rule : FwEvent := {|
  event_id := "ev-2"; event_time_ms := 1000; event_type := "NetworkBlock";
  ev_action := "Block"; ev_src_ip := "10.123.0.1"; ev_src_port := 40000;
  ev_dst_ip := "10.123.0.2"; ev_dst_port := 6001; ev_proto := "tcp";
  ev_rule_id := Some 99; ev_detail := "connection state invalid attack";
  report_state := "sent" |}.

Lemma rule_id_not_gated_witness :
  event_ok (detect demo_config demo_case [demo_event])
  = event_ok (detect demo_config demo_case [demo_wrong_rule]) ∧
  event_ok (detect demo_config demo_case [demo_event]) = true.
Proof.
  split; [|vm_compute; reflexivity].
  apply (rule_id_not_gated demo_config demo_case [demo_event] [demo_wrong_rule]).
  constructor; [by exists (Some 99)|constructor].
Defined.
