(* ===== verification/Campaign.v ===== *)
(** * A campaign, one bundle after the other ([verify.rs])

    A rule set stays loaded in idps-fw until the next is provisioned, so a
    case is only meaningful while its own bundle's rules are the last ones
    provisioned. The orchestrator keeps no record of that: it follows from the
    order in which [run_filtered] and [run_one] do things. [campaign_step] is
    the machine that makes the loaded bundle explicit; [run_filtered] is a run of
    it, and [run_one] provisions and runs its one case in the same way. *)

From stdpp Require Import relations.
From S2P Require Import Prelude RustStr Effects Sim Cli Exec Config Peer Db Target Provision Catalog Monitor Verify.

Section campaign.
  Context {W : Type} `{!World W, !WorldClock W, !Anyhow, !SerdeJson, !DeOutcome, !Sqlite W,
                       !SqliteClock W, !DeRows, !Depot W, !DepotClock W}.

(** ** The machine *)

(** The world, the bundle whose rules are loaded for certain, the cases still
    to run under them, the bundles to come, and the results so far, each with
    its case. *)
Record campaign := mk_campaign {
  c_world : W;
  c_active : option Bundle;
  c_pending : list FwCase;
  c_later : list Bundle;
  c_results : list (FwCase * CaseResult);
}.

Context (cfg : RunConfig) (keep : FwCase → bool).

Inductive campaign_step : campaign → campaign → Prop :=
  | step_empty w act b bs rs :
      members keep b = [] →
      campaign_step (mk_campaign w act [] (b :: bs) rs) (mk_campaign w act [] bs rs)
  | step_reject w w' e act b bs rs :
      members keep b ≠ [] → provision_bundle cfg b w = Some (Err e, w') →
      campaign_step (mk_campaign w act [] (b :: bs) rs)
        (mk_campaign w' None [] bs (rs ++ map (λ c, (c, provision_error c e)) (members keep b)))
  | step_install w w' u act b bs rs :
      members keep b ≠ [] → provision_bundle cfg b w = Some (Ok u, w') →
      campaign_step (mk_campaign w act [] (b :: bs) rs)
        (mk_campaign w' (Some b) (members keep b) bs rs)
  | step_test w w' act c cs bs rs r :
      run_case cfg c w = Some (r, w') →
      campaign_step (mk_campaign w act (c :: cs) bs rs)
        (mk_campaign w' act cs bs (rs ++ [(c, r)])).

(** The campaign at its start, and over. *)
Definition campaign_start (w : W) : campaign := mk_campaign w None [] bundle_order [].
Definition campaign_over (s : campaign) : Prop := c_pending s = [] ∧ c_later s = [].

(** ** The runners are runs of the machine *)

Lemma io_map_inv {A B} (f : A → io W B) a l w bs w' :
  io_map (a :: l) f w = Some (bs, w') →
  ∃ b w1 bs', f a w = Some (b, w1) ∧ io_map l f w1 = Some (bs', w') ∧ bs = b :: bs'.
Proof.
  cbn [io_map]. intros (b & w1 & Hf & Hm)%io_bind_inv.
  apply io_bind_inv in Hm as (bs' & w2 & Hm & [= <- <-]). eauto 10.
Qed.

Lemma tests_run act cs bs rs w xs w' :
  io_map cs (run_case cfg) w = Some (xs, w') →
  rtc campaign_step (mk_campaign w act cs bs rs)
    (mk_campaign w' act [] bs (rs ++ zip cs xs)).
Proof.
  revert w rs xs. induction cs as [|c cs IH]; intros w rs xs.
  - intros [= <- <-]. by rewrite app_nil_r.
  - intros (x & w1 & xs' & Hc & Hcs & ->)%io_map_inv.
    eapply rtc_l; [by apply step_test|]. apply (IH _ (rs ++ [(c, x)])) in Hcs.
    by rewrite <- app_assoc in Hcs.
Qed.

Lemma io_map_length {A B} (f : A → io W B) l w bs w' :
  io_map l f w = Some (bs, w') → length bs = length l.
Proof.
  revert w bs. induction l as [|a l IH]; intros w bs; [by intros [= <- <-]|].
  intros (b & w1 & bs' & _ & Hm & ->)%io_map_inv. simpl. f_equal. by eapply IH.
Qed.

Lemma bundle_run act b bs rs w xs w' :
  run_bundle cfg keep b w = Some (xs, w') →
  ∃ act' ys, rtc campaign_step (mk_campaign w act [] (b :: bs) rs)
               (mk_campaign w' act' [] bs (rs ++ ys)) ∧ ys.*2 = xs ∧ ys.*1 = members keep b.
Proof.
  unfold run_bundle. destruct (members keep b) as [|c cs] eqn:E.
  - intros [= <- <-]. exists act, []. rewrite app_nil_r. split; [|done].
    by apply rtc_once, step_empty.
  - rewrite <- E. intros (p & w1 & Hp & Hr)%io_bind_inv. destruct p as [u|e].
    + exists (Some b), (zip (members keep b) xs).
      pose proof (io_map_length _ _ _ _ _ Hr) as Hl. split_and!.
      * eapply rtc_l; [eapply step_install; [by rewrite E|exact Hp]|]. by apply tests_run.
      * apply snd_zip. rewrite Hl. done.
      * apply fst_zip. rewrite Hl. done.
    + injection Hr as <- <-. exists None, (map (λ c, (c, provision_error c e)) (members keep b)).
      split_and!.
      * apply rtc_once. eapply step_reject; [by rewrite E|exact Hp].
      * by rewrite <- list_fmap_compose.
      * rewrite <- list_fmap_compose. by apply list_fmap_id.
Qed.

Lemma bundles_run act bl bs rs w xss w' :
  io_map bl (run_bundle cfg keep) w = Some (xss, w') →
  ∃ act' ys, rtc campaign_step (mk_campaign w act [] (bl ++ bs) rs)
               (mk_campaign w' act' [] bs (rs ++ ys)) ∧ ys.*2 = concat xss ∧
             ys.*1 = concat (map (members keep) bl).
Proof.
  revert act w rs xss. induction bl as [|b bl IH]; intros act w rs xss.
  - intros [= <- <-]. exists act, []. by rewrite app_nil_r.
  - intros (xs & w1 & xss' & Hb & Hbl & ->)%io_map_inv.
    apply (bundle_run act b (bl ++ bs) rs) in Hb as (act1 & ys & Hs & Hz & Hy).
    apply (IH act1 w1 (rs ++ ys)) in Hbl as (act2 & ys' & Hs' & Hz' & Hy').
    exists act2, (ys ++ ys'). rewrite !fmap_app, Hy, Hy', Hz, Hz'. split_and!; [|done..].
    etransitivity; [exact Hs|]. by rewrite app_assoc.
Qed.

(** ** What the machine maintains *)

(** Between provisioning and a case, only cases of the bundle ran. *)
Inductive case_ran (b : Bundle) : W → W → Prop :=
  case_ran_intro c w r w' :
    fc_bundle c = b → run_case cfg c w = Some (r, w') → case_ran b w w'.

(** idps-fw reported the bundle's rules as loaded while they were provisioned,
    and the traffic cycle of a bundle that sets one. *)
Definition rules_live (b : Bundle) (w w' : W) : Prop :=
  ∃ v w1, provision_firewall cfg (firewall_text b cfg) w = Some (Ok v, w1) ∧
    Provision.observed cfg (reached "firewall_rule_ver" v) w w1 ∧
    ∀ cycle, traffic_cycle b = Some cycle → Provision.observed cfg (cycle_reached cycle) w1 w'.

(** A result that is about the case's own rules. *)
Definition own_rules (c : FwCase) (r : CaseResult) : Prop :=
  ∃ w0 p w1, provision_bundle cfg (fc_bundle c) w0 = Some (p, w1) ∧
    match p with
    | Err e => r = provision_error c e
    | Ok _ => rules_live (fc_bundle c) w0 w1 ∧
        ∃ w2 w3, rtc (case_ran (fc_bundle c)) w1 w2 ∧ run_case cfg c w2 = Some (r, w3)
    end.

Definition campaign_inv (s : campaign) : Prop :=
  Forall (λ x, own_rules x.1 x.2) (c_results s) ∧
  (c_pending s = [] ∨
   ∃ b w0 u w1, c_active s = Some b ∧ Forall (λ c, fc_bundle c = b) (c_pending s) ∧
     provision_bundle cfg b w0 = Some (Ok u, w1) ∧ rules_live b w0 w1 ∧
     rtc (case_ran b) w1 (c_world s)).

Lemma provision_bundle_live b w u w' :
  runnable_cfg (W := W) cfg → provision_bundle cfg b w = Some (Ok u, w') → rules_live b w w'.
Proof.
  intros (Hs & Ht & Hv). unfold provision_bundle. intros (v & w1 & Hp & Hc)%io_try_ok_inv.
  exists v, w1. split_and!; [done|by apply provision_firewall_ok in Hp as [? _]|].
  intros cycle Hcy. rewrite Hcy in Hc. unfold provision_traffic_cycle in Hc.
  apply io_try_ok_inv in Hc as (x & w2 & Hw & Hc).
  apply (steady_run _ _ _ _ (steady_write_traffic_rule cfg cycle Hv)) in Hw as Hc1.
  pose proof (wait_for_cycle_wp cfg cycle w2 Ht) as Hwp. unfold wp in Hwp. rewrite Hc in Hwp.
  by apply (observed_mono _ _ _ w1 w2 w' (λ v Hv, Hv) Hc1).
Qed.

Lemma campaign_inv_step s s' :
  runnable_cfg (W := W) cfg → campaign_step s s' → campaign_inv s → campaign_inv s'.
Proof.
  intros Hcfg [w act b bs rs Hm|w w' e act b bs rs Hm Hp|w w' u act b bs rs Hm Hp
              |w w' act c cs bs rs r Hr] [Hrs Hact]; unfold campaign_inv;
    cbn [c_world c_active c_pending c_later c_results] in *.
  - auto.
  - split; [|auto]. apply Forall_app_2; [done|]. apply Forall_fmap, list.Forall_forall.
    intros c Hc. change (own_rules c (provision_error c e)). apply list_elem_of_filter in Hc as [[Hb _] _].
    exists w, (Err e), w'. by rewrite Hb.
  - split; [done|]. right. exists b, w, u, w'. split_and!; try done.
    + apply list.Forall_forall. intros c Hc. by apply list_elem_of_filter in Hc as [[Hb _] _].
    + by eapply provision_bundle_live.
  - destruct Hact as [Hnil|(b & w0 & u & w1 & -> & Hb & Hp & Hl & Hran)]; [done|].
    apply list.Forall_cons in Hb as [Hcb Hb]. split.
    + apply Forall_app_2; [done|]. constructor; [|done]. cbn [fst snd]. exists w0, (Ok u), w1.
      rewrite Hcb. split; [done|]. split; [done|]. by exists w, w'.
    + right. exists b, w0, u, w1. split_and!; try done.
      eapply rtc_r; [done|]. by econstructor.
Qed.

Lemma campaign_inv_steps s s' :
  runnable_cfg (W := W) cfg → rtc campaign_step s s' → campaign_inv s → campaign_inv s'.
Proof. intros Hcfg. induction 1; eauto using campaign_inv_step. Qed.

End campaign.

(** ** Theorem *)

Section theorem.
  Context {W : Type} `{!World W, !WorldClock W, !Anyhow, !SerdeJson, !DeOutcome, !Sqlite W,
                       !SqliteClock W, !DeRows, !Depot W, !DepotClock W}.

Lemma run_one_own cfg id c w rs w' :
  runnable_cfg (W := W) cfg → run_monitor_one (W := W) cfg id = None → case_by_id id = Some c →
  run_one cfg id w = Some (rs, w') → ∃ r, rs = [r] ∧ own_rules (W := W) cfg c r.
Proof.
  intros Hcfg Hm Hc Hr. unfold run_one in Hr. rewrite Hm, Hc in Hr.
  apply io_bind_inv in Hr as (u & w1 & _ & Hr). apply io_bind_inv in Hr as (p & w2 & Hp & Hr).
  destruct p as [v|e].
  - apply io_bind_inv in Hr as (r & w3 & Hrun & [= <- <-]). exists r. split; [done|].
    exists w1, (Ok v), w2. split; [done|]. split; [by eapply provision_bundle_live|]. by exists w2, w3.
  - injection Hr as <- <-. eexists. split; [done|]. by exists w1, (Err e), w2.
Qed.

(** C5. Every case is judged under its own rules. [run_filtered] always ends
    as a run of the campaign machine from its start to its end, and its
    results are the machine's, case by case, the kept cases in provisioning
    order. Each result is about the rules of the case's bundle: either their
    provisioning failed and the result says so, or idps-fw confirmed them (and
    the traffic cycle of the bundle, if it sets one), and from then until the
    case ran nothing but cases of the same bundle was run, so no other rules
    were provisioned in between. The same holds of the one result of
    [run_one]. *)
Theorem campaign_own_rules cfg keep id w :
  runnable_cfg (W := W) cfg →
  wp (run_filtered cfg keep) (λ rs w', ∃ u w1 s,
    write_traffic_rule cfg 5 w = Some (u, w1) ∧
    rtc (campaign_step cfg keep) (campaign_start w1) s ∧ campaign_over s ∧ c_world s = w' ∧
    (c_results s).*1 = concat (map (members keep) bundle_order) ∧ (c_results s).*2 = rs ∧
    Forall (λ x, own_rules (W := W) cfg x.1 x.2) (c_results s)) w ∧
  wp (run_one cfg id) (λ rs w', ∀ c, run_monitor_one (W := W) cfg id = None →
    case_by_id id = Some c → ∃ r, rs = [r] ∧ own_rules (W := W) cfg c r) w.
Proof.
  intros Hcfg. split.
  2: { destruct (wp_elim _ _ _ (run_one_wp cfg id w Hcfg)) as (rs & w' & Hr & _).
       eapply wp_intro; [exact Hr|]. intros c Hm Hc. by eapply run_one_own. }
  destruct (wp_elim _ _ _ (run_filtered_wp cfg keep w Hcfg)) as (rs & w' & Hr & _).
  eapply wp_intro; [exact Hr|]. unfold run_filtered in Hr.
  apply io_bind_inv in Hr as (u & w1 & Hu & Hr).
  apply io_bind_inv in Hr as (xss & w2 & Hm & [= <- <-]).
  destruct (bundles_run cfg keep None bundle_order [] [] _ _ _ Hm) as (act & ys & Hs & Hy2 & Hy1).
  rewrite app_nil_r in Hs. cbn [app] in Hs.
  exists u, w1, (mk_campaign w2 act [] [] ys). split_and!; try done.
  apply (campaign_inv_steps cfg keep _ _ Hcfg Hs). split; [constructor|by left].
Qed.

End theorem.

Lemma campaign_own_rules_witness :
  wp (run_filtered demo_config (λ c, bool_decide (fc_group c = Group_Egress))) (λ rs w', ∃ u w1 s,
    write_traffic_rule demo_config 5 demo_device = Some (u, w1) ∧
    rtc (campaign_step demo_config (λ c, bool_decide (fc_group c = Group_Egress)))
      (campaign_start w1) s ∧ campaign_over s ∧ c_world s = w' ∧
    (c_results s).*1
      = concat (map (members (λ c, bool_decide (fc_group c = Group_Egress))) bundle_order) ∧
    (c_results s).*2 = rs ∧
    Forall (λ x, own_rules (W := device) demo_config x.1 x.2) (c_results s)) demo_device.
Proof. exact (proj1 (campaign_own_rules demo_config _ "" demo_device demo_runnable)). Defined.
