(* ===== verification/Env.v ===== *)
(** * Environment setup ([env.rs])

    The veth topology, the idps-fw configuration with its backup, the generated
    [fw-verify.conf], and the Android keystore and service control. *)

From S2P Require Import Prelude RustInt RustStr RustNet Effects Sim Cli Config.

Definition IDD_ETC : string := "/etc/idd".
Definition FW_CONFIG : string := "/etc/idd/idps-fw.yaml".
Definition FW_BACKUP : string := "/etc/idd/idps-fw.yaml.fwv-bak".
Definition FWV_CONF : string := "/etc/idd/fw-verify.conf".
Definition KEYSTORE : string := "/data/idd/keys/aes.keystore".
Definition DEFAULT_TARGET_IP : Ipv4Addr := ipv4 10 123 0 1.
Definition DEFAULT_PEER_IP : Ipv4Addr := ipv4 10 123 0 2.
Definition DEFAULT_DEBUG_VIN : string := "FWVERIFYTEST00001".
Definition DEFAULT_DEBUG_DSN : string := "FWVERIFYTESTDSN01".
Definition POLICY_RULE_PREF : string := "1000".

(** ** Topology *)

Record Topology := {
  t_netns : string;
  t_target_iface : string;
  t_peer_iface : string;
  t_target_ip : IpAddr;
  t_peer_ip : IpAddr;
  t_prefix : Z;
  t_policy_route : bool;
}.

Definition topology_from (global : GlobalArgs) : Topology := {|
  t_netns := peer_netns global;
  t_target_iface := target_iface global;
  t_peer_iface := peer_iface global;
  t_target_ip := default (V4 DEFAULT_TARGET_IP) (target_ip global);
  t_peer_ip := default (V4 DEFAULT_PEER_IP) (peer_ip global);
  t_prefix := veth_prefix global;
  t_policy_route := bool_decide (mode global = Android);
|}.

(** [uN::MAX.checked_shl(s).unwrap_or(0)] for an [N]-bit type. *)
Definition shl_mask (bits s : Z) : Z :=
  if s <? bits then Z.shiftl (2 ^ bits - 1) s mod 2 ^ bits else 0.

Definition network (self : Topology) : IpAddr :=
  match t_target_ip self with
  | V4 ip =>
      let mask := shl_mask 32 (32 - Z.min (t_prefix self) 32) in
      V4 (ipv4_of_u32 (Z.land (u32_of_ipv4 ip) mask))
  | V6 ip =>
      let mask := shl_mask 128 (128 - Z.min (t_prefix self) 128) in
      V6 (ipv6_of_u128 (Z.land (u128_of_ipv6 ip) mask))
  end.

Definition subnet (self : Topology) : string :=
  ip_to_string (network self) +:+ "/" +:+ uint_to_string (t_prefix self).

Section env.
  Context {W : Type} `{!World W, !Anyhow, !SerdeJson}.

(** [run(program, args)]. *)
Definition run_program_ok (program : string) (args : list string) : io W (res unit) :=
  r <- cmd_output (program :: args) ;;
  io_ret (let? output := io_ctx ("failed to spawn `" +:+ program +:+ " " +:+ join " " args +:+ "`") r in
          if success output then Ok tt
          else Err (anyhow ("`" +:+ program +:+ " " +:+ join " " args +:+ "` failed: " +:+
                            trim (stderr output)))).

Definition run_ip (args : list string) : io W (res unit) := run_program_ok "ip" args.
Definition run_ip_netns (netns : string) (args : list string) : io W (res unit) :=
  run_program_ok "ip" (["netns"; "exec"; netns; "ip"] ++ args).
Definition ignore_ip (args : list string) : io W unit :=
  _ <- cmd_output ("ip" :: args) ;; io_ret tt.

Definition rule_args (verb sub : string) : list string :=
  ["rule"; verb; "pref"; POLICY_RULE_PREF; "to"; sub; "lookup"; "main"].

(** [for _ in 0..n { if !deleted { break } }] *)
Fixpoint delete_rules (n : nat) (sub : string) : io W unit :=
  match n with
  | O => io_ret tt
  | S n =>
      r <- cmd_output ("ip" :: rule_args "del" sub) ;;
      match r with
      | Ok output => if success output then delete_rules n sub else io_ret tt
      | Err _ => io_ret tt
      end
  end.

Definition teardown_topology (topo : Topology) : io W unit :=
  ignore_ip ["netns"; "del"; t_netns topo] ;;;
  ignore_ip ["link"; "del"; t_target_iface topo] ;;;
  delete_rules 16 (subnet topo).

Definition create_veth (topo : Topology) : io W (res unit) :=
  let pair := ["link"; "add"; t_target_iface topo; "type"; "veth"; "peer"; "name";
               t_peer_iface topo] in
  direct <- run_ip (pair ++ ["netns"; t_netns topo]) ;;
  if is_ok direct then io_ret (Ok tt) else
  _ <-? io_context "failed to create veth pair" (run_ip pair) ;;
  io_context "failed to move peer veth into the namespace"
    (run_ip ["link"; "set"; t_peer_iface topo; "netns"; t_netns topo]).

Definition disable_ipv6 (topo : Topology) : io W unit :=
  _ <- fs_write ("/proc/sys/net/ipv6/conf/" +:+ t_target_iface topo +:+ "/disable_ipv6") "1" ;;
  _ <- cmd_output ["ip"; "netns"; "exec"; t_netns topo; "sh"; "-c";
         "echo 1 > /proc/sys/net/ipv6/conf/" +:+ t_peer_iface topo +:+ "/disable_ipv6"] ;;
  io_ret tt.

Definition create_topology (topo : Topology) : io W (res unit) :=
  let cidr ip := ip_to_string ip +:+ "/" +:+ uint_to_string (t_prefix topo) in
  _ <-? run_ip ["netns"; "add"; t_netns topo] ;;
  _ <-? create_veth topo ;;
  disable_ipv6 topo ;;;
  _ <-? run_ip ["addr"; "add"; cidr (t_target_ip topo); "dev"; t_target_iface topo] ;;
  _ <-? run_ip ["link"; "set"; t_target_iface topo; "up"] ;;
  _ <-? run_ip_netns (t_netns topo) ["link"; "set"; "lo"; "up"] ;;
  _ <-? run_ip_netns (t_netns topo)
          ["addr"; "add"; cidr (t_peer_ip topo); "dev"; t_peer_iface topo] ;;
  _ <-? run_ip_netns (t_netns topo) ["link"; "set"; t_peer_iface topo; "up"] ;;
  if t_policy_route topo then
    io_context "failed to add the main-table ip rule for the test subnet"
      (run_ip (rule_args "add" (subnet topo)))
  else io_ret (Ok tt).

(** ** The idps-fw configuration *)

Definition backup_fw_config : io W (res unit) :=
  config <- exists_path FW_CONFIG ;;
  backup <- (if config : bool then exists_path FW_BACKUP else io_ret true) ;;
  if config && negb backup then
    r <- fs_copy FW_CONFIG FW_BACKUP ;;
    io_ret (io_ctx ("failed to back up " +:+ FW_CONFIG) r)
  else io_ret (Ok tt).

Definition restore_fw_config : io W bool :=
  backup <- exists_path FW_BACKUP ;;
  if negb backup then io_ret false else
  r <- fs_copy FW_BACKUP FW_CONFIG ;;
  if is_ok r then _ <- remove_file FW_BACKUP ;; io_ret true
  else io_ret false.

Definition quoted (s : string) : string := dq +:+ s +:+ dq.

Definition fw_config_lines (global : GlobalArgs) (topo : Topology) : list string :=
  let iface := t_target_iface topo in
  ["runtime_config_path: /etc/idd/idps.yaml";
   "state_dir: /data/idd/idps-fw";
   "state_db_path: " +:+ state_db global;
   "ebpf_object_path: /etc/idd/idps-fw.bpf.o";
   "cgroup_path: /sys/fs/cgroup";
   "tc_ingress_ifaces:"; "  - " +:+ iface;
   "tc_egress_ifaces:"; "  - " +:+ iface;
   "rule_poll_interval_secs: 3";
   "initial_rule_timeout_secs: 30";
   "event_poll_interval_ms: 100";
   "identity_refresh_interval_secs: 10";
   "report_flush_interval_ms: 500";
   "report_ack_timeout_secs: 10";
   "traffic_cycle_secs: 5";
   "interface_categories:";
   "  - exact: " +:+ iface; "    category: wifi";
   "  - prefix: rmnet"; "    category: mobile";
   "  - prefix: ccmni"; "    category: mobile";
   "identity_overrides:";
   "  - identity_key: " +:+ quoted (app_identity_key global);
   "    uid: " +:+ uint_to_string (app_uid global);
   "    pkg_name: " +:+ quoted (app_pkg global);
   "    app_name: " +:+ quoted (app_name global)].

Definition write_fw_config (global : GlobalArgs) (topo : Topology) : io W (res unit) :=
  r <- fs_write FW_CONFIG (unlines (fw_config_lines global topo)) ;;
  io_ret (io_ctx ("failed to write " +:+ FW_CONFIG +:+ " (is the partition writable?)") r).

(** ** fw-verify.conf *)

Definition kv (k v : string) : string := k +:+ " = " +:+ v.

(** The settings [write_fwv_conf] writes, in order. *)
Definition conf_pairs (global : GlobalArgs) (topo : Topology) : list (string * string) :=
  [("mode", to_ascii_lowercase (mode_debug (mode global)));
   ("target_iface", t_target_iface topo);
   ("peer_iface", t_peer_iface topo);
   ("peer_netns", t_netns topo);
   ("target_ip", ip_to_string (t_target_ip topo));
   ("peer_ip", ip_to_string (t_peer_ip topo));
   ("idps_fw", idps_fw global);
   ("state_db", state_db global);
   ("app_uid", uint_to_string (app_uid global));
   ("app_identity_key", app_identity_key global);
   ("app_pkg", app_pkg global);
   ("app_name", app_name global)] ++
  match mode global with
  | Android => []
  | Host =>
      ("vsoc_url", default "https://127.0.0.1:8443" (vsoc_url global)) ::
      match vsoc_cert global, vsoc_key global with
      | Some cert, Some key =>
          [("vsoc_cert", cert); ("vsoc_key", key)] ++
          match vsoc_cacert global with Some c => [("vsoc_cacert", c)] | None => [] end
      | _, _ => []
      end
  end.

(** The lines of the file: a comment, the settings, and in host mode without a
    client certificate a reminder. *)
Definition fwv_conf_lines (global : GlobalArgs) (topo : Topology) : list string :=
  "# fw-verify config (generated by `fw-verify setup-env`)." ::
  map (λ p, kv p.1 p.2) (conf_pairs global topo) ++
  match mode global, vsoc_cert global, vsoc_key global with
  | Host, Some _, Some _ => []
  | Host, _, _ =>
      ["# set vsoc_cert/vsoc_key to the VSOC mTLS client certificate before running"]
  | Android, _, _ => []
  end.

Definition write_fwv_conf (global : GlobalArgs) (topo : Topology) : io W (res unit) :=
  r <- fs_write FWV_CONF (unlines (fwv_conf_lines global topo)) ;;
  io_ret (io_ctx ("failed to write " +:+ FWV_CONF) r).

(** ** Keystore and services *)

(** [Command::status] is the exit status of [cmd_output]. *)
Definition restart_service (m : Mode) (service : string) : io W (res unit) :=
  match m with
  | Android =>
      _ <- cmd_output ["stop"; service] ;;
      sleep (millis 500) ;;;
      r <- cmd_output ["start"; service] ;;
      io_ret (result_map (λ _, tt) (io_ctx ("failed to start " +:+ service) r))
  | Host =>
      _ <- cmd_output ["systemctl"; "try-restart"; service] ;; io_ret (Ok tt)
  end.

Definition write_debug_id (name value : string) : io W (res unit) :=
  let path := "/data/idd/" +:+ name in
  r <- fs_write path value ;;
  match io_ctx ("failed to write " +:+ path) r with
  | Err e => io_ret (Err e)
  | Ok _ =>
      _ <- run_program_ok "chmod" ["644"; path] ;;
      _ <- cmd_output ["restorecon"; path] ;;
      io_ret (Ok tt)
  end.

Definition ensure_keystore_android (global : GlobalArgs) : io W (res unit) :=
  present <- exists_path KEYSTORE ;;
  if present : bool then
    println "  keystore already present" ;;; io_ret (Ok tt)
  else
  _ <-? write_debug_id "vin_debug" DEFAULT_DEBUG_VIN ;;
  _ <-? write_debug_id "dsn_debug" DEFAULT_DEBUG_DSN ;;
  println "  injected /data/idd/vin_debug + dsn_debug; restarting idps-server to derive the keystore" ;;;
  _ <-? restart_service (mode global) "idps-server" ;;
  derived <- poll_for (secs 30) (secs 1) (exists_path KEYSTORE) ;;
  if derived : bool then
    println "  keystore derived by idps-server" ;;; io_ret (Ok tt)
  else
    io_ret (Err (anyhow "keystore still missing after injecting VIN/DSN and restarting idps-server; check that idps-server is running and /data/idd is writable")).

(** [from_slice] of the output, and its [connected] flag. *)
Definition connected (out : string) : bool :=
  match from_str out with
  | Ok value => bool_decide ((get value "connected" ≫= as_bool) = Some true)
  | Err _ => false
  end.

Definition wait_healthy (global : GlobalArgs) : io W bool :=
  poll_for (secs 30) (secs 1)
    (r <- cmd_output ["sh"; "-c"; idps_fw global +:+ " health"] ;;
     io_ret match r with Ok output => connected (stdout output) | Err _ => false end).

(** ** setup and clean *)

Definition setup (global : GlobalArgs) : io W (res unit) :=
  let topo := topology_from global in
  println ("fw-verify: setting up " +:+ mode_debug (mode global) +:+ "-mode test environment") ;;;
  teardown_topology topo ;;;
  _ <-? create_topology topo ;;
  println ("  topology: " +:+ t_target_iface topo +:+ "(" +:+ ip_to_string (t_target_ip topo) +:+
           ") <-> netns " +:+ t_netns topo +:+ ":" +:+ t_peer_iface topo +:+ "(" +:+
           ip_to_string (t_peer_ip topo) +:+ ")") ;;;
  (if t_policy_route topo then
     println ("  policy route: ip rule pref " +:+ POLICY_RULE_PREF +:+ " to " +:+ subnet topo +:+
              " lookup main")
   else io_ret tt) ;;;
  r <- create_dir_all IDD_ETC ;;
  match io_ctx ("failed to create " +:+ IDD_ETC +:+ " (is the partition writable?)") r with
  | Err e => io_ret (Err e)
  | Ok _ =>
  _ <-? backup_fw_config ;;
  _ <-? write_fw_config global topo ;;
  println ("  idps-fw config: " +:+ FW_CONFIG +:+ " (monitors " +:+ t_target_iface topo +:+ ")") ;;;
  _ <-? write_fwv_conf global topo ;;
  println ("  fw-verify config: " +:+ FWV_CONF) ;;;
  match mode global with
  | Android =>
      _ <-? ensure_keystore_android global ;;
      _ <-? restart_service (mode global) "idps-fw" ;;
      healthy <- wait_healthy global ;;
      if healthy : bool then
        println "  idps-fw restarted and healthy" ;;; io_ret (Ok tt)
      else
        _ <- restore_fw_config ;;
        _ <- restart_service (mode global) "idps-fw" ;;
        io_ret (Err (anyhow "idps-fw unhealthy after applying the fast config; restored the previous one"))
  | Host =>
      println ("  next: (re)start idps-fw to apply this config, then: fw-verify --config " +:+
               FWV_CONF +:+ " run-all") ;;;
      io_ret (Ok tt)
  end
  end.

Definition clean (global : GlobalArgs) : io W (res unit) :=
  let topo := topology_from global in
  teardown_topology topo ;;;
  restored <- restore_fw_config ;;
  (if restored && bool_decide (mode global = Android) then
     _ <- restart_service (mode global) "idps-fw" ;; io_ret tt
   else io_ret tt) ;;;
  _ <- remove_file FWV_CONF ;;
  println ("fw-verify: removed netns " +:+ t_netns topo +:+ ", veth " +:+ t_target_iface topo +:+
           ", " +:+ FWV_CONF +:+ (if restored : bool then "; restored idps-fw config" else "")) ;;;
  io_ret (Ok tt).

End env.

(** ** Lemmas: addresses as numbers *)

Definition ip_bits (ip : IpAddr) : Z := match ip with V4 _ => 32 | V6 _ => 128 end.
Definition ip_num (ip : IpAddr) : Z :=
  match ip with V4 v4 => u32_of_ipv4 v4 | V6 v6 => u128_of_ipv6 v6 end.

Lemma land_shifted n m s : 0 <= s → Z.land n (Z.shiftl m s) = Z.shiftl (Z.land (Z.shiftr n s) m) s.
Proof.
  intros Hs. apply Z.bits_inj'. intros i Hi. rewrite Z.land_spec, !Z.shiftl_spec by lia.
  destruct (Z.le_gt_cases s i).
  - rewrite Z.land_spec, Z.shiftr_spec by lia. by replace (i - s + s) with i by lia.
  - rewrite (Z.testbit_neg_r _ (i - s)) by lia. rewrite (Z.testbit_neg_r _ (i - s)) by lia.
    by rewrite andb_false_r.
Qed.

(** Masking with the shifted mask clears the low bits. *)
Lemma land_mask bits s n :
  0 <= s <= bits → 0 <= n < 2 ^ bits → Z.land n (shl_mask bits s) = n / 2 ^ s * 2 ^ s.
Proof.
  intros Hs Hn. unfold shl_mask. destruct (Z.ltb_spec s bits) as [Hlt|Hge]; last first.
  { replace bits with s in * by lia. rewrite Z.land_0_r, Z.div_small by lia. done. }
  assert (Z.shiftl (2 ^ bits - 1) s mod 2 ^ bits = Z.shiftl (Z.ones (bits - s)) s) as ->.
  { rewrite !Z.shiftl_mul_pow2, Z.ones_equiv by lia. symmetry.
    apply (Z.mod_unique_pos _ _ (2 ^ s - 1)).
    - assert (2 ^ bits = 2 ^ (bits - s) * 2 ^ s) as ->
        by (rewrite <- Z.pow_add_r by lia; f_equal; lia).
      pose proof (Z.pow_pos_nonneg 2 s). pose proof (Z.pow_pos_nonneg 2 (bits - s)). nia.
    - assert (2 ^ bits = 2 ^ (bits - s) * 2 ^ s) as ->
        by (rewrite <- Z.pow_add_r by lia; f_equal; lia).
      unfold Z.pred. ring. }
  rewrite land_shifted, Z.land_ones, Z.shiftr_div_pow2, Z.shiftl_mul_pow2 by lia.
  rewrite Z.mod_small; [done|].
  split; [apply Z.div_pos; [lia|apply Z.pow_pos_nonneg; lia]|].
  apply Z.div_lt_upper_bound; [apply Z.pow_pos_nonneg; lia|].
  rewrite <- Z.pow_add_r by lia. replace (s + (bits - s)) with bits by lia. lia.
Qed.

Lemma digit_step n i :
  0 <= i → n / 2 ^ (16 * i) = n / 2 ^ (16 * (i + 1)) * 65536 + (n / 2 ^ (16 * i)) mod 65536.
Proof.
  intros Hi. replace (16 * (i + 1)) with (16 * i + 16) by lia.
  rewrite Z.pow_add_r by lia. change (2 ^ 16) with 65536.
  rewrite <- Z.div_div; [|apply Z.pow_nonzero; lia|lia]. pose proof (Z.div_mod (n / 2 ^ (16 * i)) 65536 ltac:(lia)). lia.
Qed.

Lemma u128_of_ipv6_of_u128 n : 0 <= n < 2 ^ 128 → u128_of_ipv6 (ipv6_of_u128 n) = n.
Proof.
  intros Hn. unfold u128_of_ipv6, ipv6_of_u128. cbn [segments map foldl].
  rewrite <- (Z.div_1_r n) at 9. change 1 with (2 ^ (16 * 0)).
  rewrite (digit_step n 0), (digit_step n (0 + 1)), (digit_step n (0 + 1 + 1)),
    (digit_step n (0 + 1 + 1 + 1)), (digit_step n (0 + 1 + 1 + 1 + 1)),
    (digit_step n (0 + 1 + 1 + 1 + 1 + 1)), (digit_step n (0 + 1 + 1 + 1 + 1 + 1 + 1)),
    (digit_step n (0 + 1 + 1 + 1 + 1 + 1 + 1 + 1)) by lia.
  rewrite (Z.div_small n (2 ^ (16 * (0 + 1 + 1 + 1 + 1 + 1 + 1 + 1 + 1)))) by done.
  reflexivity.
Qed.

Lemma u128_range v6 : valid_ip (V6 v6) → 0 <= u128_of_ipv6 v6 < 2 ^ 128.
Proof.
  intros [Hl Hs]. unfold u128_of_ipv6.
  assert (∀ k l acc, Forall is_u16 l → 0 <= acc < 2 ^ (16 * k) → 0 <= k →
    0 <= foldl (λ acc s, acc * 65536 + s) acc l < 2 ^ (16 * (k + Z.of_nat (length l)))) as Hg.
  { intros k l acc H. revert k acc. induction H as [|x l Hx _ IH]; intros k acc Ha Hk; simpl foldl.
    - by replace (k + Z.of_nat (length [])) with k by (simpl; lia).
    - replace (k + Z.of_nat (length (x :: l))) with ((k + 1) + Z.of_nat (length l))
        by (simpl length; lia).
      apply IH; [|lia]. replace (16 * (k + 1)) with (16 * k + 16) by lia.
      rewrite Z.pow_add_r by lia. change (2 ^ 16) with 65536. unfold is_u in Hx. nia. }
  specialize (Hg 0 (segments v6) 0 Hs). rewrite Hl in Hg. apply Hg; [by cbn|lia].
Qed.

Lemma ip_num_range ip : valid_ip ip → 0 <= ip_num ip < 2 ^ ip_bits ip.
Proof.
  destruct ip as [v4|v6]; [|apply u128_range]. simpl. intros H.
  destruct v4 as [a b c d]. unfold valid_ipv4, octets in H. decompose_Forall_hyps.
  unfold u32_of_ipv4, is_u in *. simpl. lia.
Qed.

Lemma network_num topo :
  valid_ip (t_target_ip topo) → 0 <= t_prefix topo <= ip_bits (t_target_ip topo) →
  let s := ip_bits (t_target_ip topo) - t_prefix topo in
  ip_bits (network topo) = ip_bits (t_target_ip topo) ∧
  ip_num (network topo) = ip_num (t_target_ip topo) / 2 ^ s * 2 ^ s.
Proof.
  intros Hv Hp s. pose proof (ip_num_range _ Hv) as Hr. unfold network.
  assert (∀ b n, 0 <= s <= b → 0 <= n < 2 ^ b → 0 <= n / 2 ^ s * 2 ^ s < 2 ^ b) as Hb.
  { intros b n Hs Hn. pose proof (Z.pow_pos_nonneg 2 s ltac:(lia) ltac:(lia)).
    pose proof (Z.mul_div_le n (2 ^ s) ltac:(lia)). pose proof (Z.div_pos n (2 ^ s)). nia. }
  destruct (t_target_ip topo) as [v4|v6]; cbn [ip_bits ip_num] in *; (split; [done|]).
  - rewrite Z.min_l, land_mask by lia. fold s.
    apply u32_of_ipv4_of_u32. specialize (Hb 32 (u32_of_ipv4 v4) ltac:(unfold s; lia) Hr).
    unfold is_u. change (2 ^ 32) with 4294967296 in Hb. lia.
  - rewrite Z.min_l, land_mask by lia. fold s.
    apply u128_of_ipv6_of_u128. apply Hb; [unfold s; lia|done].
Qed.

(** The network from its number. *)
Definition ip_of_num (like : IpAddr) (n : Z) : IpAddr :=
  match like with V4 _ => V4 (ipv4_of_u32 n) | V6 _ => V6 (ipv6_of_u128 n) end.

Lemma network_eq topo :
  valid_ip (t_target_ip topo) → 0 <= t_prefix topo <= ip_bits (t_target_ip topo) →
  let s := ip_bits (t_target_ip topo) - t_prefix topo in
  network topo = ip_of_num (t_target_ip topo) (ip_num (t_target_ip topo) / 2 ^ s * 2 ^ s).
Proof.
  intros Hv Hp s. pose proof (ip_num_range _ Hv) as Hr. unfold network.
  destruct (t_target_ip topo) as [v4|v6]; cbn [ip_bits ip_num ip_of_num] in *.
  - by rewrite Z.min_l, land_mask by lia.
  - by rewrite Z.min_l, land_mask by lia.
Qed.

(** ** Lemmas: every step returns *)

Section env_steady.
  Context {W : Type} `{!World W, !WorldClock W, !Anyhow, !SerdeJson}.

Lemma steady_run_program_ok p args : steady (run_program_ok p args).
Proof. unfold run_program_ok. steady. Qed.
#[local] Hint Resolve steady_run_program_ok : steady.
Lemma steady_delete_rules n sub : steady (delete_rules n sub).
Proof. induction n; simpl; steady. Qed.
#[local] Hint Resolve steady_delete_rules : steady.
Lemma steady_teardown_topology topo : steady (teardown_topology topo).
Proof. unfold teardown_topology, ignore_ip. steady. Qed.
Lemma steady_create_topology topo : steady (create_topology topo).
Proof.
  unfold create_topology, create_veth, disable_ipv6, run_ip, run_ip_netns, io_context. steady.
Qed.
Lemma steady_backup_fw_config : steady backup_fw_config.
Proof. unfold backup_fw_config. steady. Qed.
Lemma steady_restore_fw_config : steady restore_fw_config.
Proof. unfold restore_fw_config. steady. Qed.
Lemma steady_restart_service m s : steady (restart_service m s).
Proof. unfold restart_service. steady. Qed.
#[local] Hint Resolve steady_teardown_topology steady_create_topology
  steady_backup_fw_config steady_restore_fw_config steady_restart_service : steady.
Lemma steady_write_debug_id n v : steady (write_debug_id n v).
Proof. unfold write_debug_id. steady. Qed.
#[local] Hint Resolve steady_write_debug_id : steady.
Lemma steady_poll_exists p : steady (poll_for (secs 30) (secs 1) (exists_path p)).
Proof. apply steady_poll_for; [done|done|steady]. Qed.
#[local] Hint Resolve steady_poll_exists : steady.
Lemma steady_ensure_keystore global : steady (ensure_keystore_android global).
Proof. unfold ensure_keystore_android. steady. Qed.
Lemma steady_wait_healthy global : steady (wait_healthy global).
Proof. unfold wait_healthy. apply steady_poll_for; [done|done|steady]. Qed.
#[local] Hint Resolve steady_ensure_keystore steady_wait_healthy : steady.
Lemma steady_write_fw_config global topo : steady (write_fw_config global topo).
Proof. unfold write_fw_config. steady. Qed.
Lemma steady_write_fwv_conf global topo : steady (write_fwv_conf global topo).
Proof. unfold write_fwv_conf. steady. Qed.
#[local] Hint Resolve steady_write_fw_config steady_write_fwv_conf : steady.
Lemma steady_setup global : steady (setup global).
Proof. unfold setup. steady. Qed.
Lemma steady_clean global : steady (clean global).
Proof. unfold clean. steady. Qed.

End env_steady.

#[export] Hint Resolve steady_setup steady_clean : steady.

(** ** The backup *)

Section backup.
  Context {W : Type} `{!World W, !WorldFs W, !Anyhow, !SerdeJson}.

(** The configuration the user had: the backup when there is one. *)
Definition original (w : W) : option string :=
  match file w FW_BACKUP with Some s => Some s | None => file w FW_CONFIG end.

Lemma exists_wp p (Q : bool → W → Prop) w :
  (∀ w', (∀ q, file w' q = file w q) → Q (bool_decide (is_Some (file w p))) w') →
  wp (exists_path p) Q w.
Proof. intros HQ. apply wp_lift. rewrite file_exists. apply HQ. intros q. apply file_exists_same. Qed.

(** After a successful backup there is a backup, if there was a configuration;
    the user's configuration is the same. *)
Lemma backup_fw_config_wp w :
  wp backup_fw_config
     (λ r w', match r with
              | Ok _ => original w' = original w ∧
                        (is_Some (original w) → is_Some (file w' FW_BACKUP))
              | Err _ => True
              end) w.
Proof.
  unfold backup_fw_config. apply wp_bind, exists_wp. intros w1 H1.
  destruct (file w FW_CONFIG) as [c|] eqn:Hc.
  - rewrite bool_decide_true by eauto. cbn [andb]. apply wp_bind, exists_wp. intros w2 H2.
    rewrite H1. destruct (file w FW_BACKUP) as [b|] eqn:Hb.
    + rewrite bool_decide_true by eauto. apply wp_ret. unfold original. rewrite !H2, !H1, Hb. eauto.
    + rewrite bool_decide_false by (by intros [? ?]). cbn [negb].
      apply wp_bind, wp_lift. destruct (w_copy FW_CONFIG FW_BACKUP w2) as [r w3] eqn:Hcp.
      apply file_copy in Hcp as [Hcp Hx]. apply wp_ret. destruct r; [|done]. simpl.
      destruct Hcp as [_ Hcp]. unfold original. rewrite Hcp, H2, H1, Hb, Hc. eauto.
  - rewrite bool_decide_false by (by intros [? ?]). cbn [andb]. apply wp_bind, wp_ret.
    apply wp_ret. unfold original. rewrite !H1, Hc.
    destruct (file w FW_BACKUP); split; eauto.
Qed.

Lemma restore_fw_config_wp w :
  wp restore_fw_config
     (λ ok w', if ok : bool then is_Some (file w FW_BACKUP) ∧ file w' FW_CONFIG = file w FW_BACKUP
               else file w FW_BACKUP = None → ∀ q, file w' q = file w q) w.
Proof.
  unfold restore_fw_config. apply wp_bind, exists_wp. intros w1 H1.
  destruct (file w FW_BACKUP) as [b|] eqn:Hb.
  - rewrite bool_decide_true by eauto. cbn [negb].
    apply wp_bind, wp_lift. destruct (w_copy FW_BACKUP FW_CONFIG w1) as [r w2] eqn:Hcp.
    apply file_copy in Hcp as [Hcp Hx]. cbn [fst snd]. destruct r; cbn [is_ok]; [|by apply wp_ret].
    destruct Hcp as [_ Hcp].
    apply wp_bind, wp_lift. destruct (w_remove_file FW_BACKUP w2) as [r w3] eqn:Hrm.
    apply file_remove in Hrm as (_ & _ & Hrm). apply wp_ret. split; [eauto|].
    simpl. rewrite Hrm by done. by rewrite Hcp, H1.
  - rewrite bool_decide_false by (by intros [? ?]). by apply wp_ret.
Qed.

Lemma write_fw_config_wp global topo w :
  wp (write_fw_config global topo)
     (λ _ w', ∀ x, x ≠ FW_CONFIG → file w' x = file w x) w.
Proof.
  unfold write_fw_config. apply wp_bind, wp_lift. destruct (w_write _ _ w) as [r w1] eqn:E.
  apply wp_ret. by apply file_write in E as [_ E].
Qed.

(** Staging the test configuration, as [setup] does it. *)
Definition stage (global : GlobalArgs) (topo : Topology) : io W (res unit) :=
  _ <-? backup_fw_config ;; write_fw_config global topo.

Lemma stage_wp global topo w :
  is_Some (original w) →
  wp (stage global topo)
     (λ r w', is_ok r = true → original w' = original w) w.
Proof.
  intros Ho. apply wp_try. eapply wp_mono; [|apply backup_fw_config_wp].
  intros [u|e] w1; [|done]. intros [Ho1 Hb]. destruct (Hb Ho) as [b Hbk].
  eapply wp_mono; [|apply write_fw_config_wp]. intros r w2 Hw _.
  rewrite <- Ho1. unfold original. by rewrite Hw, Hbk by done.
Qed.

(** The same topology with another target address. *)
Definition retarget (topo : Topology) (ip : IpAddr) : Topology := {|
  t_netns := t_netns topo; t_target_iface := t_target_iface topo;
  t_peer_iface := t_peer_iface topo; t_target_ip := ip; t_peer_ip := t_peer_ip topo;
  t_prefix := t_prefix topo; t_policy_route := t_policy_route topo |}.

(** ** Theorems *)

(** The test configuration never costs the user theirs: however many times
    the environment is staged with whatever arguments, the configuration the
    user had before the first time is what a successful restore puts back. *)
Theorem config_restored (runs : list (GlobalArgs * Topology)) w :
  is_Some (original w) →
  wp (io_fold runs (λ _ gt, stage gt.1 gt.2) tt)
     (λ r w1, is_ok r = true →
        original w1 = original w ∧
        wp restore_fw_config (λ ok w2, ok = true → file w2 FW_CONFIG = original w) w1) w.
Proof.
  intros Ho.
  eapply wp_mono; [|apply (wp_fold (λ _ _ w', original w' = original w) (λ _ _, True))].
  - intros [u|e] w1; [|done]. intros Ho1 _. split; [done|].
    eapply wp_mono; [|apply restore_fw_config_wp].
    intros [] w2; [|done]. intros [[b Hb] Hf] _. rewrite Hf, Hb, <- Ho1. unfold original.
    by rewrite Hb.
  - intros i [g t] s w1 _ Ho1. eapply wp_mono; [|apply stage_wp; by rewrite Ho1].
    intros [u|e] w2 H2; [|done]. rewrite <- Ho1. by apply H2.
  - done.
Qed.

End backup.

(** C32. The network of the policy route is the CIDR block of the test
    addresses: for an address with [b] bits and a prefix up to [b], its low
    [b - prefix] bits are zero, and an address of the same family is in the
    block it spans exactly when it has the same network, so the policy rule of
    [setup-env] is the one [clean-env] deletes. *)
Theorem network_block topo ip :
  valid_ip (t_target_ip topo) → valid_ip ip → ip_bits ip = ip_bits (t_target_ip topo) →
  0 <= t_prefix topo <= ip_bits ip →
  let size := 2 ^ (ip_bits ip - t_prefix topo) in
  ip_num (network topo) mod size = 0 ∧
  (network (retarget topo ip) = network topo ↔
   ip_num (network topo) <= ip_num ip < ip_num (network topo) + size).
Proof.
  intros Ht Hi Hb Hp size.
  destruct (network_num topo Ht ltac:(lia)) as [_ Hn].
  destruct (network_num (retarget topo ip) Hi Hp) as [_ Hn'].
  pose proof (network_eq topo Ht ltac:(lia)) as He.
  pose proof (network_eq (retarget topo ip) Hi Hp) as He'.
  cbv zeta in *. cbn [t_target_ip t_prefix retarget] in Hn', He'.
  rewrite <- Hb in Hn, He. fold size in Hn, Hn', He, He'.
  assert (0 < size) as Hs by (apply Z.pow_pos_nonneg; lia).
  assert (network (retarget topo ip) = network topo ↔
          ip_num ip / size = ip_num (t_target_ip topo) / size) as ->.
  { split; intros E.
    - apply (f_equal ip_num) in E. rewrite Hn, Hn' in E. nia.
    - rewrite He, He', E. by destruct ip, (t_target_ip topo). }
  rewrite Hn. split; [by apply Z_mod_mult|]. set (q := ip_num (t_target_ip topo) / size).
  pose proof (Z.div_mod (ip_num ip) size ltac:(lia)) as Hd.
  pose proof (Z.mod_pos_bound (ip_num ip) size Hs).
  split; [intros E; rewrite E in Hd; lia|]. intros Hq. symmetry.
  apply (Z.div_unique_pos _ _ _ (ip_num ip - q * size)); lia.
Qed.

(** A device with the user's configuration. *)
Definition configured_device : device :=
  set_files {[ FW_CONFIG := "state_dir: /data/idd/idps-fw" ]} demo_device.

Definition demo_runs : list (GlobalArgs * Topology) :=
  [(default_args, topology_from default_args); (default_args, topology_from default_args)].

Lemma config_restored_witness :
  is_Some (original configured_device) ∧
  wp (io_fold demo_runs (λ _ gt, stage gt.1 gt.2) tt)
     (λ r w1, is_ok r = true →
        original w1 = original configured_device ∧
        wp restore_fw_config
           (λ ok w2, ok = true → file w2 FW_CONFIG = original configured_device) w1)
     configured_device.
Proof.
  split; [by exists "state_dir: /data/idd/idps-fw"|].
  apply (config_restored demo_runs configured_device). by exists "state_dir: /data/idd/idps-fw".
Defined.

Example stages_run :
  (result_ok ∘ fst) <$> io_fold demo_runs (λ _ gt, stage gt.1 gt.2) tt configured_device
    = Some (Some tt).
Proof. vm_compute. reflexivity. Qed.

Lemma network_block_witness :
  let topo := topology_from default_args in
  let ip := V4 DEFAULT_PEER_IP in
  (valid_ip (t_target_ip topo) ∧ valid_ip ip ∧ ip_bits ip = ip_bits (t_target_ip topo) ∧
   0 <= t_prefix topo <= ip_bits ip) ∧
  let size := 2 ^ (ip_bits ip - t_prefix topo) in
  ip_num (network topo) mod size = 0 ∧
  (network (retarget topo ip) = network topo ↔
   ip_num (network topo) <= ip_num ip < ip_num (network topo) + size).
Proof.
  assert (valid_ip (V4 DEFAULT_TARGET_IP)) as Ht by (repeat constructor; discriminate).
  assert (valid_ip (V4 DEFAULT_PEER_IP)) as Hp by (repeat constructor; discriminate).
  assert (0 <= t_prefix (topology_from default_args) <= ip_bits (V4 DEFAULT_PEER_IP)) as Hb
    by (split; discriminate).
  intros topo ip.
  split; [exact (conj Ht (conj Hp (conj eq_refl Hb)))|].
  pose proof (network_block topo ip Ht Hp eq_refl Hb) as Hw. exact Hw.
Defined.

Example subnet_default : subnet (topology_from default_args) = "10.123.0.0/24".
Proof. vm_compute. reflexivity. Qed.
