(* ===== verification/EnvLife.v ===== *)
(** * The life of the environment's files ([env.rs])

    [setup-env] and [clean-env] may be run any number of times, in any order,
    with any arguments, and each may fail half-way. [env_step] is one such run;
    the theorems are about every sequence of them. *)

From stdpp Require Import gmap relations.
From S2P Require Import Prelude RustInt RustStr RustNet Effects Sim Cli Config Env.

(** ** What happens in between leaves the files alone *)

Definition env_paths : list string := [FW_CONFIG; FW_BACKUP; FWV_CONF].

(** No command the program runs writes the three files it owns. *)
Class FilesKept (W : Type) `{!World W, !WorldFs W} : Prop := {
  kept_output a w q : q ∈ env_paths → file (w_output a w).2 q = file w q;
  kept_sleep d w q : q ∈ env_paths → file (w_sleep d w) q = file w q;
  kept_now w q : q ∈ env_paths → file (w_instant_now w).2 q = file w q;
  kept_create p w q : q ∈ env_paths → file (w_create_dir_all p w).2 q = file w q;
}.

Inductive env_op :=
  | OpSetup (global : GlobalArgs)
  | OpClean (global : GlobalArgs).

Section life.
  Context {W : Type} `{!World W, !WorldFs W, !FilesKept W, !Anyhow, !SerdeJson}.

Definition run_op (op : env_op) : io W (res unit) :=
  match op with OpSetup global => setup global | OpClean global => clean global end.

(** One run, whatever it answers. *)
Inductive env_step : W → W → Prop :=
  env_ran op w r w' : run_op op w = Some (r, w') → env_step w w'.

Definition env_files (w : W) : list (option string) := map (file w) env_paths.
Notation untouched := (moves (same env_files)).

Lemma env_files_eq w w' :
  (∀ q, q ∈ env_paths → file w' q = file w q) → same env_files w w'.
Proof. intros Hq. apply map_ext_in. intros q Hin. by apply Hq, list_elem_of_In. Qed.

Lemma env_files_inv w w' :
  same env_files w w' →
  file w' FW_CONFIG = file w FW_CONFIG ∧ file w' FW_BACKUP = file w FW_BACKUP ∧
  file w' FWV_CONF = file w FWV_CONF.
Proof. by intros [=]. Qed.

Lemma untouched_output a : untouched (cmd_output a).
Proof. apply moves_lift. intros w. apply env_files_eq. intros q. apply kept_output. Qed.
Lemma untouched_sleep d : untouched (sleep d).
Proof. apply moves_lift_. intros w. apply env_files_eq. intros q. apply kept_sleep. Qed.
Lemma untouched_println s : untouched (println s).
Proof. apply moves_lift_. intros w. apply env_files_eq. intros q _. apply file_println. Qed.
Lemma untouched_exists p : untouched (exists_path p).
Proof. apply moves_lift. intros w. apply env_files_eq. intros q _. apply file_exists_same. Qed.
Lemma untouched_create p : untouched (create_dir_all p).
Proof. apply moves_lift. intros w. apply env_files_eq. intros q. apply kept_create. Qed.
Lemma untouched_write p body : p ∉ env_paths → untouched (fs_write p body).
Proof.
  intros Hp. apply moves_lift. intros w. destruct (w_write p body w) as [r w'] eqn:E.
  apply file_write in E as [_ E]. apply env_files_eq. intros q Hq. apply E. by intros ->.
Qed.
#[local] Hint Resolve untouched_output untouched_sleep untouched_println untouched_exists
  untouched_create : moves.

Lemma untouched_poll timeout period check :
  untouched check → untouched (poll_for timeout period check).
Proof.
  intros Hc. apply moves_poll_for; [typeclasses eauto| | |done].
  - intros w. apply env_files_eq. intros q. apply kept_now.
  - intros w. apply env_files_eq. intros q. apply kept_sleep.
Qed.

Lemma untouched_run_program_ok p args : untouched (run_program_ok p args).
Proof. unfold run_program_ok. moves. Qed.
#[local] Hint Resolve untouched_run_program_ok : moves.
Lemma untouched_delete_rules n sub : untouched (delete_rules n sub).
Proof. induction n; simpl; moves. Qed.
#[local] Hint Resolve untouched_delete_rules : moves.
Lemma untouched_teardown topo : untouched (teardown_topology topo).
Proof. unfold teardown_topology, ignore_ip. moves. Qed.

(** A path outside [/etc] is none of the three. *)
Lemma not_env_path p : String.prefix "/etc/" p = false → p ∉ env_paths.
Proof. intros Hp Hs. unfold env_paths in Hs. set_unfold. by destruct Hs as [->|[->|[->|[]]]]. Qed.

Lemma untouched_disable_ipv6 topo : untouched (disable_ipv6 topo).
Proof.
  unfold disable_ipv6.
  assert (∀ iface, untouched (fs_write ("/proc/sys/net/ipv6/conf/" +:+ iface) "1")).
  { intros iface. by apply untouched_write, not_env_path. }
  moves.
Qed.
#[local] Hint Resolve untouched_teardown untouched_disable_ipv6 : moves.
Lemma untouched_create_topology topo : untouched (create_topology topo).
Proof. unfold create_topology, create_veth, run_ip, run_ip_netns. moves. Qed.
Lemma untouched_restart m s : untouched (restart_service m s).
Proof. unfold restart_service. moves. Qed.
Lemma untouched_wait_healthy global : untouched (wait_healthy global).
Proof. apply untouched_poll. moves. Qed.
Lemma untouched_write_debug_id n v : untouched (write_debug_id n v).
Proof.
  unfold write_debug_id. assert (untouched (fs_write ("/data/idd/" +:+ n) v)).
  { by apply untouched_write, not_env_path. }
  moves.
Qed.
#[local] Hint Resolve untouched_create_topology untouched_restart untouched_wait_healthy
  untouched_write_debug_id : moves.
Lemma untouched_keystore global : untouched (ensure_keystore_android global).
Proof.
  unfold ensure_keystore_android.
  assert (untouched (poll_for (secs 30) (secs 1) (exists_path KEYSTORE)))
    by (apply untouched_poll; moves).
  moves.
Qed.
#[local] Hint Resolve untouched_keystore : moves.

(** ** The user's configuration along a run *)

(** The configuration the user had is still the one to restore. *)
Definition keeps (w w' : W) : Prop := is_Some (original w) → original w' = original w.

#[local] Instance keeps_preorder : PreOrder keeps.
Proof.
  split; [by intros w ?|]. intros w1 w2 w3 H12 H23 Hs. unfold keeps in *.
  rewrite H23; [by apply H12|by rewrite H12].
Qed.

Lemma untouched_keeps {A} (m : io W A) : untouched m → moves keeps m.
Proof.
  intros Hm w a w' Hr. apply Hm, env_files_inv in Hr as (Hc & Hb & _). unfold keeps, original.
  by rewrite Hc, Hb.
Qed.

Lemma keeps_write_fwv_conf global topo : moves keeps (write_fwv_conf global topo).
Proof.
  intros w r w'. unfold write_fwv_conf, fs_write, lift, io_bind.
  destruct (w_write FWV_CONF _ w) as [x w1] eqn:E. intros [= <- <-].
  apply file_write in E as [_ E]. unfold keeps, original. by rewrite !E.
Qed.

Lemma keeps_remove_conf : moves keeps (remove_file FWV_CONF).
Proof.
  intros w r w'. unfold remove_file, lift. destruct (w_remove_file FWV_CONF w) as [x w1] eqn:E.
  intros [= <- <-]. apply file_remove in E as (_ & _ & E). unfold keeps, original. by rewrite !E.
Qed.

Lemma keeps_restore : moves keeps restore_fw_config.
Proof.
  intros w ok w'. unfold restore_fw_config, exists_path, fs_copy, remove_file, lift, io_bind, io_ret.
  destruct (w_exists FW_BACKUP w) as [b w1] eqn:E.
  pose proof (file_exists FW_BACKUP w) as Hb. rewrite E in Hb. cbn [fst] in Hb.
  assert (∀ q, file w1 q = file w q) as H1.
  { intros q. pose proof (file_exists_same FW_BACKUP q w) as Hs. by rewrite E in Hs. }
  unfold keeps, original. destruct (file w FW_BACKUP) as [s|] eqn:Hf.
  - rewrite Hb, bool_decide_true by eauto. cbn [negb].
    destruct (w_copy FW_BACKUP FW_CONFIG w1) as [r w2] eqn:Hc.
    apply file_copy in Hc as [Hc Hx]. destruct r as [u|e]; cbn [is_ok].
    + destruct Hc as [_ Hc]. destruct (w_remove_file FW_BACKUP w2) as [r w3] eqn:Hr.
      apply file_remove in Hr as (_ & Hr & Hx'). intros [= <- <-] _.
      destruct (file w3 FW_BACKUP) as [s'|] eqn:H3.
      * specialize (Hr s' eq_refl). by rewrite Hx, H1, Hf in Hr by done.
      * by rewrite Hx', Hc, H1, Hf by done.
    + intros [= <- <-] _. by rewrite Hx, H1, Hf by done.
  - rewrite Hb, bool_decide_false by (by intros [? ?]). intros [= <- <-] _. by rewrite !H1, Hf.
Qed.

(** A backup copy that fails and leaves an unfinished file where there was
    none: [std::fs::copy] promises no better, and the next [setup-env] takes
    the file for the backup. *)
Definition torn (w w' : W) : Prop :=
  file w FW_BACKUP = None ∧ is_Some (file w' FW_BACKUP) ∧ file w' FW_BACKUP ≠ file w FW_CONFIG ∧
  ∃ w0 e, same env_files w w0 ∧ w_copy FW_CONFIG FW_BACKUP w0 = (Err e, w').

Lemma torn_from w w0 w' : same env_files w w0 → torn w0 w' → torn w w'.
Proof.
  intros Hs (Hb & Ht & Hd & w1 & e & Hs1 & Hc). pose proof Hs as (Ec & Eb & _)%env_files_inv.
  rewrite Ec in Hd. rewrite Eb in Hb. split_and!; [done..|].
  exists w1, e. split; [by etransitivity|done].
Qed.

Lemma backup_run w r w' :
  backup_fw_config w = Some (r, w') →
  (keeps w w' ∧ (is_ok r = true → is_Some (original w) → file w' FW_BACKUP = original w)) ∨
  (is_ok r = false ∧ torn w w').
Proof.
  unfold backup_fw_config, exists_path, fs_copy, lift, io_bind, io_ret.
  destruct (w_exists FW_CONFIG w) as [c w1] eqn:E.
  pose proof (file_exists FW_CONFIG w) as Hc. rewrite E in Hc. cbn [fst] in Hc.
  assert (∀ q, file w1 q = file w q) as H1.
  { intros q. pose proof (file_exists_same FW_CONFIG q w) as Hs. by rewrite E in Hs. }
  unfold keeps, original. destruct c; cbn [andb negb].
  2: { intros [= <- <-]. symmetry in Hc. apply bool_decide_eq_false in Hc. rewrite !H1.
       destruct (file w FW_BACKUP); left; [done|]. split; [done|]. by intros _ ?. }
  symmetry in Hc. apply bool_decide_eq_true in Hc as [s Hs].
  destruct (w_exists FW_BACKUP w1) as [b w2] eqn:E'.
  pose proof (file_exists FW_BACKUP w1) as Hb. rewrite E', H1 in Hb. cbn [fst] in Hb.
  assert (∀ q, file w2 q = file w q) as H2.
  { intros q. pose proof (file_exists_same FW_BACKUP q w1) as Hs'. by rewrite E', H1 in Hs'. }
  destruct b; cbn [negb]; symmetry in Hb.
  - apply bool_decide_eq_true in Hb as [t Ht]. intros [= <- <-]. left. by rewrite !H2, Ht.
  - apply bool_decide_eq_false in Hb. apply eq_None_not_Some in Hb.
    destruct (w_copy FW_CONFIG FW_BACKUP w2) as [r' w3] eqn:Hcp. pose proof Hcp as Hcp'.
    apply file_copy in Hcp' as [Hcp' Hx]. destruct r' as [u|e]; intros [= <- <-].
    + left. destruct Hcp' as [_ Hcp']. by rewrite Hb, Hcp', H2, Hs.
    + rewrite Hb, (Hx FW_CONFIG), H2, Hs by done.
      destruct (decide (file w3 FW_BACKUP = None)) as [Hn|Hn]; [left; by rewrite Hn|].
      destruct (decide (file w3 FW_BACKUP = Some s)) as [Hy|Hy]; [left; by rewrite Hy|].
      right. split; [done|]. split_and!; [done|by apply not_eq_None_Some|by rewrite Hs|].
      exists w2, e. split; [by apply env_files_eq|done].
Qed.

(** Computations that cost nobody their configuration, unless their backup is
    torn, which fails them. *)
Definition careful {A} (m : io W (res A)) : Prop := ∀ w r w',
  m w = Some (r, w') → keeps w w' ∨ (is_ok r = false ∧ torn w w').

Lemma careful_keeps {A} (m : io W (res A)) : moves keeps m → careful m.
Proof. intros Hm w r w' Hr. left. by eapply Hm. Qed.

Lemma careful_bind {A B} (m : io W A) (k : A → io W (res B)) :
  untouched m → (∀ a, careful (k a)) → careful (io_bind m k).
Proof.
  intros Hm Hk w r w' (a & w1 & Hr & Hs)%io_bind_inv. pose proof (Hm _ _ _ Hr) as Hu.
  apply (untouched_keeps _ Hm) in Hr. apply Hk in Hs as [Hs|[Hf Ht]].
  - left. by transitivity w1.
  - right. split; [done|]. by eapply torn_from.
Qed.

Lemma careful_try {A B} (m : io W (res A)) (k : A → io W (res B)) :
  untouched m → (∀ a, careful (k a)) → careful (io_try m k).
Proof.
  intros Hm Hk. apply careful_bind; [done|]. intros [a|e]; [apply Hk|].
  apply careful_keeps. intros w r w' [= <- <-]. reflexivity.
Qed.

(** Writing the test configuration is safe once the backup has succeeded. *)
Lemma careful_stage {A} global topo (k : unit → io W (res A)) :
  (∀ u, moves keeps (k u)) →
  careful (_ <-? backup_fw_config ;; (u <-? write_fw_config global topo ;; k u)).
Proof.
  intros Hk w r w' Hrun. unfold io_try at 1, io_bind at 1 in Hrun.
  destruct (backup_fw_config w) as [[b w1]|] eqn:Hb; [|done].
  destruct (backup_run w b w1 Hb) as [[Hkeep Hbk]|[Hf Ht]].
  2: { destruct b; [done|]. injection Hrun as <- <-. by right. }
  left. destruct b as [u|e]; [|by injection Hrun as <- <-].
  intros Ho. specialize (Hbk eq_refl Ho).
  assert (∀ v w2, write_fw_config global topo w1 = Some (v, w2) → original w2 = original w) as Hw.
  { unfold write_fw_config, fs_write, lift, io_bind. intros v w2.
    destruct (w_write FW_CONFIG _ w1) as [x w3] eqn:E. intros [= <- <-].
    apply file_write in E as [_ E]. unfold original at 1. rewrite E, Hbk by done.
    by destruct Ho as [s ->]. }
  unfold io_try, io_bind in Hrun. destruct (write_fw_config global topo w1) as [[v w2]|]; [|done].
  specialize (Hw v w2 eq_refl). destruct v as [v|e]; [|by injection Hrun as <- <-].
  apply Hk in Hrun. unfold keeps in Hrun. by rewrite Hrun, Hw by by rewrite Hw.
Qed.

#[local] Hint Extern 1 (moves keeps _) => apply untouched_keeps; solve [eauto with moves] : moves.
#[local] Hint Resolve keeps_write_fwv_conf keeps_remove_conf keeps_restore : moves.

Lemma careful_setup global : careful (setup global).
Proof.
  unfold setup. cbv zeta.
  apply careful_bind; [moves|intros ?]. apply careful_bind; [moves|intros ?].
  apply careful_try; [moves|intros ?]. apply careful_bind; [moves|intros ?].
  apply careful_bind; [moves|intros ?]. apply careful_bind; [moves|intros r].
  destruct (io_ctx _ r); [|apply careful_keeps; moves]. apply careful_stage. moves.
Qed.

Lemma keeps_clean global : moves keeps (clean global).
Proof. unfold clean. moves. Qed.

(** A [setup-env] that fails on a torn backup. *)
Definition spoiled (w w' : W) : Prop :=
  ∃ global e, setup global w = Some (Err e, w') ∧ torn w w'.

Lemma torn_config w w' : torn w w' → file w' FW_CONFIG = file w FW_CONFIG.
Proof.
  intros (_ & _ & _ & w0 & e & (Ec & _)%env_files_inv & Hc). apply file_copy in Hc as [_ Hc].
  by rewrite Hc, Ec.
Qed.

Lemma step_keeps w w' : env_step w w' → keeps w w' ∨ spoiled w w'.
Proof.
  intros [[global|global] w0 r w1 Hrun]; cbn [run_op] in Hrun; [|left; by eapply keeps_clean].
  destruct (careful_setup global _ _ _ Hrun) as [Hk|[Hf Ht]]; [by left|].
  right. destruct r as [u|e]; [done|]. by exists global, e.
Qed.

(** Up to the first torn backup the configuration is kept, and after the torn
    backup it is still where it was. *)
Lemma keeps_steps w w' :
  is_Some (original w) → rtc env_step w w' →
  original w' = original w ∨
  ∃ w1 w2, rtc env_step w w1 ∧ original w1 = original w ∧ spoiled w1 w2 ∧
    file w2 FW_CONFIG = original w ∧ rtc env_step w2 w'.
Proof.
  intros Ho. induction 1 as [w|w1 w2 w3 Hs Hr IH]; [by left|].
  destruct (step_keeps _ _ Hs) as [Hk|Hk].
  - specialize (Hk Ho). rewrite <- Hk in *. destruct (IH Ho) as [IH'|(a & b & Ha & IH')]; [by left|].
    right. exists a, b. split; [by eapply rtc_l|done].
  - right. exists w1, w2. destruct Hk as (global & e & Hk & Ht).
    split_and!; [by apply rtc_refl|done|by exists global, e| |done].
    rewrite (torn_config _ _ Ht). destruct Ht as [Hb _]. unfold original. by rewrite Hb.
Qed.

(** ** What a successful [setup-env] leaves *)

(** The two files as the arguments ask, and the user's configuration aside. *)
Definition staged (global : GlobalArgs) (w : W) : Prop :=
  file w FW_CONFIG = Some (unlines (fw_config_lines global (topology_from global))) ∧
  file w FWV_CONF = Some (unlines (fwv_conf_lines global (topology_from global))).

(** The steps of a run that leave the files alone. *)
Lemma bind_untouched {A B} (m : io W A) (k : A → io W B) w b w' :
  untouched m → io_bind m k w = Some (b, w') →
  ∃ a w1, same env_files w w1 ∧ k a w1 = Some (b, w').
Proof. intros Hm (a & w1 & Hr & Hk)%io_bind_inv. apply Hm in Hr. eauto. Qed.
Lemma try_untouched {E A B} (m : io W (result E A)) (k : A → io W (result E B)) w b w' :
  untouched m → io_try m k w = Some (Ok b, w') →
  ∃ a w1, same env_files w w1 ∧ k a w1 = Some (Ok b, w').
Proof. intros Hm (a & w1 & Hr & Hk)%io_try_ok_inv. apply Hm in Hr. eauto. Qed.

Lemma same_original w w' : same env_files w w' → original w' = original w.
Proof. intros (Hc & Hb & _)%env_files_inv. unfold original. by rewrite Hc, Hb. Qed.

(** Steps over the next computation, which leaves the files alone. *)
Ltac skip_bind H S := apply bind_untouched in H as (? & ? & S & H); [|moves].
Ltac skip_try H S := apply try_untouched in H as (? & ? & S & H); [|moves].
Ltac chain := repeat (etransitivity; [eassumption|]); eassumption || reflexivity.

(** A write that is reported as done. *)
Lemma write_ok p body what w u w' :
  (r <- fs_write p body ;; io_ret (io_ctx what r)) w = Some (Ok u, w') →
  file w' p = Some body ∧ ∀ q, q ≠ p → file w' q = file w q.
Proof.
  unfold fs_write, lift, io_bind, io_ret. destruct (w_write p body w) as [r w1] eqn:E.
  apply file_write in E as [E Hx]. destruct r; [|done]. intros [= _ <-]. auto.
Qed.

Lemma setup_ok global w w' :
  setup global w = Some (Ok tt, w') →
  staged global w' ∧ (is_Some (original w) → file w' FW_BACKUP = original w).
Proof.
  intros Hs. unfold setup in Hs. cbv zeta in Hs. set (topo := topology_from global) in *.
  skip_bind Hs S1. skip_bind Hs S2. skip_try Hs S3. skip_bind Hs S4. skip_bind Hs S5.
  apply bind_untouched in Hs as (r & w6 & S6 & Hs); [|moves].
  assert (original w6 = original w) as Ho by (apply same_original; chain).
  destruct (io_ctx _ r); [|done].
  apply io_try_ok_inv in Hs as (? & w7 & H7 & Hs).
  apply backup_run in H7 as [[_ H7]|[? _]]; [|done]. specialize (H7 eq_refl). rewrite Ho in H7.
  apply io_try_ok_inv in Hs as (? & w8 & H8 & Hs). apply write_ok in H8 as [C8 H8].
  apply bind_untouched in Hs as (? & w9 & S9 & Hs); [|moves].
  apply env_files_inv in S9 as (C9 & B9 & _).
  apply io_try_ok_inv in Hs as (? & w10 & H10 & Hs). apply write_ok in H10 as [V10 H10].
  assert (same env_files w10 w') as (C & B & V)%env_files_inv.
  { skip_bind Hs S11. destruct (mode global).
    - skip_try Hs S12. skip_try Hs S13.
      apply bind_untouched in Hs as (healthy & w14 & S14 & Hs); [|moves]. destruct healthy.
      + skip_bind Hs S15. injection Hs as <-. chain.
      + apply io_bind_inv in Hs as (? & ? & _ & Hs). by apply io_bind_inv in Hs as (? & ? & _ & ?).
    - skip_bind Hs S12. injection Hs as <-. chain. }
  unfold staged. fold topo.
  by rewrite C, B, V, (H10 FW_CONFIG), (H10 FW_BACKUP), C9, B9, C8, (H8 FW_BACKUP) by done.
Qed.

(** ** What [clean-env] leaves *)

(** Copies and removals of files that are there succeed. *)
Definition fs_reliable : Prop :=
  (∀ p q w, is_Some (file w p) → is_ok (w_copy p q w).1 = true) ∧
  (∀ p w, is_Some (file w p) → is_ok (w_remove_file p w).1 = true).

Lemma remove_reliable p w r w' :
  fs_reliable → remove_file p w = Some (r, w') →
  file w' p = None ∧ ∀ q, q ≠ p → file w' q = file w q.
Proof.
  intros [_ Hr] [= Hrun]. specialize (Hr p w). rewrite Hrun in Hr.
  apply file_remove in Hrun as (Hok & Hnew & Hx). split; [|done].
  destruct (file w' p) as [s|]; [|done]. apply Hok, Hr. eauto.
Qed.

Lemma restore_reliable w ok w' :
  fs_reliable → restore_fw_config w = Some (ok, w') →
  file w' FW_CONFIG = original w ∧ file w' FW_BACKUP = None.
Proof.
  intros Hf. unfold restore_fw_config, exists_path, lift.
  intros (b & w1 & [= He] & Hs)%io_bind_inv.
  pose proof (file_exists FW_BACKUP w) as Hb. pose proof (file_exists_same FW_BACKUP) as H1.
  specialize (λ q, H1 q w). rewrite He in Hb, H1. cbn [fst snd] in *. unfold original.
  destruct (file w FW_BACKUP) as [s|] eqn:E; rewrite ?bool_decide_true in Hb by eauto;
    rewrite ?bool_decide_false in Hb by (by intros [? ?]); subst b; cbn [negb] in Hs.
  - unfold fs_copy, lift in Hs. apply io_bind_inv in Hs as (r & w2 & [= Hc] & Hs).
    pose proof (proj1 Hf FW_BACKUP FW_CONFIG w1) as Hok. rewrite Hc, H1 in Hok.
    specialize (Hok (ex_intro _ s E)). cbn [fst] in Hok. rewrite Hok in Hs.
    apply file_copy in Hc as [Hc Hx]. destruct r; [|done].
    apply io_bind_inv in Hs as (? & w3 & Hr & [= <- <-]).
    apply remove_reliable in Hr as [Hr Hx']; [|done].
    destruct Hc as [_ Hc]. by rewrite Hx', Hc, H1, E.
  - injection Hs as <- <-. by rewrite !H1, E.
Qed.

Lemma clean_reliable global w r w' :
  fs_reliable → clean global w = Some (r, w') →
  file w' FW_CONFIG = original w ∧ file w' FW_BACKUP = None ∧ file w' FWV_CONF = None.
Proof.
  intros Hf Hs. unfold clean in Hs. cbv zeta in Hs. skip_bind Hs S1.
  apply io_bind_inv in Hs as (ok & w2 & H2 & Hs). apply restore_reliable in H2 as [C2 B2]; [|done].
  rewrite (same_original _ _ S1) in C2.
  apply bind_untouched in Hs as (? & w3 & S3 & Hs); [|moves].
  apply env_files_inv in S3 as (C3 & B3 & _).
  apply io_bind_inv in Hs as (? & w4 & H4 & Hs). apply remove_reliable in H4 as [V4' H4]; [|done].
  apply bind_untouched in Hs as (? & w5 & S5 & Hs); [|moves].
  apply env_files_inv in S5 as (C5 & B5 & V5). injection Hs as <- <-.
  by rewrite C5, B5, V5, !H4, C3, B3, C2, B2, V4' by done.
Qed.

(** ** Theorem *)

(** C7. The test environment costs the user their configuration only through
    a torn backup. Take any sequence of [setup-env] and [clean-env] runs, with
    any arguments, each succeeding or failing anywhere. Either one of them was a
    [setup-env] that failed because copying the configuration to the backup
    failed half-way and left an unfinished file there (up to that run the
    configuration was kept, and right after it the configuration file still
    held it); or the configuration there was before the first run is the one a
    restore would put back now. In that case a [setup-env] that succeeds leaves
    both files as its arguments ask and the user's configuration in the backup,
    and a [clean-env] always ends, and where copies and removals work it leaves
    exactly the user's configuration, no backup and no [fw-verify.conf]. *)
Theorem env_lifecycle `{!WorldClock W} w w' :
  is_Some (original w) → rtc env_step w w' →
  (∃ w1 w2, rtc env_step w w1 ∧ original w1 = original w ∧ spoiled w1 w2 ∧
     file w2 FW_CONFIG = original w ∧ rtc env_step w2 w') ∨
  (original w' = original w ∧
   (∀ global w2, setup global w' = Some (Ok tt, w2) →
      staged global w2 ∧ file w2 FW_BACKUP = original w) ∧
   (∀ global, wp (clean global) (λ _ w2, fs_reliable →
      file w2 FW_CONFIG = original w ∧ file w2 FW_BACKUP = None ∧ file w2 FWV_CONF = None) w')).
Proof.
  intros Ho Hs. destruct (keeps_steps _ _ Ho Hs) as [E|E]; [right|by left].
  split_and!; [done|..].
  - intros global w2 H2. apply setup_ok in H2 as [H2 Hb]. rewrite <- E. split; [done|].
    apply Hb. by rewrite E.
  - intros global. destruct (wp_elim _ _ _ (steady_clean global w')) as (r & w2 & H2 & _).
    eapply wp_intro; [exact H2|]. intros Hf. rewrite <- E. by eapply clean_reliable.
Qed.

End life.

(** ** A device *)

#[export] Instance sim_files_kept : FilesKept device.
Proof. by split. Qed.

Section after.
  Context {W : Type} `{!World W, !WorldClock W, !WorldFs W, !Anyhow, !SerdeJson}.

(** The world after a run. *)
Definition after (op : env_op) (w : W) : W :=
  match run_op op w with Some (_, w') => w' | None => w end.

Lemma after_step op w : env_step w (after op w).
Proof.
  assert (steady (run_op op)) as Hs by (destruct op; [apply steady_setup|apply steady_clean]).
  destruct (wp_elim _ _ _ (Hs w)) as (r & w' & Hr & _). unfold after. rewrite Hr. by econstructor.
Qed.

End after.

Lemma sim_fs_reliable : fs_reliable (W := device).
Proof. split; intros; cbn in *; destruct (d_files w !! p); [done|by destruct H as [? [=]]..]. Qed.

(** The simulated copy fails only where there is nothing to copy. *)
Lemma sim_not_spoiled w w' : ¬ spoiled (W := device) w w'.
Proof.
  intros (_ & _ & _ & Hb & [s Hs] & _ & w0 & e & (_ & Eb & _)%env_files_inv & Hc). simpl in *.
  destruct (d_files w0 !! FW_CONFIG); [done|]. injection Hc as <- <-. congruence.
Qed.

Lemma env_lifecycle_witness :
  let w := after (OpSetup default_args) (after (OpSetup default_args) configured_device) in
  original w = Some "state_dir: /data/idd/idps-fw" ∧
  wp (clean default_args) (λ _ w2,
    file w2 FW_CONFIG = Some "state_dir: /data/idd/idps-fw" ∧ file w2 FW_BACKUP = None ∧
    file w2 FWV_CONF = None) w.
Proof.
  intros w. assert (is_Some (original configured_device)) as Ho by by eexists.
  destruct (env_lifecycle configured_device w Ho
    (rtc_l _ _ _ _ (after_step _ _) (rtc_once _ _ (after_step _ _))))
    as [(w1 & w2 & _ & _ & Hs & _)|(Ho' & _ & Hc)].
  - destruct (sim_not_spoiled _ _ Hs).
  - split; [exact Ho'|]. eapply wp_mono; [|exact (Hc default_args)].
    intros r w2 H2. exact (H2 sim_fs_reliable).
Defined.

(** ** Where the backup is not one *)

(** A device whose disk is full while the backup is copied: the copy fails
    after it has created its file. *)
Definition no_space : io_error := mk_io_error OtherKind "No space left on device (os error 28)".

Definition full_disk : World device := {|
  Child := list string;
  w_instant_now := @w_instant_now _ sim_world;
  w_epoch_ms := @w_epoch_ms _ sim_world;
  w_sleep := tick;
  w_output := @w_output _ sim_world;
  w_spawn b a w := (Ok a, run_command a w);
  w_wait_with_output c w := (d_answer w (length (d_log w)) c, w);
  w_kill c w := (Ok tt, w);
  w_exists := @w_exists _ sim_world;
  w_read_to_string := @w_read_to_string _ sim_world;
  w_write := @w_write _ sim_world;
  w_copy p q w :=
    if decide (q = FW_BACKUP) then (Err no_space, set_files (<[q := ""]> (d_files w)) w)
    else @w_copy _ sim_world p q w;
  w_remove_file := @w_remove_file _ sim_world;
  w_create_dir_all := @w_create_dir_all _ sim_world;
  w_current_exe := @w_current_exe _ sim_world;
  w_println := @w_println _ sim_world;
  w_process_id := @w_process_id _ sim_world;
|}.

(** It is a device as the other theorems assume it. *)
Definition full_disk_fs : @WorldFs device full_disk.
Proof.
  refine (@Build_WorldFs device full_disk (λ w p, d_files w !! p) (@file_exists _ _ sim_fs)
    (@file_exists_same _ _ sim_fs) (@file_read _ _ sim_fs) _ (@file_write _ _ sim_fs)
    (@file_remove _ _ sim_fs) (@file_println _ _ sim_fs)).
  intros p q w r w'. simpl. case_decide as Hq; [|exact (@file_copy _ _ sim_fs p q w r w')].
  intros [= <- <-]. split; [done|]. intros x Hx. apply (lookup_insert_ne (d_files w) q x ""). congruence.
Defined.

(** The first case of the theorem does occur: the next [setup-env] takes the unfinished copy
    for the backup and overwrites the configuration, and [clean-env] restores
    an empty file. *)
Lemma partial_backup_lost :
  (λ p, (p.1, d_files p.2 !! FW_CONFIG)) <$>
    (r1 <- @setup device full_disk _ _ default_args ;;
     r2 <- @setup device full_disk _ _ default_args ;;
     r3 <- @clean device full_disk _ default_args ;;
     io_ret (is_ok r1, is_ok r2, is_ok r3)) configured_device
  = Some ((false, true, true), Some "").
Proof. vm_compute. reflexivity. Qed.

(** [is_Some (original w)] is needed: without a configuration of the user's,
    [clean-env] leaves the test configuration in place, and from the second
    [setup-env] on takes it for the user's. *)
Lemma no_config_left :
  (λ p, bool_decide (d_files p.2 !! FW_CONFIG =
          Some (unlines (fw_config_lines default_args (topology_from default_args))))) <$>
    (r1 <- setup default_args ;; r2 <- clean default_args ;; io_ret (is_ok r1 && is_ok r2))
      demo_device
  = Some true ∧
  (λ p, (p.1, bool_decide (d_files p.2 !! FW_BACKUP =
          Some (unlines (fw_config_lines default_args (topology_from default_args)))))) <$>
    (r1 <- setup default_args ;; r2 <- setup default_args ;; io_ret (is_ok r1 && is_ok r2))
      demo_device
  = Some (true, true).
Proof. split; vm_compute; reflexivity. Qed.
