(* ===== verification/AgentNet.v ===== *)
(** * The network workers ([agent/arp.rs], [agent/connflood.rs], [agent/listen.rs])

    The ARP spoofer, the connection flood and the listener, over the calls of
    [Net]. [NetTrace] is what the proofs know of those calls: the network
    activity they leave behind and the time they take. *)

From S2P Require Import Prelude RustInt RustStr RustNet Effects Sim Packets Cli Sockets SimNet.

(** ** [agent/arp.rs] *)

(** [u16::to_be] on the little-endian targets of the program. *)
Definition to_be_u16 (n : Z) : Z := n mod 256 * 256 + n / 256.
(** [src as u8] of a [c_char]. *)
Definition as_u8 (n : Z) : Z := n mod 256.
(** [libc::ifreq::ifr_name]. *)
Definition IFNAMSIZ : nat := 16.

(** Where [CString::new] fails. *)
Fixpoint nul_position (s : string) : option nat :=
  match s with
  | "" => None
  | String c s => if Ascii.eqb c Ascii.zero then Some 0%nat else S <$> nul_position s
  end.

Section arp.
  Context {W : Type} `{!World W, !Net W, !Anyhow, !SerdeJson}.

Definition os_error : io W io_error := lift n_last_os_error.
Definition close (fd : Z) : io W unit := lift_ (n_close fd).

(** Fails with the error of the last system call. *)
Definition os_failed {A} (what : string) : io W (res A) :=
  e <- os_error ;; io_ret (Err (add_context what (from_io e))).

(** The hardware address in [sa_data], over a zeroed array. *)
Definition mac_of (sa_data : list Z) : list Z := take 6 (map as_u8 sa_data ++ zeroes 6).

Definition interface_mac (iface : string) : io W (res (list Z)) :=
  fd <- lift n_dgram_socket ;;
  if fd <? 0 then os_failed "failed to open ioctl socket" else
  if (IFNAMSIZ <=? String.length iface)%nat then
    close fd ;;; io_ret (Err (anyhow ("interface name too long: " +:+ iface)))
  else
  hw <- lift (n_siocgifhwaddr fd iface) ;;
  close fd ;;;
  if hw.1 <? 0 then os_failed "SIOCGIFHWADDR failed"
  else io_ret (Ok (mac_of hw.2)).

(** The link-layer broadcast address on the interface. *)
Definition broadcast_ll (ifindex : Z) : sockaddr_ll :=
  mk_sll (to_be_u16 ETH_P_ARP) ifindex 6 (broadcast_mac ++ zeroes 2).

Definition arp_send (fd : Z) (frame : list Z) (addr : sockaddr_ll) (sent : Z) (_ : unit)
    : io W (res Z) :=
  ret <- lift (n_sendto fd frame addr) ;;
  if 0 <=? ret then sent <- unwrap (u32_add sent 1) ;; io_ret (Ok sent)
  else io_ret (Ok sent).

Definition arp_line (args : ArpSpoofArgs) (sent : Z) : string :=
  to_string (json (TObj
    [("iface", TStr (as_iface args));
     ("claim_ip", TStr (ipv4_to_string (as_claim_ip args)));
     ("requested", TInt (as_count args));
     ("sent", TInt sent)])).

Definition arp_run (args : ArpSpoofArgs) : io W (res unit) :=
  match nul_position (as_iface args) with
  | Some i =>
      io_ret (Err (add_context "invalid interface name"
        (anyhow ("nul byte found in provided data at position: " +:+ uint_to_string (Z.of_nat i)))))
  | None =>
  ifindex <- lift (n_if_nametoindex (as_iface args)) ;;
  if ifindex =? 0 then
    io_ret (Err (anyhow ("interface " +:+ as_iface args +:+ " not found")))
  else
  src_mac <-? interface_mac (as_iface args) ;;
  fd <- lift (n_packet_socket (to_be_u16 ETH_P_ARP)) ;;
  if fd <? 0 then os_failed "failed to open AF_PACKET socket (needs root)" else
  frame <- unwrap (build_arp_reply src_mac (as_claim_ip args)) ;;
  sent <-? io_fold (replicate (Z.to_nat (as_count args)) tt)
             (arp_send fd frame (broadcast_ll ifindex)) 0 ;;
  close fd ;;;
  println (arp_line args sent) ;;;
  io_ret (Ok tt)
  end.

End arp.

(** ** [agent/connflood.rs] *)

Section connflood.
  Context {W : Type} `{!World W, !Net W, !Anyhow, !SerdeJson}.

(** The connections held and the attempts that failed. *)
Definition flood_connect (dst : SocketAddr) (timeout : Z) (s : list TcpStream * Z) (_ : unit)
    : io W (res (list TcpStream * Z)) :=
  r <- lift (n_tcp_connect dst timeout) ;;
  match r with
  | Ok stream => io_ret (Ok (s.1 ++ [stream], s.2))
  | Err _ => failed <- unwrap (u32_add s.2 1) ;; io_ret (Ok (s.1, failed))
  end.

Definition flood_line (args : ConnFloodArgs) (established failed : Z) : string :=
  to_string (json (TObj
    [("to", TStr (ip_to_string (cf_to args)));
     ("dport", TInt (cf_dport args));
     ("requested", TInt (cf_count args));
     ("established", TInt established);
     ("failed", TInt failed);
     ("held_secs", TInt (cf_hold_secs args))])).

Definition connflood_run (args : ConnFloodArgs) : io W (res unit) :=
  let dst := mk_addr (cf_to args) (cf_dport args) in
  s <-? io_fold (replicate (Z.to_nat (cf_count args)) tt)
          (flood_connect dst (millis (cf_timeout_ms args))) ([], 0) ;;
  let established := Z.of_nat (length s.1) in
  sleep (secs (cf_hold_secs args)) ;;;
  lift_ (n_drop_streams s.1) ;;;
  println (flood_line args established s.2) ;;;
  io_ret (Ok tt).

End connflood.

(** ** [agent/listen.rs] *)

Definition LISTEN_POLL : Z := millis 100.
Definition unspecified_v4 (port : Z) : SocketAddr := mk_addr (V4 (ipv4 0 0 0 0)) port.

Definition listen_proto (p : ListenProto) : string :=
  to_ascii_lowercase match p with ListenTcp => "Tcp" | ListenUdp => "Udp" end.

Section listen.
  Context {W : Type} `{!World W, !Net W, !Anyhow, !SerdeJson}.

Definition u64_incr : Z → option Z := λ n, add_checked u64_max n 1.

(** The echo of one connection, which is closed afterwards. *)
Definition echo_stream (stream : TcpStream) : io W unit :=
  _ <- lift (n_stream_set_read_timeout stream LISTEN_POLL) ;;
  r <- lift (n_stream_read stream 256) ;;
  match r with
  | Ok read => _ <- lift (n_stream_write_all stream read) ;; io_ret tt
  | Err _ => io_ret tt
  end ;;;
  lift_ (n_drop_streams [stream]).

(** The accept loop: the connections held and the number accepted. *)
Fixpoint accept_loop (fuel : nat) (listener : TcpListener) (deadline : Z) (hold : bool)
    (held : list TcpStream) (accepted : Z) : io W (res (list TcpStream * Z)) :=
  match fuel with
  | O => λ _, None
  | S fuel =>
      now <- instant_now ;;
      if deadline <=? now then io_ret (Ok (held, accepted)) else
      r <- lift (n_accept listener) ;;
      match r with
      | Ok (stream, _) =>
          accepted <- unwrap (u64_incr accepted) ;;
          if hold then accept_loop fuel listener deadline hold (held ++ [stream]) accepted
          else echo_stream stream ;;; accept_loop fuel listener deadline hold held accepted
      | Err error =>
          if decide (kind error = WouldBlock) then
            sleep LISTEN_POLL ;;; accept_loop fuel listener deadline hold held accepted
          else
            lift_ (n_drop_streams held) ;;;
            io_ret (Err (add_context "tcp accept failed" (from_io error)))
      end
  end.

Definition closed_line (key : string) (n : Z) : string :=
  to_string (json (TObj [("status", TStr "closed"); (key, TInt n)])).

Definition listen_tcp (fuel : nat) (port deadline : Z) (hold : bool) : io W (res unit) :=
  r <- lift (n_tcp_bind (unspecified_v4 port)) ;;
  match io_ctx ("failed to bind tcp listener on " +:+ uint_to_string port) r with
  | Err e => io_ret (Err e)
  | Ok listener =>
      r <- lift (n_set_nonblocking listener true) ;;
      match io_ctx "failed to set tcp listener nonblocking" r with
      | Err e => io_ret (Err e)
      | Ok _ =>
          s <-? accept_loop fuel listener deadline hold [] 0 ;;
          lift_ (n_drop_streams s.1) ;;;
          println (closed_line "accepted" s.2) ;;;
          io_ret (Ok tt)
      end
  end.

Fixpoint echo_loop (fuel : nat) (socket : UdpSocket) (deadline : Z) (echoed : Z)
    : io W (res Z) :=
  match fuel with
  | O => λ _, None
  | S fuel =>
      now <- instant_now ;;
      if deadline <=? now then io_ret (Ok echoed) else
      r <- lift (n_udp_recv_from socket 2048) ;;
      match r with
      | Ok (read, peer) =>
          echoed <- unwrap (u64_incr echoed) ;;
          _ <- lift (n_udp_send_to socket read peer) ;;
          echo_loop fuel socket deadline echoed
      | Err error =>
          if decide (kind error = WouldBlock ∨ kind error = TimedOut) then
            echo_loop fuel socket deadline echoed
          else io_ret (Err (add_context "udp recv failed" (from_io error)))
      end
  end.

Definition listen_udp (fuel : nat) (port deadline : Z) : io W (res unit) :=
  r <- lift (n_udp_bind (unspecified_v4 port)) ;;
  match io_ctx ("failed to bind udp listener on " +:+ uint_to_string port) r with
  | Err e => io_ret (Err e)
  | Ok socket =>
      r <- lift (n_udp_set_read_timeout socket LISTEN_POLL) ;;
      match io_ctx "failed to set udp read timeout" r with
      | Err e => io_ret (Err e)
      | Ok _ =>
          echoed <-? echo_loop fuel socket deadline 0 ;;
          println (closed_line "echoed" echoed) ;;;
          io_ret (Ok tt)
      end
  end.

Definition listening_line (args : ListenArgs) : string :=
  to_string (json (TObj
    [("status", TStr "listening");
     ("proto", TStr (listen_proto (la_proto args)));
     ("port", TInt (la_port args));
     ("duration_secs", TInt (la_duration_secs args))])).

Definition listen_run (fuel : nat) (args : ListenArgs) : io W (res unit) :=
  now <- instant_now ;;
  let deadline := now + secs (la_duration_secs args) in
  println (listening_line args) ;;;
  match la_proto args with
  | ListenTcp => listen_tcp fuel (la_port args) deadline (la_hold args)
  | ListenUdp => listen_udp fuel (la_port args) deadline
  end.

End listen.

(** ** What the network calls do *)

Inductive NetEv :=
  | EvOpen (fd : Z)
  | EvClose (fd : Z)
  | EvFrame (fd : Z) (frame : list Z) (to : sockaddr_ll)
  | EvConnect (stream : Z) (dst : SocketAddr)
  | EvAccept (stream : Z) (peer : SocketAddr)
  | EvRead (stream : Z) (data : option (list Z))
  | EvWrite (stream : Z) (data : list Z) (done : bool)
  | EvDrop (streams : list Z)
  | EvDatagram (peer : SocketAddr) (data : list Z)
  | EvReply (peer : SocketAddr) (data : list Z) (done : bool).

Definition when (b : bool) (e : NetEv) : list NetEv := if b then [e] else [].

(** The activity of a call is recorded when it succeeds. Reads and writes are
    recorded when they are attempted, with the stream and what came of them: the
    bytes read, if the read succeeded, and whether a write or reply did. [accept]
    and [recvfrom], which are system calls, take time, and the rest does not turn
    the clock back. *)
Class NetTrace (W : Type) `{!World W, !WorldClock W, !Net W} := {
  trace : W → list NetEv;
  stream_id : TcpStream → Z;
  trace_now w : trace (w_instant_now w).2 = trace w;
  trace_sleep d w : trace (w_sleep d w) = trace w;
  trace_println s w : trace (w_println s w) = trace w;
  trace_errno w : trace (n_last_os_error w).2 = trace w;
  trace_ifindex i w : trace (n_if_nametoindex i w).2 = trace w;
  trace_ioctl fd i w : trace (n_siocgifhwaddr fd i w).2 = trace w;
  trace_dgram w : trace (n_dgram_socket w).2 =
    trace w ++ when (0 <=? (n_dgram_socket w).1) (EvOpen (n_dgram_socket w).1);
  trace_packet p w : trace (n_packet_socket p w).2 =
    trace w ++ when (0 <=? (n_packet_socket p w).1) (EvOpen (n_packet_socket p w).1);
  trace_close fd w : trace (n_close fd w) = trace w ++ [EvClose fd];
  trace_sendto fd f a w : trace (n_sendto fd f a w).2 =
    trace w ++ when (0 <=? (n_sendto fd f a w).1) (EvFrame fd f a);
  trace_connect a t w : trace (n_tcp_connect a t w).2 =
    trace w ++ match (n_tcp_connect a t w).1 with
               | Ok s => [EvConnect (stream_id s) a] | Err _ => [] end;
  trace_drop l w : trace (n_drop_streams l w) = trace w ++ [EvDrop (map stream_id l)];
  trace_tcp_bind a w : trace (n_tcp_bind a w).2 = trace w;
  trace_nonblocking l b w : trace (n_set_nonblocking l b w).2 = trace w;
  trace_accept l w : trace (n_accept l w).2 =
    trace w ++ match (n_accept l w).1 with Ok (s, p) => [EvAccept (stream_id s) p]
               | Err _ => [] end;
  trace_stream_timeout s t w : trace (n_stream_set_read_timeout s t w).2 = trace w;
  trace_read s n w : trace (n_stream_read s n w).2 =
    trace w ++ [EvRead (stream_id s) (result_ok (n_stream_read s n w).1)];
  trace_write s d w : trace (n_stream_write_all s d w).2 =
    trace w ++ [EvWrite (stream_id s) d (is_ok (n_stream_write_all s d w).1)];
  trace_udp_bind a w : trace (n_udp_bind a w).2 = trace w;
  trace_udp_timeout s t w : trace (n_udp_set_read_timeout s t w).2 = trace w;
  trace_recv_from s n w : trace (n_udp_recv_from s n w).2 =
    trace w ++ match (n_udp_recv_from s n w).1 with
               | Ok (d, p) => [EvDatagram p d] | Err _ => [] end;
  trace_reply s d p w : trace (n_udp_send_to s d p w).2 =
    trace w ++ [EvReply p d (is_ok (n_udp_send_to s d p w).1)];
  time_accept l w : clock w < clock (n_accept l w).2;
  time_recv_from s n w : clock w < clock (n_udp_recv_from s n w).2;
  time_tcp_bind a w : clock w <= clock (n_tcp_bind a w).2;
  time_nonblocking l b w : clock w <= clock (n_set_nonblocking l b w).2;
  time_drop l w : clock w <= clock (n_drop_streams l w);
  time_stream_timeout s t w : clock w <= clock (n_stream_set_read_timeout s t w).2;
  time_read s n w : clock w <= clock (n_stream_read s n w).2;
  time_write s d w : clock w <= clock (n_stream_write_all s d w).2;
  time_reply s d p w : clock w <= clock (n_udp_send_to s d p w).2;
  time_udp_bind a w : clock w <= clock (n_udp_bind a w).2;
  time_udp_timeout s t w : clock w <= clock (n_udp_set_read_timeout s t w).2;
}.

(** The descriptors opened and not closed. *)
Definition leaks (l : list NetEv) : list Z :=
  foldl (λ open ev, match ev with
                    | EvOpen fd => fd :: open
                    | EvClose fd => filter (λ x, x ≠ fd) open
                    | _ => open
                    end) [] l.

Section arp_proofs.
  Context {W : Type} `{!World W, !WorldClock W, !Net W, !NetTrace W, !Anyhow, !SerdeJson}.

Lemma os_failed_wp {A} what w :
  wp (os_failed (A := A) what) (λ r w', is_ok r = false ∧ trace w' = trace w) w.
Proof. apply wp_bind, wp_lift, wp_ret. split; [done|apply trace_errno]. Qed.

Lemma build_arp_reply_some mac ip :
  length mac = 6%nat → ∃ frame, build_arp_reply mac ip = Some frame.
Proof.
  intros Hm. destruct mac as [|a [|b [|c [|d [|e [|f [|]]]]]]]; try done.
  destruct ip. eexists. reflexivity.
Qed.

Lemma mac_of_length sa_data : length (mac_of sa_data) = 6%nat.
Proof. unfold mac_of. rewrite length_take, length_app. unfold zeroes. rewrite length_replicate. lia. Qed.

Lemma leaks_pair fd : leaks [EvOpen fd; EvClose fd] = [].
Proof. unfold leaks. simpl. by rewrite filter_cons_False by (intros Hx; by apply Hx). Qed.

Lemma leaks_frames l k frame fd addr :
  leaks l = [] → leaks (l ++ [EvOpen fd] ++ replicate k (EvFrame fd frame addr) ++ [EvClose fd]) = [].
Proof.
  unfold leaks. intros Hl. rewrite !foldl_app, Hl. cbn [foldl].
  set (f := λ open ev, _).
  assert (foldl f [fd] (replicate k (EvFrame fd frame addr)) = [fd]) as ->
    by (induction k; [done|exact IHk]).
  simpl. by rewrite filter_cons_False by (intros Hx; by apply Hx).
Qed.

(** What [interface_mac] leaves behind: a descriptor that is closed again. *)
Lemma interface_mac_wp iface w :
  wp (interface_mac iface)
     (λ r w', (∃ l, trace w' = trace w ++ l ∧ leaks l = []) ∧
        ∀ mac, r = Ok mac → ∃ fd w1,
          (String.length iface < IFNAMSIZ)%nat ∧ mac = mac_of (n_siocgifhwaddr fd iface w1).1.2 ∧
          trace w' = trace w ++ [EvOpen fd; EvClose fd]) w.
Proof.
  unfold interface_mac. apply wp_bind, wp_lift.
  pose proof (trace_dgram w) as H1. destruct (n_dgram_socket w) as [fd w1]. cbn [fst snd] in *.
  destruct (Z.ltb_spec fd 0) as [Hfd|Hfd].
  { rewrite (proj2 (Z.leb_gt _ _)), app_nil_r in H1 by lia.
    eapply wp_mono; [|apply os_failed_wp]. intros r w' [Hr Ht].
    split; [exists []; by rewrite Ht, H1, app_nil_r|by intros mac ->]. }
  rewrite (proj2 (Z.leb_le _ _)) in H1 by lia. cbn [when] in H1.
  destruct (Nat.leb_spec IFNAMSIZ (String.length iface)) as [Hn|Hn].
  { apply wp_bind, wp_ret. split; [|done]. exists [EvOpen fd; EvClose fd].
    rewrite trace_close, H1, <- app_assoc. split; [done|apply leaks_pair]. }
  apply wp_bind, wp_lift. pose proof (trace_ioctl fd iface w1) as H2.
  destruct (n_siocgifhwaddr fd iface w1) as [hw w2] eqn:Ehw. cbn [fst snd] in *.
  apply wp_bind. unfold close, lift_, wp at 1.
  assert (trace (n_close fd w2) = trace w ++ [EvOpen fd; EvClose fd]) as H3
    by (rewrite trace_close, H2, H1, <- app_assoc; done).
  destruct (Z.ltb_spec hw.1 0).
  - eapply wp_mono; [|apply os_failed_wp]. intros r w' [Hr Ht].
    split; [|by intros mac ->]. eexists. rewrite Ht, H3. split; [done|apply leaks_pair].
  - apply wp_ret. split; [eexists; split; [exact H3|apply leaks_pair]|].
    intros mac [= <-]. exists fd, w1. by rewrite Ehw.
Qed.

Lemma arp_send_wp fd frame addr count w :
  is_u32 count →
  wp (io_fold (replicate (Z.to_nat count) tt) (arp_send fd frame addr) 0)
     (λ r w', ∃ sent, r = Ok sent ∧ 0 <= sent <= count ∧
        trace w' = trace w ++ replicate (Z.to_nat sent) (EvFrame fd frame addr)) w.
Proof.
  intros [Hc Hm].
  eapply wp_mono; [|apply (wp_fold (λ i sent w', 0 <= sent <= Z.of_nat i ∧
      trace w' = trace w ++ replicate (Z.to_nat sent) (EvFrame fd frame addr)) (λ _ _, False))].
  - intros [sent|e] w1; [|done]. rewrite length_replicate. intros [? ?]. exists sent.
    split_and!; [done|lia|lia|done].
  - intros i [] sent w1 Hi [Hs Ht]. apply lookup_replicate in Hi as [_ Hi].
    unfold arp_send. apply wp_bind, wp_lift. pose proof (trace_sendto fd frame addr w1) as H1.
    destruct (n_sendto fd frame addr w1) as [ret w2]. cbn [fst snd] in *.
    destruct (0 <=? ret); cbn [when] in H1.
    + unfold u32_add. rewrite add_checked_some by (unfold u32_max; lia).
      apply wp_bind, wp_ret, wp_ret. split; [lia|].
      rewrite H1, Ht, <- app_assoc. f_equal.
      replace (Z.to_nat (sent + 1)) with (Z.to_nat sent + 1)%nat by lia.
      by rewrite replicate_add.
    + apply wp_ret. rewrite H1, app_nil_r. split; [lia|done].
  - by rewrite app_nil_r.
Qed.

(** What the spoofer leaves behind: no open descriptor, and on success the
    frames it prints. *)
Definition arp_post (args : ArpSpoofArgs) (w : W) (r : res unit) (w' : W) : Prop :=
  (∃ l, trace w' = trace w ++ l ∧ leaks l = []) ∧
  (is_ok r = true → ∃ ifindex fd0 fd w1 w2 frame sent,
     ifindex ≠ 0 ∧ (String.length (as_iface args) < IFNAMSIZ)%nat ∧
     build_arp_reply (mac_of (n_siocgifhwaddr fd0 (as_iface args) w1).1.2)
       (as_claim_ip args) = Some frame ∧
     0 <= sent <= as_count args ∧
     trace w' = trace w ++ [EvOpen fd0; EvClose fd0] ++ [EvOpen fd] ++
       replicate (Z.to_nat sent) (EvFrame fd frame (broadcast_ll ifindex)) ++ [EvClose fd] ∧
     w' = w_println (arp_line args sent) w2).

Lemma arp_run_wp args w :
  is_u32 (as_count args) → wp (arp_run args) (arp_post args w) w.
Proof.
  intros Hcount. unfold arp_run. destruct (nul_position (as_iface args)) as [i|].
  { apply wp_ret. split; [|done]. exists []. by rewrite app_nil_r. }
  apply wp_bind, wp_lift. pose proof (trace_ifindex (as_iface args) w) as H1.
  destruct (n_if_nametoindex (as_iface args) w) as [ifindex w1]. cbn [fst snd] in *.
  destruct (Z.eqb_spec ifindex 0) as [|Hidx].
  { apply wp_ret. split; [|done]. exists []. by rewrite app_nil_r. }
  apply wp_try. eapply wp_mono; [|apply interface_mac_wp].
  intros [mac|e] w2 [(l & Hl & Hlk) Hmac]; [|split; [|done]; exists l; by rewrite Hl, H1].
  destruct (Hmac mac eq_refl) as (fd0 & w0 & Hname & -> & Ht). clear l Hl Hlk Hmac.
  apply wp_bind, wp_lift. pose proof (trace_packet (to_be_u16 ETH_P_ARP) w2) as H2.
  destruct (n_packet_socket _ w2) as [fd w3]. cbn [fst snd] in *.
  destruct (Z.ltb_spec fd 0) as [Hfd|Hfd].
  { rewrite (proj2 (Z.leb_gt _ _)), app_nil_r in H2 by lia.
    eapply wp_mono; [|apply os_failed_wp]. intros r w' [Hr Ht'].
    split; [|by rewrite Hr]. eexists. rewrite Ht', H2, Ht, H1. split; [done|apply leaks_pair]. }
  rewrite (proj2 (Z.leb_le _ _)) in H2 by lia. cbn [when] in H2.
  destruct (build_arp_reply_some _ (as_claim_ip args)
    (mac_of_length (n_siocgifhwaddr fd0 (as_iface args) w0).1.2)) as [frame Hf].
  apply wp_bind. rewrite Hf. unfold unwrap, wp at 1.
  apply wp_try. eapply wp_mono; [|by apply arp_send_wp].
  intros r w4 (sent & -> & Hsent & H4).
  apply wp_bind. unfold close, lift_, wp at 1. apply wp_bind. unfold println, lift_, wp at 1.
  apply wp_ret.
  assert (trace (w_println (arp_line args sent) (n_close fd w4)) =
          trace w ++ [EvOpen fd0; EvClose fd0] ++ [EvOpen fd] ++
             replicate (Z.to_nat sent) (EvFrame fd frame (broadcast_ll ifindex)) ++ [EvClose fd])
    as Hfin by (rewrite trace_println, trace_close, H4, H2, Ht, H1, <- !app_assoc; done).
  split; [eexists; split; [exact Hfin|]; apply leaks_frames, leaks_pair|].
  intros _. by exists ifindex, fd0, fd, w0, (n_close fd w4), frame, sent.
Qed.

(** C26. The ARP spoofer leaves no descriptor open on any path. When it
    succeeds the interface exists and its name fits an [ifreq], and what it put
    on the wire is exactly the number of frames it prints, at most the number
    asked, each the gratuitous reply for the claimed address with the hardware
    address the kernel gave, addressed to the broadcast address of the
    interface. *)
Theorem arp_spoof args w :
  is_u32 (as_count args) → wp (arp_run args) (arp_post args w) w.
Proof. apply arp_run_wp. Qed.

End arp_proofs.

Section connflood_proofs.
  Context {W : Type} `{!World W, !WorldClock W, !Net W, !NetTrace W, !Anyhow, !SerdeJson}.

Lemma flood_connect_wp dst timeout count w :
  is_u32 count →
  wp (io_fold (replicate (Z.to_nat count) tt) (flood_connect dst timeout) ([], 0))
     (λ r w', ∃ held failed, r = Ok (held, failed) ∧ 0 <= failed ∧
        Z.of_nat (length held) + failed = count ∧
        trace w' = trace w ++ map (λ s, EvConnect (stream_id s) dst) held) w.
Proof.
  intros [Hc Hm].
  eapply wp_mono; [|apply (wp_fold (λ i s w', 0 <= s.2 ∧ Z.of_nat (length s.1) + s.2 = Z.of_nat i ∧
      trace w' = trace w ++ map (λ s, EvConnect (stream_id s) dst) s.1) (λ _ _, False))].
  - intros [[held failed]|e] w1; [|done]. rewrite length_replicate. intros (? & ? & ?).
    exists held, failed. split_and!; [done|done|simpl in *; lia|done].
  - intros i [] [held failed] w1 Hi (Hf & Hs & Ht). apply lookup_replicate in Hi as [_ Hi].
    cbn [fst snd] in *. unfold flood_connect. apply wp_bind, wp_lift.
    pose proof (trace_connect dst timeout w1) as H1.
    destruct (n_tcp_connect dst timeout w1) as [[stream|e] w2]; cbn [fst snd is_ok when] in *.
    + apply wp_ret. cbn [fst snd]. rewrite length_app. cbn [length]. split_and!; [done|lia|].
      by rewrite H1, Ht, <- app_assoc, map_app.
    + unfold u32_add. rewrite add_checked_some by (unfold u32_max; lia).
      apply wp_bind, wp_ret, wp_ret. cbn [fst snd]. rewrite H1, app_nil_r.
      split_and!; [lia|lia|done].
  - split_and!; [done|done|]. by rewrite app_nil_r.
Qed.

(** The connections held, the failures, and the world [w1] before the hold. *)
Definition flood_post (args : ConnFloodArgs) (w : W) (r : res unit) (w' : W) : Prop :=
  r = Ok tt ∧ ∃ held failed w1,
    Z.of_nat (length held) + failed = cf_count args ∧ 0 <= failed ∧
    trace w1 = trace w ++
      map (λ s, EvConnect (stream_id s) (mk_addr (cf_to args) (cf_dport args))) held ∧
    w' = w_println (flood_line args (Z.of_nat (length held)) failed)
           (n_drop_streams held (w_sleep (secs (cf_hold_secs args)) w1)) ∧
    trace w' = trace w1 ++ [EvDrop (map stream_id held)] ∧
    clock w1 + secs (cf_hold_secs args) <= clock w'.

Lemma connflood_run_wp args w :
  is_u32 (cf_count args) → 0 <= cf_hold_secs args →
  wp (connflood_run args) (flood_post args w) w.
Proof.
  intros Hc Hh. unfold connflood_run. apply wp_try.
  eapply wp_mono; [|by apply flood_connect_wp]. intros r w1 (held & failed & -> & Hf & Hs & Ht).
  cbn [fst snd]. apply wp_bind. unfold sleep, lift_, wp at 1.
  apply wp_bind. unfold wp at 1. apply wp_bind. unfold println, lift_, wp at 1. apply wp_ret.
  split; [done|]. exists held, failed, w1. split_and!; [done|done|done|done|..].
  - by rewrite trace_println, trace_drop, trace_sleep.
  - pose proof (clock_sleep (secs (cf_hold_secs args)) w1 ltac:(unfold secs; lia)).
    set (w2 := w_sleep _ w1) in *. pose proof (time_drop held w2).
    set (w3 := n_drop_streams held w2) in *.
    pose proof (clock_println (flood_line args (Z.of_nat (length held)) failed) w3). lia.
Qed.

(** C28. The connection flood always succeeds. Its last action is to print one
    line, whose established and failed counts add up to the connections asked;
    those established are made before, and exactly those dropped after, the
    whole hold time,
    and nothing else happens on the network in between. *)
Theorem connflood_holds args w :
  is_u32 (cf_count args) → 0 <= cf_hold_secs args →
  wp (connflood_run args) (flood_post args w) w.
Proof. apply connflood_run_wp. Qed.

End connflood_proofs.

(** ** The listener *)

(** What the listener does for one connection without [hold]: it reads from it,
    sends back on it what it read, and closes it; nothing is sent only where the
    read failed. *)
Inductive session : list NetEv → Prop :=
  | session_silent s p : session [EvAccept s p; EvRead s None; EvDrop [s]]
  | session_echo s p d done :
      session [EvAccept s p; EvRead s (Some d); EvWrite s d done; EvDrop [s]].

(** The activity of [n] connections, of which [open] are still held. *)
Definition served (hold : bool) (l : list NetEv) (n : nat) (open : list Z) : Prop :=
  if hold then ∃ conns, length conns = n ∧ l = map (λ c, EvAccept c.1 c.2) conns ∧
                        open = map fst conns
  else open = [] ∧ ∃ ss, length ss = n ∧ Forall session ss ∧ l = concat ss.

(** Each datagram received is sent back to its sender. *)
Definition echoed (ds : list (SocketAddr * list Z * bool)) : list NetEv :=
  concat (map (λ d, [EvDatagram d.1.1 d.1.2; EvReply d.1.1 d.1.2 d.2]) ds).

Section listen_proofs.
  Context {W : Type} `{!World W, !WorldClock W, !Net W, !NetTrace W, !Anyhow, !SerdeJson}.

Lemma echo_stream_wp stream w :
  wp (echo_stream stream)
     (λ _ w', (∃ l, trace w' = trace w ++ l ∧ ∀ p, session (EvAccept (stream_id stream) p :: l)) ∧
              clock w <= clock w') w.
Proof.
  unfold echo_stream. apply wp_bind, wp_lift.
  pose proof (trace_stream_timeout stream LISTEN_POLL w) as H1.
  pose proof (time_stream_timeout stream LISTEN_POLL w) as C1.
  destruct (n_stream_set_read_timeout stream LISTEN_POLL w) as [r0 w1]. cbn [snd] in *.
  apply wp_bind, wp_lift.
  pose proof (trace_read stream 256 w1) as H2. pose proof (time_read stream 256 w1) as C2.
  destruct (n_stream_read stream 256 w1) as [[d|e] w2]; cbn [fst snd result_ok] in *; apply wp_bind.
  - apply wp_bind, wp_lift, wp_ret. unfold lift_, wp.
    pose proof (trace_write stream d w2) as H3. pose proof (time_write stream d w2) as C3.
    set (w3 := (n_stream_write_all stream d w2).2) in *.
    pose proof (time_drop [stream] w3). split; [|lia].
    eexists. rewrite trace_drop, H3, H2, H1, <- !app_assoc.
    split; [reflexivity|]. intros p. constructor.
  - apply wp_ret. unfold lift_, wp. pose proof (time_drop [stream] w2). split; [|lia].
    eexists. rewrite trace_drop, H2, H1, <- !app_assoc. split; [reflexivity|]. intros p. constructor.
Qed.

Lemma served_hold l n open s p :
  served true l n open → served true (l ++ [EvAccept s p]) (n + 1) (open ++ [s]).
Proof.
  intros (conns & <- & -> & ->). exists (conns ++ [(s, p)]). by rewrite length_app, !map_app.
Qed.
Lemma served_session l n open s :
  served false l n open → session s → served false (l ++ s) (n + 1) open.
Proof.
  intros (-> & ss & <- & Hss & ->) Hs. split; [done|]. exists (ss ++ [s]).
  rewrite length_app, concat_app. cbn [concat]. rewrite app_nil_r.
  split_and!; [done|apply Forall_app; auto|done].
Qed.

(** The accept loop runs until its deadline, within the nanoseconds left. *)
Lemma accept_loop_wp t0 fuel listener deadline hold held (n : nat) l w :
  trace w = t0 ++ l → served hold l n (map stream_id held) →
  Z.of_nat n + Z.max 0 (deadline - clock w) <= u64_max →
  (0 < fuel)%nat → deadline - clock w < Z.of_nat fuel →
  wp (accept_loop fuel listener deadline hold held (Z.of_nat n))
     (λ r w', ∀ s, r = Ok s → deadline <= clock w' ∧
        ∃ (m : nat) l', s.2 = Z.of_nat m ∧ trace w' = t0 ++ l' ∧
          served hold l' m (map stream_id s.1)) w.
Proof.
  revert held n l w. induction fuel as [|fuel IH]; intros held n l w Ht Hs Hb Hf Hd; [lia|].
  cbn [accept_loop]. apply wp_bind, wp_lift.
  pose proof (clock_now w) as C1. pose proof (trace_now w) as T1.
  destruct (w_instant_now w) as [now w1]. cbn [fst snd] in *.
  destruct (Z.leb_spec deadline now) as [|Hnow].
  { apply wp_ret. intros s [= <-]. split; [lia|]. exists n, l. cbn [fst snd].
    rewrite T1. done. }
  apply wp_bind, wp_lift.
  pose proof (time_accept listener w1) as C2. pose proof (trace_accept listener w1) as T2.
  destruct (n_accept listener w1) as [[[stream peer]|e] w2]; cbn [fst snd] in *.
  - unfold u64_incr. rewrite add_checked_some by lia. apply wp_bind, wp_ret.
    replace (Z.of_nat n + 1) with (Z.of_nat (n + 1)) by lia.
    destruct hold.
    + apply (IH (held ++ [stream]) (n + 1)%nat (l ++ [EvAccept (stream_id stream) peer]));
        [..|lia|lia|lia].
      * by rewrite T2, T1, Ht, <- app_assoc.
      * rewrite map_app. by apply served_hold.
    + apply wp_bind. eapply wp_mono; [|apply echo_stream_wp].
      intros _ w3 [(l3 & T3 & Hsess) C3].
      apply (IH held (n + 1)%nat (l ++ EvAccept (stream_id stream) peer :: l3)); [..|lia|lia|lia].
      * by rewrite T3, T2, T1, Ht, <- !app_assoc.
      * by apply served_session.
  - rewrite app_nil_r in T2. case_decide.
    + apply wp_bind. unfold sleep, lift_, wp at 1.
      pose proof (clock_sleep LISTEN_POLL w2 ltac:(discriminate)).
      assert (0 <= LISTEN_POLL) by discriminate.
      apply (IH held n l); [|done|lia|lia|lia]. by rewrite trace_sleep, T2, T1.
    + apply wp_bind. unfold lift_, wp at 1. by apply wp_ret.
Qed.

Lemma echo_loop_wp t0 fuel socket deadline ds w :
  trace w = t0 ++ echoed ds →
  Z.of_nat (length ds) + Z.max 0 (deadline - clock w) <= u64_max →
  (0 < fuel)%nat → deadline - clock w < Z.of_nat fuel →
  wp (echo_loop fuel socket deadline (Z.of_nat (length ds)))
     (λ r w', ∀ m, r = Ok m → deadline <= clock w' ∧
        ∃ ds', m = Z.of_nat (length ds') ∧ trace w' = t0 ++ echoed ds') w.
Proof.
  revert ds w. induction fuel as [|fuel IH]; intros ds w Ht Hb Hf Hd; [lia|].
  cbn [echo_loop]. apply wp_bind, wp_lift.
  pose proof (clock_now w) as C1. pose proof (trace_now w) as T1.
  destruct (w_instant_now w) as [now w1]. cbn [fst snd] in *.
  destruct (Z.leb_spec deadline now) as [|Hnow].
  { apply wp_ret. intros m [= <-]. split; [lia|]. exists ds. by rewrite T1. }
  apply wp_bind, wp_lift.
  pose proof (time_recv_from socket 2048 w1) as C2. pose proof (trace_recv_from socket 2048 w1) as T2.
  destruct (n_udp_recv_from socket 2048 w1) as [[[d peer]|e] w2]; cbn [fst snd] in *.
  - unfold u64_incr. rewrite add_checked_some by lia. apply wp_bind, wp_ret.
    apply wp_bind, wp_lift.
    pose proof (time_reply socket d peer w2) as C3. pose proof (trace_reply socket d peer w2) as T3.
    destruct (n_udp_send_to socket d peer w2) as [r3 w3]. cbn [fst snd] in *.
    specialize (IH (ds ++ [(peer, d, is_ok r3)]) w3). rewrite length_app in IH. cbn [length] in IH.
    replace (Z.of_nat (length ds) + 1) with (Z.of_nat (length ds + 1)) by lia.
    apply IH; [|lia|lia|lia].
    unfold echoed in *. rewrite T3, T2, T1, Ht, map_app, concat_app, <- !app_assoc. done.
  - rewrite app_nil_r in T2. case_decide.
    + apply IH; [by rewrite T2, T1|lia|lia|lia].
    + by apply wp_ret.
Qed.

Definition listen_post (args : ListenArgs) (w : W) (r : res unit) (w' : W) : Prop :=
  r = Ok tt →
  clock w + secs (la_duration_secs args) <= clock w' ∧
  match la_proto args with
  | ListenTcp => ∃ n l open w1,
      served (la_hold args) l n open ∧
      trace w' = trace w ++ l ++ [EvDrop open] ∧
      w' = w_println (closed_line "accepted" (Z.of_nat n)) w1
  | ListenUdp => ∃ ds w1,
      trace w' = trace w ++ echoed ds ∧
      w' = w_println (closed_line "echoed" (Z.of_nat (length ds))) w1
  end.

Lemma listen_run_wp fuel args w :
  0 <= secs (la_duration_secs args) <= u64_max →
  secs (la_duration_secs args) < Z.of_nat fuel →
  wp (listen_run fuel args) (listen_post args w) w.
Proof.
  intros Hdur Hf. unfold listen_run. apply wp_bind, wp_lift.
  pose proof (clock_now w) as C1. pose proof (trace_now w) as T1.
  destruct (w_instant_now w) as [now w1]. cbn [fst snd] in *.
  apply wp_bind. unfold println at 1, lift_, wp at 1.
  pose proof (clock_println (listening_line args) w1) as C2.
  pose proof (trace_println (listening_line args) w1) as T2.
  set (w2 := w_println (listening_line args) w1) in *.
  unfold listen_post. destruct (la_proto args).
  - unfold listen_tcp. apply wp_bind, wp_lift.
    pose proof (time_tcp_bind (unspecified_v4 (la_port args)) w2) as C3.
    pose proof (trace_tcp_bind (unspecified_v4 (la_port args)) w2) as T3.
    destruct (n_tcp_bind _ w2) as [[listener|e] w3]; cbn [fst snd io_ctx] in *; [|by apply wp_ret].
    apply wp_bind, wp_lift.
    pose proof (time_nonblocking listener true w3) as C4.
    pose proof (trace_nonblocking listener true w3) as T4.
    destruct (n_set_nonblocking _ _ w3) as [[u|e] w4]; cbn [fst snd io_ctx] in *; [|by apply wp_ret].
    apply wp_try. eapply wp_mono;
      [|apply (accept_loop_wp (trace w) _ _ _ (la_hold args) [] 0 [] w4); [| |lia..]].
    + intros [[held m]|e] w5; [|done]. intros Hr.
      destruct (Hr _ eq_refl) as (C5 & n & l & Hm & T5 & Hs). cbn [fst snd] in *. subst m.
      apply wp_bind. unfold lift_, wp at 1. apply wp_bind. unfold println, lift_, wp at 1.
      apply wp_ret. intros _. pose proof (time_drop held w5).
      pose proof (clock_println (closed_line "accepted" (Z.of_nat n)) (n_drop_streams held w5)).
      split; [lia|]. exists n, l, (map stream_id held), (n_drop_streams held w5).
      split_and!; [done| |done]. by rewrite trace_println, trace_drop, T5, <- app_assoc.
    + by rewrite app_nil_r, T4, T3, T2, T1.
    + destruct (la_hold args); [|split; [done|]]; by exists [].
  - unfold listen_udp. apply wp_bind, wp_lift.
    pose proof (time_udp_bind (unspecified_v4 (la_port args)) w2) as C3.
    pose proof (trace_udp_bind (unspecified_v4 (la_port args)) w2) as T3.
    destruct (n_udp_bind _ w2) as [[socket|e] w3]; cbn [fst snd io_ctx] in *; [|by apply wp_ret].
    apply wp_bind, wp_lift.
    pose proof (time_udp_timeout socket LISTEN_POLL w3) as C4.
    pose proof (trace_udp_timeout socket LISTEN_POLL w3) as T4.
    destruct (n_udp_set_read_timeout _ _ w3) as [[u|e] w4]; cbn [fst snd io_ctx] in *; [|by apply wp_ret].
    apply wp_try. eapply wp_mono;
      [|apply (echo_loop_wp (trace w) _ _ _ [] w4); [|cbn [length]; lia|lia..]].
    + intros [m|e] w5; [|done]. intros Hr.
      destruct (Hr _ eq_refl) as (C5 & ds & -> & T5).
      apply wp_bind. unfold println, lift_, wp at 1.
      apply wp_ret. intros _.
      pose proof (clock_println (closed_line "echoed" (Z.of_nat (length ds))) w5).
      split; [lia|]. exists ds, w5. by rewrite trace_println, T5.
    + cbn. by rewrite app_nil_r, T4, T3, T2, T1.
Qed.

(** C27. The listener returns, given one unit of fuel per nanosecond of its
    duration, since [accept] and [recvfrom] take time. When it succeeds it has
    served for the whole duration and then printed the number of connections, or
    datagrams, it served. Without [hold] each connection accepted was read from
    once, then the bytes read were written to that same connection, then it was
    closed; nothing was written only where the read failed. With [hold] the
    connections accepted were all held open until the end and closed then. Each
    datagram received was sent back to its sender. A write that fails is not
    retried: what is stated of it is the attempt. *)
Theorem listen_serves fuel args w :
  0 <= secs (la_duration_secs args) <= u64_max →
  secs (la_duration_secs args) < Z.of_nat fuel →
  wp (listen_run fuel args) (listen_post args w) w.
Proof. apply listen_run_wp. Qed.

End listen_proofs.

(** ** A device that records its network activity *)

Definition traced : Type := device * list NetEv.

(** A call on the device; what it leaves in the record depends on its answer. *)
Definition on_dev {A} (f : device → A * device) (log : A → list NetEv) (w : traced)
    : A * traced :=
  let '(a, d) := f w.1 in (a, (d, w.2 ++ log a)).
Definition on_dev_ (f : device → device) (l : list NetEv) (w : traced) : traced :=
  (f w.1, w.2 ++ l).
Definition quiet {A} (_ : A) : list NetEv := [].

#[export] Instance traced_world : World traced := {|
  Child := @Child device _;
  w_instant_now := on_dev w_instant_now quiet;
  w_epoch_ms := on_dev w_epoch_ms quiet;
  w_sleep d := on_dev_ (w_sleep d) [];
  w_output a := on_dev (w_output a) quiet;
  w_spawn b a := on_dev (w_spawn b a) quiet;
  w_wait_with_output c := on_dev (w_wait_with_output c) quiet;
  w_kill c := on_dev (w_kill c) quiet;
  w_exists p := on_dev (w_exists p) quiet;
  w_read_to_string p := on_dev (w_read_to_string p) quiet;
  w_write p b := on_dev (w_write p b) quiet;
  w_copy p q := on_dev (w_copy p q) quiet;
  w_remove_file p := on_dev (w_remove_file p) quiet;
  w_create_dir_all p := on_dev (w_create_dir_all p) quiet;
  w_current_exe := on_dev w_current_exe quiet;
  w_println s := on_dev_ (w_println s) [];
  w_process_id := on_dev w_process_id quiet;
|}.

#[export] Instance traced_clock : WorldClock traced.
Proof.
  refine {| clock w := clock w.1 |}; intros; destruct w as [w l]; unfold w_instant_now, w_epoch_ms,
    w_sleep, w_output, w_spawn, w_wait_with_output, w_kill, w_exists, w_read_to_string, w_write,
    w_copy, w_remove_file, w_create_dir_all, w_current_exe, w_println, w_process_id;
    simpl; unfold on_dev; repeat case_match; simplify_eq/=; simpl; lia.
Defined.

(** Two clients connect to its listener in the first 2 us, a datagram arrives
    in the first 150 ms; reading a connection yields four bytes, but only in the
    first 1.5 us. *)
Definition demo_peer : SocketAddr := mk_addr (V4 (ipv4 10 123 0 2)) 40001.
Definition demo_accept (w : device) : io_result (unit * SocketAddr) * device :=
  (if d_clock w <? 2000 then Ok (tt, demo_peer) else Err sim_timeout, tick 1000 w).
Definition demo_recv (w : device) : io_result (list Z * SocketAddr) * device :=
  (if d_clock w <? millis 150 then Ok ([112; 105; 110; 103], demo_peer) else Err sim_timeout,
   tick (millis 100) w).
Definition demo_read (w : device) : io_result (list Z) * device :=
  (if d_clock w <? 1500 then Ok [112; 105; 110; 103] else Err sim_timeout, w).
Definition ok_log {E A} (f : A → list NetEv) (r : result E A) : list NetEv :=
  match r with Ok a => f a | Err _ => [] end.

#[export] Instance traced_net : Net traced := {|
  Socket := unit; UdpSocket := unit; TcpStream := unit; TcpListener := unit;
  n_socket d t p := on_dev (n_socket d t p) quiet;
  n_set_reuse_address s b := on_dev (n_set_reuse_address s b) quiet;
  n_bind s a := on_dev (n_bind s a) quiet;
  n_connect_timeout s a t := on_dev (n_connect_timeout s a t) quiet;
  n_set_read_timeout s t := on_dev (n_set_read_timeout s t) quiet;
  n_send_to s p a := on_dev (n_send_to s p a) quiet;
  n_recv s n := on_dev (n_recv s n) quiet;
  n_udp_bind a := on_dev (n_udp_bind a) quiet;
  n_udp_connect s a := on_dev (n_udp_connect s a) quiet;
  n_udp_send s p := on_dev (n_udp_send s p) quiet;
  n_udp_set_read_timeout s t := on_dev (n_udp_set_read_timeout s t) quiet;
  n_udp_recv s n := on_dev (n_udp_recv s n) quiet;
  n_udp_local_addr s := on_dev (n_udp_local_addr s) quiet;
  n_udp_recv_from _ _ := on_dev demo_recv (ok_log (λ dp, [EvDatagram dp.2 dp.1]));
  n_udp_send_to s d p := on_dev (n_udp_send_to s d p) (λ r, [EvReply p d (is_ok r)]);
  n_tcp_connect a t := on_dev (n_tcp_connect a t) (ok_log (λ _, [EvConnect 0 a]));
  n_tcp_bind a := on_dev (n_tcp_bind a) quiet;
  n_set_nonblocking l b := on_dev (n_set_nonblocking l b) quiet;
  n_accept _ := on_dev demo_accept (ok_log (λ sp, [EvAccept 0 sp.2]));
  n_stream_set_read_timeout s t := on_dev (n_stream_set_read_timeout s t) quiet;
  n_stream_read _ _ := on_dev demo_read (λ r, [EvRead 0 (result_ok r)]);
  n_stream_write_all s d := on_dev (n_stream_write_all s d) (λ r, [EvWrite 0 d (is_ok r)]);
  n_drop_streams l := on_dev_ (n_drop_streams l) [EvDrop (map (λ _, 0) l)];
  n_last_os_error := on_dev n_last_os_error quiet;
  n_setgroups_none := on_dev n_setgroups_none quiet;
  n_setgid u := on_dev (n_setgid u) quiet;
  n_setuid u := on_dev (n_setuid u) quiet;
  n_if_nametoindex i := on_dev (n_if_nametoindex i) quiet;
  n_packet_socket p := on_dev (n_packet_socket p) (λ fd, when (0 <=? fd) (EvOpen fd));
  n_dgram_socket := on_dev n_dgram_socket (λ fd, when (0 <=? fd) (EvOpen fd));
  n_sendto fd f a := on_dev (n_sendto fd f a) (λ r, when (0 <=? r) (EvFrame fd f a));
  n_siocgifhwaddr fd i := on_dev (n_siocgifhwaddr fd i) quiet;
  n_close fd := on_dev_ (n_close fd) [EvClose fd];
  n_schedule n := on_dev (n_schedule n) quiet;
|}.

#[export] Instance traced_net_trace : NetTrace traced.
Proof.
  refine {| trace w := w.2; stream_id _ := 0 |}; intros; destruct w as [w lg]; simpl; unfold quiet, on_dev_; simpl;
    rewrite ?app_nil_r; try done; try lia.
  all: unfold on_dev, demo_accept, demo_recv; simpl; repeat case_match; simplify_eq/=; simpl;
    rewrite ?app_nil_r; try done; try (unfold millis; lia).
Defined.

Definition demo_traced : traced := (demo_device, []).

Definition demo_arp : ArpSpoofArgs :=
  {| as_iface := "fwp0"; as_claim_ip := ipv4 10 123 0 1; as_count := 3 |}.
Definition demo_flood : ConnFloodArgs :=
  {| cf_to := V4 (ipv4 10 123 0 1); cf_dport := 9001; cf_count := 4; cf_hold_secs := 8;
     cf_timeout_ms := 500 |}.
Definition demo_listen (p : ListenProto) (hold : bool) : ListenArgs :=
  {| la_proto := p; la_port := 9001; la_duration_secs := 1; la_hold := hold |}.

Lemma arp_spoof_witness :
  is_u32 (as_count demo_arp) ∧ wp (arp_run demo_arp) (arp_post demo_arp demo_traced) demo_traced.
Proof.
  assert (is_u32 (as_count demo_arp)) as Hc by (split; discriminate).
  split; [exact Hc|exact (arp_spoof demo_arp demo_traced Hc)].
Defined.

Lemma connflood_holds_witness :
  (is_u32 (cf_count demo_flood) ∧ 0 <= cf_hold_secs demo_flood) ∧
  wp (connflood_run demo_flood) (flood_post demo_flood demo_traced) demo_traced.
Proof.
  assert (is_u32 (cf_count demo_flood)) as Hc by (split; discriminate).
  assert (0 <= cf_hold_secs demo_flood) as Hh by discriminate.
  split; [exact (conj Hc Hh)|exact (connflood_holds demo_flood demo_traced Hc Hh)].
Defined.

(** The first client is echoed, the second is closed without having sent. *)
Example demo_listen_tcp :
  (λ p, (p.1, trace p.2)) <$> listen_run 20 (demo_listen ListenTcp false) demo_traced =
  Some (Ok tt,
    let ping := [112; 105; 110; 103] in
    [EvAccept 0 demo_peer; EvRead 0 (Some ping); EvWrite 0 ping true; EvDrop [0]] ++
    [EvAccept 0 demo_peer; EvRead 0 None; EvDrop [0]] ++ [EvDrop []]).
Proof. vm_compute. reflexivity. Qed.

Example demo_listen_hold :
  (λ p, (p.1, trace p.2)) <$> listen_run 20 (demo_listen ListenTcp true) demo_traced =
  Some (Ok tt, [EvAccept 0 demo_peer; EvAccept 0 demo_peer; EvDrop [0; 0]]).
Proof. vm_compute. reflexivity. Qed.

Lemma listen_serves_witness :
  let args := demo_listen ListenTcp true in
  let fuel := Z.to_nat (secs 1 + 1) in
  (0 <= secs (la_duration_secs args) <= u64_max ∧
   secs (la_duration_secs args) < Z.of_nat fuel) ∧
  wp (listen_run fuel args) (listen_post args demo_traced) demo_traced.
Proof.
  intros args fuel.
  assert (0 <= secs (la_duration_secs args) <= u64_max) as Hd by (split; discriminate).
  assert (secs (la_duration_secs args) < Z.of_nat fuel) as Hf.
  { unfold fuel. rewrite Z2Nat.id; [reflexivity|discriminate]. }
  split; [exact (conj Hd Hf)|exact (listen_serves fuel args demo_traced Hd Hf)].
Defined.

Example demo_arp_frames :
  (λ p, (p.1, length (trace p.2), leaks (trace p.2))) <$> arp_run demo_arp demo_traced
  = Some (Ok tt, 7%nat, []).
Proof. vm_compute. reflexivity. Qed.

Example demo_flood_held :
  (λ p, (p.1, List.last (trace p.2) (EvClose 0))) <$> connflood_run demo_flood demo_traced
  = Some (Ok tt, EvDrop [0; 0; 0; 0]).
Proof. vm_compute. reflexivity. Qed.
