(* ===== verification/Agent.v ===== *)
(** * The worker's entry point ([agent/mod.rs])

    [dispatch] routes a re-executed [fw-verify agent <sub>] to its handler. *)

From S2P Require Import Prelude RustInt RustStr RustNet Effects Sim Cli Exec Peer Tally Sockets SimNet Traffic Db Target Provision AgentNet.

Section agent.
  Context {W : Type} `{!World W, !Net W, !Anyhow, !SerdeJson, !Sqlite W, !Depot W}.

(** [fuel] bounds the loops of the listener. *)
Definition dispatch (fuel : nat) (command : AgentCommand) : io W (res unit) :=
  match command with
  | ProvisionRule args => provision_run args
  | DumpEvents args => Db.dump_events args
  | ReportStatus args => report_status args
  | DumpReports args => Db.dump_reports args
  | Traffic args => Traffic.run args
  | Listen args => listen_run fuel args
  | ConnFlood args => connflood_run args
  | Cli.ArpSpoof args => arp_run args
  | Now =>
      now_ms <- agent_now_ms ;;
      println (to_string (json (TObj [("now_ms", TInt now_ms)]))) ;;;
      io_ret (Ok tt)
  end.

End agent.

(** Arguments in the ranges of their types; for the traffic worker also within
    the range of its attempt counter, and for the listener fuel for each
    nanosecond of its duration. *)
Definition command_ok (fuel : nat) (command : AgentCommand) : Prop :=
  match command with
  | Traffic args => args_valid args ∧ 0 <= ta_interval_ms args ∧
      ∀ `(Anyhow) ports, traffic_ports args = Ok ports → attempts_of args ports <= u32_max
  | Listen args => 0 <= secs (la_duration_secs args) <= u64_max ∧
      secs (la_duration_secs args) < Z.of_nat fuel
  | ConnFlood args => is_u32 (cf_count args) ∧ 0 <= cf_hold_secs args
  | Cli.ArpSpoof args => is_u32 (as_count args)
  | _ => True
  end.

Section agent_proofs.
  Context {W : Type} `{!World W, !WorldClock W, !Net W, !NetLaws W, !NetTrace W, !Anyhow,
    !SerdeJson, !SerdeJsonLaws, !DeOutcome, !DeOutcomeLaws, !Sqlite W, !SqliteClock W,
    !Depot W, !DepotClock W}.

#[local] Hint Resolve steady_query steady_open_db : steady.

Lemma steady_provision_run args : steady (provision_run args).
Proof. unfold provision_run. steady. Qed.
Lemma steady_db_dump_events args : steady (Db.dump_events args).
Proof. unfold Db.dump_events, dump_rows. steady. Qed.
Lemma steady_db_dump_reports args : steady (Db.dump_reports args).
Proof. unfold Db.dump_reports, dump_rows. steady. Qed.
Lemma steady_report_status args : steady (report_status args).
Proof. unfold report_status. steady. Qed.

(** A run whose port list does not parse ends before any traffic. *)
Lemma run_no_ports args e w :
  traffic_ports args = Err e → wp (Traffic.run args) (λ r _, is_ok r = false) w.
Proof.
  intros Hp. unfold Traffic.run. apply wp_try.
  eapply wp_mono with (P := λ _ _, True).
  - intros [u|e'] w1 _; [|done]. rewrite Hp. by apply wp_ret.
  - destruct (ta_uid args) as [uid|]; [|by apply wp_ret].
    eapply wp_mono; [|apply steady_drop_to_uid]. done.
Qed.

Lemma wp_returns {A} (m : io W A) Q w : wp m Q w → wp m (λ _ _, True) w.
Proof. by apply wp_mono. Qed.

(** C25. A worker always ends: whatever the device answers, under every
    schedule, every subcommand with arguments in range returns a result or an
    error; none of its loops hangs, no counter overflows and no packet builder
    panics. A listener has one unit of fuel per nanosecond of its duration. *)
Theorem worker_returns fuel command w :
  command_ok fuel command → wp (dispatch fuel command) (λ _ _, True) w.
Proof.
  intros Hok. destruct command as [args|args|args|args|args|args|args|args|]; cbn [dispatch].
  - eapply wp_returns, steady_provision_run.
  - eapply wp_returns, steady_db_dump_events.
  - eapply wp_returns, steady_report_status.
  - destruct Hok as (Ha & Hi & Hn). destruct (traffic_ports args) as [ports|e] eqn:Hp.
    + eapply wp_returns, (run_wp args ports); [done..|]. by apply Hn in Hp.
    + by eapply wp_returns, run_no_ports.
  - destruct Hok as [Hd Hf]. by eapply wp_returns, listen_run_wp.
  - destruct Hok as [Hc Hh]. by eapply wp_returns, connflood_run_wp.
  - by eapply wp_returns, arp_run_wp.
  - eapply wp_returns, steady_db_dump_reports.
  - unfold agent_now_ms. apply wp_bind, wp_bind, wp_lift, wp_ret, wp_bind. by apply wp_ret.
Qed.

End agent_proofs.

(** ** The recording device runs the workers *)

#[export] Instance traced_net_laws : NetLaws traced.
Proof.
  split; intros; destruct w as [dev lg]; simpl in *; unfold on_dev in *; simpl in *; try lia.
  match goal with Ho : Ok _ = Ok _ |- _ => injection Ho as <- end.
  split; [|split; discriminate]. repeat constructor; discriminate.
Qed.

#[export] Instance traced_sqlite : Sqlite traced := {|
  Connection := @Connection device _ _;
  Statement := @Statement device _ _;
  Row := @Row device _ _;
  sql_error := @sql_error device _ _;
  from_sql := @from_sql device _ _;
  sq_open p := on_dev (sq_open p) quiet;
  sq_prepare c s := on_dev (sq_prepare c s) quiet;
  sq_query_map s ps := on_dev (sq_query_map s ps) quiet;
  row_str := @row_str device _ _;
  row_i64 := @row_i64 device _ _;
  row_opt_i64 := @row_opt_i64 device _ _;
  row_opt_str := @row_opt_str device _ _;
|}.

#[export] Instance traced_sqlite_clock : SqliteClock traced.
Proof. split; intros; destruct w as [dev lg]; simpl; unfold on_dev; simpl; lia. Qed.

#[export] Instance traced_depot : Depot traced := {|
  IdpsConfig := @IdpsConfig device _ _;
  KeyStore := @KeyStore device _ _;
  RuntimeKey := @RuntimeKey device _ _;
  AesParams := @AesParams device _ _;
  RuleDepot := @RuleDepot device _ _;
  depot_path := @depot_path device _ _;
  default_rules_path := @default_rules_path device _ _;
  load_runtime p := on_dev (load_runtime p) quiet;
  collect_device_info c := on_dev (collect_device_info c) quiet;
  keystore_open p := on_dev (keystore_open p) quiet;
  resolve_keys k v d := on_dev (resolve_keys k v d) quiet;
  depot_new p d k a := on_dev (depot_new p d k a) quiet;
  load_metadata d a f p := on_dev (load_metadata d a f p) quiet;
  default_metadata := @default_metadata device _ _;
  save_rule d a f b m := on_dev (save_rule d a f b m) quiet;
  sha256_hex := @sha256_hex device _ _;
|}.

#[export] Instance traced_depot_clock : DepotClock traced.
Proof. split; intros; destruct w as [dev lg]; simpl; unfold on_dev; simpl; lia. Qed.

(** The scan of the catalog, run by the worker. *)
Lemma worker_returns_witness :
  command_ok 0 (Traffic demo_scan_args) ∧
  wp (dispatch 0 (Traffic demo_scan_args)) (λ _ _, True) demo_traced.
Proof.
  assert (command_ok 0 (Traffic demo_scan_args)) as Hok.
  { cbn [command_ok]. unfold args_valid.
    split_and!; [|by intros p [=]|by intros p [=]|discriminate|].
    - repeat constructor; discriminate.
    - intros A ports Hp.
      assert (@traffic_ports A demo_scan_args = Ok [9001; 9002; 9003; 9004; 9005]) as Hp'
        by (cbv; reflexivity).
      rewrite Hp in Hp'. apply (f_equal result_ok), (inj Some) in Hp' as ->. discriminate. }
  split; [exact Hok|exact (worker_returns 0 (Traffic demo_scan_args) demo_traced Hok)].
Defined.

Example demo_worker_now :
  (λ p, (p.1, length (d_out p.2.1))) <$> dispatch 0 Now demo_traced = Some (Ok tt, 1%nat).
Proof. vm_compute. reflexivity. Qed.
