(* ===== verification/Rpc.v ===== *)
(** * The two halves of the program together

    The orchestrator re-executes the binary as a worker, hands it a command
    line and reads one line of JSON from its output. The other files treat a
    command as an opaque answer of the world; here it is the worker that
    answers. [Reexec] is what the orchestrator relies on of the operating
    system: the output of a child started as [fw-verify agent ..], behind
    [nsenter] or [ip netns exec] or not, is what some run of the worker's
    [dispatch] on the parsed command line printed. The worker's own world (its
    namespace, its clock, its process id) is left open. *)

From S2P Require Import Prelude RustInt RustStr RustNet Effects Sim Cli AgentCli Exec Config Peer Tally Sockets SimNet Traffic TrafficSpec Db Target Provision Catalog Monitor Verify AgentNet Agent.

(** ** What reaches standard output *)

(** The lines printed so far, which only [println!] extends. *)
Class Stdout (W : Type) `{!World W, !Net W} := {
  printed : W → list string;
  printed_println s w : printed (w_println s w) = printed w ++ [s];
  printed_sleep d w : printed (w_sleep d w) = printed w;
  printed_pid w : printed (w_process_id w).2 = printed w;
  printed_socket d t p w : printed (n_socket d t p w).2 = printed w;
  printed_reuse s b w : printed (n_set_reuse_address s b w).2 = printed w;
  printed_bind s a w : printed (n_bind s a w).2 = printed w;
  printed_connect s a t w : printed (n_connect_timeout s a t w).2 = printed w;
  printed_read_timeout s t w : printed (n_set_read_timeout s t w).2 = printed w;
  printed_send_to s p a w : printed (n_send_to s p a w).2 = printed w;
  printed_recv s n w : printed (n_recv s n w).2 = printed w;
  printed_udp_bind a w : printed (n_udp_bind a w).2 = printed w;
  printed_udp_connect s a w : printed (n_udp_connect s a w).2 = printed w;
  printed_udp_send s p w : printed (n_udp_send s p w).2 = printed w;
  printed_udp_timeout s t w : printed (n_udp_set_read_timeout s t w).2 = printed w;
  printed_udp_recv s n w : printed (n_udp_recv s n w).2 = printed w;
  printed_local_addr s w : printed (n_udp_local_addr s w).2 = printed w;
  printed_schedule n w : printed (n_schedule n w).2 = printed w;
  printed_os_error w : printed (n_last_os_error w).2 = printed w;
  printed_setgroups w : printed (n_setgroups_none w).2 = printed w;
  printed_setgid u w : printed (n_setgid u w).2 = printed w;
  printed_setuid u w : printed (n_setuid u w).2 = printed w;
}.

(** ** The re-executed worker *)

(** How a namespace is entered ([Endpoint::spawn_program]). *)
Inductive entry : list string → Prop :=
  | entry_local : entry []
  | entry_ip name : entry ["ip"; "netns"; "exec"; name]
  | entry_nsenter net : entry ["nsenter"; net; "--"].

(** [wait_worker]: of the lines the worker's run prints, a first part reaches
    the orchestrator, all of them unless the worker is killed. *)
Class Reexec (W : Type) `{!World W, !Net W, !Anyhow, !SerdeJson, !Sqlite W, !Depot W, !Clap,
    !Stdout W} := {
  worker_of : Child → list string → Prop;
  spawn_worker exe pre args w0 w1 w c w' :
    w_current_exe w0 = (Ok exe, w1) → entry pre →
    w_spawn false (pre ++ [exe; "agent"] ++ args) w = (Ok c, w') → worker_of c args;
  wait_worker c args command w o w' :
    worker_of c args → parse_agent args = Some command →
    w_wait_with_output c w = (Ok o, w') →
    ∃ fuel w0, ∀ r w1, dispatch fuel command w0 = Some (r, w1) →
      ∃ ls k, printed w1 = printed w0 ++ ls ∧ stdout o = unlines (take k ls);
}.

(** ** The worker prints its report, and nothing else *)

Section quiet.
  Context {W : Type} `{!World W, !Net W, !Anyhow, !SerdeJson, !Stdout W}.

Notation quiet := (moves (same printed)).
Notation prog_quiet := (prog_moves (same printed)).

Create HintDb quiet.
#[local] Hint Extern 1 (same _ _ _) => unfold same; simpl : quiet.
#[local] Hint Resolve printed_sleep printed_pid printed_socket printed_reuse printed_bind
  printed_connect printed_read_timeout printed_send_to printed_recv printed_udp_bind
  printed_udp_connect printed_udp_send printed_udp_timeout printed_udp_recv printed_local_addr
  printed_schedule printed_os_error printed_setgroups printed_setgid printed_setuid : quiet.

(** Follows the calls of a probe. *)
Ltac quiet_probe :=
  repeat match goal with
  | |- ∀ _, _ => intros
  | |- prog_moves _ (prog_try _ _ _) => apply prog_moves_try
  | |- prog_moves _ (prog_bind _ _) => apply prog_moves_bind
  | |- prog_moves _ (call _) => apply prog_moves_call; unfold same; eauto with quiet
  | |- prog_moves _ (prog_unwrap _) => apply prog_moves_unwrap
  | |- prog_moves _ (match ?x with _ => _ end) => destruct x
  | |- prog_moves _ (Done _) => exact I
  end.

Lemma quiet_tcp dst sport timeout : prog_quiet (tcp_attempt dst sport timeout).
Proof. unfold tcp_attempt. cbv zeta. quiet_probe. Qed.
Lemma quiet_udp dst sport timeout reply : prog_quiet (udp_attempt dst sport timeout reply).
Proof. unfold udp_attempt. cbv zeta. quiet_probe. Qed.
Lemma quiet_icmp dst ident seq kind timeout : prog_quiet (icmp_attempt dst ident seq kind timeout).
Proof. unfold icmp_attempt. cbv zeta. quiet_probe. Qed.
Lemma quiet_fin dst sport seq : prog_quiet (fin_attempt dst sport seq).
Proof. unfold fin_attempt, local_src_ipv4. cbv zeta. quiet_probe. Qed.
#[local] Hint Resolve quiet_tcp quiet_udp quiet_icmp quiet_fin : quiet.

Lemma quiet_planned args ident base timeout i port :
  prog_quiet (planned_probe args ident base timeout i port).
Proof. unfold planned_probe. cbv zeta. repeat case_match; eauto with quiet. Qed.

Lemma quiet_burst args base timeout ports : quiet (burst args base timeout ports).
Proof.
  unfold burst. apply moves_bind; [typeclasses eauto| |moves].
  apply moves_run_threads; [typeclasses eauto|intros; apply printed_schedule|].
  apply Forall_lookup. intros i p. rewrite list_lookup_imap.
  destruct (ports !! i); [|done]. intros [= <-]. unfold burst_probe. cbv zeta.
  apply prog_moves_bind; [|done]. destruct (ta_fin_only args); [|eauto with quiet].
  apply prog_moves_bind; [apply prog_moves_unwrap|auto using quiet_fin].
Qed.

Lemma quiet_sleep d : quiet (sleep d).
Proof. apply moves_lift_, printed_sleep. Qed.
Lemma quiet_pid : quiet process_id.
Proof. apply moves_lift, printed_pid. Qed.
Lemma quiet_perform {A} (p : prog W A) : prog_quiet p → quiet (perform p).
Proof. apply moves_perform. typeclasses eauto. Qed.
#[local] Hint Resolve quiet_sleep quiet_pid quiet_burst quiet_perform quiet_planned : moves.

Lemma quiet_probes args ports : quiet (probes args ports).
Proof. unfold probes, probe_in_order. moves. Qed.

Lemma quiet_drop_to_uid uid : quiet (drop_to_uid uid).
Proof.
  assert (quiet last_os_error) by apply moves_lift, printed_os_error.
  assert (quiet (lift n_setgroups_none)) by apply moves_lift, printed_setgroups.
  assert (∀ u, quiet (lift (n_setgid u))) by (intros u; apply moves_lift, printed_setgid).
  assert (∀ u, quiet (lift (n_setuid u))) by (intros u; apply moves_lift, printed_setuid).
  unfold drop_to_uid. moves.
Qed.

(** What a run of the traffic worker prints: nothing when it fails, the report
    of its probes when it succeeds. *)
Lemma run_prints args w r w' :
  (∀ ports, traffic_ports args = Ok ports → attempts_of args ports <= u32_max) →
  Traffic.run args w = Some (r, w') →
  match r with
  | Ok _ => ∃ ports os w1 w2, traffic_ports args = Ok ports ∧
      probes args ports w1 = Some (Ok os, w2) ∧
      printed w' = printed w ++ [report_line args ports os]
  | Err _ => printed w' = printed w
  end.
Proof.
  intros Hb Hrun. rewrite run_refined in Hrun by done. unfold run_spec in Hrun.
  set (drop := match ta_uid args with Some uid => drop_to_uid uid | None => io_ret (Ok tt) end) in *.
  assert (quiet drop) as Hd by (unfold drop; destruct (ta_uid args); [apply quiet_drop_to_uid|moves]).
  unfold io_try at 1, io_bind at 1 in Hrun. destruct (drop w) as [[[u|e] w1]|] eqn:E; [| |done].
  2: { injection Hrun as <- <-. exact (Hd _ _ _ E). }
  apply Hd in E. unfold same in E.
  destruct (traffic_ports args) as [ports|e] eqn:Hp; [|by injection Hrun as <- <-].
  unfold io_try, io_bind in Hrun.
  destruct (probes args ports w1) as [[[os|e] w2]|] eqn:Hpr; [| |done].
  - pose proof (quiet_probes args ports _ _ _ Hpr) as Hq. unfold same in Hq.
    injection Hrun as <- <-. exists ports, os, w1, w2. split_and!; [done|done|].
    by rewrite printed_println, Hq, E.
  - injection Hrun as <- <-. rewrite <- E. exact (quiet_probes args ports _ _ _ Hpr).
Qed.

End quiet.

(** ** What the orchestrator reads *)

Section answer.
  Context {W : Type} `{!World W, !Net W, !Anyhow, !SerdeJson, !Sqlite W, !Depot W, !Clap,
    !Stdout W, !Reexec W}.

Lemma spawn_program_worker ep exe args w0 w0' w c w' :
  w_current_exe w0 = (Ok exe, w0') →
  spawn_program ep ([exe; "agent"] ++ args) false w = Some (Ok c, w') → worker_of c args.
Proof.
  intros He. unfold spawn_program, io_bind, cmd_spawn, exists_path, lift, io_ret.
  destruct ep as [|name].
  { destruct (w_spawn false _ w) as [[c'|e] w1] eqn:E; [|done]. intros [= <- <-].
    exact (spawn_worker exe [] args _ _ _ _ _ He entry_local E). }
  assert (∀ w, match w_spawn false (["ip"; "netns"; "exec"; name] ++ [exe; "agent"] ++ args) w with
     | (r, w1) => Some (io_ctx ("failed to spawn `" +:+ join " " ([exe; "agent"] ++ args) +:+
                          "` via ip netns exec") r, w1) end = Some (Ok c, w') → worker_of c args)
    as Hip.
  { intros w1. destruct (w_spawn false _ w1) as [[c'|e] w2] eqn:E; [|done]. intros [= <- <-].
    exact (spawn_worker exe _ args _ _ _ _ _ He (entry_ip name) E). }
  destruct (w_exists _ w) as [mounted w1]. destruct mounted; [|apply Hip].
  destruct (w_spawn false _ w1) as [[c'|e] w2] eqn:E.
  - intros [= <- <-].
    exact (spawn_worker exe _ args _ _ _ _ _ He (entry_nsenter ("--net=/run/netns/" +:+ name)) E).
  - case_decide; [apply Hip|done].
Qed.

(** The value [agent_json] answers was printed by the worker it started. *)
Lemma agent_json_answer ep args command w v w' :
  parse_agent args = Some command → agent_json ep args w = Some (Ok v, w') →
  ∃ fuel w0, ∀ r w1, dispatch fuel command w0 = Some (r, w1) →
    ∃ ls k, printed w1 = printed w0 ++ ls ∧ parse_json (unlines (take k ls)) = Ok v.
Proof.
  intros Hp Hj. unfold agent_json in Hj.
  apply io_try_ok_inv in Hj as (argv & w1 & Ha & Hj).
  unfold agent_argv in Ha. apply io_try_ok_inv in Ha as (exe & w2 & He & [= <- <-]).
  unfold agent_exe, current_exe, lift, io_bind, io_ret in He.
  destruct (w_current_exe w) as [[x|e] w3] eqn:Hx; [|done]. injection He as <- <-.
  apply io_try_ok_inv in Hj as (out & w4 & Hr & [= Hv]).
  unfold run_program in Hr. apply io_try_ok_inv in Hr as (c & w5 & Hs & Hr).
  apply (spawn_program_worker _ _ _ _ _ _ _ _ Hx) in Hs.
  unfold wait_with_output, lift, io_bind, io_ret in Hr.
  destruct (w_wait_with_output c w5) as [[o|e] w6] eqn:Ho; [|done]. injection Hr as <- <-.
  apply res_context_ok in Hv. cbn [fst snd] in Hv.
  destruct (wait_worker c args command _ _ _ Hs Hp Ho) as (fuel & w0 & Hd).
  exists fuel, w0. intros r w1 Hrun. destruct (Hd _ _ Hrun) as (ls & k & Hls & Hout).
  exists ls, k. split; [done|]. by rewrite <- Hout.
Qed.

Lemma parse_json_nothing `{!SerdeJsonLaws} v : parse_json "" ≠ Ok v.
Proof.
  unfold parse_json. change (trim "") with "". pose proof from_str_empty as He.
  destruct (from_str ""); [done|]. cbn. done.
Qed.

(** The counters the orchestrator reads are those of probes a worker made. *)
Lemma traffic_answer `{!WorldClock W, !NetLaws W, !SerdeJsonLaws, !DeOutcome, !DeOutcomeLaws,
    !ClapLaws} ep cfg cmd uid args ports w o w' :
  parse_agent (argv cmd uid) = Some (Traffic args) → args_valid args →
  0 <= ta_interval_ms args → traffic_ports args = Ok ports → attempts_of args ports <= u32_max →
  traffic ep cfg cmd uid w = Some (Ok o, w') →
  ∃ os w0 w1, probes args ports w0 = Some (Ok os, w1) ∧
    Z.of_nat (length os) = attempts_of args ports ∧ o = spec_outcome os.
Proof.
  intros Hp Ha Hi Hports Hn Ht. unfold traffic in Ht.
  apply io_try_ok_inv in Ht as (v & w1 & Hj & [= Hv]). apply res_context_ok in Hv.
  destruct (agent_json_answer _ _ _ _ _ _ Hp Hj) as (fuel & w0 & Hd).
  destruct (wp_elim _ _ _ (run_wp args ports w0 Ha Hi Hports Hn)) as (r & w2 & Hrun & _).
  destruct (Hd r w2 Hrun) as (ls & k & Hls & Hparse).
  assert (∀ ps, traffic_ports args = Ok ps → attempts_of args ps <= u32_max) as Hb.
  { intros ps Hps. by rewrite Hports in Hps; injection Hps as <-. }
  pose proof (run_prints args w0 r w2 Hb Hrun) as Hout. destruct r as [u|e].
  - destruct Hout as (ps & os & w3 & w4 & Hps & Hpr & Hout).
    rewrite Hports in Hps. injection Hps as <-. rewrite Hls in Hout.
    apply app_inv_head in Hout as ->. exists os, w3, w4.
    assert (Z.of_nat (length os) = attempts_of args ports) as Hl by by eapply length_probes.
    split_and!; [done..|].
    destruct k; cbn [take] in Hparse; [by apply parse_json_nothing in Hparse|].
    rewrite take_nil in Hparse.
    pose proof (report_line_read args ports os ltac:(lia)) as Hread.
    rewrite Hparse in Hread. cbn [result_bind] in Hread. rewrite Hv in Hread. by injection Hread.
  - rewrite Hls in Hout. rewrite <- (app_nil_r (printed w0)) in Hout at 2.
    apply app_inv_head in Hout as ->. rewrite take_nil in Hparse.
    by apply parse_json_nothing in Hparse.
Qed.

End answer.

(** ** Theorem *)

(** The longest case stays within the worker's attempt counter. *)
Lemma case_probes_u32 c : c ∈ all_cases → case_probes c <= u32_max.
Proof.
  assert (Forall (λ c, case_probes c <= u32_max) all_cases) as Hall
    by (apply (bool_decide_unpack _); vm_compute; exact I).
  intros Hc. by eapply list.Forall_forall in Hall; [|exact Hc].
Qed.

Lemma parse_agent_argv `{!Clap} cmd uid args :
  parse_traffic (drop 1 (argv cmd uid)) = Some args →
  parse_agent (argv cmd uid) = Some (Traffic args).
Proof. intros Ha. unfold argv in *. cbn [app drop] in Ha. cbn. by rewrite Ha. Qed.

Lemma worker_args_valid cmd uid p : cmd_valid cmd uid → args_valid (worker_args cmd uid p).
Proof.
  intros (_ & (v4 & Hto & Hv4) & Hdp & Hsp & _). split_and!; cbn.
  - by rewrite Hto.
  - exact Hsp.
  - intros q. destruct (dports cmd); [done|]. apply Hdp.
Qed.

(** What the worker of a case did, from the report the orchestrator judges. *)
Definition observed `{!Clap, !World W, !Net W, !Anyhow, !SerdeJson} (cfg : RunConfig) (c : FwCase)
    (o : TrafficOutcome) : Prop :=
  ∃ args os (w0 w1 : W),
    parse_agent (argv (build_cmd c (flow cfg (fc_origin c)).2) (uid_of cfg c))
      = Some (Traffic args) ∧
    worker_does args c ∧ ta_to args = (flow cfg (fc_origin c)).2 ∧ ta_uid args = uid_of cfg c ∧
    probes args (case_ports c) w0 = Some (Ok os, w1) ∧
    Z.of_nat (length os) = case_probes c ∧ o = spec_outcome os.

(** C4. An outcome is never made up on the way between the two processes.
    Driving the traffic of a case always returns, and when it returns an
    outcome, then a worker was started whose command line parses to the case's
    own traffic (its ports, protocol, source port, address and uid); that worker
    made exactly as many probes as the case asks for; and the verdict and the
    counters the orchestrator goes on with are those of its probes' outcomes. A
    worker that fails, or whose line does not arrive, is an error, never a
    verdict. The addresses of both sides are IPv4, as in the topology the
    program stages. *)
Theorem case_observed {W} `{!World W, !WorldClock W, !Net W, !NetLaws W, !Anyhow, !SerdeJson,
    !SerdeJsonLaws, !DeOutcome, !DeOutcomeLaws, !Sqlite W, !Depot W, !Clap, !ClapLaws,
    !Stdout W, !Reexec W} cfg c (w : W) :
  c ∈ all_cases →
  (∃ v4, rc_target_ip cfg = V4 v4 ∧ valid_ipv4 v4) →
  (∃ v4, rc_peer_ip cfg = V4 v4 ∧ valid_ipv4 v4) → is_u32 (rc_app_uid cfg) →
  wp (case_traffic cfg c) (λ r _, ∀ o, r = Ok o → observed (W := W) cfg c o) w.
Proof.
  intros Hc Ht Hp Hu.
  destruct (case_command c cfg Hc Ht Hp Hu) as (p & Hwf & Hcv & Hpp & Hargs & Hd).
  set (to := (flow cfg (fc_origin c)).2) in *.
  set (args := worker_args (build_cmd c to) (uid_of cfg c) p) in *.
  destruct (wp_elim _ _ _ (steady_case_traffic cfg c w)) as (r & w' & Hr & _).
  eapply wp_intro; [exact Hr|]. intros o ->. apply parse_agent_argv in Hargs.
  assert (traffic (endpoint cfg (fc_origin c)) cfg (build_cmd c to) (uid_of cfg c) w
          = Some (Ok o, w')) as Htr.
  { unfold case_traffic in Hr. unfold to. by destruct (flow cfg (fc_origin c)) as [[? ?] ?]. }
  assert (0 <= ta_interval_ms args) as Hi by (destruct Hcv as (_ & _ & _ & _ & _ & Hi & _); apply Hi).
  pose proof Hd as (Hports & Hn & _). pose proof (case_probes_u32 c Hc) as Hmax.
  destruct (traffic_answer _ _ _ _ args _ _ _ _ Hargs (worker_args_valid _ _ p Hcv)
    Hi (Hports _) ltac:(lia) Htr) as (os & w0 & w1 & Hpr & Hl & Ho).
  exists args, os, w0, w1. split_and!; [done|done|..|done|lia|done].
  - unfold args, build_cmd. by destruct (fc_traffic c).
  - done.
Qed.

(** ** The other workers' command lines *)

Section argvs.
  Context `{!Clap, !ClapLaws}.

Lemma sub_args_canonical {A} (spec : OptSpec) (build : Matches → option A) pos opts :
  NoDup (spec.*1) → Forall (λ p, String.prefix "-" p = false) pos →
  Forall (opt_allowed spec) opts → NoDup (opts.*1) →
  sub_args spec build (pos ++ concat (map render_opt opts)) = build (pos, opts).
Proof. intros. unfold sub_args. by rewrite clap_parse_canonical. Qed.

(** Every option of a literal list is declared, and no value looks like one. *)
Ltac allowed :=
  repeat (apply List.Forall_cons || apply List.Forall_nil);
  try (split; [apply (bool_decide_unpack _); vm_compute; exact I|cbn [snd]]);
  try exact I; try reflexivity; auto using uint_no_dash, ip_no_dash.
(** Looks the options up in a literal list. *)
Ltac read_opts :=
  cbn -[parse_uint u64_max u32_max u16_max parse_ip ip_to_string];
  repeat match goal with
  | |- context [decide (?x = ?y)] =>
      first [rewrite (decide_True (P := x = y)) by done
            |rewrite (decide_False (P := x = y)) by done]
  end;
  cbn -[parse_uint u64_max u32_max u16_max parse_ip ip_to_string].
Ltac nodup := apply (bool_decide_unpack _); vm_compute; exact I.

Lemma parse_listen p lp port duration hold :
  parse_listen_proto p = Some lp → is_u16 port → is_u u64_max duration →
  parse_agent (listen_argv p port duration ++ (if (hold : bool) then ["--hold"] else []))
  = Some (Listen {| la_proto := lp; la_port := port; la_duration_secs := duration;
                    la_hold := hold |}).
Proof.
  intros Hp Hport Hd.
  set (opts := [("port", Some (uint_to_string port));
                ("duration-secs", Some (uint_to_string duration))] ++
               (if hold then [("hold", None)] else [])).
  assert (sub_args listen_spec listen_args_of ([p] ++ concat (map render_opt opts))
          = listen_args_of ([p], opts)) as Hs.
  { apply sub_args_canonical; [nodup| |..].
    - constructor; [|done]. unfold parse_listen_proto in Hp. by repeat case_decide; subst.
    - unfold opts. destruct hold; cbn [app]; allowed.
    - unfold opts. destruct hold; nodup. }
  assert (parse_agent (listen_argv p port duration ++ (if hold then ["--hold"] else []))
          = Listen <$> sub_args listen_spec listen_args_of ([p] ++ concat (map render_opt opts)))
    as -> by by destruct hold.
  rewrite Hs. unfold listen_args_of, req_arg, default_arg, opt_arg, flag_arg, one_pos. cbn [fst snd].
  rewrite Hp. unfold opts. destruct hold; read_opts; by rewrite !parse_uint_to_string by done.
Qed.

Lemma parse_flood cfg :
  (∃ v4, rc_peer_ip cfg = V4 v4 ∧ valid_ipv4 v4) →
  parse_agent (flood_argv cfg)
  = Some (ConnFlood {| cf_to := rc_peer_ip cfg; cf_dport := FLOOD_PORT;
                       cf_count := CONN_FLOOD_COUNT; cf_hold_secs := HOLD_SECS;
                       cf_timeout_ms := 2000 |}).
Proof.
  intros (v4 & Hip & Hv).
  set (opts := [("to", Some (ip_to_string (rc_peer_ip cfg))); ("dport", Some "7400");
                ("count", Some "60"); ("hold-secs", Some "22")]).
  change (parse_agent (flood_argv cfg))
    with (ConnFlood <$> sub_args flood_spec flood_args_of ([] ++ concat (map render_opt opts))).
  rewrite sub_args_canonical; [|nodup|done|unfold opts; rewrite Hip; allowed|nodup].
  unfold flood_args_of, req_arg, default_arg, opt_arg, no_pos. rewrite Hip. unfold opts. rewrite Hip. read_opts.
  by rewrite parse_ip_v4_print.
Qed.

Lemma parse_arp cfg :
  String.prefix "-" (rc_peer_iface cfg) = false →
  parse_agent (arp_argv cfg)
  = Some (Cli.ArpSpoof {| as_iface := rc_peer_iface cfg; as_claim_ip := ipv4 10 123 0 250;
                          as_count := 6 |}).
Proof.
  intros Hi.
  set (opts := [("iface", Some (rc_peer_iface cfg)); ("claim-ip", Some ARP_CLAIM_IP);
                ("count", Some "6")]).
  change (parse_agent (arp_argv cfg))
    with (Cli.ArpSpoof <$> sub_args arp_spec arp_args_of ([] ++ concat (map render_opt opts))).
  rewrite sub_args_canonical; [done|nodup|done|allowed|nodup].
Qed.

(** The listeners of the catalog. *)
Definition listen_wf (l : ListenSpec) : bool :=
  bool_decide (is_Some (parse_listen_proto (ls_proto l))) &&
  (0 <=? ls_port l) && (ls_port l <=? u16_max).

Lemma listeners_wf : forallb (λ c, forallb listen_wf (fc_listen c)) all_cases = true.
Proof. vm_compute. reflexivity. Qed.

(** C22. The other workers also start as intended: the command line of every
    listener of the catalog parses to a listener of its protocol and port that
    does not hold its connections and lives for [LISTEN_SECS]; the monitor cases' command lines
    parse to a holding listener on the flood port that outlives the flood by six
    seconds, to a flood of [CONN_FLOOD_COUNT] connections to the peer's flood
    port held for [HOLD_SECS], and to six ARP claims of [ARP_CLAIM_IP] on the
    peer's interface; and [now] to the clock query. The peer's address is IPv4
    and its interface name does not start with a dash. *)
Theorem workers_read_argv cfg :
  (∃ v4, rc_peer_ip cfg = V4 v4 ∧ valid_ipv4 v4) →
  String.prefix "-" (rc_peer_iface cfg) = false →
  (∀ c l, c ∈ all_cases → l ∈ fc_listen c → ∃ lp,
     parse_listen_proto (ls_proto l) = Some lp ∧
     parse_agent (listen_argv (ls_proto l) (ls_port l) LISTEN_SECS)
     = Some (Listen {| la_proto := lp; la_port := ls_port l; la_duration_secs := LISTEN_SECS;
                       la_hold := false |})) ∧
  parse_agent hold_argv
  = Some (Listen {| la_proto := ListenTcp; la_port := FLOOD_PORT;
                    la_duration_secs := HOLD_SECS + 6; la_hold := true |}) ∧
  parse_agent (flood_argv cfg)
  = Some (ConnFlood {| cf_to := rc_peer_ip cfg; cf_dport := FLOOD_PORT;
                       cf_count := CONN_FLOOD_COUNT; cf_hold_secs := HOLD_SECS;
                       cf_timeout_ms := 2000 |}) ∧
  parse_agent (arp_argv cfg)
  = Some (Cli.ArpSpoof {| as_iface := rc_peer_iface cfg; as_claim_ip := ipv4 10 123 0 250;
                          as_count := 6 |}) ∧
  parse_agent ["now"] = Some Now.
Proof.
  intros Hip Hi. split_and!; [|..|by apply parse_flood|by apply parse_arp|].
  - intros c l Hc Hl. pose proof listeners_wf as Hwf. rewrite forallb_forall in Hwf.
    specialize (Hwf c ltac:(by apply list_elem_of_In)). rewrite forallb_forall in Hwf.
    specialize (Hwf l ltac:(by apply list_elem_of_In)). unfold listen_wf in Hwf. bool_prop.
    match goal with Hb : bool_decide _ = true |- _ => apply bool_decide_eq_true in Hb as [lp Hlp] end.
    exists lp. split; [done|]. rewrite <- (app_nil_r (listen_argv _ _ _)).
    apply (parse_listen _ _ _ _ false); [done|by split|split; discriminate].
  - apply (parse_listen "tcp" ListenTcp FLOOD_PORT (HOLD_SECS + 6) true);
      [done|split; discriminate..].
  - pose proof (sub_args_canonical [] no_pos [] [] ltac:(constructor) ltac:(constructor)
                  ltac:(constructor) ltac:(constructor)) as Hs.
    cbn in Hs. cbn. by rewrite Hs.
Qed.

End argvs.

Lemma workers_read_argv_witness :
  @parse_agent simple_clap (arp_argv demo_config)
  = Some (Cli.ArpSpoof {| as_iface := "fwp0"; as_claim_ip := ipv4 10 123 0 250; as_count := 6 |}).
Proof.
  apply (@workers_read_argv simple_clap simple_clap_laws demo_config).
  - exists (ipv4 10 123 0 2). split; [reflexivity|]. repeat constructor; discriminate.
  - reflexivity.
Defined.

(** ** A device that re-executes itself *)

(** The worker's arguments, behind the namespace entry. *)
Definition worker_args_of (argv : list string) : option (list string) :=
  match match argv with
        | "ip" :: _ :: _ :: _ :: rest => rest
        | "nsenter" :: _ :: _ :: rest => rest
        | _ => argv
        end with
  | _ :: "agent" :: args => Some args
  | _ => None
  end.

Definition sim_printed (w : device) : list string := reverse (d_out w).

(** What a worker run on a copy of the device prints. *)
Definition worker_output (argv : list string) (w : device) : io_result Output :=
  match worker_args_of argv ≫= @parse_agent simple_clap with
  | Some command =>
      match dispatch 0 command w with
      | Some (_, w1) =>
          let n := length (sim_printed w) in
          if bool_decide (take n (sim_printed w1) = sim_printed w) then
            Ok (mk_output (Some 0) (unlines (drop n (sim_printed w1))) "")
          else Err sim_timeout
      | None => Err sim_timeout
      end
  | None => Err sim_timeout
  end.

Definition loop_world : World device := {|
  Child := list string;
  w_instant_now := @w_instant_now _ sim_world;
  w_epoch_ms := @w_epoch_ms _ sim_world;
  w_sleep := tick;
  w_output := @w_output _ sim_world;
  w_spawn b a w := (Ok a, run_command a w);
  w_wait_with_output c w := (worker_output c w, w);
  w_kill := @w_kill _ sim_world;
  w_exists := @w_exists _ sim_world;
  w_read_to_string := @w_read_to_string _ sim_world;
  w_write := @w_write _ sim_world;
  w_copy := @w_copy _ sim_world;
  w_remove_file := @w_remove_file _ sim_world;
  w_create_dir_all := @w_create_dir_all _ sim_world;
  w_current_exe := @w_current_exe _ sim_world;
  w_println := @w_println _ sim_world;
  w_process_id := @w_process_id _ sim_world;
|}.

Definition loop_clock : @WorldClock device loop_world.
Proof. refine {| clock := d_clock : device → Z |}; intros; simpl; repeat case_match; simpl; lia. Defined.

Definition loop_net_laws : @NetLaws device loop_world loop_clock sim_net.
Proof. destruct sim_net_laws. by constructor. Qed.

Definition loop_stdout : @Stdout device loop_world sim_net.
Proof.
  refine {| printed := sim_printed |}; try done.
  intros s w. unfold sim_printed. simpl. by rewrite reverse_cons.
Defined.

Lemma loop_dispatch command w :
  @dispatch device loop_world sim_net sim_anyhow sim_json sim_sqlite sim_depot 0 command w
  = dispatch 0 command w.
Proof. by destruct command. Qed.

Definition loop_reexec :
  @Reexec device loop_world sim_net sim_anyhow sim_json sim_sqlite sim_depot simple_clap loop_stdout.
Proof.
  refine {| worker_of := (λ c args, worker_args_of c = Some args) : @Child device loop_world → list string → Prop |}; simpl.
  - intros exe pre args w0 w1 w c w' [= <- <-] Hpre [= <- <-]. by destruct Hpre.
  - intros c args command w o w' Hc Hp [= Hw <-]. unfold worker_output in Hw.
    rewrite Hc in Hw. cbn [mbind option_bind] in Hw. rewrite Hp in Hw.
    exists 0%nat, w. intros r w1. rewrite loop_dispatch. intros Hd. rewrite Hd in Hw.
    case_bool_decide as Hpre; [|done]. injection Hw as <-.
    set (n := length (sim_printed w)) in *.
    exists (drop n (sim_printed w1)), (length (drop n (sim_printed w1))). split.
    + transitivity (take n (sim_printed w1) ++ drop n (sim_printed w1)); [by rewrite take_drop|].
      by rewrite Hpre.
    + by rewrite take_ge.
Defined.

(** On it, the egress case's worker is started, probes, and is believed. *)
Lemma case_observed_witness :
  wp (@case_traffic device loop_world sim_anyhow sim_json sim_de_outcome demo_config demo_case)
     (λ r _, ∀ o, r = Ok o →
        @observed simple_clap device loop_world sim_net sim_anyhow sim_json demo_config demo_case o)
     demo_device ∧
  fst <$> @case_traffic device loop_world sim_anyhow sim_json sim_de_outcome demo_config demo_case
            demo_device = Some (Ok (spec_outcome [Success])).
Proof.
  split; [|vm_compute; reflexivity].
  apply (@case_observed device loop_world loop_clock sim_net loop_net_laws sim_anyhow sim_json
    sim_json_laws sim_de_outcome sim_de_outcome_laws sim_sqlite sim_depot simple_clap
    simple_clap_laws loop_stdout loop_reexec demo_config demo_case demo_device).
  - apply (list_elem_of_lookup_2 _ 7). reflexivity.
  - exists (ipv4 10 123 0 1). split; [reflexivity|]. repeat constructor; discriminate.
  - exists (ipv4 10 123 0 2). split; [reflexivity|]. repeat constructor; discriminate.
  - split; discriminate.
Defined.
