(* ===== verification/Report.v ===== *)
(** * The result report ([report.rs])

    The table, the summary and the JSON document of a run, and the count of
    failures the exit code is made of. *)

From S2P Require Import Prelude RustStr RustNet Effects Sim Cli Exec Config Monitor.

(** ** The table *)

(** [println!("{:<26} {:<9} {:<7} {:<8} {:<8} {}", ..)] *)
Definition table_row (id group result enforce event detail : string) : string :=
  pad_right 26 id +:+ " " +:+ pad_right 9 group +:+ " " +:+ pad_right 7 result +:+ " " +:+
  pad_right 8 enforce +:+ " " +:+ pad_right 8 event +:+ " " +:+ detail.

Definition case_row (case : CaseResult) : string :=
  table_row (r_id case) (r_group case) (r_result case) (enforce_observed case)
    (event_observed case) (r_detail case).

(** [results.iter().filter(|c| c.result == status).count()] *)
Definition count (status : string) (results : list CaseResult) : Z :=
  Z.of_nat (length (filter (λ c, r_result c = status) results)).

Definition total (results : list CaseResult) : Z := Z.of_nat (length results).

Definition summary_line (results : list CaseResult) : string :=
  nl +:+ "summary: total=" +:+ uint_to_string (total results) +:+
  " passed=" +:+ uint_to_string (count "PASS" results) +:+
  " failed=" +:+ uint_to_string (count "FAIL" results) +:+
  " skipped=" +:+ uint_to_string (count "SKIP" results).

(** ** The document *)

(** The [Serialize] instance derived for [CaseResult]. *)
Definition case_json (c : CaseResult) : jtree := TObj
  [("id", TStr (r_id c));
   ("group", TStr (r_group c));
   ("bundle", TStr (r_bundle c));
   ("result", TStr (r_result c));
   ("enforce_expected", TStr (enforce_expected c));
   ("enforce_observed", TStr (enforce_observed c));
   ("event_expected", TStr (event_expected c));
   ("event_observed", TStr (event_observed c));
   ("report_confirmed", match report_confirmed c with Some b => TBool b | None => TNull end);
   ("rule_id", match r_rule_id c with Some n => TInt n | None => TNull end);
   ("detail", TStr (r_detail c))].

Section report.
  Context {W : Type} `{!World W, !Anyhow, !SerdeJson}.

Definition document (cfg : RunConfig) (results : list CaseResult) : value := obj
  [("mode", json (TStr (to_ascii_lowercase (mode_debug (rc_mode cfg)))));
   ("target", json (TStr (label (rc_target cfg))));
   ("peer", json (TStr (label (rc_peer cfg))));
   ("target_ip", json (TStr (ip_to_string (rc_target_ip cfg))));
   ("peer_ip", json (TStr (ip_to_string (rc_peer_ip cfg))));
   ("cases", arr (map (λ c, json (case_json c)) results));
   ("summary", json (TObj
     [("total", TInt (total results));
      ("passed", TInt (count "PASS" results));
      ("failed", TInt (count "FAIL" results));
      ("skipped", TInt (count "SKIP" results))]))].

(** ** [emit] *)

Definition write_report (path : string) (body : string) : io W (res unit) :=
  r <- fs_write path body ;;
  match io_ctx ("failed to write report " +:+ path) r with
  | Err e => io_ret (Err e)
  | Ok _ => println ("report written to " +:+ path) ;;; io_ret (Ok tt)
  end.

Definition emit (global : GlobalArgs) (cfg : RunConfig) (results : list CaseResult)
    : io W (res Z) :=
  println (table_row "CASE" "GROUP" "RESULT" "ENFORCE" "EVENT" "DETAIL") ;;;
  println (repeat_str "-" 96) ;;;
  io_for results (λ case, println (case_row case)) ;;;
  println (summary_line results) ;;;
  let body := to_string_pretty (document cfg results) in
  (if json_flag global then println body else io_ret tt) ;;;
  _ <-? match report global with
        | Some path => write_report path body
        | None => io_ret (Ok tt)
        end ;;
  io_ret (Ok (count "FAIL" results)).

End report.

(** ** Lemmas *)

Lemma count_cons s c l :
  count s (c :: l) = (if decide (r_result c = s) then 1 else 0) + count s l.
Proof.
  unfold count. destruct (decide (r_result c = s)) as [H1|H1].
  - rewrite filter_cons_True by done. cbn [length]. lia.
  - by rewrite filter_cons_False by done.
Qed.

Lemma count_nonneg s l : 0 <= count s l.
Proof. unfold count. lia. Qed.

(** Every known status is counted once. *)
Lemma counts_total results :
  Forall status_ok results →
  count "PASS" results + count "FAIL" results + count "SKIP" results = total results.
Proof.
  unfold total. induction 1 as [|c l Hc _ IH]; [done|].
  rewrite !count_cons. cbn [length]. destruct Hc as [Hc|[Hc|Hc]]; rewrite Hc; simpl; lia.
Qed.

Lemma count_zero s results :
  count s results = 0 ↔ Forall (λ c, r_result c ≠ s) results.
Proof.
  induction results as [|c l IH]; [by split|].
  rewrite count_cons, list.Forall_cons, <- IH. pose proof (count_nonneg s l).
  destruct (decide (r_result c = s)); split; intros Hx; try lia; intuition lia.
Qed.

(** The counts as numbers of occurrences in the list of statuses. *)
Lemma count_occurrences s results :
  count s results = Z.of_nat (count_occ String.string_dec (map r_result results) s).
Proof.
  induction results as [|c l IH]; [done|]. rewrite count_cons, IH. cbn [map count_occ].
  destruct (String.string_dec (r_result c) s); destruct (decide (r_result c = s)); done || lia.
Qed.

Section report_proofs.
  Context {W : Type} `{!World W, !WorldClock W, !WorldFs W, !Anyhow, !SerdeJson, !SerdeJsonLaws}.

(** The numbers of the document, as its readers see them. *)
Lemma document_counts cfg results k n :
  In (k, n) [("total", total results); ("passed", count "PASS" results);
             ("failed", count "FAIL" results); ("skipped", count "SKIP" results)] →
  0 <= n < 2 ^ 64 →
  (s ← get (document cfg results) "summary"; v ← get s k; as_u64 v) = Some n.
Proof.
  intros Hk Hn. unfold document. rewrite get_obj by (apply (bool_decide_unpack _); reflexivity).
  cbn [assoc String.eqb Ascii.eqb Bool.eqb mbind option_bind].
  rewrite get_json_obj by (apply (bool_decide_unpack _); reflexivity).
  repeat (destruct Hk as [Hk|Hk];
    [injection Hk as <- <-; cbn; by apply as_u64_int|]). done.
Qed.

Lemma document_cases cfg results :
  get (document cfg results) "cases" ≫= as_array = Some (map (λ c, json (case_json c)) results).
Proof.
  unfold document. rewrite get_obj by (apply (bool_decide_unpack _); reflexivity).
  apply as_array_arr.
Qed.

Lemma println_wp s (Q : unit → W → Prop) w : Q tt (w_println s w) → wp (println s) Q w.
Proof. done. Qed.

Lemma steady_emit global cfg results : steady (emit (W := W) global cfg results).
Proof. unfold emit, write_report. steady. Qed.

(** What [emit] leaves: the count, and the document in the report file. *)
Lemma emit_wp global cfg results w :
  wp (emit global cfg results)
     (λ r w', match r with
        | Ok failed => failed = count "FAIL" results ∧
            ∀ path, report global = Some path →
              file w' path = Some (to_string_pretty (document cfg results))
        | Err _ => is_Some (report global)
        end) w.
Proof.
  unfold emit. apply wp_bind, println_wp, wp_bind, println_wp, wp_bind.
  eapply wp_mono with (P := λ _ _, True).
  2: { assert (steady (W := W) (io_for results (λ case, println (case_row case)))) as Hs by steady.
       eapply wp_mono; [|apply Hs]. done. }
  intros _ w1 _. apply wp_bind, println_wp, wp_bind.
  eapply wp_mono with (P := λ _ _, True); [|by destruct (json_flag global)].
  intros _ w2 _. apply wp_try. destruct (report global) as [path|]; [|by apply wp_ret].
  unfold write_report. apply wp_bind, wp_lift.
  destruct (w_write path _ w2) as [r w3] eqn:Ew. apply file_write in Ew as [Ew _]. cbn [fst snd].
  destruct r as [u|e]; cbn [io_ctx]; [|by apply wp_ret].
  apply wp_bind, println_wp, wp_ret, wp_ret. split; [done|]. intros ? [= <-].
  rewrite file_println. by apply Ew.
Qed.

(** A case in the document has the fields of the result. *)
Lemma case_json_field c k s :
  In (k, s) [("id", r_id c); ("group", r_group c); ("bundle", r_bundle c); ("result", r_result c);
    ("enforce_expected", enforce_expected c); ("enforce_observed", enforce_observed c);
    ("event_expected", event_expected c); ("event_observed", event_observed c);
    ("detail", r_detail c)] →
  get (json (case_json c)) k ≫= as_str = Some s.
Proof.
  intros Hk. unfold case_json. rewrite get_json_obj by (apply (bool_decide_unpack _); reflexivity).
  repeat (destruct Hk as [Hk|Hk]; [injection Hk as <- <-; cbn; apply as_str_str|]). done.
Qed.

(** The world after these lines are printed. *)
Definition said (lines : list string) (w : W) : W := fold_left (λ w s, w_println s w) lines w.

Lemma said_for {A} (f : A → string) l w :
  io_for l (λ x, println (f x)) w = Some (tt, said (map f l) w).
Proof. revert w. induction l as [|x l IH]; intros w; [done|]. apply (IH (w_println (f x) w)). Qed.

(** What [emit] prints before it writes the report file. *)
Definition emitted (global : GlobalArgs) (cfg : RunConfig) (results : list CaseResult) : list string :=
  [table_row "CASE" "GROUP" "RESULT" "ENFORCE" "EVENT" "DETAIL"; repeat_str "-" 96]
  ++ map case_row results ++ [summary_line results]
  ++ (if json_flag global then [to_string_pretty (document cfg results)] else []).

Lemma emit_run global cfg results w :
  emit global cfg results w =
  io_bind (match report global with
           | Some path => write_report path (to_string_pretty (document cfg results))
           | None => io_ret (Ok tt)
           end)
    (λ r, io_ret (match r with Ok _ => Ok (count "FAIL" results) | Err e => Err e end))
    (said (emitted global cfg results) w).
Proof.
  unfold emit, emitted, said. cbv zeta. rewrite !fold_left_app. cbn [fold_left].
  set (tail := match report global with Some _ => _ | None => _ end). clearbody tail.
  unfold io_bind at 1, println at 1, lift_ at 1. unfold io_bind at 1, println at 1, lift_ at 1.
  unfold io_bind at 1. rewrite said_for. unfold said.
  unfold io_bind at 1, println at 1, lift_ at 1. unfold io_try.
  destruct (json_flag global); cbn [fold_left]; unfold io_bind, println, lift_, io_ret;
    by destruct (tail _) as [[[u|e] w']|].
Qed.

(** ** Theorems *)

(** C29. The report is faithful to the results. Its document lists the results
    in order, each with its fields, and its summary has the numbers of [PASS],
    [FAIL] and [SKIP] among their statuses and their total. [emit] prints the
    table, one row per result in order, the summary line with the same four
    numbers, and with [--json] the document; it writes exactly the document to
    the report file that was asked for, says so, and returns the number of
    [FAIL] results. It always returns, and fails only when that write fails. *)
Theorem report_faithful global cfg results w :
  Forall status_ok results → total results < 2 ^ 64 →
  let doc := document cfg results in
  let number k := s ← get doc "summary"; v ← get s k; as_u64 v in
  let statuses s := Z.of_nat (count_occ String.string_dec (map r_result results) s) in
  let w1 := said (
    [table_row "CASE" "GROUP" "RESULT" "ENFORCE" "EVENT" "DETAIL"; repeat_str "-" 96] ++
     map (λ c, table_row (r_id c) (r_group c) (r_result c) (enforce_observed c)
                 (event_observed c) (r_detail c)) results ++
     [nl +:+ "summary: total=" +:+ uint_to_string (Z.of_nat (length results)) +:+
      " passed=" +:+ uint_to_string (statuses "PASS") +:+
      " failed=" +:+ uint_to_string (statuses "FAIL") +:+
      " skipped=" +:+ uint_to_string (statuses "SKIP")] ++
     (if json_flag global then [to_string_pretty doc] else [])) w in
  get doc "cases" ≫= as_array = Some (map (λ c, json (case_json c)) results) ∧
  (∀ c k s, In (k, s) [("id", r_id c); ("group", r_group c); ("bundle", r_bundle c);
     ("result", r_result c); ("enforce_expected", enforce_expected c);
     ("enforce_observed", enforce_observed c); ("event_expected", event_expected c);
     ("event_observed", event_observed c); ("detail", r_detail c)] →
     get (json (case_json c)) k ≫= as_str = Some s) ∧
  number "passed" = Some (statuses "PASS") ∧ number "failed" = Some (statuses "FAIL") ∧
  number "skipped" = Some (statuses "SKIP") ∧ number "total" = Some (Z.of_nat (length results)) ∧
  statuses "PASS" + statuses "FAIL" + statuses "SKIP" = Z.of_nat (length results) ∧
  ∃ r w', emit global cfg results w = Some (r, w') ∧
    match report global with
    | None => r = Ok (statuses "FAIL") ∧ w' = w1
    | Some path => ∃ x w2, w_write path (to_string_pretty doc) w1 = (x, w2) ∧
        match x with
        | Ok _ => r = Ok (statuses "FAIL") ∧ w' = w_println ("report written to " +:+ path) w2 ∧
            file w' path = Some (to_string_pretty doc)
        | Err _ => is_ok r = false ∧ w' = w2
        end
    end.
Proof.
  intros Hok Hlen doc number statuses w1.
  assert (said (emitted global cfg results) w = w1) as Hw1.
  { unfold emitted, summary_line. by rewrite !count_occurrences. }
  clearbody w1. subst statuses. cbv beta in *.
  rewrite <- (count_occurrences "PASS" results), <- (count_occurrences "FAIL" results),
    <- (count_occurrences "SKIP" results) in *.
  pose proof (counts_total _ Hok) as Ht.
  pose proof (count_nonneg "PASS" results). pose proof (count_nonneg "FAIL" results).
  pose proof (count_nonneg "SKIP" results).
  split; [apply document_cases|]. split; [apply case_json_field|].
  split_and!; try (apply document_counts; [simpl; tauto|unfold total in *; lia]); [exact Ht|].
  rewrite emit_run, Hw1.
  destruct (report global) as [path|]; [|by repeat eexists].
  unfold write_report, fs_write, lift, io_bind, io_ret, println, lift_.
  fold doc. destruct (w_write path (to_string_pretty doc) w1) as [x w2] eqn:Ew.
  pose proof Ew as Hf. apply file_write in Hf as [Hf _].
  destruct x as [u|e]; cbn [io_ctx]; do 2 eexists; (split; [done|]); do 2 eexists; (split; [done|]).
  - split_and!; [done..|]. rewrite file_println. by apply Hf.
  - done.
Qed.

End report_proofs.

#[export] Hint Resolve steady_emit : steady.

Definition demo_results : list CaseResult :=
  [monitor_result {| m_id := "monitor-arp-spoof"; m_kind := ArpSpoof; m_notes := "" |}
     "PASS" "arp_spoof" "";
   monitor_result {| m_id := "monitor-conn-total"; m_kind := ConnTotal; m_notes := "" |}
     "FAIL" "none" "no tcp_conn_total sample emitted"].

Lemma report_faithful_witness :
  Forall status_ok demo_results ∧ total demo_results < 2 ^ 64 ∧
  get (document demo_config demo_results) "cases" ≫= as_array
    = Some (map (λ c, json (case_json c)) demo_results).
Proof.
  assert (Forall status_ok demo_results) as Hok.
  { constructor; [by left|]. constructor; [right; by left|constructor]. }
  assert (total demo_results < 2 ^ 64) as Ht by reflexivity.
  split; [exact Hok|]. split; [exact Ht|].
  exact (proj1 (report_faithful default_args demo_config demo_results demo_device Hok Ht)).
Defined.

Example demo_emit :
  fst <$> emit default_args demo_config demo_results demo_device = Some (Ok 1).
Proof. vm_compute. reflexivity. Qed.
