(* ===== verification/Main.v ===== *)
(** * The program ([main.rs])

    The config file loaded into the environment, the options read from it, the
    subcommands, and the exit code. [Cli::parse] is generated by [clap]: what it
    makes of the command line is an answer of the interface [OsEnv];
    [global_args] transcribes the attributes of [GlobalArgs]. *)

From S2P Require Import Prelude RustInt RustStr RustNet Effects Sim Cli Exec Config Peer Sockets SimNet Db Target Provision Catalog Monitor Verify Env Agent Report.

(** ** The config file *)

Definition config_keys : list (string * string) :=
  [("mode", "FWV_MODE");
   ("peer_netns", "FWV_PEER_NETNS");
   ("vsoc_cert", "FWV_VSOC_CERT");
   ("vsoc_key", "FWV_VSOC_KEY");
   ("vsoc_cacert", "FWV_VSOC_CACERT");
   ("target_iface", "FWV_TARGET_IFACE");
   ("peer_iface", "FWV_PEER_IFACE");
   ("target_ip", "FWV_TARGET_IP");
   ("peer_ip", "FWV_PEER_IP");
   ("veth_prefix", "FWV_VETH_PREFIX");
   ("acd", "FWV_ACD");
   ("fun_fw", "FWV_FUN_FW");
   ("fun_traffic", "FWV_FUN_TRAFFIC");
   ("reload_timeout_secs", "FWV_RELOAD_TIMEOUT_SECS");
   ("event_settle_ms", "FWV_EVENT_SETTLE_MS");
   ("report_confirm", "FWV_REPORT_CONFIRM");
   ("vsoc_url", "FWV_VSOC_URL");
   ("idps_fw", "FWV_IDPS_FW");
   ("state_db", "FWV_STATE_DB");
   ("app_uid", "FWV_APP_UID");
   ("app_identity_key", "FWV_APP_IDENTITY_KEY");
   ("app_pkg", "FWV_APP_PKG");
   ("app_name", "FWV_APP_NAME")].

Definition config_key_to_env (key : string) : option string := assoc key config_keys.

(** The last [--config] of the command line; one without a value unsets it. *)
Fixpoint config_path (path : option string) (args : list string) : option string :=
  match args with
  | [] => path
  | arg :: rest =>
      if String.eqb arg "--config" then config_path (head rest) rest
      else match strip_prefix "--config=" arg with
           | Some p => config_path (Some p) rest
           | None => config_path path rest
           end
  end.

(** The environment variable and the value a line sets. *)
Definition config_line (line : string) : option (string * string) :=
  let line := trim line in
  if String.eqb line "" || starts_with "#" line || starts_with ";" line then None else
  kv ← split_once "=" line;
  let key := to_ascii_lowercase (trim kv.1) in
  let value := trim_matches char_dq (trim kv.2) in
  env ← config_key_to_env key;
  Some (env, value).

(** The environment of the process, its arguments, and [Cli::parse] ([None]
    where [clap] prints and exits). *)
Class OsEnv (W : Type) := {
  e_args : W → list string * W;
  e_var_os : string → W → option string * W;
  e_set_var : string → string → W → W;
  e_parse : W → option Cli * W;
}.

Section config_env.
  Context {W : Type} `{!World W, !OsEnv W}.

Definition apply_line (line : string) : io W unit :=
  match config_line line with
  | Some (env, value) =>
      set <- lift (e_var_os env) ;;
      match set with
      | None => lift_ (e_set_var env value)
      | Some _ => io_ret tt
      end
  | None => io_ret tt
  end.

Definition apply_config_env : io W unit :=
  args <- lift e_args ;;
  match config_path None args with
  | None => io_ret tt
  | Some path =>
      r <- read_to_string path ;;
      match r with
      | Ok content => io_for (lines content) apply_line
      | Err _ => io_ret tt
      end
  end.

End config_env.

(** ** The global options *)

Definition parse_mode (s : string) : option Mode :=
  if String.eqb s "android" then Some Android
  else if String.eqb s "host" then Some Host else None.
Definition parse_confirm (s : string) : option ReportConfirm :=
  if String.eqb s "local" then Some Local
  else if String.eqb s "server" then Some Server
  else if String.eqb s "vsoc" then Some Vsoc else None.

Section options.
  (** The long options given on the command line, and the environment. *)
  Variables flags env : string → option string.

(** An [#[arg(long, env)]] option: the flag, else the variable. *)
Definition given (name var : string) : option string :=
  match flags name with Some v => Some v | None => env var end.
(** Its value: absent, parsed, or refused. *)
Definition opt_value {A} (parse : string → option A) (name var : string) : option (option A) :=
  match given name var with
  | Some s => Some <$> parse s
  | None => Some None
  end.
Definition value_or {A} (parse : string → option A) (name var : string) (d : A) : option A :=
  default d <$> opt_value parse name var.

(** [GlobalArgs], field by field; [None] where [clap] refuses a value. *)
Definition global_args : option GlobalArgs :=
  mode' ← value_or parse_mode "mode" "FWV_MODE" Host;
  target_ip' ← opt_value parse_ip "target-ip" "FWV_TARGET_IP";
  peer_ip' ← opt_value parse_ip "peer-ip" "FWV_PEER_IP";
  veth_prefix' ← value_or (parse_uint 255) "veth-prefix" "FWV_VETH_PREFIX" 24;
  acd' ← value_or parse_i32 "acd" "FWV_ACD" 1;
  fun_fw' ← value_or parse_i32 "fun-fw" "FWV_FUN_FW" 1;
  fun_traffic' ← value_or parse_i32 "fun-traffic" "FWV_FUN_TRAFFIC" 4;
  reload' ← value_or (parse_uint u64_max) "reload-timeout-secs" "FWV_RELOAD_TIMEOUT_SECS" 30;
  settle' ← value_or (parse_uint u64_max) "event-settle-ms" "FWV_EVENT_SETTLE_MS" 1500;
  confirm' ← value_or parse_confirm "report-confirm" "FWV_REPORT_CONFIRM" Local;
  app_uid' ← value_or (parse_uint u32_max) "app-uid" "FWV_APP_UID" 2000;
  let text name var d := default d (given name var) in
  Some {|
    config := flags "config";
    mode := mode';
    peer_netns := text "peer-netns" "FWV_PEER_NETNS" "fwpeer";
    vsoc_cert := given "vsoc-cert" "FWV_VSOC_CERT";
    vsoc_key := given "vsoc-key" "FWV_VSOC_KEY";
    vsoc_cacert := given "vsoc-cacert" "FWV_VSOC_CACERT";
    target_iface := text "target-iface" "FWV_TARGET_IFACE" "fwt0";
    peer_iface := text "peer-iface" "FWV_PEER_IFACE" "fwp0";
    target_ip := target_ip';
    peer_ip := peer_ip';
    veth_prefix := veth_prefix';
    acd := acd';
    fun_fw := fun_fw';
    fun_traffic := fun_traffic';
    reload_timeout_secs := reload';
    event_settle_ms := settle';
    report_confirm := confirm';
    vsoc_url := given "vsoc-url" "FWV_VSOC_URL";
    idps_fw := text "idps-fw" "FWV_IDPS_FW" "idps-fw";
    state_db := text "state-db" "FWV_STATE_DB" "/data/idd/idps-fw/state.sqlite3";
    app_uid := app_uid';
    app_identity_key := text "app-identity-key" "FWV_APP_IDENTITY_KEY" "com.demo.browser";
    app_pkg := text "app-pkg" "FWV_APP_PKG" "com.demo.browser";
    app_name := text "app-name" "FWV_APP_NAME" "Browser";
    report := flags "report";
    json_flag := bool_decide (is_Some (flags "json"));
  |}.

End options.

Example no_options : global_args (λ _, None) (λ _, None) = Some default_args.
Proof. reflexivity. Qed.

(** ** Subcommands *)

(** [format!("{:?}", bundle)] *)
Definition bundle_debug (b : Bundle) : string :=
  match b with
  | Bundle_IngressTuple => "IngressTuple"
  | Bundle_DefaultDeny => "DefaultDeny"
  | Bundle_DefaultAllow => "DefaultAllow"
  | Bundle_EgressTuple => "EgressTuple"
  | Bundle_AppDeny => "AppDeny"
  | Bundle_AppAllow => "AppAllow"
  | Bundle_MatchFields => "MatchFields"
  | Bundle_Detection => "Detection"
  | Bundle_Traffic => "Traffic"
  | Bundle_Priority => "Priority"
  end.

Definition list_row (id group bundle enforce event : string) : string :=
  pad_right 26 id +:+ " " +:+ pad_right 9 group +:+ " " +:+ pad_right 14 bundle +:+ " " +:+
  pad_right 8 enforce +:+ " " +:+ event.

Definition enforce_word (e : Enforce) : string :=
  match e with
  | Enforce_Blocked => "blocked"
  | Enforce_Allowed => "allowed"
  | Enforce_Sent => "sent"
  | Enforce_Refused => "refused"
  end.

Section program.
  Context {W : Type} `{!World W, !OsEnv W, !Net W, !Anyhow, !SerdeJson, !DeOutcome, !Sqlite W,
                       !DeRows, !Depot W}.

Definition list_cases : io W unit :=
  println (list_row "CASE" "GROUP" "BUNDLE" "ENFORCE" "EVENT") ;;;
  println (repeat_str "-" 80) ;;;
  io_for all_cases (λ case,
    println (list_row (fc_id case) (Catalog.as_str (fc_group case))
      (to_ascii_lowercase (bundle_debug (fc_bundle case))) (enforce_word (expect_enforce case))
      (match expect_event case with
       | Some e => ee_kind e +:+ "/" +:+ ee_action e
       | None => "none"
       end))) ;;;
  io_for monitor_cases (λ case,
    println (list_row (m_id case) "monitor" "monitor" "report" (m_notes case))).

(** A line of the preflight: label, result and detail. *)
Definition check : Type := string * bool * string.

Definition preflight_checks (cfg : RunConfig) : io W (list check) :=
  health <- Target.health cfg ;;
  let health_info :=
    match health with
    | Ok h => "phase=" +:+ default "?" (get h "phase" ≫= Effects.as_str)
    | Err error => show_alt error
    end in
  r <- shell (rc_target cfg) "[ -d /data/idd/rule/depot ] && echo yes || echo no" ;;
  let depot := unwrap_or "" r in
  peer_worker <- agent_json (rc_peer cfg) ["now"] ;;
  r <- shell (rc_peer cfg)
         ("ping -c1 -W2 " +:+ ip_to_string (rc_target_ip cfg) +:+ " >/dev/null 2>&1 && echo ok") ;;
  let reachable := unwrap_or "" r in
  vsoc <- (if decide (rc_mode cfg = Host) then
             r <- events_mention cfg "" ;;
             io_ret [("vsoc api", is_ok r, if is_ok r then "reachable" else "unreachable")]
           else io_ret []) ;;
  io_ret ([("idps-fw health", is_ok health, health_info);
           ("target depot dir", contains "yes" depot, depot);
           ("peer worker re-exec", is_ok peer_worker,
            match peer_worker with Ok _ => "responds" | Err error => show_alt error end);
           ("peer->target link", contains "ok" reachable, reachable)] ++ vsoc).

Definition print_check (c : check) : io W unit :=
  println ("[" +:+ (if c.1.2 then "ok" else "FAIL") +:+ "] " +:+ c.1.1 +:+ ": " +:+ c.2).

Definition preflight (cfg : RunConfig) : io W (res unit) :=
  checks <- preflight_checks cfg ;;
  io_for checks print_check ;;;
  let all_ok := foldl (λ all_ok c, all_ok && c.1.2) true checks in
  r <- shell (rc_target cfg) "[ -e /data/idd/keys/aes.keystore ] && echo yes || echo no" ;;
  let keystore := unwrap_or "" r in
  println ("[" +:+ (if contains "yes" keystore then "ok" else "warn") +:+
           "] target keystore: " +:+ keystore) ;;;
  println (nl +:+ "mode=" +:+ mode_debug (rc_mode cfg) +:+ "  TARGET=" +:+ label (rc_target cfg) +:+
           " (" +:+ ip_to_string (rc_target_ip cfg) +:+ ")  PEER=" +:+ label (rc_peer cfg) +:+
           " (" +:+ ip_to_string (rc_peer_ip cfg) +:+ ")") ;;;
  io_ret (if all_ok then Ok tt else Err (anyhow "preflight checks failed")).

(** ** [run] *)

Definition run_provision (cfg : RunConfig) (rules_file : string) (traffic_cycle : option Z)
    : io W (res Z) :=
  r <- read_to_string rules_file ;;
  match io_ctx ("failed to read " +:+ rules_file) r with
  | Err e => io_ret (Err e)
  | Ok text =>
      ver <-? provision_firewall cfg text ;;
      println ("provisioned firewall rule version " +:+ int_to_string ver) ;;;
      match traffic_cycle with
      | Some cycle =>
          _ <-? provision_traffic_cycle cfg cycle ;;
          println ("provisioned traffic cycle " +:+ uint_to_string cycle +:+ "s") ;;;
          io_ret (Ok 0)
      | None => io_ret (Ok 0)
      end
  end.

(** The number of failed cases; [fuel] is that of the worker's listener. *)
Definition run (fuel : nat) (cli : Cli) : io W (res Z) :=
  let g := global cli in
  match command cli with
  | Agent command => _ <-? dispatch fuel command ;; io_ret (Ok 0)
  | SetupEnv => _ <-? setup g ;; io_ret (Ok 0)
  | CleanEnv => _ <-? clean g ;; io_ret (Ok 0)
  | Cli.List => list_cases ;;; io_ret (Ok 0)
  | Preflight => cfg <-? resolve g ;; _ <-? preflight cfg ;; io_ret (Ok 0)
  | Health =>
      cfg <-? resolve g ;; v <-? Target.health cfg ;;
      println (to_string_pretty v) ;;; io_ret (Ok 0)
  | Stats =>
      cfg <-? resolve g ;; v <-? statistics cfg ;;
      println (to_string_pretty v) ;;; io_ret (Ok 0)
  | Provision rules_file traffic_cycle =>
      cfg <-? resolve g ;; run_provision cfg rules_file traffic_cycle
  | ResetRules =>
      cfg <-? resolve g ;; _ <-? reset_rules cfg ;;
      println "reset depot rules to a permissive baseline" ;;; io_ret (Ok 0)
  | Run id =>
      cfg <-? resolve g ;; results <- run_one cfg id ;; emit g cfg results
  | RunGroup group =>
      cfg <-? resolve g ;;
      match group_parse group with
      | Err e => io_ret (Err e)
      | Ok group => results <- run_group cfg group ;; emit g cfg results
      end
  | RunAll =>
      cfg <-? resolve g ;; results <- run_all cfg ;; emit g cfg results
  end.

Inductive ExitCode := SUCCESS | FAILURE | CLAP_EXIT.

Definition exit_code (r : res Z) : ExitCode :=
  match r with
  | Ok failures => if 0 <? failures then FAILURE else SUCCESS
  | Err _ => FAILURE
  end.

Definition main (fuel : nat) : io W ExitCode :=
  apply_config_env ;;;
  cli <- lift e_parse ;;
  match cli with
  | None => io_ret CLAP_EXIT
  | Some cli => r <- run fuel cli ;; io_ret (exit_code r)
  end.

End program.

(** ** Lemmas: the config file *)

(** The environment as a function, and what the calls do to it. *)
Class OsEnvLaws (W : Type) `{!World W, !OsEnv W} := {
  environ : W → string → option string;
  arguments : W → list string;
  args_get w : (e_args w).1 = arguments w;
  args_env w n : environ (e_args w).2 n = environ w n;
  var_get n w : (e_var_os n w).1 = environ w n;
  var_env n w m : environ (e_var_os n w).2 m = environ w m;
  set_env n v w m : environ (e_set_var n v w) m = if String.eqb m n then Some v else environ w m;
  read_env p w m : environ (w_read_to_string p w).2 m = environ w m;
}.

(** The settings of a file; the first one of a name counts. *)
Definition settings (content : string) : list (string * string) :=
  omap config_line (lines content).

Definition first_of {A} (o p : option A) : option A :=
  match o with Some a => Some a | None => p end.

Section config_proofs.
  Context {W : Type} `{!World W, !OsEnv W, !OsEnvLaws W}.

Lemma apply_line_wp line w :
  wp (apply_line line)
     (λ _ w', ∀ n, environ w' n =
        first_of (environ w n) (assoc n (option_list (config_line line)))) w.
Proof.
  unfold apply_line. destruct (config_line line) as [[name v]|]; cbn [option_list assoc].
  - apply wp_bind, wp_lift. rewrite var_get. destruct (environ w name) as [cur|] eqn:Hcur.
    + apply wp_ret. intros n. rewrite var_env. destruct (environ w n) eqn:E; [done|]. simpl.
      destruct (String.eqb_spec n name) as [->|]; [congruence|done].
    + unfold lift_, wp. intros n. rewrite set_env, var_env. simpl.
      destruct (String.eqb_spec n name) as [->|]; [by rewrite Hcur|].
      by destruct (environ w n).
  - apply wp_ret. intros n. simpl. by destruct (environ w n).
Qed.

Lemma first_of_assoc {A} n (o : option A) l k :
  first_of (first_of o (assoc n l)) (assoc n k) = first_of o (assoc n (l ++ k)).
Proof.
  destruct o; [done|]. induction l as [|[m a] l IH]; [done|]. simpl.
  destruct (String.eqb n m); [done|exact IH].
Qed.

Lemma apply_lines_wp ls w :
  wp (io_for ls apply_line)
     (λ _ w', ∀ n, environ w' n = first_of (environ w n) (assoc n (omap config_line ls))) w.
Proof.
  revert w. induction ls as [|line ls IH]; intros w; cbn [io_for].
  - apply wp_ret. intros n. by destruct (environ w n).
  - apply wp_bind. eapply wp_mono; [|apply apply_line_wp]. intros ? w1 Hw1. cbv beta in Hw1.
    eapply wp_mono; [|apply IH]. intros ? w2 Hw2 n. cbv beta in Hw2.
    rewrite Hw2, Hw1, first_of_assoc.
    do 2 f_equal. simpl. by destruct (config_line line).
Qed.

(** The environment after the file named by [--config] is applied. *)
Definition config_applied `{!WorldFs W} (w w' : W) : Prop :=
  match config_path None (arguments w) with
  | None => ∀ n, environ w' n = environ w n
  | Some path =>
      (∃ e, (w_read_to_string path (e_args w).2).1 = Err e ∧ ∀ n, environ w' n = environ w n) ∨
      (∃ content, file (e_args w).2 path = Some content ∧
         ∀ n, environ w' n = first_of (environ w n) (assoc n (settings content)))
  end.

(** C31. The precedence of the config file: after it is applied a variable has
    the value it had before, and only if it had none, the value of the first
    line of the file that sets it; a file that is not named or cannot be read
    changes nothing. *)
Theorem config_precedence `{!WorldFs W} w :
  wp apply_config_env (λ _ w', config_applied w w') w.
Proof.
  unfold apply_config_env, config_applied. apply wp_bind, wp_lift. rewrite args_get.
  destruct (config_path None (arguments w)) as [path|]; [|apply wp_ret; intros n; apply args_env].
  apply wp_bind, wp_lift.
  pose proof (file_read path (e_args w).2) as Hf. pose proof (read_env path (e_args w).2) as He.
  destruct (w_read_to_string path (e_args w).2) as [[content|e] w1]; cbn [fst snd] in *.
  - destruct (Hf _ _ eq_refl) as [Hc _]. eapply wp_mono; [|apply apply_lines_wp].
    intros ? w2 Hw2. cbv beta in Hw2. right. exists content. split; [by apply Hc|].
    intros n. by rewrite Hw2, He, args_env.
  - apply wp_ret. left. exists e. split; [done|]. intros n. by rewrite He, args_env.
Qed.

End config_proofs.

(** ** Lemmas: a setting written and read back *)

Fixpoint last_or (c : ascii) (s : string) : ascii :=
  match s with "" => c | String d s => last_or d s end.

(** Neither the first nor the last character satisfies [p]. *)
Definition edges (p : ascii → bool) (s : string) : bool :=
  match s with "" => true | String c r => negb (p c) && negb (p (last_or c r)) end.

Lemma last_split c s : ∃ t, String c s = t +:+ String (last_or c s) "".
Proof.
  revert c. induction s as [|d s IH]; intros c; [by exists ""|]. destruct (IH d) as [t Ht].
  exists (String c t). cbn [last_or]. by rewrite sapp_cons, <- Ht.
Qed.

Lemma last_or_app c s d t : last_or c (s +:+ String d t) = last_or d t.
Proof. revert c. induction s as [|e s IH]; intros c; [done|]. rewrite sapp_cons. apply IH. Qed.

Lemma trim_by_edges p s : edges p s = true → trim_end_by p (trim_start_by p s) = s.
Proof.
  destruct s as [|c s]; [done|]. unfold edges. intros Hp. bool_prop. cbn [trim_start_by].
  use_bools. destruct (last_split c s) as [t ->]. by apply trim_end_by_last.
Qed.

Lemma split_once_app sep s r :
  no_char sep s = true → split_once sep (s +:+ String sep r) = Some (s, r).
Proof.
  unfold no_char. induction s as [|c s IH]; intros Hs.
  - rewrite sapp_nil_l. cbn [split_once]. by rewrite Ascii.eqb_refl.
  - rewrite sapp_cons. cbn [split_once str_forall] in *. bool_prop. use_bools. by rewrite IH.
Qed.

(** A value that survives being written on a line of the config file. *)
Definition text_ok (v : string) : bool :=
  no_break v && edges is_ws v && edges (Ascii.eqb char_dq) v.

(** A key as the program writes them. *)
Definition key_ok (k : string) : bool :=
  match k with
  | "" => false
  | String a _ => negb (is_ws a) && negb (Ascii.eqb "#" a) && negb (Ascii.eqb ";" a)
  end && no_break k && no_char "=" (k +:+ " ") && String.eqb (trim (k +:+ " ")) k
  && String.eqb (to_ascii_lowercase k) k && String.eqb (trim (k +:+ " = ")) (k +:+ " =").

(** The line without its surrounding white space. *)
Lemma trim_kv k v :
  key_ok k = true → text_ok v = true →
  ∃ rest, trim (kv k v) = k +:+ " =" +:+ rest ∧ trim rest = v.
Proof.
  unfold key_ok, text_ok. intros Hk Hv. destruct k as [|a k]; [done|]. bool_prop.
  repeat match goal with H : String.eqb _ _ = true |- _ => apply String.eqb_eq in H end.
  destruct v as [|c v].
  - exists "". unfold kv. by autorewrite with rsimp.
  - exists (String " " (String c v)). split.
    + assert (kv (String a k) (String c v) = String a k +:+ " =" +:+ String " " (String c v))
        as -> by done.
      apply trim_by_edges. rewrite sapp_cons. cbn [edges].
      change (" =" +:+ String " " (String c v)) with (" = " +:+ String c v).
      rewrite <- sapp_assoc, last_or_app. use_bools. cbn [edges] in *. bool_prop. by use_bools.
    + unfold trim. cbn [trim_start_by]. change (is_ws " ") with true. cbn iota.
      apply (trim_by_edges is_ws (String c v)). done.
Qed.

Lemma config_line_kv k v :
  key_ok k = true → text_ok v = true →
  config_line (kv k v) = (λ env, (env, v)) <$> config_key_to_env k.
Proof.
  intros Hk Hv. destruct (trim_kv k v Hk Hv) as (rest & Hl & Hr). unfold config_line.
  rewrite Hl. unfold key_ok, text_ok in *. destruct k as [|a k]; [done|]. bool_prop.
  repeat match goal with H : String.eqb _ _ = true |- _ => apply String.eqb_eq in H end.
  assert (String.eqb (String a k +:+ " =" +:+ rest) "" || starts_with "#" (String a k +:+ " =" +:+ rest)
          || starts_with ";" (String a k +:+ " =" +:+ rest) = false) as ->.
  { rewrite sapp_cons. unfold starts_with. cbn [String.eqb String.prefix].
    destruct (ascii_dec "#" a) as [<-|]; [done|]. by destruct (ascii_dec ";" a) as [<-|]. }
  change (" =" +:+ rest) with (" " +:+ String "=" rest).
  rewrite <- sapp_assoc, split_once_app by done. cbn [mbind option_bind fst snd].
  match goal with H : trim (String a k +:+ " ") = _ |- _ => rewrite H end.
  match goal with H : to_ascii_lowercase _ = _ |- _ => rewrite H end.
  rewrite Hr. unfold trim_matches. rewrite trim_by_edges by done.
  by destruct (config_key_to_env (String a k)).
Qed.

Lemma last_or_forall q c s : q c = true → str_forall q s = true → q (last_or c s) = true.
Proof.
  revert c. induction s as [|d s IH]; intros c Hc Hs; [done|]. cbn [last_or str_forall] in *.
  apply andb_true_iff in Hs as [Hd Hs]. by apply IH.
Qed.

Lemma edges_forall p s : str_forall (λ c, negb (p c)) s = true → edges p s = true.
Proof.
  destruct s as [|c s]; [done|]. cbn [edges str_forall]. intros [Hc Hs]%andb_true_iff.
  rewrite Hc. by apply (last_or_forall (λ c, negb (p c))).
Qed.

Lemma text_ok_no_ws v : no_ws v = true → no_char char_dq v = true → text_ok v = true.
Proof.
  intros Hw Hq. unfold text_ok. rewrite !edges_forall by done. rewrite !andb_true_r.
  unfold no_break. eapply str_forall_impl; [|exact Hw].
  intros c. by destruct c as [[] [] [] [] [] [] [] []].
Qed.

Lemma text_ok_digits s : str_forall is_digit s = true → text_ok s = true.
Proof.
  intros Hs. apply text_ok_no_ws; [by apply digits_no_ws|by apply digits_no_char].
Qed.

Lemma text_ok_ipv4 ip : text_ok (ipv4_to_string ip) = true.
Proof.
  assert (∀ n (p : ascii → bool), (∀ c, is_digit c = true → p c = true) →
            str_forall p (uint_to_string n) = true) as Hd.
  { intros n p Hp. eapply str_forall_impl; [exact Hp|apply uint_to_string_digits]. }
  assert (∀ p : ascii → bool, (∀ c, is_digit c = true → p c = true) → p "."%char = true →
            str_forall p (ipv4_to_string ip) = true) as Hi.
  { intros p Hp Hdot. unfold ipv4_to_string. rewrite !str_forall_app. cbn [str_forall].
    rewrite Hdot, !(Hd _ p Hp). done. }
  apply text_ok_no_ws; (apply Hi; [|done]); intros c; by destruct c as [[] [] [] [] [] [] [] []].
Qed.

(** ** The file [setup-env] writes *)

Lemma conf_keys_ok g topo : Forall (λ p, key_ok p.1 = true) (conf_pairs g topo).
Proof.
  unfold conf_pairs. apply Forall_app. split.
  { repeat apply List.Forall_cons; try apply List.Forall_nil; reflexivity. }
  destruct (mode g); [apply List.Forall_nil|]. apply List.Forall_cons; [reflexivity|].
  destruct (vsoc_cert g), (vsoc_key g), (vsoc_cacert g); cbn [app];
    repeat apply List.Forall_cons; try apply List.Forall_nil; reflexivity.
Qed.

Lemma no_break_kv k v : key_ok k = true → text_ok v = true → no_break (kv k v) = true.
Proof.
  unfold key_ok, text_ok, kv. intros Hk Hv. bool_prop. rewrite !no_break_app. by use_bools.
Qed.

Lemma settings_conf g topo :
  Forall (λ p, text_ok p.2 = true) (conf_pairs g topo) →
  settings (unlines (fwv_conf_lines g topo)) =
  omap (λ p, (λ env, (env, p.2)) <$> config_key_to_env p.1) (conf_pairs g topo).
Proof.
  intros Ht. pose proof (conf_keys_ok g topo) as Hk. unfold settings.
  set (tail := match mode g, vsoc_cert g, vsoc_key g with
               | Host, Some _, Some _ => []
               | Host, _, _ => ["# set vsoc_cert/vsoc_key to the VSOC mTLS client certificate before running"]
               | Android, _, _ => []
               end).
  assert (Forall (λ l, no_break l = true) (fwv_conf_lines g topo)) as Hb.
  { unfold fwv_conf_lines. apply List.Forall_cons; [reflexivity|]. apply Forall_app. split.
    - apply Forall_fmap. clear tail. induction Ht; decompose_Forall_hyps; constructor; auto.
      by apply no_break_kv.
    - fold tail. unfold tail. repeat case_match; repeat constructor. }
  rewrite lines_unlines by (eapply Forall_impl; [|exact Hb]; intros l; apply no_break_no_nl).
  assert (map strip_cr (fwv_conf_lines g topo) = fwv_conf_lines g topo) as ->.
  { induction Hb as [|l ls Hl _ IH]; [done|]. simpl. by rewrite no_break_strip_cr, IH. }
  unfold fwv_conf_lines. fold tail.
  assert (omap config_line tail = []) as Htail by (unfold tail; repeat case_match; reflexivity).
  change (omap config_line (?c :: ?l)) with (omap config_line l).
  rewrite omap_app, Htail, app_nil_r. clear Hb Htail tail.
  apply omap_map. pose proof (List.Forall_and Hk Ht) as Hkt.
  eapply Forall_impl; [|exact Hkt]. intros [k v] [Hk1 Hv1]. by apply config_line_kv.
Qed.

(** What is read back of the options the file was written for: the settings it
    carries, and the defaults of the rest. *)
Definition reloaded (g : GlobalArgs) : GlobalArgs :=
  let topo := topology_from g in
  let client o := match mode g, vsoc_cert g, vsoc_key g with
                  | Host, Some _, Some _ => o | _, _, _ => None end in
  {| config := Some FWV_CONF;
     mode := mode g;
     peer_netns := peer_netns g;
     vsoc_cert := client (vsoc_cert g);
     vsoc_key := client (vsoc_key g);
     vsoc_cacert := client (vsoc_cacert g);
     target_iface := target_iface g;
     peer_iface := peer_iface g;
     target_ip := Some (t_target_ip topo);
     peer_ip := Some (t_peer_ip topo);
     veth_prefix := 24;
     acd := 1; fun_fw := 1; fun_traffic := 4; reload_timeout_secs := 30;
     event_settle_ms := 1500; report_confirm := Local;
     vsoc_url := match mode g with
                 | Host => Some (default default_vsoc_url (vsoc_url g)) | Android => None end;
     idps_fw := idps_fw g;
     state_db := state_db g;
     app_uid := app_uid g;
     app_identity_key := app_identity_key g;
     app_pkg := app_pkg g;
     app_name := app_name g;
     report := None;
     json_flag := false |}.

(** A command line with only [--config /etc/idd/fw-verify.conf]. *)
Definition conf_flag (o : string) : option string :=
  if String.eqb o "config" then Some FWV_CONF else None.

Definition v4_addr (ip : IpAddr) : Prop := ∃ v4, ip = V4 v4 ∧ valid_ipv4 v4.

(** C8. [setup-env] and [--config] are a round trip: with no [FWV_*] variable
    set, the options read from the file it writes are the options it was given,
    with the topology's addresses made explicit, except for the settings the
    file leaves out, which get their defaults. The prefix length is one of
    those: the topology the reloaded options describe, which [clean-env] tears
    down, is the one [setup-env] created exactly when the prefix is 24. The
    addresses are IPv4, and no value has a line break, or a blank or double
    quote at either end. *)
Theorem conf_reloads g (env : string → option string) :
  (∀ name, name ∈ map snd config_keys → env name = None) →
  v4_addr (t_target_ip (topology_from g)) → v4_addr (t_peer_ip (topology_from g)) →
  is_u32 (app_uid g) →
  Forall (λ p, text_ok p.2 = true) (conf_pairs g (topology_from g)) →
  let conf := unlines (fwv_conf_lines g (topology_from g)) in
  global_args conf_flag (λ name, first_of (env name) (assoc name (settings conf)))
    = Some (reloaded g) ∧
  (topology_from (reloaded g) = topology_from g ↔ veth_prefix g = 24).
Proof.
  intros Henv (tip & Ht & Hvt) (pip & Hp & Hvp) Huid Htext conf. split.
  - unfold conf. rewrite settings_conf by done. clear conf Htext.
    unfold global_args, value_or, opt_value, given.
    repeat match goal with
    | |- context [conf_flag ?o] =>
        let r := eval vm_compute in (conf_flag o) in change (conf_flag o) with r
    end.
    cbv beta iota.
    repeat match goal with
    | |- context [env ?n] => rewrite (Henv n) by (apply (bool_decide_unpack _); vm_compute; exact I)
    end.
    cbn [first_of]. unfold conf_pairs, reloaded. cbv zeta. rewrite Ht, Hp.
    assert (parse_ip (ip_to_string (V4 tip)) = Some (V4 tip)) as Htip by (by apply parse_ip_v4_print).
    assert (parse_ip (ip_to_string (V4 pip)) = Some (V4 pip)) as Hpip by (by apply parse_ip_v4_print).
    assert (parse_uint u32_max (uint_to_string (app_uid g)) = Some (app_uid g)) as Hu
      by (by apply parse_uint_to_string).
    revert Htip Hpip Hu. generalize (ip_to_string (V4 tip)), (ip_to_string (V4 pip)),
      (uint_to_string (app_uid g)). intros ts ps us Htip Hpip Hu.
    destruct (mode g), (vsoc_cert g), (vsoc_key g), (vsoc_cacert g);
      lazy -[parse_ip parse_uint u32_max]; by rewrite Htip, Hpip, Hu.
  - split; [by intros [=]|]. intros Hpre. unfold topology_from, reloaded. simpl.
    by rewrite Hpre.
Qed.

(** ** Lemmas: the subcommands *)

Section run_proofs.
  Context {W : Type} `{!World W, !WorldClock W, !WorldFs W, !OsEnv W, !Net W, !Anyhow, !SerdeJson,
    !SerdeJsonLaws, !DeOutcome, !Sqlite W, !SqliteClock W, !DeRows, !Depot W, !DepotClock W}.

Lemma all_ok_forallb (checks : list check) :
  foldl (λ all_ok c, all_ok && c.1.2) true checks = forallb (λ c, c.1.2) checks.
Proof.
  assert (∀ b, foldl (λ all_ok c, all_ok && c.1.2) b checks = b && forallb (λ c, c.1.2) checks)
    as Hb; [|by rewrite Hb].
  induction checks as [|c cs IH]; intros b; cbn [foldl forallb]; [by rewrite andb_true_r|].
  by rewrite IH, andb_assoc.
Qed.

(** Whether a command that ran printed the word. *)
Definition says (word : string) (out : res string) : bool :=
  match out with Ok s => contains word s | Err _ => false end.

(** What the steps of the preflight answered, each in the world the one before
    left: the health of idps-fw, the test of the depot directory, the worker's
    answer on the PEER, the ping from the PEER, and in host mode VSOC's. *)
Definition preflight_answers (cfg : RunConfig) (w : W) (health : res value) (depot : res string)
    (worker : res value) (ping : res string) (vsoc : option bool) (w5 : W) : Prop :=
  ∃ w1 w2 w3 w4,
    Target.health cfg w = Some (health, w1) ∧
    shell (rc_target cfg) "[ -d /data/idd/rule/depot ] && echo yes || echo no" w1
      = Some (depot, w2) ∧
    agent_json (rc_peer cfg) ["now"] w2 = Some (worker, w3) ∧
    shell (rc_peer cfg) ("ping -c1 -W2 " +:+ ip_to_string (rc_target_ip cfg) +:+
                         " >/dev/null 2>&1 && echo ok") w3 = Some (ping, w4) ∧
    match rc_mode cfg with
    | Host => ∃ r, events_mention cfg "" w4 = Some (r, w5) ∧ vsoc = Some (is_ok r)
    | Android => vsoc = None ∧ w5 = w4
    end.

(** The lines of the checks and whether all passed, from those answers. *)
Definition preflight_report (cfg : RunConfig) (health : res value) (depot : res string)
    (worker : res value) (ping : res string) (vsoc : option bool)
    (checks : list check) : Prop :=
  ∃ info1 info2 info3 info4,
    checks = [("idps-fw health", is_ok health, info1);
              ("target depot dir", says "yes" depot, info2);
              ("peer worker re-exec", is_ok worker, info3);
              ("peer->target link", says "ok" ping, info4)] ++
             match vsoc with
             | Some up => [("vsoc api", up, if up then "reachable" else "unreachable")]
             | None => []
             end.

Lemma says_unwrap word out : contains word "" = false → contains word (unwrap_or "" out) = says word out.
Proof. by destruct out. Qed.

Lemma preflight_checks_answers cfg w :
  ∃ health depot worker ping vsoc checks w5,
    preflight_checks cfg w = Some (checks, w5) ∧
    preflight_answers cfg w health depot worker ping vsoc w5 ∧
    preflight_report cfg health depot worker ping vsoc checks.
Proof.
  unfold preflight_checks, preflight_answers, preflight_report.
  assert (∀ A (m : io W A) w, steady m → ∃ a w', m w = Some (a, w')) as Hrun.
  { intros A m v Hm. destruct (wp_elim _ _ _ (Hm v)) as (a & v' & Hr & _). eauto. }
  destruct (Hrun _ (Target.health cfg) w) as (health & w1 & E1); [steady|].
  destruct (Hrun _ (shell (rc_target cfg) "[ -d /data/idd/rule/depot ] && echo yes || echo no") w1)
    as (depot & w2 & E2); [steady|].
  destruct (Hrun _ (agent_json (rc_peer cfg) ["now"]) w2) as (worker & w3 & E3); [steady|].
  destruct (Hrun _ (shell (rc_peer cfg) ("ping -c1 -W2 " +:+ ip_to_string (rc_target_ip cfg) +:+
    " >/dev/null 2>&1 && echo ok")) w3) as (ping & w4 & E4); [steady|].
  destruct (Hrun _ (events_mention cfg "") w4) as (r & w5 & E5); [steady|].
  unfold io_bind. rewrite E1, E2, E3, E4. destruct (rc_mode cfg) eqn:Em.
  - rewrite decide_False by done. unfold io_ret. rewrite !says_unwrap by done.
    exists health, depot, worker, ping, (@None bool). do 2 eexists. split; [done|].
    split; [by eauto 10|]. by repeat eexists.
  - rewrite decide_True by done. rewrite E5. unfold io_ret. rewrite !says_unwrap by done.
    exists health, depot, worker, ping, (Some (is_ok r)). do 2 eexists. split; [done|].
    split; [by eauto 15|]. by repeat eexists.
Qed.

(** C30. The preflight always returns, having made every check, whatever the
    ones before it gave: it succeeds exactly when the health call answered, the
    test of the depot directory printed yes, the worker re-executed on the PEER
    answered, the ping from the PEER printed ok and, in host mode, VSOC's event
    query answered. It prints one line per check with exactly that outcome. The
    keystore line is advisory. *)
Theorem preflight_verdict cfg w :
  wp (preflight cfg) (λ r w', ∃ health depot worker ping vsoc checks w5 keys w6,
    preflight_answers cfg w health depot worker ping vsoc w5 ∧
    preflight_report cfg health depot worker ping vsoc checks ∧
    shell (rc_target cfg) "[ -e /data/idd/keys/aes.keystore ] && echo yes || echo no"
      (said (map (λ c : check, "[" +:+ (if c.1.2 then "ok" else "FAIL") +:+ "] " +:+ c.1.1 +:+ ": " +:+ c.2)
               checks) w5) = Some (keys, w6) ∧
    (∃ keystore closing, w' = said [keystore; closing] w6) ∧
    r = if is_ok health && says "yes" depot && is_ok worker && says "ok" ping && default true vsoc
        then Ok tt else Err (anyhow "preflight checks failed")) w.
Proof.
  unfold preflight. apply wp_bind.
  destruct (preflight_checks_answers cfg w)
    as (health & depot & worker & ping & vsoc & checks & w5 & He & Ha & Hr).
  eapply wp_intro; [exact He|]. apply wp_bind. eapply wp_intro; [apply said_for|]. cbv zeta.
  apply wp_step; [steady|]. intros keys w6 Hk _.
  apply wp_bind, println_wp, wp_bind, println_wp, wp_ret.
  exists health, depot, worker, ping, vsoc, checks, w5, keys, w6.
  split; [done|]. split; [done|]. split; [exact Hk|]. split; [by do 2 eexists|].
  rewrite all_ok_forallb. destruct Hr as (i1 & i2 & i3 & i4 & ->). cbn [app forallb fst snd].
  replace (forallb _ _) with (default true vsoc) by (by destruct vsoc as [[]|]).
  by rewrite !andb_assoc.
Qed.

(** The cases a command runs. *)
Definition selected (c : Command) : option (list string) :=
  match c with
  | Run id => Some [id]
  | RunGroup group => group_ids <$> result_ok (group_parse group)
  | RunAll => Some (map fc_id all_cases ++ map m_id monitor_cases)
  | _ => None
  end.

(** What a run command returns: the failures among its results, which its
    report lists. *)
Definition ran (cli : Cli) (r : res Z) (w' : W) : Prop :=
  match r with
  | Ok failures => ∃ cfg results ids,
      selected (command cli) = Some ids ∧ map r_id results ≡ₚ ids ∧ Forall status_ok results ∧
      failures = count "FAIL" results ∧
      ∀ path, report (global cli) = Some path →
        file w' path = Some (to_string_pretty (document cfg results))
  | Err _ => True
  end.

Lemma emit_ran cli cfg results ids w :
  selected (command cli) = Some ids → map r_id results ≡ₚ ids → Forall status_ok results →
  wp (emit (global cli) cfg results) (ran cli) w.
Proof.
  intros Hs Hi Ho. eapply wp_mono; [|apply emit_wp]. intros [n|e] w1; [|done].
  intros [-> Hf]. by exists cfg, results, ids.
Qed.

(** The configuration of a run command can be run. *)
Definition runnable_cli (cli : Cli) : Prop :=
  0 <= reload_timeout_secs (global cli) ∧ 0 <= event_settle_ms (global cli) ∧
  ∀ cfg w w', resolve (global cli) w = Some (Ok cfg, w') → versions_bounded (W := W) cfg.

Lemma resolve_runnable cli cfg w w' :
  runnable_cli cli → resolve (global cli) w = Some (Ok cfg, w') → runnable_cfg (W := W) cfg.
Proof.
  intros (Hr & Hs & Hv) He. pose proof (resolve_wf _ _ _ _ Hr Hs He) as Hwf.
  destruct Hwf as (_ & _ & _ & Hr' & Hs'). split_and!; [done|done|by eapply Hv].
Qed.

(** The rule of a subcommand that starts by resolving the configuration. *)
Lemma resolve_ran cli (k : RunConfig → io W (res Z)) w :
  runnable_cli cli →
  (∀ cfg w1, runnable_cfg (W := W) cfg → wp (k cfg) (ran cli) w1) →
  wp (io_try (resolve (global cli)) k) (ran cli) w.
Proof.
  intros Hcli Hk. apply wp_try.
  destruct (wp_elim _ _ _ (steady_resolve (global cli) w)) as ([cfg|e] & w1 & He & _);
    (eapply wp_intro; [exact He|]); [|done].
  apply Hk. by eapply resolve_runnable.
Qed.

Lemma run_cases_wp fuel cli w :
  runnable_cli cli → match command cli with Run _ | RunGroup _ | RunAll => True | _ => False end →
  wp (run fuel cli) (ran cli) w.
Proof.
  intros Hcli Hc. unfold run. pose proof (emit_ran cli) as He.
  destruct (command cli) as [| | | |id|group| | | | | |] eqn:Ec; try done;
    (apply resolve_ran; [done|]); intros cfg w1 Hcfg.
  - apply wp_bind. eapply wp_mono; [|by apply run_one_wp]. intros rs w2 [[Hi Ho] _].
    apply (He cfg rs [id]); [done|by rewrite Hi|done].
  - simpl in He. destruct (group_parse group) as [g|e] eqn:Hg; [|by apply wp_ret].
    apply wp_bind. eapply wp_mono; [|by apply run_group_wp]. intros rs w2 [[Hi Ho] _].
    by apply (He cfg rs (group_ids g)).
  - apply wp_bind. eapply wp_mono; [|by apply run_all_wp]. intros rs w2 [[Hi Ho] _].
    by apply (He cfg rs (map fc_id all_cases ++ map m_id monitor_cases)).
Qed.

(** C2. The exit code tells the truth. A [run], [run-group] or [run-all]
    always ends. It exits with success exactly when it produced a result for
    every case asked for, none of them twice, every one of them PASS or SKIP,
    and its report, if one was asked for, was written in full; a failing case
    or an error makes it exit with failure. *)
Theorem exit_code_truth fuel cli w :
  runnable_cli cli →
  match command cli with Run _ | RunGroup _ | RunAll => True | _ => False end →
  wp (r <- run fuel cli ;; io_ret (r, exit_code r))
     (λ rc w', match rc with
        | (Ok _, code) => ∃ cfg results ids,
            selected (command cli) = Some ids ∧ map r_id results ≡ₚ ids ∧
            (code = SUCCESS ↔ Forall (λ c, r_result c = "PASS" ∨ r_result c = "SKIP") results) ∧
            (code = FAILURE ↔ Exists (λ c, r_result c = "FAIL") results) ∧
            (∀ path, report (global cli) = Some path →
               file w' path = Some (to_string_pretty (document cfg results)))
        | (Err _, code) => code = FAILURE
        end) w.
Proof.
  intros Hcli Hc. apply wp_bind. eapply wp_mono; [|by apply run_cases_wp].
  intros [n|e] w1; [|by intros _].
  intros (cfg & results & ids & Hs & Hi & Ho & -> & Hf). apply wp_ret.
  exists cfg, results, ids. split; [done|]. split; [done|].
  assert (count "FAIL" results = 0 ↔
          Forall (λ c, r_result c = "PASS" ∨ r_result c = "SKIP") results) as Hz.
  { rewrite count_zero. clear -Ho. induction Ho as [|c l Hc _ IH]; [by split|].
    rewrite !list.Forall_cons, IH. unfold status_ok in Hc. destruct Hc as [Hc|[Hc|Hc]]; rewrite Hc;
      split; intros [? ?]; intuition congruence. }
  assert (Exists (λ c, r_result c = "FAIL") results ↔ ¬ count "FAIL" results = 0) as Hx.
  { rewrite count_zero, Forall_Exists_neg. split; [tauto|]. apply dec_stable. }
  rewrite <- Hz, Hx. pose proof (count_nonneg "FAIL" results). unfold exit_code.
  destruct (Z.ltb_spec 0 (count "FAIL" results)); split_and!; try done; split; try done; lia.
Qed.

End run_proofs.

(** The scan for [--config] does not stop at the subcommand: the idps-fw
    configuration given to [agent provision-rule] is also read as a
    configuration of fw-verify. *)
Lemma provision_config_scanned exe path rest :
  Forall (λ a, a ≠ "--config" ∧ strip_prefix "--config=" a = None) rest →
  exe ≠ "--config" → strip_prefix "--config=" exe = None →
  config_path None ([exe; "agent"; "provision-rule"; "--config"; path] ++ rest)
  = match strip_prefix "--config=" path with
    | Some p => Some p
    | None => if decide (path = "--config") then head rest else Some path
    end.
Proof.
  intros Hr He Hp.
  assert (∀ o, config_path o rest = o) as Hrest.
  { induction Hr as [|a l [Ha Hs] _ IH]; intros o; [done|]. cbn [config_path].
    apply String.eqb_neq in Ha as ->. by rewrite Hs. }
  apply String.eqb_neq in He. cbn [app config_path]. rewrite He, Hp. cbn [head].
  change (String.eqb "agent" "--config") with false.
  change (strip_prefix "--config=" "agent") with (@None string).
  change (String.eqb "provision-rule" "--config") with false.
  change (strip_prefix "--config=" "provision-rule") with (@None string).
  change (String.eqb "--config" "--config") with true. cbn [head].
  case_decide as Hd.
  - subst path. change (String.eqb "--config" "--config") with true.
    change (strip_prefix "--config=" "--config") with (@None string). apply Hrest.
  - apply String.eqb_neq in Hd as ->. destruct (strip_prefix _ path); apply Hrest.
Qed.

(** ** The demo device runs the program *)

Definition env_key (name : string) : string := "env:" +:+ name.

(** The environment is kept among the files; the command line is
    [fw-verify --config /etc/idd/fw-verify.conf run-group egress]. *)
#[export] Instance sim_os_env : OsEnv device := {|
  e_args w := (["fw-verify"; "--config"; FWV_CONF; "run-group"; "egress"], w);
  e_var_os n w := (d_files w !! env_key n, w);
  e_set_var n v w := set_files (base.insert (env_key n) v (d_files w)) w;
  e_parse w := (g ← global_args conf_flag (λ n, d_files w !! env_key n);
                Some {| global := g; command := RunGroup "egress" |}, w);
|}.

#[export] Instance sim_os_env_laws : OsEnvLaws device.
Proof.
  refine {| environ w n := d_files w !! env_key n;
            arguments _ := ["fw-verify"; "--config"; FWV_CONF; "run-group"; "egress"] |};
    intros; simpl; try done.
  destruct (String.eqb_spec m n) as [->|Hm].
  - by rewrite fin_maps.lookup_insert_eq.
  - rewrite fin_maps.lookup_insert_ne; [done|]. unfold env_key.
    intros He. by apply (inj (String.append "env:")) in He.
Defined.

(** Options for the addresses of the demo device. *)
Definition demo_args : GlobalArgs := {|
  config := None; mode := Host; peer_netns := "fwpeer"; vsoc_cert := None; vsoc_key := None;
  vsoc_cacert := None; target_iface := "fwt0"; peer_iface := "fwp0"; target_ip := None;
  peer_ip := None; veth_prefix := 24; acd := 1; fun_fw := 1; fun_traffic := 4;
  reload_timeout_secs := 30; event_settle_ms := 1500; report_confirm := Local;
  vsoc_url := Some "https://vsoc.example:8443"; idps_fw := "/usr/bin/idps-fw";
  state_db := "/data/idd/idps-fw/state.sqlite3"; app_uid := 2001;
  app_identity_key := "com.demo.browser"; app_pkg := "com.demo.browser";
  app_name := "Demo Browser"; report := Some "/tmp/report.json"; json_flag := false |}.

Definition demo_conf : string := unlines (fwv_conf_lines demo_args (topology_from demo_args)).
Definition demo_main_device : device := set_files (base.insert FWV_CONF demo_conf base.empty) demo_device.

Lemma config_precedence_witness :
  wp apply_config_env (λ _ w', config_applied demo_main_device w') demo_main_device.
Proof. exact (config_precedence demo_main_device). Defined.

(** The demo file sets the uid, and a variable set before keeps its value. *)
Example demo_applied :
  (λ p, (environ p.2 "FWV_APP_UID", environ p.2 "FWV_APP_NAME")) <$>
    apply_config_env (e_set_var "FWV_APP_NAME" "Other" demo_main_device)
  = Some (Some "2001", Some "Other").
Proof. vm_compute. reflexivity. Qed.

Lemma conf_reloads_witness :
  Forall (λ p, text_ok p.2 = true) (conf_pairs demo_args (topology_from demo_args)) ∧
  global_args conf_flag (λ name, first_of None (assoc name (settings demo_conf)))
    = Some (reloaded demo_args) ∧
  (topology_from (reloaded demo_args) = topology_from demo_args ↔ veth_prefix demo_args = 24).
Proof.
  assert (Forall (λ p, text_ok p.2 = true) (conf_pairs demo_args (topology_from demo_args)))
    as Htext by (apply (bool_decide_unpack _); vm_compute; exact I).
  split; [exact Htext|].
  apply (conf_reloads demo_args (λ _, None)); [done| | |split; discriminate|exact Htext].
  - exists (ipv4 10 123 0 1). split; [reflexivity|repeat constructor; discriminate].
  - exists (ipv4 10 123 0 2). split; [reflexivity|repeat constructor; discriminate].
Defined.

Example demo_main : fst <$> main 0 demo_main_device = Some FAILURE.
Proof. vm_compute. reflexivity. Qed.

(** On the demo device idps-fw and VSOC answer, and the rest does not. *)
Example demo_preflight :
  (λ p, (is_ok p.1, List.last (d_out p.2) "")) <$> preflight demo_config demo_device
  = Some (false, "[ok] idps-fw health: phase=?") ∧
  (λ p, map (λ c : check, (c.1.1, c.1.2)) p.1) <$> preflight_checks demo_config demo_device
  = Some [("idps-fw health", true); ("target depot dir", false); ("peer worker re-exec", false);
          ("peer->target link", false); ("vsoc api", true)].
Proof. split; vm_compute; reflexivity. Qed.

Lemma preflight_verdict_witness :
  wp (preflight demo_config) (λ r w', ∃ health depot worker ping vsoc w5,
    preflight_answers demo_config demo_device health depot worker ping vsoc w5 ∧
    r = if is_ok health && says "yes" depot && is_ok worker && says "ok" ping && default true vsoc
        then Ok tt else Err (anyhow "preflight checks failed")) demo_device.
Proof.
  eapply wp_mono; [|exact (preflight_verdict demo_config demo_device)].
  intros r w' (health & depot & worker & ping & vsoc & checks & w5 & keys & w6 & Ha & _ & _ & _ & Hr).
  exists health, depot, worker, ping, vsoc, w5. exact (conj Ha Hr).
Defined.

Definition demo_cli : Cli := {| global := demo_args; command := RunGroup "egress" |}.

Lemma demo_runnable_cli : runnable_cli (W := device) demo_cli.
Proof.
  split_and!; [discriminate|discriminate|]. intros cfg w w' He Ha.
  apply resolve_cases in He as [[Hm _] _]. simpl in Hm. congruence.
Qed.

Lemma exit_code_truth_witness :
  wp (r <- run 0 demo_cli ;; io_ret (r, exit_code r))
     (λ rc w', match rc with
        | (Ok _, code) => ∃ cfg results ids,
            selected (command demo_cli) = Some ids ∧ map r_id results ≡ₚ ids ∧
            (code = SUCCESS ↔ Forall (λ c, r_result c = "PASS" ∨ r_result c = "SKIP") results) ∧
            (code = FAILURE ↔ Exists (λ c, r_result c = "FAIL") results) ∧
            (∀ path, report (global demo_cli) = Some path →
               file w' path = Some (to_string_pretty (document cfg results)))
        | (Err _, code) => code = FAILURE
        end) demo_device.
Proof. exact (exit_code_truth 0 demo_cli demo_device demo_runnable_cli I). Defined.
