(* ===== verification/Options.v ===== *)
(** * The options of the program ([cli.rs])

    What [GlobalArgs] promises its users, option by option, apart from the way
    [Main.global_args] reads them: each option has one long name, one
    environment variable and one key of the config file, the last two derived
    from the first, and a default. *)

From S2P Require Import Prelude RustInt RustStr RustNet Effects Cli Main.

(** ** The names *)

Definition upper (c : ascii) : ascii :=
  let n := N_of_ascii c in
  if ((97 <=? n) && (n <=? 122))%N then ascii_of_N (n - 32) else c.

Fixpoint each_char (f : ascii → ascii) (s : string) : string :=
  match s with
  | EmptyString => EmptyString
  | String c rest => String (f c) (each_char f rest)
  end.

(** [-] is written [_] in variables and keys. *)
Definition underscore (name : string) : string :=
  each_char (λ c, if Ascii.eqb c "-" then "_" else c)%char name.
Definition var_of (name : string) : string := "FWV_" +:+ each_char upper (underscore name).

(** The options that have a variable. *)
Definition option_names : list string :=
  ["mode"; "peer-netns"; "vsoc-cert"; "vsoc-key"; "vsoc-cacert"; "target-iface"; "peer-iface";
   "target-ip"; "peer-ip"; "veth-prefix"; "acd"; "fun-fw"; "fun-traffic"; "reload-timeout-secs";
   "event-settle-ms"; "report-confirm"; "vsoc-url"; "idps-fw"; "state-db"; "app-uid";
   "app-identity-key"; "app-pkg"; "app-name"].

(** ** The values *)

Section reading.
  Variables flags env : string → option string.

(** The value of an option: that of its flag, else that of its variable, else
    its default. *)
Definition reads {A} (parse : string → option A) (name : string) (d : A) (value : A) : Prop :=
  match flags name, env (var_of name) with
  | Some s, _ => parse s = Some value
  | None, Some s => parse s = Some value
  | None, None => value = d
  end.

(** A value taken as it is, and one that may be absent. *)
Definition as_text (s : string) : option string := Some s.
Definition if_any {A} (parse : string → option A) (s : string) : option (option A) :=
  Some <$> parse s.

(** The manual of [GlobalArgs]. *)
Definition options_read (g : GlobalArgs) : Prop :=
  config g = flags "config" ∧
  reads parse_mode "mode" Host (mode g) ∧
  reads as_text "peer-netns" "fwpeer" (peer_netns g) ∧
  reads (if_any as_text) "vsoc-cert" None (vsoc_cert g) ∧
  reads (if_any as_text) "vsoc-key" None (vsoc_key g) ∧
  reads (if_any as_text) "vsoc-cacert" None (vsoc_cacert g) ∧
  reads as_text "target-iface" "fwt0" (target_iface g) ∧
  reads as_text "peer-iface" "fwp0" (peer_iface g) ∧
  reads (if_any parse_ip) "target-ip" None (target_ip g) ∧
  reads (if_any parse_ip) "peer-ip" None (peer_ip g) ∧
  reads (parse_uint 255) "veth-prefix" 24 (veth_prefix g) ∧
  reads parse_i32 "acd" 1 (acd g) ∧
  reads parse_i32 "fun-fw" 1 (fun_fw g) ∧
  reads parse_i32 "fun-traffic" 4 (fun_traffic g) ∧
  reads (parse_uint u64_max) "reload-timeout-secs" 30 (reload_timeout_secs g) ∧
  reads (parse_uint u64_max) "event-settle-ms" 1500 (event_settle_ms g) ∧
  reads parse_confirm "report-confirm" Local (report_confirm g) ∧
  reads (if_any as_text) "vsoc-url" None (vsoc_url g) ∧
  reads as_text "idps-fw" "idps-fw" (idps_fw g) ∧
  reads as_text "state-db" "/data/idd/idps-fw/state.sqlite3" (state_db g) ∧
  reads (parse_uint u32_max) "app-uid" 2000 (app_uid g) ∧
  reads as_text "app-identity-key" "com.demo.browser" (app_identity_key g) ∧
  reads as_text "app-pkg" "com.demo.browser" (app_pkg g) ∧
  reads as_text "app-name" "Browser" (app_name g) ∧
  report g = flags "report" ∧
  (json_flag g = true ↔ is_Some (flags "json")).

Lemma value_or_reads {A} (parse : string → option A) name var d a :
  var = var_of name → value_or flags env parse name var d = Some a ↔ reads parse name d a.
Proof.
  intros ->. unfold value_or, opt_value, given, reads.
  destruct (flags name) as [s|]; [|destruct (env (var_of name)) as [s|]];
    try (destruct (parse s); simpl; by split; intros [= <-] || done).
  simpl. split; congruence.
Qed.

Lemma opt_value_reads {A} (parse : string → option A) name var o :
  var = var_of name → opt_value flags env parse name var = Some o ↔ reads (if_any parse) name None o.
Proof.
  intros ->. unfold opt_value, given, reads.
  destruct (flags name) as [s|]; [|destruct (env (var_of name)) as [s|]]; [done..|].
  split; congruence.
Qed.

Lemma text_reads name var d s :
  var = var_of name → default d (given flags env name var) = s ↔ reads as_text name d s.
Proof.
  intros ->. unfold given, reads, as_text.
  destruct (flags name); [|destruct (env (var_of name))]; simpl; split; congruence.
Qed.

Lemma given_reads name var o :
  var = var_of name → given flags env name var = o ↔ reads (if_any as_text) name None o.
Proof.
  intros ->. unfold given, reads, if_any, as_text.
  destruct (flags name); [|destruct (env (var_of name))]; simpl; split; congruence.
Qed.

End reading.

(** Each field by the lemma of its kind, in either direction. *)
Ltac by_name :=
  try match goal with
  | H : value_or ?f ?e ?p ?n ?var ?d = Some ?v |- reads ?f ?e ?p ?n ?d ?v =>
      exact (proj1 (value_or_reads f e p n var d v eq_refl) H)
  | H : opt_value ?f ?e ?p ?n ?var = Some ?v |- reads ?f ?e (if_any ?p) ?n None ?v =>
      exact (proj1 (opt_value_reads f e p n var v eq_refl) H)
  | |- reads ?f ?e as_text ?n ?d (default ?d (given ?f ?e ?n ?var)) =>
      exact (proj1 (text_reads f e n var d _ eq_refl) eq_refl)
  | |- reads ?f ?e (if_any as_text) ?n None (given ?f ?e ?n ?var) =>
      exact (proj1 (given_reads f e n var _ eq_refl) eq_refl)
  end.
Ltac read_back :=
  repeat match goal with
  | H : reads ?f ?e ?p ?n ?d ?v |- context [value_or ?f ?e ?p ?n ?var ?d] =>
      rewrite (proj2 (value_or_reads f e p n var d v eq_refl) H)
  | H : reads ?f ?e (if_any ?p) ?n None ?v |- context [opt_value ?f ?e ?p ?n ?var] =>
      rewrite (proj2 (opt_value_reads f e p n var v eq_refl) H)
  | H : reads ?f ?e as_text ?n ?d ?v |- context [default ?d (given ?f ?e ?n ?var)] =>
      rewrite (proj2 (text_reads f e n var d v eq_refl) H)
  | H : reads ?f ?e (if_any as_text) ?n None ?v |- context [given ?f ?e ?n ?var] =>
      rewrite (proj2 (given_reads f e n var v eq_refl) H)
  end.

(** C12. The options mean what their names say: [global_args] accepts a command
    line and an environment exactly when every option has an acceptable value,
    and the options are then, field by field, the value of the option's own
    long flag, else of the variable derived from that name ([--app-uid],
    [FWV_APP_UID]), else the option's default; [config], [report] and [json]
    come from their flags alone. A mode and a report confirmation have the
    names the help gives. The config file's key of each option is its
    name with underscores, and sets that very variable. *)
Theorem options_by_name flags env g :
  (global_args flags env = Some g ↔ options_read flags env g) ∧
  (∀ s m, parse_mode s = Some m ↔ s = match m with Android => "android" | Host => "host" end) ∧
  (∀ s c, parse_confirm s = Some c ↔
     s = match c with Local => "local" | Server => "server" | Vsoc => "vsoc" end) ∧
  Forall (λ name, config_key_to_env (underscore name) = Some (var_of name)) option_names.
Proof.
  split; [split|split; [|split; [|by apply (bool_decide_unpack _)]]].
  - unfold global_args. intros Hg.
    repeat (apply bind_Some in Hg as (? & ? & Hg)). cbv zeta in Hg. apply (inj Some) in Hg as <-.
    unfold options_read; cbn. split_and!; by_name; try reflexivity. apply bool_decide_eq_true.
  - intros Hg. destruct g. unfold options_read in Hg; cbn in Hg. destruct_and! Hg.
    unfold global_args. cbv zeta. read_back. cbn [mbind option_bind]. do 2 f_equal; try congruence.
    apply eq_bool_prop_intro. rewrite bool_decide_spec, Is_true_true. by symmetry.
  - intros s m. unfold parse_mode. split; [|intros ->; by destruct m].
    destruct (String.eqb_spec s "android"), (String.eqb_spec s "host"); naive_solver.
  - intros s c. unfold parse_confirm. split; [|intros ->; by destruct c].
    destruct (String.eqb_spec s "local"), (String.eqb_spec s "server"), (String.eqb_spec s "vsoc");
      naive_solver.
Qed.

(** A flag wins over the variable, which wins over the default. *)
Example options_sources :
  global_args (λ n, assoc n [("acd", "7"); ("target-ip", "10.0.0.1")])
              (λ n, assoc n [("FWV_ACD", "8"); ("FWV_FUN_FW", "9")])
  = Some {|
    config := None; mode := Host; peer_netns := "fwpeer"; vsoc_cert := None; vsoc_key := None;
    vsoc_cacert := None; target_iface := "fwt0"; peer_iface := "fwp0";
    target_ip := Some (V4 (ipv4 10 0 0 1)); peer_ip := None; veth_prefix := 24; acd := 7;
    fun_fw := 9; fun_traffic := 4; reload_timeout_secs := 30; event_settle_ms := 1500;
    report_confirm := Local; vsoc_url := None; idps_fw := "idps-fw";
    state_db := "/data/idd/idps-fw/state.sqlite3"; app_uid := 2000;
    app_identity_key := "com.demo.browser"; app_pkg := "com.demo.browser"; app_name := "Browser";
    report := None; json_flag := false |}.
Proof. vm_compute. reflexivity. Qed.
