(* ===== verification/Typing.v ===== *)
(** * Types across the program

    The integers, addresses and durations of the source are in the range of
    their types by construction. In the model they are [Z] and lists, so this
    file shows that the program keeps them there: what the parsers of the
    options ([cli.rs]) and of the worker's arguments ([agent/cli.rs]) accept is
    in range, and so is all that [resolve] and [build_cmd] make of it. The
    hypotheses on arguments that the theorems of the other files have are of
    this kind. *)

From S2P Require Import Prelude RustInt RustStr RustNet Effects Sim Cli AgentCli Exec Config Peer Tally Sockets SimNet Traffic Db Target Provision Catalog Monitor Verify Env AgentNet Agent Report Main.

Definition is_i32 (n : Z) : Prop := - 2147483648 <= n <= 2147483647.
Definition is_i64 (n : Z) : Prop := - 2 ^ 63 <= n <= 2 ^ 63 - 1.
Definition is_u64 : Z → Prop := is_u u64_max.

(** [P] of the value, if there is one. *)
Definition option_all {A} (P : A → Prop) (o : option A) : Prop :=
  match o with Some a => P a | None => True end.

(** ** Well-typed values *)

Definition options_typed (g : GlobalArgs) : Prop :=
  option_all valid_ip (target_ip g) ∧ option_all valid_ip (peer_ip g) ∧
  is_u8 (veth_prefix g) ∧ is_i32 (acd g) ∧ is_i32 (fun_fw g) ∧ is_i32 (fun_traffic g) ∧
  is_u64 (reload_timeout_secs g) ∧ is_u64 (event_settle_ms g) ∧ is_u32 (app_uid g).

Definition config_typed (cfg : RunConfig) : Prop :=
  config_wf cfg ∧ valid_ip (rc_target_ip cfg) ∧ valid_ip (rc_peer_ip cfg) ∧
  is_i32 (rc_acd cfg) ∧ is_i32 (rc_fun_fw cfg) ∧ is_i32 (rc_fun_traffic cfg) ∧
  is_u32 (rc_app_uid cfg).

Definition cmd_typed (cmd : TrafficCmd) (uid : option Z) : Prop :=
  is_Some (parse_proto (proto cmd)) ∧ valid_ip (to cmd) ∧
  option_all is_u16 (dport cmd) ∧ option_all (Forall is_u16) (dports cmd) ∧
  option_all is_u16 (sport cmd) ∧ is_u32 (Peer.count cmd) ∧ is_u64 (timeout_ms cmd) ∧
  is_u64 (interval_ms cmd) ∧ option_all is_u32 uid.

Definition command_typed (command : AgentCommand) : Prop :=
  match command with
  | ProvisionRule a => is_i32 (pa_acd a) ∧ is_i32 (pa_fun a) ∧ is_i32 (pa_prot_ver a) ∧
      option_all is_i32 (pa_ver a)
  | DumpEvents a | ReportStatus a => is_i64 (eq_since a)
  | DumpReports a => is_i64 (rq_since a)
  | Cli.Traffic a => valid_ip (ta_to a) ∧ option_all is_u16 (ta_dport a) ∧
      option_all is_u16 (ta_sport a) ∧ is_u32 (ta_count a) ∧ is_u64 (ta_interval_ms a) ∧
      is_u64 (ta_timeout_ms a) ∧ option_all is_u32 (ta_uid a)
  | Listen a => is_u16 (la_port a) ∧ is_u64 (la_duration_secs a)
  | ConnFlood a => valid_ip (cf_to a) ∧ is_u16 (cf_dport a) ∧ is_u32 (cf_count a) ∧
      is_u64 (cf_hold_secs a) ∧ is_u64 (cf_timeout_ms a)
  | Cli.ArpSpoof a => valid_ipv4 (as_claim_ip a) ∧ is_u32 (as_count a)
  | Now => True
  end.

(** ** The parsers *)

Lemma parse_i32_typed s n : parse_i32 s = Some n → is_i32 n.
Proof.
  unfold parse_i32, is_i32. intros Hp.
  destruct s as [|[[] [] [] [] [] [] [] []] s];
    try (apply parse_uint_range in Hp; lia).
  apply bind_Some in Hp as (m & Hm%parse_digits_range & [= <-]). lia.
Qed.

Lemma parse_i64_typed s n : parse_i64 s = Some n → is_i64 n.
Proof.
  unfold parse_i64, is_i64. intros Hp.
  destruct s as [|[[] [] [] [] [] [] [] []] s];
    try (apply parse_uint_range in Hp; lia).
  apply bind_Some in Hp as (m & Hm%parse_digits_range & [= <-]). lia.
Qed.

Create HintDb typed.
#[local] Hint Resolve parse_i32_typed parse_i64_typed parse_ip_valid
  parse_ipv4_valid : typed.
Ltac uint_typed :=
  first [ match goal with H : parse_uint _ _ = Some _ |- _ => exact (parse_uint_range _ _ _ H) end
        | split; discriminate ].
#[local] Hint Extern 1 (is_u _ _) => uint_typed : typed.
#[local] Hint Extern 1 (is_u64 _) => uint_typed : typed.
#[local] Hint Extern 1 (is_i32 _) => split; discriminate : typed.
#[local] Hint Extern 1 (is_i64 _) => split; discriminate : typed.

Section parsers.
  Context {A : Type} (P : A → Prop) (parse : string → option A)
    (Hparse : ∀ s a, parse s = Some a → P a).

Lemma opt_value_typed flags env name var o :
  opt_value flags env parse name var = Some o → option_all P o.
Proof.
  unfold opt_value. destruct (given _ _ _ _) as [s|]; [|by intros [= <-]].
  destruct (parse s) as [a|] eqn:E; [|done]. intros [= <-]. by eapply Hparse.
Qed.

Lemma value_or_typed flags env name var d a :
  P d → value_or flags env parse name var d = Some a → P a.
Proof.
  unfold value_or. intros Hd. destruct (opt_value _ _ _ _ _) as [o|] eqn:E; [|done].
  apply opt_value_typed in E. intros [= <-]. by destruct o.
Qed.

Lemma opt_arg_typed k m o : opt_arg parse k m = Some o → option_all P o.
Proof.
  unfold opt_arg. destruct (lookup_opt k m.2) as [[s|]|]; [|done|by intros [= <-]].
  destruct (parse s) as [a|] eqn:E; [|done]. intros [= <-]. by eapply Hparse.
Qed.

Lemma default_arg_typed k m d a : P d → default_arg parse k d m = Some a → P a.
Proof.
  unfold default_arg. intros Hd. destruct (opt_arg parse k m) as [o|] eqn:E; [|done].
  apply opt_arg_typed in E. intros [= <-]. by destruct o.
Qed.

Lemma req_arg_typed k m a : req_arg parse k m = Some a → P a.
Proof.
  unfold req_arg. destruct (opt_arg parse k m) as [o|] eqn:E; [|done].
  apply opt_arg_typed in E. simpl. by intros ->.
Qed.

End parsers.

(** Takes a parser written field by field apart, and types each field by its
    parser. *)
Ltac fields H := repeat (apply bind_Some in H as (? & ? & H)).
Ltac typed :=
  repeat match goal with
  | |- _ ∧ _ => split
  | H : opt_arg _ _ _ = Some ?o |- option_all _ ?o =>
      eapply opt_arg_typed; [|exact H]; simpl; eauto with typed
  | H : opt_value _ _ _ _ _ = Some ?o |- option_all _ ?o =>
      eapply opt_value_typed; [|exact H]; simpl; eauto with typed
  | H : default_arg _ _ _ _ = Some ?a |- _ ?a =>
      eapply default_arg_typed; [| |exact H]; simpl; eauto with typed
  | H : default_arg _ _ _ _ = Some ?a |- is_u _ ?a =>
      eapply default_arg_typed; [| |exact H]; simpl; eauto with typed
  | H : value_or _ _ _ _ _ _ = Some ?a |- _ ?a =>
      eapply value_or_typed; [| |exact H]; simpl; eauto with typed
  | H : req_arg _ _ _ = Some ?a |- _ ?a =>
      eapply req_arg_typed; [|exact H]; simpl; eauto with typed
  end.

Lemma global_args_typed flags env g : global_args flags env = Some g → options_typed g.
Proof.
  unfold global_args. intros H. fields H. cbv zeta in H. apply (inj Some) in H as <-.
  unfold options_typed; simpl. typed.
Qed.

Lemma traffic_args_typed m a : traffic_args_of m = Some a → command_typed (Cli.Traffic a).
Proof.
  unfold traffic_args_of. intros H. apply bind_Some in H as (p & _ & H).
  apply bind_Some in H as (t & Ht & H). fields H. apply (inj Some) in H as <-.
  change (req_arg parse_ip "to" m = Some t) in Ht. simpl. typed.
Qed.

Lemma parse_agent_typed `{!Clap} argv cmd : parse_agent argv = Some cmd → command_typed cmd.
Proof.
  unfold parse_agent, parse_traffic. destruct argv as [|name rest]; [done|].
  repeat case_match; intros Hcmd; try done;
    apply fmap_Some in Hcmd as (a & Hcmd & ->); unfold sub_args in Hcmd;
    try (apply bind_Some in Hcmd as (m & _ & Hcmd));
    [unfold provision_args_of in Hcmd|unfold query_args_of in Hcmd|unfold query_args_of in Hcmd
    |by eapply traffic_args_typed|unfold listen_args_of in Hcmd|unfold flood_args_of in Hcmd
    |unfold arp_args_of in Hcmd|unfold report_args_of in Hcmd|exact I];
    fields Hcmd; apply (inj Some) in Hcmd as <-; simpl; typed.
Qed.

(** ** The operations *)

Section operations.
  Context {W : Type} `{!World W, !Anyhow}.

Lemma resolve_ip_typed explicit ep iface role w ip w' :
  option_all valid_ip explicit →
  resolve_ip explicit ep iface role w = Some (Ok ip, w') → valid_ip ip.
Proof.
  unfold resolve_ip. destruct explicit as [e|]; [by intros ? [= <- <-]|].
  intros _ (s & w1 & _ & Hr)%io_try_ok_inv. unfold io_ret in Hr.
  destruct (parse_ip s) eqn:E; simplify_eq. by eapply parse_ip_valid.
Qed.

Lemma resolve_typed g w cfg w' :
  options_typed g → resolve g w = Some (Ok cfg, w') → config_typed cfg.
Proof.
  intros (Ht & Hp & _ & Ha & Hf & Htr & Hr & Hs & Hu) He.
  unfold is_u64, is_u in Hr, Hs.
  pose proof (resolve_wf g w _ w' ltac:(lia) ltac:(lia) He) as Hwf.
  unfold resolve in He. apply io_try_ok_inv in He as (tip & w1 & Htip & He).
  apply io_try_ok_inv in He as (pip & w2 & Hpip & He). unfold io_ret in He.
  apply (inj Some) in He. injection He as <- <-.
  unfold config_typed in *; simpl in *. split_and!; try done.
  - exact (resolve_ip_typed _ _ _ _ _ _ _ Ht Htip).
  - exact (resolve_ip_typed _ _ _ _ _ _ _ Hp Hpip).
Qed.

End operations.

Lemma build_cmd_typed cfg c :
  config_typed cfg → c ∈ all_cases →
  cmd_typed (build_cmd c (flow cfg (fc_origin c)).2) (uid_of cfg c).
Proof.
  intros (_ & Ht & Hp & _ & _ & _ & Hu) Hc.
  assert (case_wf c = true) as Hwf.
  { pose proof all_cases_wf as Hall. rewrite forallb_forall in Hall.
    apply Hall. by apply list_elem_of_In. }
  assert (valid_ip (flow cfg (fc_origin c)).2) as Hto by (by destruct (fc_origin c)).
  assert (option_all is_u32 (uid_of cfg c)) as Huid by (unfold uid_of; by destruct (fc_uid c)).
  set (dst := (flow cfg (fc_origin c)).2) in *. clearbody dst.
  unfold case_wf in Hwf. bool_prop.
  assert (option_all is_u16 (fc_sport c)) as Hsp by (destruct (fc_sport c); [by apply range_u16|done]).
  assert (∀ ds, forallb (λ n, (0 <=? n) && (n <=? 65535)) ds = true → Forall is_u16 ds) as Hds.
  { intros ds Hd. apply list.Forall_forall. intros n Hn. rewrite forallb_forall in Hd.
    apply range_u16, Hd. by apply list_elem_of_In. }
  unfold cmd_typed, build_cmd. destruct (fc_traffic c); cbn; bool_prop;
    split_and!; try done; try (by eexists); try (by apply Hds); try (split; discriminate);
    unfold is_u, u32_max in *; lia.
Qed.

(** Well-typed arguments are all that a worker asks for, apart from room for
    its attempts and fuel for its listening time. *)
Lemma command_typed_ok fuel command :
  command_typed command →
  match command with
  | Cli.Traffic a => ∀ `(Anyhow) ports, traffic_ports a = Ok ports → attempts_of a ports <= u32_max
  | Listen a => secs (la_duration_secs a) <= u64_max ∧
                secs (la_duration_secs a) < Z.of_nat fuel
  | _ => True
  end → command_ok fuel command.
Proof.
  destruct command; simpl; try done; unfold is_u64, is_u, u64_max, secs in *; intros Hty Hb.
  - destruct Hty as (Hto & Hd & Hs & _ & Hi & _). split_and!; [|lia|exact Hb].
    split_and!; [done| |].
    + intros p Hp. by rewrite Hp in Hs.
    + intros p Hp. by rewrite Hp in Hd.
  - split; [lia|]. apply Hb.
  - destruct Hty as (_ & _ & Hc & Hh & _). split; [exact Hc|lia].
  - apply Hty.
Qed.

(** ** Theorem *)

(** What the parsers accept is well typed, and stays so: the options read
    from the command line and the environment are in the ranges of their types;
    a configuration resolved from them is well formed, its addresses, given or
    detected, are addresses and its numbers in range; so are the fields of the
    command built from it for every case of the catalog; and the arguments of
    every worker command, whatever is on its command line. *)
Theorem well_typed {W} `{!World W, !Anyhow, !Clap} flags env g :
  global_args flags env = Some g →
  options_typed g ∧
  (∀ (w : W) cfg w', resolve g w = Some (Ok cfg, w') →
     config_typed cfg ∧
     ∀ c, c ∈ all_cases → cmd_typed (build_cmd c (flow cfg (fc_origin c)).2) (uid_of cfg c)) ∧
  (∀ argv command, parse_agent argv = Some command → command_typed command).
Proof.
  intros Hg. apply global_args_typed in Hg. split; [done|]. split; [|apply parse_agent_typed].
  intros w cfg w' Hr. apply (resolve_typed g w cfg w' Hg) in Hr.
  split; [done|]. intros c. by apply build_cmd_typed.
Qed.

(** The peer's address is given, the target's is detected. *)
Definition typed_env (name : string) : option string :=
  assoc name [("FWV_PEER_IP", "fe80::2"); ("FWV_ACD", "-7"); ("FWV_VETH_PREFIX", "64")].

Lemma well_typed_example :
  ∃ g cfg w', global_args (λ _, None) typed_env = Some g ∧
    resolve g demo_device = Some (Ok cfg, w') ∧
    rc_target_ip cfg = V4 (ipv4 10 123 0 1) ∧
    rc_peer_ip cfg = V6 (ipv6 [65152; 0; 0; 0; 0; 0; 0; 2]) ∧ options_typed g ∧ config_typed cfg.
Proof.
  assert (global_args (λ _, None) typed_env = Some _) as Hg by (vm_compute; reflexivity).
  match type of Hg with _ = Some ?x => set (g := x) in * end.
  assert (resolve g demo_device = Some (Ok _, _)) as Hr by (vm_compute; reflexivity).
  destruct (@well_typed device _ _ simple_clap _ _ g Hg) as (Ho & Hc & _).
  eexists g, _, _. split; [exact Hg|]. split; [exact Hr|].
  split; [reflexivity|]. split; [reflexivity|]. split; [exact Ho|]. exact (proj1 (Hc _ _ _ Hr)).
Defined.
